(** * NiziPOS simulator: the serial transfer engine of [src/App.tsx]

    A shallow embedding of the protocol code of the React Native component
    [App]: the read callback registered by [startReading] (the byte
    classifier), the watchdog of [startTransferTimeoutChecker],
    [abortTransfer], [executeCommand], [pickImage], [removeImage],
    [clearAllImages], [clearImage], [sendImageToDevice] and the image loop
    ([startImageLoop], [displayNextImage], [stopImageLoop]).

    Conventions.
    - A JavaScript string is the list of its UTF-16 code units, a
      [Uint8Array] the list of its bytes; both are [list Z].
    - [useState] cells and [useRef] cells are fields of [State].  A function
      of the component is a closure of one render: the React state it reads
      is the [Render] it was created in, the refs it reads are live.
    - An [await] is a point where other callbacks run; every function that
      awaits takes the events that fire while it is suspended: chunks from
      the device, ticks of the watchdog, the settling of a pending ABORT
      write.  In the transition system [step] a button is pressed between
      operations.  The source does not enforce that: where a property
      needs it the statement says so, and [pickImage] under an older render
      and [displayNextImageResumed] stand for a handler that goes on after
      another one has run.
    - The serial module is known by its calls: what it was asked to write,
      and whether it accepts or rejects a write.  Opening, listing and
      closing devices, and the recovery after a rejected write, are in the
      module [Link], around the state of the transfer engine; the
      module [Relink] has them for a call of [UsbSerial.read] that may
      throw. *)

From Stdlib Require Import ZArith List String Ascii Bool Lia.
From Stdlib Require Import DecimalString DecimalPos Zbitwise.
From stdpp Require Import base list gmap strings.
Import ListNotations.
Open Scope Z_scope.

(** ** JavaScript strings *)

Module Js.

(** A string literal of the source, as code units. *)
Definition lit (s : string) : list Z :=
  List.map (fun a => Z.of_N (N_of_ascii a)) (list_ascii_of_string s).

Definition CR : Z := 13.
Definition LF : Z := 10.

(** [String.prototype.startsWith]. *)
Fixpoint startsWith (p s : list Z) : bool :=
  match p, s with
  | [], _ => true
  | _ :: _, [] => false
  | a :: p', b :: s' => (a =? b) && startsWith p' s'
  end.

(** [String.prototype.includes] with a string argument. *)
Fixpoint includes (p s : list Z) : bool :=
  startsWith p s ||
  match s with
  | [] => false
  | _ :: t => includes p t
  end.

(** [s.replace(p, '')] with a string pattern: the first occurrence of [p] is
    removed, the rest of [s] is kept. *)
Fixpoint removeFirst (p s : list Z) : list Z :=
  if startsWith p s then drop (length p) s
  else match s with
       | [] => []
       | c :: t => c :: removeFirst p t
       end.

(** Prefix a code unit to the first segment of a split. *)
Definition consHead (c : Z) (segs : list (list Z)) : list (list Z) :=
  match segs with
  | [] => [[c]]
  | h :: r => (c :: h) :: r
  end.

(** [s.split(/\r\n|\n/)]: at each position the alternation tries CR LF
    first, then a bare LF.  The result always has at least one segment. *)
Fixpoint splitLines (s : list Z) : list (list Z) :=
  match s with
  | [] => [[]]
  | c :: t =>
      if c =? LF then [] :: splitLines t
      else if c =? CR then
        match t with
        | d :: t' => if d =? LF then [] :: splitLines t'
                     else consHead c (splitLines t)
        | [] => consHead c (splitLines t)
        end
      else consHead c (splitLines t)
  end.

(** The code units removed by [String.prototype.trim]: WhiteSpace and
    LineTerminator of ECMAScript. *)
Definition isWhiteSpace (c : Z) : bool :=
  (c =? 9) || (c =? 10) || (c =? 11) || (c =? 12) || (c =? 13) ||
  (c =? 32) || (c =? 0xA0) || (c =? 0x1680) ||
  ((0x2000 <=? c) && (c <=? 0x200A)) ||
  (c =? 0x2028) || (c =? 0x2029) || (c =? 0x202F) || (c =? 0x205F) ||
  (c =? 0x3000) || (c =? 0xFEFF).

Fixpoint trimStart (s : list Z) : list Z :=
  match s with
  | [] => []
  | c :: t => if isWhiteSpace c then trimStart t else s
  end.

Definition trimEnd (s : list Z) : list Z := rev (trimStart (rev s)).

Definition trim (s : list Z) : list Z := trimEnd (trimStart s).

(** A string is truthy when it is not empty. *)
Definition truthy (s : list Z) : bool :=
  match s with [] => false | _ => true end.

(** [`${n}`] for an integer. *)
Definition ofInt (n : Z) : list Z := lit (NilZero.string_of_int (Z.to_int n)).

Definition isDigit (c : Z) : bool := (48 <=? c) && (c <=? 57).

(** The longest prefix of decimal digits, what a greedy [\d+] consumes. *)
Fixpoint digitRun (s : list Z) : list Z :=
  match s with
  | c :: t => if isDigit c then c :: digitRun t else []
  | [] => []
  end.

(** [Number.parseInt(ds, 10)] on a string of decimal digits. *)
Definition parseDigits (ds : list Z) : Z :=
  fold_left (fun acc c => 10 * acc + (c - 48)) ds 0.

End Js.

(** ** Platform encoders and decoders *)

Module Codec.

(** *** [new TextDecoder().decode(data)]

    The UTF-8 decoder of the Encoding standard, not streaming: every chunk is
    decoded on its own, an incomplete sequence at the end gives U+FFFD. *)

Record Utf8 := mkUtf8 {
  codePoint : Z;
  bytesSeen : Z;
  bytesNeeded : Z;
  lowerBoundary : Z;
  upperBoundary : Z
}.

Definition utf8Init : Utf8 := mkUtf8 0 0 0 0x80 0xBF.

Definition REPLACEMENT : Z := 0xFFFD.

(** A byte read while no sequence is open. *)
Definition utf8Lead (b : Z) : Utf8 * list Z :=
  if b <=? 0x7F then (utf8Init, [b])
  else if (0xC2 <=? b) && (b <=? 0xDF) then
    (mkUtf8 (Z.land b 0x1F) 0 1 0x80 0xBF, [])
  else if (0xE0 <=? b) && (b <=? 0xEF) then
    (mkUtf8 (Z.land b 0xF) 0 2
       (if b =? 0xE0 then 0xA0 else 0x80)
       (if b =? 0xED then 0x9F else 0xBF), [])
  else if (0xF0 <=? b) && (b <=? 0xF4) then
    (mkUtf8 (Z.land b 0x7) 0 3
       (if b =? 0xF0 then 0x90 else 0x80)
       (if b =? 0xF4 then 0x8F else 0xBF), [])
  else (utf8Init, [REPLACEMENT]).

(** One step of the decoder: the new state and the code points emitted.  A
    byte that cannot continue the open sequence closes it with U+FFFD and is
    read again as a lead byte. *)
Definition utf8Step (st : Utf8) (b : Z) : Utf8 * list Z :=
  if bytesNeeded st =? 0 then utf8Lead b
  else if negb ((lowerBoundary st <=? b) && (b <=? upperBoundary st)) then
    let '(st', out) := utf8Lead b in (st', REPLACEMENT :: out)
  else
    let cp := Z.lor (Z.shiftl (codePoint st) 6) (Z.land b 0x3F) in
    if bytesSeen st + 1 =? bytesNeeded st then (utf8Init, [cp])
    else (mkUtf8 cp (bytesSeen st + 1) (bytesNeeded st) 0x80 0xBF, []).

Fixpoint utf8Run (st : Utf8) (bs : list Z) : list Z :=
  match bs with
  | [] => if bytesNeeded st =? 0 then [] else [REPLACEMENT]
  | b :: t => let '(st', out) := utf8Step st b in out ++ utf8Run st' t
  end.

(** The byte order mark is dropped (ignoreBOM is false by default). *)
Definition stripBOM (cps : list Z) : list Z :=
  match cps with
  | c :: t => if c =? 0xFEFF then t else cps
  | [] => []
  end.

(** A code point as UTF-16 code units. *)
Definition utf16 (cp : Z) : list Z :=
  if cp <? 0x10000 then [cp]
  else [0xD800 + Z.shiftr (cp - 0x10000) 10;
        0xDC00 + Z.land (cp - 0x10000) 0x3FF].

Definition textDecode (data : list Z) : list Z :=
  concat (List.map utf16 (stripBOM (utf8Run utf8Init data))).

(** *** [buf.toString('hex')] *)

Definition hexDigit (n : Z) : Z :=
  if n <? 10 then 48 + n else 87 + n.

Definition hexByte (b : Z) : list Z :=
  [hexDigit (Z.shiftr b 4); hexDigit (Z.land b 0xF)].

Definition toHex (bytes : list Z) : list Z := concat (List.map hexByte bytes).

(** *** [DataView.prototype.setUint32(offset, value, true)]

    The four bytes stored for [value], least significant first; the value is
    taken modulo 2^32. *)
Definition uint32LE (value : Z) : list Z :=
  let v := Z.land value 0xFFFFFFFF in
  [Z.land v 0xFF;
   Z.land (Z.shiftr v 8) 0xFF;
   Z.land (Z.shiftr v 16) 0xFF;
   Z.land (Z.shiftr v 24) 0xFF].

(** *** [Buffer.from(text, 'base64')]

    The decoder of the [buffer] package: the text ends at the first [=],
    characters outside the two base64 alphabets are skipped, fewer than two
    characters give an empty buffer, a missing padding is accepted. *)

Definition sextet (c : Z) : option Z :=
  if (65 <=? c) && (c <=? 90) then Some (c - 65)
  else if (97 <=? c) && (c <=? 122) then Some (c - 71)
  else if (48 <=? c) && (c <=? 57) then Some (c + 4)
  else if (c =? 43) || (c =? 45) then Some 62
  else if (c =? 47) || (c =? 95) then Some 63
  else None.

Fixpoint beforePad (s : list Z) : list Z :=
  match s with
  | [] => []
  | c :: t => if c =? 61 then [] else c :: beforePad t
  end.

Fixpoint sextets (s : list Z) : list Z :=
  match s with
  | [] => []
  | c :: t => match sextet c with
              | Some v => v :: sextets t
              | None => sextets t
              end
  end.

Fixpoint quanta (vs : list Z) : list Z :=
  match vs with
  | a :: b :: c :: d :: rest =>
      let n := Z.lor (Z.lor (Z.shiftl a 18) (Z.shiftl b 12))
                     (Z.lor (Z.shiftl c 6) d) in
      Z.land (Z.shiftr n 16) 0xFF :: Z.land (Z.shiftr n 8) 0xFF
        :: Z.land n 0xFF :: quanta rest
  | [a; b; c] =>
      let n := Z.lor (Z.lor (Z.shiftl a 10) (Z.shiftl b 4)) (Z.shiftr c 2) in
      [Z.land (Z.shiftr n 8) 0xFF; Z.land n 0xFF]
  | [a; b] =>
      [Z.land (Z.lor (Z.shiftl a 2) (Z.shiftr b 4)) 0xFF]
  | _ => []
  end.

Definition fromBase64 (text : list Z) : list Z :=
  let vs := sextets (beforePad text) in
  if (Z.of_nat (length vs) <? 2) then [] else quanta vs.

End Codec.

(** ** The component *)

Module App.
Import Js Codec.

Definition FRAME_MAGIC : Z := 0xaa55cc33.
Definition TRANSFER_TIMEOUT : Z := 15000.
Definition MAX_IMAGES : nat := 6.
Definition IMAGE_DISPLAY_INTERVAL : Z := 6000.

Inductive LogType := INFO | ERROR | SUCCESS | SENT | WARNING | TIMEOUT.

(** A monitor entry; its id and timestamp come from the clock and are left
    out. *)
Record LogEntry := mkLog { message : list Z; type : LogType }.

Record UploadedImage := mkImage {
  uri : list Z;
  imageType : option (list Z);
  name : option (list Z);
  base64 : option (list Z)
}.

Record UsbDevice := mkDevice { deviceId : list Z; vendorId : Z }.

(** An asset returned by the image picker; every field may be undefined. *)
Record Asset := mkAsset {
  assetUri : option (list Z);
  assetType : option (list Z);
  fileName : option (list Z);
  assetBase64 : option (list Z)
}.

(** What [launchImageLibrary] answers. *)
Inductive PickerResponse :=
| DidCancel
| PickerError (errorMessage : list Z)
| Picked (assets : option (list Asset))
| PickerThrew (error : list Z).

(** A call of the native serial module that was accepted. *)
Inductive UsbCall :=
| Write (device : list Z) (data : list Z)
| WriteHexString (device : list Z) (hex : list Z).

(** The [useState] cells a closure reads: each render has its own copy. *)
Record Render := mkRender {
  isDeviceConnected : bool;
  uploadedImages : list UploadedImage;
  imageLoopActive : bool;
  commandValues : gmap string (list Z);
  showTimeouts : bool
}.

(** The component between two callbacks.
    - [react]: the current value of the [useState] cells; [logs] is only
      changed through functional updates and kept apart.
    - the [useRef] cells; a timer handle is the closure the timer runs,
      given by the render that created it.
    - [readCallback]: the callback registered with [UsbSerial.read], with
      [messageBuffer], the local variable of [startReading] it appends to.
    - [pendingAborts]: the calls of [abortTransfer] whose write has not
      settled, with the result of the write.
    - [usbCalls]: what the serial module was asked to write, in order;
      [usbError]: the error it rejects a write with, if any. *)
Record State := mkState {
  react : Render;
  logs : list LogEntry;
  deviceRef : option UsbDevice;
  currentImageIndexRef : nat;
  imageLoopIntervalRef : option Render;
  transferInProgressRef : bool;
  transferAbortedRef : bool;
  lastTransferActivityRef : Z;
  transferTimeoutCheckerRef : option Render;
  readCallback : option Render;
  messageBuffer : list Z;
  pendingAborts : list (Render * bool);
  usbCalls : list UsbCall;
  usbError : option (list Z)
}.

Definition setReact (v : Render) (s : State) : State :=
  mkState v (logs s) (deviceRef s) (currentImageIndexRef s)
    (imageLoopIntervalRef s) (transferInProgressRef s) (transferAbortedRef s)
    (lastTransferActivityRef s) (transferTimeoutCheckerRef s) (readCallback s)
    (messageBuffer s) (pendingAborts s) (usbCalls s) (usbError s).

Definition setLogs (v : list LogEntry) (s : State) : State :=
  mkState (react s) v (deviceRef s) (currentImageIndexRef s)
    (imageLoopIntervalRef s) (transferInProgressRef s) (transferAbortedRef s)
    (lastTransferActivityRef s) (transferTimeoutCheckerRef s) (readCallback s)
    (messageBuffer s) (pendingAborts s) (usbCalls s) (usbError s).

Definition setCurrentImageIndex (v : nat) (s : State) : State :=
  mkState (react s) (logs s) (deviceRef s) v
    (imageLoopIntervalRef s) (transferInProgressRef s) (transferAbortedRef s)
    (lastTransferActivityRef s) (transferTimeoutCheckerRef s) (readCallback s)
    (messageBuffer s) (pendingAborts s) (usbCalls s) (usbError s).

Definition setImageLoopInterval (v : option Render) (s : State) : State :=
  mkState (react s) (logs s) (deviceRef s) (currentImageIndexRef s)
    v (transferInProgressRef s) (transferAbortedRef s)
    (lastTransferActivityRef s) (transferTimeoutCheckerRef s) (readCallback s)
    (messageBuffer s) (pendingAborts s) (usbCalls s) (usbError s).

Definition setTransferInProgress (v : bool) (s : State) : State :=
  mkState (react s) (logs s) (deviceRef s) (currentImageIndexRef s)
    (imageLoopIntervalRef s) v (transferAbortedRef s)
    (lastTransferActivityRef s) (transferTimeoutCheckerRef s) (readCallback s)
    (messageBuffer s) (pendingAborts s) (usbCalls s) (usbError s).

Definition setTransferAborted (v : bool) (s : State) : State :=
  mkState (react s) (logs s) (deviceRef s) (currentImageIndexRef s)
    (imageLoopIntervalRef s) (transferInProgressRef s) v
    (lastTransferActivityRef s) (transferTimeoutCheckerRef s) (readCallback s)
    (messageBuffer s) (pendingAborts s) (usbCalls s) (usbError s).

Definition setLastTransferActivity (v : Z) (s : State) : State :=
  mkState (react s) (logs s) (deviceRef s) (currentImageIndexRef s)
    (imageLoopIntervalRef s) (transferInProgressRef s) (transferAbortedRef s)
    v (transferTimeoutCheckerRef s) (readCallback s)
    (messageBuffer s) (pendingAborts s) (usbCalls s) (usbError s).

Definition setMessageBuffer (v : list Z) (s : State) : State :=
  mkState (react s) (logs s) (deviceRef s) (currentImageIndexRef s)
    (imageLoopIntervalRef s) (transferInProgressRef s) (transferAbortedRef s)
    (lastTransferActivityRef s) (transferTimeoutCheckerRef s) (readCallback s)
    v (pendingAborts s) (usbCalls s) (usbError s).

Definition setPendingAborts (v : list (Render * bool)) (s : State) : State :=
  mkState (react s) (logs s) (deviceRef s) (currentImageIndexRef s)
    (imageLoopIntervalRef s) (transferInProgressRef s) (transferAbortedRef s)
    (lastTransferActivityRef s) (transferTimeoutCheckerRef s) (readCallback s)
    (messageBuffer s) v (usbCalls s) (usbError s).

Definition setUsbCalls (v : list UsbCall) (s : State) : State :=
  mkState (react s) (logs s) (deviceRef s) (currentImageIndexRef s)
    (imageLoopIntervalRef s) (transferInProgressRef s) (transferAbortedRef s)
    (lastTransferActivityRef s) (transferTimeoutCheckerRef s) (readCallback s)
    (messageBuffer s) (pendingAborts s) v (usbError s).

(** [setUploadedImages(prev => f(prev))] and [setImageLoopActive(v)]. *)
Definition setUploadedImages (f : list UploadedImage -> list UploadedImage)
    (s : State) : State :=
  let r := react s in
  setReact (mkRender (isDeviceConnected r) (f (uploadedImages r))
              (imageLoopActive r) (commandValues r) (showTimeouts r)) s.

Definition setImageLoopActive (v : bool) (s : State) : State :=
  let r := react s in
  setReact (mkRender (isDeviceConnected r) (uploadedImages r) v
              (commandValues r) (showTimeouts r)) s.

Definition setCommandValues
    (f : gmap string (list Z) -> gmap string (list Z)) (s : State) : State :=
  let r := react s in
  setReact (mkRender (isDeviceConnected r) (uploadedImages r)
              (imageLoopActive r) (f (commandValues r)) (showTimeouts r)) s.

Definition isTimeout (t : LogType) : bool :=
  match t with TIMEOUT => true | _ => false end.

(** [addMonitorEntry]: the new entry goes in front. *)
Definition addMonitorEntry (r : Render) (msg : list Z) (t : LogType)
    (s : State) : State :=
  if isTimeout t && negb (showTimeouts r) then s
  else setLogs (mkLog msg t :: logs s) s.

(** *** Calls that may throw *)

Inductive Outcome (A : Type) :=
| Returned (a : A) (s : State)
| Threw (error : list Z) (s : State).
Arguments Returned {A} a s.
Arguments Threw {A} error s.

Definition M (A : Type) : Type := State -> Outcome A.

Definition ret {A} (a : A) : M A := fun s => Returned a s.
Definition throw {A} (e : list Z) : M A := fun s => Threw e s.
Definition bind {A B} (m : M A) (k : A -> M B) : M B :=
  fun s => match m s with
           | Returned a s' => k a s'
           | Threw e s' => Threw e s'
           end.
Definition tryCatch {A} (m : M A) (handler : list Z -> M A) : M A :=
  fun s => match m s with
           | Returned a s' => Returned a s'
           | Threw e s' => handler e s'
           end.
Definition exec (f : State -> State) : M unit := fun s => Returned tt (f s).
Definition read {A} (f : State -> A) : M A := fun s => Returned (f s) s.

Notation "'let!' x ':=' m 'in' k" := (bind m (fun x => k))
  (at level 10, x name, m at level 100, k at level 200).
Notation "m '>>' k" := (bind m (fun _ => k))
  (at level 90, right associativity).

Definition stateOf {A} (o : Outcome A) : State :=
  match o with Returned _ s => s | Threw _ s => s end.

(** *** Callbacks that fire between the steps of an operation *)

Inductive Event :=
| EvData (data : list Z) (now : Z)
| EvWatchdog (now : Z)
| EvAbortSettled.

(** The message of the TypeError raised by [deviceRef.current.deviceId] when
    the ref holds null. *)
Definition nullDeviceError : list Z :=
  lit "Cannot read property 'deviceId' of null".

(** A write through the serial module, without the wait for its result. *)
Definition usbIssue (call : list Z -> UsbCall) (s : State)
    : Outcome unit :=
  match deviceRef s with
  | None => Threw nullDeviceError s
  | Some d =>
      match usbError s with
      | Some e => Threw e s
      | None => Returned tt (setUsbCalls (usbCalls s ++ [call (deviceId d)]) s)
      end
  end.

(** [abortTransfer] up to its [await]: the ABORT write is issued. *)
Definition abortTransfer (r : Render) (s : State) : State :=
  if transferInProgressRef s && bool_decide (deviceRef s <> None) then
    match usbIssue (fun d => Write d (lit "ABORT" ++ [LF])) s with
    | Returned _ s' => setPendingAborts (pendingAborts s' ++ [(r, true)]) s'
    | Threw _ s' => setPendingAborts (pendingAborts s' ++ [(r, false)]) s'
    end
  else s.

(** [abortTransfer] after its [await]: the oldest pending call finishes. *)
Definition abortTransferSettled (s : State) : State :=
  match pendingAborts s with
  | [] => s
  | (r, written) :: rest =>
      let s1 := setPendingAborts rest s in
      let s2 := if written
                then addMonitorEntry r (lit "Sent abort command") WARNING s1
                else s1 in
      setTransferInProgress false (setTransferAborted true s2)
  end.

(** The first ack byte of a chunk: [Some true] for K, [Some false] for E. *)
Fixpoint findAck (bytes : list Z) : option bool :=
  match bytes with
  | [] => None
  | b :: t => if b =? 75 then Some true
              else if b =? 69 then Some false
              else findAck t
  end.

Definition FRAME_LOST : list Z := lit "FRAME_LOST" ++ [CR; LF].
Definition INVALID_CMD : list Z := lit "INVALID_CMD" ++ [CR; LF].

(** The loop over the complete lines of the read callback. *)
Definition logMessages (r : Render) (messages : list (list Z)) (s : State)
    : State :=
  fold_left
    (fun s msg =>
       if truthy (trim msg)
       then addMonitorEntry r (lit "Received: " ++ trim msg) SUCCESS s
       else s)
    messages s.

(** The text branch of the read callback, statement by statement: the scan
    for the FRAME_LOST sentinel, the scan for the INVALID_CMD sentinel, the
    split into lines. *)
Definition scanFrameLost (r : Render) (s : State) : State :=
  if includes FRAME_LOST (messageBuffer s) then
    let s := addMonitorEntry r (lit "FRAME_LOST detected!") ERROR s in
    let s := setTransferAborted true s in
    let s := if transferInProgressRef s then abortTransfer r s else s in
    setMessageBuffer (removeFirst FRAME_LOST (messageBuffer s)) s
  else s.

Definition scanInvalidCmd (r : Render) (s : State) : State :=
  if includes INVALID_CMD (messageBuffer s) then
    let s := addMonitorEntry r (lit "Received: INVALID_CMD") ERROR s in
    setMessageBuffer (removeFirst INVALID_CMD (messageBuffer s)) s
  else s.

Definition splitAndLog (r : Render) (s : State) : State :=
  let messages := splitLines (messageBuffer s) in
  let s := setMessageBuffer (List.last messages []) s in
  logMessages r (removelast messages) s.

Definition processText (r : Render) (data : list Z) (s : State) : State :=
  let response := textDecode data in
  let s := setMessageBuffer (messageBuffer s ++ response) s in
  let s := scanFrameLost r s in
  let s := scanInvalidCmd r s in
  splitAndLog r s.

(** The callback given to [UsbSerial.read] by [startReading]. *)
Definition onData (r : Render) (data : list Z) (now : Z) (s : State)
    : State :=
  if negb (isDeviceConnected r) then s
  else
    let s :=
      if existsb (Z.eqb 82) data then setLastTransferActivity now s
      else
        match findAck data with
        | Some true =>
            setTransferInProgress false (setLastTransferActivity now s)
        | Some false =>
            setTransferAborted true
              (setTransferInProgress false (setLastTransferActivity now s))
        | None => processText r data s
        end in
    setLastTransferActivity now s.

(** The interval callback of [startTransferTimeoutChecker]. *)
Definition watchdog (r : Render) (now : Z) (s : State) : State :=
  if transferInProgressRef s
     && (TRANSFER_TIMEOUT <? now - lastTransferActivityRef s)
  then abortTransfer r
         (addMonitorEntry r (lit "Transfer timeout - no device response")
            ERROR s)
  else s.

Definition handle (e : Event) (s : State) : State :=
  match e with
  | EvData data now =>
      match readCallback s with
      | Some r => onData r data now s
      | None => s
      end
  | EvWatchdog now =>
      match transferTimeoutCheckerRef s with
      | Some r => watchdog r now s
      | None => s
      end
  | EvAbortSettled => abortTransferSettled s
  end.

Definition run (events : list Event) (s : State) : State :=
  fold_left (fun s e => handle e s) events s.

(** [await UsbSerial.write(...)] and [await UsbSerial.writeHexString(...)]:
    the call is issued, [during] fires while it is pending. *)
Definition usbWrite (data : list Z) (during : list Event) : M unit :=
  fun s => match usbIssue (fun d => Write d data) s with
           | Returned a s' => Returned a (run during s')
           | Threw e s' => Threw e (run during s')
           end.

Definition usbWriteHexString (hex : list Z) (during : list Event) : M unit :=
  fun s => match usbIssue (fun d => WriteHexString d hex) s with
           | Returned a s' => Returned a (run during s')
           | Threw e s' => Threw e (run during s')
           end.

(** [await new Promise(resolve => setTimeout(resolve, ms))]. *)
Definition delay (during : list Event) : M unit := exec (run during).

Definition log (r : Render) (msg : list Z) (t : LogType) : M unit :=
  exec (addMonitorEntry r msg t).

(** *** The two waits of a transfer

    The promise starts a 500 ms timeout and a 10 ms interval.  [polls] gives,
    for every firing of the interval before the timeout, the events that
    came before it; [beforeTimeout] the events after the last of them. *)

Record Wait := mkWait {
  polls : list (list Event);
  beforeTimeout : list Event
}.

Fixpoint pollFlags (ps : list (list Event)) (last : list Event)
    (timeoutMessage : list Z) (s : State) : Outcome unit :=
  match ps with
  | [] => Threw timeoutMessage (run last s)
  | events :: rest =>
      let s := run events s in
      if transferAbortedRef s then Threw (lit "Transfer aborted") s
      else if negb (transferInProgressRef s) then Returned tt s
      else pollFlags rest last timeoutMessage s
  end.

Definition awaitSignal (w : Wait) (timeoutMessage : list Z) : M unit :=
  pollFlags (polls w) (beforeTimeout w) timeoutMessage.

(** What fires during each [await] of [sendImageToDevice]. *)
Record Schedule := mkSchedule {
  duringStart : list Event;
  duringDelay : list Event;
  duringHeader : list Event;
  readyWait : Wait;
  duringPayload : list Event;
  ackWait : Wait
}.

Definition optTruthy (o : option (list Z)) : bool :=
  match o with Some t => truthy t | None => false end.

Definition frameHeader (payloadLength : Z) : list Z :=
  uint32LE FRAME_MAGIC ++ uint32LE payloadLength.

Definition sendImageToDevice (r : Render) (sch : Schedule)
    (imageData : option (list Z)) : M unit :=
  fun s =>
  if negb (isDeviceConnected r) || negb (bool_decide (deviceRef s <> None))
     || negb (optTruthy imageData)
  then Threw (lit "Not connected to device or invalid image data") s
  else
    tryCatch
      (exec (setTransferInProgress true) >>
       exec (setTransferAborted false) >>
       usbWrite (lit "START_RTIMAGE" ++ [LF]) (duringStart sch) >>
       log r (lit "Sent START_RTIMAGE") INFO >>
       delay (duringDelay sch) >>
       let binaryData := fromBase64 (default [] imageData) in
       let header := frameHeader (Z.of_nat (length binaryData)) in
       usbWriteHexString (toHex header) (duringHeader sch) >>
       log r (lit "Sent image header: "
              ++ ofInt (Z.of_nat (length binaryData)) ++ lit " bytes") INFO >>
       awaitSignal (readyWait sch) (lit "Timeout waiting for ready signal") >>
       log r (lit "Device ready for image data") INFO >>
       (let! aborted := read transferAbortedRef in
        if negb aborted then
          usbWriteHexString (toHex binaryData) (duringPayload sch) >>
          log r (lit "Sent image data: "
                 ++ ofInt (Z.of_nat (length binaryData)) ++ lit " bytes") INFO
        else throw (lit "Transfer aborted")) >>
       awaitSignal (ackWait sch) (lit "Timeout waiting for acknowledgment") >>
       log r (lit "Image sent successfully") SUCCESS)
      (fun error =>
         exec (setTransferInProgress false) >>
         throw (lit "Failed to send image: " ++ error))
      s.

(** *** The image loop *)

Definition stopImageLoop (r : Render) (s : State) : State :=
  match imageLoopIntervalRef s with
  | Some _ =>
      addMonitorEntry r (lit "Image loop stopped") INFO
        (setImageLoopActive false (setImageLoopInterval None s))
  | None => s
  end.

(** The message of the TypeError raised by [currentImage.base64] when the
    index is outside the array. *)
Definition undefinedImageError : list Z :=
  lit "Cannot read property 'base64' of undefined".

(** [displayNextImage], a closure of the render [r] in which
    [startImageLoop] ran: [uploadedImages] is the array of that render. *)
Definition displayNextImage (r : Render) (sch : Schedule) (s : State)
    : State :=
  if negb (isDeviceConnected r)
     || bool_decide (length (uploadedImages r) = 0%nat)
  then stopImageLoop r s
  else
    stateOf
      (tryCatch
         (let! index := read currentImageIndexRef in
          let! currentImage :=
            match uploadedImages r !! index with
            | Some image => ret image
            | None => throw undefinedImageError
            end in
          sendImageToDevice r sch (base64 currentImage) >>
          (let! index := read currentImageIndexRef in
           exec (setCurrentImageIndex
                   ((index + 1) mod length (uploadedImages r))%nat)) >>
          (let! index := read currentImageIndexRef in
           log r (lit "Displaying image " ++ ofInt (Z.of_nat index + 1)
                  ++ lit " of "
                  ++ ofInt (Z.of_nat (length (uploadedImages r)))) INFO))
         (fun error =>
            log r (lit "Error in image loop: " ++ error) ERROR >>
            exec (stopImageLoop r))
         s).

(** [displayNextImage] from the return of its awaited [sendImageToDevice]
    on (lines 790-798), in the state found at that moment: the index moves
    on by one, modulo the length of the array of [r], whatever was done to
    the loop while the transfer was under way. *)
Definition displayNextImageResumed (r : Render) (s : State) : State :=
  let index := ((currentImageIndexRef s + 1) mod length (uploadedImages r))%nat in
  addMonitorEntry r
    (lit "Displaying image " ++ ofInt (Z.of_nat index + 1) ++ lit " of "
     ++ ofInt (Z.of_nat (length (uploadedImages r)))) INFO
    (setCurrentImageIndex index s).

Definition startImageLoop (r : Render) (sch : Schedule) (s : State)
    : State :=
  if negb (isDeviceConnected r)
     || bool_decide (length (uploadedImages r) = 0%nat)
  then s
  else
    let s := stopImageLoop r s in
    let s := setCurrentImageIndex 0%nat s in
    let s := setImageLoopActive true s in
    let s := displayNextImage r sch s in
    let s := setImageLoopInterval (Some r) s in
    addMonitorEntry r (lit "Started image loop") INFO s.

(** One firing of the interval set by [startImageLoop]. *)
Definition loopTick (sch : Schedule) (s : State) : State :=
  match imageLoopIntervalRef s with
  | Some r => displayNextImage r sch s
  | None => s
  end.

(** *** Operations behind the buttons *)

(** How an operation that writes to the device ends: it ran to its end, or
    a write failed and it called [handleConnectionError] (close, wait,
    list and open the device again, through the serial module). *)
Inductive Exit :=
| Completed
| Recovering (error : list Z).

(** [commandValue.match(/SCREENTIME\*\*(\d+)/)]: the digits captured at
    the leftmost match, if there is one. *)
Definition SCREENTIME : list Z := lit "SCREENTIME**".

Fixpoint matchScreentime (s : list Z) : option (list Z) :=
  if startsWith SCREENTIME s
     && truthy (digitRun (drop (length SCREENTIME) s))
  then Some (digitRun (drop (length SCREENTIME) s))
  else match s with
       | [] => None
       | _ :: t => matchScreentime t
       end.

Definition executeCommand (r : Render) (commandId : string)
    (during : list Event) (s : State) : Exit * State :=
  if negb (isDeviceConnected r) || negb (bool_decide (deviceRef s <> None))
  then (Completed,
        addMonitorEntry r (lit "Please connect to device first") ERROR s)
  else
    let s :=
      match imageLoopIntervalRef s with
      | Some _ =>
          addMonitorEntry r (lit "Image loop stopped due to new command") INFO
            (setImageLoopActive false (setImageLoopInterval None s))
      | None => s
      end in
    let commandValue := trim <$> (commandValues r !! commandId) in
    if negb (optTruthy commandValue)
    then (Completed, addMonitorEntry r (lit "Command cannot be empty") ERROR s)
    else
      let commandValue := default [] commandValue in
      let send :=
        match
          (usbWrite (commandValue ++ [LF]) during >>
           log r (lit "Sent command: " ++ commandValue) SENT) s
        with
        | Returned _ s' => (Completed, s')
        | Threw error s' =>
            (Recovering error,
             addMonitorEntry r (lit "Command error: " ++ error) ERROR s')
        end in
      if String.eqb commandId "screentimeCommand" then
        match matchScreentime commandValue with
        | None =>
            (Completed,
             addMonitorEntry r
               (lit "Invalid SCREENTIME format. Use SCREENTIME**<seconds>")
               ERROR s)
        | Some digits =>
            let timeValue := parseDigits digits in
            if (timeValue <? 30) || (300 <? timeValue)
            then (Completed,
                  addMonitorEntry r
                    (lit "Screen time must be between 30 and 300 seconds")
                    ERROR s)
            else send
        end
      else send.

Definition updateCommandValue (id : string) (value : list Z) (s : State)
    : State :=
  setCommandValues (fun prev => <[id := value]> prev) s.

(** [x || ''] and [x || null] on an optional string. *)
Definition orEmpty (o : option (list Z)) : list Z := default [] o.
Definition orNull (o : option (list Z)) : option (list Z) :=
  match o with
  | Some (c :: t) => Some (c :: t)
  | _ => None
  end.

Definition toUploadedImage (asset : Asset) : UploadedImage :=
  mkImage (orEmpty (assetUri asset)) (orNull (assetType asset))
    (orNull (fileName asset)) (orNull (assetBase64 asset)).

(** The [selectionLimit] option with which [pickImage] opens the picker. *)
Definition selectionLimit (r : Render) : Z :=
  Z.of_nat MAX_IMAGES - Z.of_nat (length (uploadedImages r)).

(** [pickImage]; [response] is the answer of the picker, opened with
    [selectionLimit]. *)
Definition pickImage (r : Render) (response : PickerResponse) (s : State)
    : State :=
  if negb (isDeviceConnected r)
  then addMonitorEntry r (lit "Please connect to device first") ERROR s
  else
    match response with
    | PickerThrew error =>
        addMonitorEntry r (lit "Error picking image: " ++ error) ERROR s
    | DidCancel => s
    | PickerError errorMessage =>
        addMonitorEntry r (lit "Image picker error: " ++ errorMessage) ERROR s
    | Picked None => s
    | Picked (Some []) => s
    | Picked (Some assets) =>
        let newImages := List.map toUploadedImage assets in
        if (MAX_IMAGES <? length (uploadedImages r) + length newImages)%nat
        then
          addMonitorEntry r
            (lit "Cannot add " ++ ofInt (Z.of_nat (length newImages))
             ++ lit " images. Maximum " ++ ofInt (Z.of_nat MAX_IMAGES)
             ++ lit " images allowed.") ERROR s
        else
          addMonitorEntry r
            (lit "Added " ++ ofInt (Z.of_nat (length newImages))
             ++ lit " image(s). Total images: "
             ++ ofInt (Z.of_nat (length (uploadedImages r)
                                 + length newImages))) SUCCESS
            (setUploadedImages (fun prev => prev ++ newImages) s)
    end.

(** [removeImage]: [splice(index, 1)] on a copy of the current array. *)
Definition removeImage (r : Render) (index : nat) (s : State) : State :=
  let s := setUploadedImages (fun prev => delete index prev) s in
  if imageLoopActive r && (length (uploadedImages r) <=? 1)%nat
  then stopImageLoop r s
  else s.

Definition clearAllImages (r : Render) (during : list Event) (s : State)
    : Exit * State :=
  if negb (isDeviceConnected r) || negb (bool_decide (deviceRef s <> None))
  then (Completed, addMonitorEntry r (lit "Not connected to device") ERROR s)
  else
    match
      (exec (stopImageLoop r) >>
       exec (setUploadedImages (fun _ => [])) >>
       usbWrite (lit "CLEAR_IMAGE" ++ [LF]) during >>
       log r (lit "Cleared all images") SUCCESS) s
    with
    | Returned _ s' => (Completed, s')
    | Threw error s' =>
        (Recovering error,
         addMonitorEntry r (lit "Error clearing images: " ++ error) ERROR s')
    end.

Definition clearImage (r : Render) (duringWrite duringDelay : list Event)
    (s : State) : Exit * State :=
  if negb (isDeviceConnected r) || negb (bool_decide (deviceRef s <> None))
  then (Completed, addMonitorEntry r (lit "Not connected to device") ERROR s)
  else
    match
      (usbWrite (lit "CLEAR_IMAGE" ++ [LF]) duringWrite >>
       log r (lit "Sent clear image command") INFO >>
       delay duringDelay >>
       exec (setTransferInProgress false) >>
       exec (setTransferAborted false) >>
       log r (lit "Image cleared successfully") SUCCESS) s
    with
    | Returned _ s' => (Completed, s')
    | Threw error s' =>
        (Recovering error,
         addMonitorEntry r (lit "Error clearing image: " ++ error) ERROR s')
    end.

(** *** The component as a transition system

    A callback fires, a timer of the image loop fires, or a button is pressed.
    In [step] the handler of a button is a closure of the render on screen,
    which shows the current React state, and every handler and every round
    of the loop runs to its end before the next action: during its awaits
    only the events it is given (device chunks, watchdog ticks, settled
    aborts) are handled.  The source does not enforce this.  A button can be
    pressed while a transfer, a write or the picker is awaited, and the
    handler suspended there goes on later with the closure of its own
    render: [pickImage] applied with an older render and
    [displayNextImageResumed] stand for such runs, and the properties say
    which of them depend on the order of [step]. *)

Inductive Action :=
| Callback (e : Event)
| LoopTick (sch : Schedule)
| TypeCommand (id : string) (value : list Z)
| PressSend (commandId : string) (during : list Event)
| PressPick (response : PickerResponse)
| PressRemove (index : nat)
| PressClearAll (during : list Event)
| PressClearImage (duringWrite duringDelay : list Event)
| PressStartLoop (sch : Schedule)
| PressStopLoop.

Definition step (a : Action) (s : State) : State :=
  let r := react s in
  match a with
  | Callback e => handle e s
  | LoopTick sch => loopTick sch s
  | TypeCommand id value => updateCommandValue id value s
  | PressSend commandId during => snd (executeCommand r commandId during s)
  | PressPick response => pickImage r response s
  | PressRemove index => removeImage r index s
  | PressClearAll during => snd (clearAllImages r during s)
  | PressClearImage duringWrite duringDelay =>
      snd (clearImage r duringWrite duringDelay s)
  | PressStartLoop sch => startImageLoop r sch s
  | PressStopLoop => stopImageLoop r s
  end.

Definition steps (actions : list Action) (s : State) : State :=
  fold_left (fun s a => step a s) actions s.

End App.

(** * Vocabulary of the properties *)

Module Props.
Import Js Codec App.

(** [steady s s']: from [s] to [s'] the device handle, the transport, the
    React state, the registered callbacks and the loop refs are the same, and
    the serial module was only asked for more writes. *)
Record steady (s s' : State) : Prop := mkSteady {
  steady_device : deviceRef s' = deviceRef s;
  steady_error : usbError s' = usbError s;
  steady_react : react s' = react s;
  steady_reader : readCallback s' = readCallback s;
  steady_checker : transferTimeoutCheckerRef s' = transferTimeoutCheckerRef s;
  steady_index : currentImageIndexRef s' = currentImageIndexRef s;
  steady_interval : imageLoopIntervalRef s' = imageLoopIntervalRef s;
  steady_calls : exists more, usbCalls s' = usbCalls s ++ more
}.

(** A computation keeps a relation on states when every run of it, ending
    normally or not, relates the state it started in to the state it ended
    in. *)
Definition keeps (R : State -> State -> Prop) {A} (m : M A) : Prop :=
  forall s, R s (stateOf (m s)).

Definition steadyM {A} (m : M A) : Prop := keeps steady m.

(** The state in which a transfer starts waiting for the ready signal, when
    both writes are accepted. *)
Definition afterHeader (r : Render) (sch : Schedule) (payload : list Z)
    (d : UsbDevice) (s : State) : State :=
  let s := setTransferAborted false (setTransferInProgress true s) in
  let s := run (duringStart sch)
             (setUsbCalls
                (usbCalls s ++ [Write (deviceId d) (lit "START_RTIMAGE" ++ [LF])])
                s) in
  let s := addMonitorEntry r (lit "Sent START_RTIMAGE") INFO s in
  let s := run (duringDelay sch) s in
  let header := frameHeader (Z.of_nat (length payload)) in
  let s := run (duringHeader sch)
             (setUsbCalls
                (usbCalls s ++ [WriteHexString (deviceId d) (toHex header)]) s) in
  addMonitorEntry r
    (lit "Sent image header: " ++ ofInt (Z.of_nat (length payload))
     ++ lit " bytes") INFO s.

(** What [sendImageToDevice] does from the ready wait on. *)
Definition fromReadyWait (r : Render) (sch : Schedule) (payload : list Z)
    : M unit :=
  tryCatch
    (awaitSignal (readyWait sch) (lit "Timeout waiting for ready signal") >>
     log r (lit "Device ready for image data") INFO >>
     (let! aborted := read transferAbortedRef in
      if negb aborted then
        usbWriteHexString (toHex payload) (duringPayload sch) >>
        log r (lit "Sent image data: "
               ++ ofInt (Z.of_nat (length payload)) ++ lit " bytes") INFO
      else throw (lit "Transfer aborted")) >>
     awaitSignal (ackWait sch) (lit "Timeout waiting for acknowledgment") >>
     log r (lit "Image sent successfully") SUCCESS)
    (fun error =>
       exec (setTransferInProgress false) >>
       throw (lit "Failed to send image: " ++ error)).

(** The number a list of bytes stands for, least significant byte first. *)
Definition leValue (bytes : list Z) : Z :=
  fold_right (fun b acc => b + 256 * acc) 0 bytes.

Definition isByte (b : Z) : Prop := 0 <= b < 256.

(** Reading hexadecimal text back, in either case. *)
Definition hexValue (c : Z) : option Z :=
  if (48 <=? c) && (c <=? 57) then Some (c - 48)
  else if (97 <=? c) && (c <=? 102) then Some (c - 87)
  else if (65 <=? c) && (c <=? 70) then Some (c - 55)
  else None.

Fixpoint fromHex (text : list Z) : option (list Z) :=
  match text with
  | [] => Some []
  | hi :: lo :: rest =>
      match hexValue hi, hexValue lo, fromHex rest with
      | Some h, Some l, Some bytes => Some (16 * h + l :: bytes)
      | _, _, _ => None
      end
  | [_] => None
  end.

(** A chunk in which the read callback finds the ready byte 'R'. *)
Definition isReady (e : Event) : bool :=
  match e with
  | EvData data _ => existsb (Z.eqb 82) data
  | _ => false
  end.

(** [unmoved s s']: the transfer flags, the pending aborts and the calls of the
    serial module are the same in [s] and [s']. *)
Record unmoved (s s' : State) : Prop := mkUnmoved {
  unmoved_inProgress : transferInProgressRef s' = transferInProgressRef s;
  unmoved_aborted : transferAbortedRef s' = transferAbortedRef s;
  unmoved_pending : pendingAborts s' = pendingAborts s;
  unmoved_calls : usbCalls s' = usbCalls s
}.

(** Schedules in which only ready chunks arrive up to the end of the ready
    wait. *)
Definition onlyReadySignals (sch : Schedule) : Prop :=
  Forall (fun e => isReady e = true) (duringStart sch)
  /\ Forall (fun e => isReady e = true) (duringDelay sch)
  /\ Forall (fun e => isReady e = true) (duringHeader sch)
  /\ Forall (Forall (fun e => isReady e = true)) (polls (readyWait sch))
  /\ Forall (fun e => isReady e = true) (beforeTimeout (readyWait sch)).

(** [atRest s s']: no transfer is in progress and no abort is pending in
    [s'], the serial module saw no new call since [s], and the aborted flag
    was not taken back. *)
Record atRest (s s' : State) : Prop := mkAtRest {
  atRest_inProgress : transferInProgressRef s' = false;
  atRest_pending : pendingAborts s' = [];
  atRest_calls : usbCalls s' = usbCalls s;
  atRest_aborted : transferAbortedRef s = true -> transferAbortedRef s' = true
}.

(** [sameImages s s']: the uploaded images are the same. *)
Definition sameImages (s s' : State) : Prop :=
  uploadedImages (react s') = uploadedImages (react s).

(** [loopKept s s']: the active index is the same and the interval of the
    loop is the same or was cleared. *)
Definition loopKept (s s' : State) : Prop :=
  currentImageIndexRef s' = currentImageIndexRef s
  /\ (imageLoopIntervalRef s' = imageLoopIntervalRef s
      \/ imageLoopIntervalRef s' = None).

(** [tame s s']: both. *)
Definition tame (s s' : State) : Prop := sameImages s s' /\ loopKept s s'.

(** The index stays inside the array captured by the running loop. *)
Definition loopInBounds (s : State) : Prop :=
  forall r, imageLoopIntervalRef s = Some r ->
            (currentImageIndexRef s < length (uploadedImages r))%nat.

(** What each step does to the image list: at most [MAX_IMAGES] stay at most
    [MAX_IMAGES]. *)
Definition withinLimit (s : State) : Prop :=
  (length (uploadedImages (react s)) <= MAX_IMAGES)%nat.

(** The complete lines of a buffer and what is left after the last line end. *)
Definition completeLines (s : list Z) : list (list Z) :=
  removelast (splitLines s).
Definition lastSegment (s : list Z) : list Z := List.last (splitLines s) [].

(** A chunk without a signal byte: no 'R', no 'K', no 'E'. *)
Definition noSignal (data : list Z) : Prop :=
  existsb (Z.eqb 82) data = false /\ findAck data = None.

(** [p] occurs in [s] at offset [n] and at no smaller offset. *)
Definition firstAt (p s : list Z) (n : nat) : Prop :=
  startsWith p (drop n s) = true
  /\ forall k, (k < n)%nat -> startsWith p (drop k s) = false.

(** The monitor entries written for complete lines, first line first. *)
Definition received (lines : list (list Z)) : list LogEntry :=
  List.map (fun m => mkLog (lit "Received: " ++ trim m) SUCCESS)
    (List.filter (fun m => truthy (trim m)) lines).

(** The open sequence of a decoder state can only end in a code point of
    0x80 or more. *)
Definition openSequenceHigh (st : Utf8) : Prop :=
  bytesNeeded st = 0
  \/ (0x80 <= lowerBoundary st /\ upperBoundary st <= 0xBF
      /\ 0 <= codePoint st
      /\ ((bytesNeeded st - bytesSeen st = 1 /\ 2 <= codePoint st)
          \/ (bytesNeeded st - bytesSeen st = 2
              /\ (1 <= codePoint st \/ 0xA0 <= lowerBoundary st))
          \/ (bytesNeeded st - bytesSeen st = 3
              /\ (1 <= codePoint st \/ 0x90 <= lowerBoundary st)))).

Definition sameOrHigh (b c : Z) : Prop := c = b \/ 0x80 <= c.

(** The buffer holds no 'R'. *)
Definition noReadyByte (buffer : list Z) : Prop := ~ In 82 buffer.

(** ** A bench

    One CH341 device on an open channel, three uploaded images of three bytes
    each, the read callback and the watchdog registered by a connected
    render, nothing in progress. *)

Definition benchDevice : UsbDevice := mkDevice (lit "1002") 0x1a86.

Definition benchImage (file base64Text : string) : UploadedImage :=
  mkImage (lit "file:///" ++ lit file) (Some (lit "image/png"))
    (Some (lit file)) (Some (lit base64Text)).

Definition img0 : UploadedImage := benchImage "img0.png" "AAAA".
Definition img1 : UploadedImage := benchImage "img1.png" "AQID".
Definition img2 : UploadedImage := benchImage "img2.png" "BAUG".

Definition benchRender : Render :=
  mkRender true [img0; img1; img2] false
    {[ "screentimeCommand"%string := lit "SCREENTIME**60" ]} false.

Definition bench : State :=
  mkState benchRender [] (Some benchDevice) 0 None false false 0
    (Some benchRender) (Some benchRender) [] [] [] None.

(** The bench with another screen time typed in. *)
Definition benchScreentime (value : string) : State :=
  updateCommandValue "screentimeCommand" (lit value) bench.

(** A wait in which nothing arrives: 49 polls, then the timeout. *)
Definition silence : Wait := mkWait (replicate 49 []) [].

(** A wait in which one chunk with the given bytes arrives before the first
    poll, and nothing after it. *)
Definition chunkThenSilence (data : list Z) (now : Z) : Wait :=
  mkWait ([EvData data now] :: replicate 48 []) [].

(** A transfer during whose waits only the given chunk arrives, in the ready
    wait. *)
Definition scheduleWith (data : list Z) : Schedule :=
  mkSchedule [] [] [] (chunkThenSilence data 1010) [] silence.


(** The bench with a transfer in progress since time 0. *)
Definition busy : State := setTransferInProgress true bench.

(** The loop was started on the bench and has sent img0 and img1 (each
    transfer is acknowledged with 'K' during its ready wait); then img1 is
    removed; then the interval fires again. *)
Definition afterTwoRounds : State :=
  steps [PressStartLoop (scheduleWith [75]); LoopTick (scheduleWith [75])]
    bench.
Definition afterRemoval : State := step (PressRemove 1) afterTwoRounds.
Definition afterNextRound : State :=
  step (LoopTick (scheduleWith [75])) afterRemoval.

(** Four freshly picked assets. *)
Definition pickedAsset : Asset :=
  mkAsset (Some (lit "file:///new.png")) (Some (lit "image/png"))
    (Some (lit "new.png")) (Some (lit "AAAA")).

End Props.

(** * The connection to the device

    [handleConnection], [connectToDevice], [connectToSelectedDevice],
    [disconnectDevice], [startReading], [startTransferTimeoutChecker] and
    [handleConnectionError], the press on a device of the selector, the
    table of commands, and what the mount effect does and cleans up.  The
    serial module is known by the calls made to it ([serialCalls]) and by
    its answers, which are given to each operation: what it lists, whether
    it opens, whether it closes.  In this module [UsbSerial.read] stores the
    callback, in place of the one stored before, and returns.  The [catch] of
    [startReading], for a registration that throws, is in the module
    [Relink] below, which has the same functions with the answer of
    [UsbSerial.read] as one more argument. *)

Module Link.
Import Js Codec App.

Inductive Reply (A : Type) :=
| Resolved (a : A)
| Rejected (error : list Z).
Arguments Resolved {A} a.
Arguments Rejected {A} error.

(** The options given to [UsbSerial.open]; [baudRate] is [None] for NaN. *)
Record OpenOptions := mkOpenOptions {
  baudRate : option Z;
  dataBits : Z;
  stopBits : Z;
  parity : list Z;
  dtr : bool;
  rts : bool
}.

Inductive SerialCall :=
| ListDevices
| OpenPort (device : list Z) (options : OpenOptions)
| ClosePort (device : list Z)
| ReadFrom (device : list Z).

(** The component with the state of the connection panel around the state
    of the transfer engine. *)
Record Shell := mkShell {
  core : State;
  isConnecting : bool;
  selectedBaudRate : list Z;
  deviceSelectorVisible : bool;
  availableDevices : list UsbDevice;
  serialCalls : list SerialCall
}.

Definition withCore (f : State -> State) (sh : Shell) : Shell :=
  mkShell (f (core sh)) (isConnecting sh) (selectedBaudRate sh)
    (deviceSelectorVisible sh) (availableDevices sh) (serialCalls sh).

Definition setIsConnecting (v : bool) (sh : Shell) : Shell :=
  mkShell (core sh) v (selectedBaudRate sh) (deviceSelectorVisible sh)
    (availableDevices sh) (serialCalls sh).

Definition setDeviceSelectorVisible (v : bool) (sh : Shell) : Shell :=
  mkShell (core sh) (isConnecting sh) (selectedBaudRate sh) v
    (availableDevices sh) (serialCalls sh).

Definition setAvailableDevices (v : list UsbDevice) (sh : Shell) : Shell :=
  mkShell (core sh) (isConnecting sh) (selectedBaudRate sh)
    (deviceSelectorVisible sh) v (serialCalls sh).

Definition called (call : SerialCall) (sh : Shell) : Shell :=
  mkShell (core sh) (isConnecting sh) (selectedBaudRate sh)
    (deviceSelectorVisible sh) (availableDevices sh) (serialCalls sh ++ [call]).

Definition setDeviceRef (v : option UsbDevice) (s : State) : State :=
  mkState (react s) (logs s) v (currentImageIndexRef s)
    (imageLoopIntervalRef s) (transferInProgressRef s) (transferAbortedRef s)
    (lastTransferActivityRef s) (transferTimeoutCheckerRef s) (readCallback s)
    (messageBuffer s) (pendingAborts s) (usbCalls s) (usbError s).

Definition setTransferTimeoutChecker (v : option Render) (s : State) : State :=
  mkState (react s) (logs s) (deviceRef s) (currentImageIndexRef s)
    (imageLoopIntervalRef s) (transferInProgressRef s) (transferAbortedRef s)
    (lastTransferActivityRef s) v (readCallback s)
    (messageBuffer s) (pendingAborts s) (usbCalls s) (usbError s).

Definition setReadCallback (v : option Render) (s : State) : State :=
  mkState (react s) (logs s) (deviceRef s) (currentImageIndexRef s)
    (imageLoopIntervalRef s) (transferInProgressRef s) (transferAbortedRef s)
    (lastTransferActivityRef s) (transferTimeoutCheckerRef s) v
    (messageBuffer s) (pendingAborts s) (usbCalls s) (usbError s).

Definition setIsDeviceConnected (v : bool) (s : State) : State :=
  let r := react s in
  setReact (mkRender v (uploadedImages r) (imageLoopActive r)
              (commandValues r) (showTimeouts r)) s.

(** What a function of the component sees of the React state: the render it
    was created in. *)
Record Closure := mkClosure {
  view : Render;
  seenConnecting : bool;
  seenBaudRate : list Z
}.

Definition closureOf (sh : Shell) : Closure :=
  mkClosure (react (core sh)) (isConnecting sh) (selectedBaudRate sh).

(** [Number.parseInt(text, 10)]: leading white space, a sign, then decimal
    digits; [None] is NaN. *)
Definition parseInt (text : list Z) : option Z :=
  let t := trimStart text in
  let '(sign, rest) :=
    match t with
    | 45 :: r => (-1, r)
    | 43 :: r => (1, r)
    | _ => (1, t)
    end in
  match digitRun rest with
  | [] => None
  | ds => Some (sign * parseDigits ds)
  end.

(** [`${n}`] for a number that may be NaN. *)
Definition ofNumber (n : option Z) : list Z :=
  match n with
  | Some v => ofInt v
  | None => lit "NaN"
  end.

Inductive Result (A : Type) :=
| Done (a : A) (sh : Shell)
| Failed (error : list Z) (sh : Shell).
Arguments Done {A} a sh.
Arguments Failed {A} error sh.

Definition shellOf {A} (o : Result A) : Shell :=
  match o with Done _ sh => sh | Failed _ sh => sh end.

(** The answers of the serial module to one press of the connection button
    or one recovery, and the callbacks that fire during each [await]. *)
Record Answers := mkAnswers {
  closing : Reply unit;
  duringClose : list Event;
  duringPause : list Event;
  listing : Reply (list UsbDevice);
  duringList : list Event;
  opening : Reply unit;
  duringOpen : list Event
}.

Definition note (c : Closure) (msg : list Z) (t : LogType) (sh : Shell)
    : Shell :=
  withCore (addMonitorEntry (view c) msg t) sh.

(** [startTransferTimeoutChecker]: the interval replaces the one that was
    set. *)
Definition startTransferTimeoutChecker (c : Closure) (s : State) : State :=
  setTransferTimeoutChecker (Some (view c)) s.

(** [startReading] for a call of [UsbSerial.read] that returns (lines
    366-440; the [catch] of lines 441-444 is in [Relink.startReading]):
    [isDeviceConnected] is that of the render the function belongs to; the
    callback starts with an empty [messageBuffer]. *)
Definition startReading (c : Closure) (sh : Shell) : Shell :=
  match deviceRef (core sh) with
  | None => sh
  | Some device =>
      if negb (isDeviceConnected (view c)) then sh
      else
        withCore
          (fun s =>
             startTransferTimeoutChecker c
               (setMessageBuffer [] (setReadCallback (Some (view c)) s)))
          (called (ReadFrom (deviceId device)) sh)
  end.

Definition connectToSelectedDevice (c : Closure) (device : UsbDevice)
    (a : Answers) (sh : Shell) : Result bool :=
  let sh := note c (lit "Attempting to open port at " ++ seenBaudRate c
                    ++ lit " baud...") INFO sh in
  let baudRate := parseInt (seenBaudRate c) in
  let sh := withCore (setDeviceRef (Some device)) sh in
  let sh := called (OpenPort (deviceId device)
                      (mkOpenOptions baudRate 8 1 (lit "none") true true)) sh in
  let sh := withCore (run (duringOpen a)) sh in
  match opening a with
  | Resolved _ =>
      let sh := withCore (setIsDeviceConnected true) sh in
      let sh := note c (lit "Connected to device at " ++ ofNumber baudRate
                        ++ lit " baud") SUCCESS sh in
      Done true (startReading c sh)
  | Rejected error =>
      Failed (lit "Connection failed: " ++ error)
        (withCore (setDeviceRef None) sh)
  end.

Definition connectToDevice (c : Closure) (a : Answers) (sh : Shell)
    : Result bool :=
  let sh := note c (lit "Checking for CH341 devices...") INFO sh in
  let sh := withCore (run (duringList a)) (called ListDevices sh) in
  match listing a with
  | Rejected error => Failed (lit "Failed to list devices: " ++ error) sh
  | Resolved devices =>
      let ch341Devices :=
        List.filter (fun device => vendorId device =? 0x1a86) devices in
      match ch341Devices with
      | [] => Done false (note c (lit "No CH341 devices found") ERROR sh)
      | [device] =>
          match connectToSelectedDevice c device a sh with
          | Done connected sh => Done connected sh
          | Failed error sh =>
              Failed (lit "Failed to list devices: " ++ error) sh
          end
      | _ =>
          Done false
            (setDeviceSelectorVisible true
               (setAvailableDevices ch341Devices sh))
      end
  end.

Definition disconnectDevice (c : Closure) (showMessages : bool) (a : Answers)
    (sh : Shell) : Result unit :=
  let sh := if showMessages then note c (lit "Disconnecting...") INFO sh
            else sh in
  let sh :=
    match imageLoopIntervalRef (core sh) with
    | Some _ =>
        withCore (fun s => setImageLoopActive false
                             (setImageLoopInterval None s)) sh
    | None => sh
    end in
  let finish (sh : Shell) : Result unit :=
    let sh := withCore (setIsDeviceConnected false) sh in
    Done tt (if showMessages then note c (lit "Disconnected") SUCCESS sh
             else sh) in
  match deviceRef (core sh) with
  | Some device =>
      let sh := withCore (run (duringClose a))
                  (called (ClosePort (deviceId device)) sh) in
      match closing a with
      | Resolved _ => finish (withCore (setDeviceRef None) sh)
      | Rejected error =>
          Failed error (note c (lit "Disconnect error: " ++ error) ERROR sh)
      end
  | None => finish sh
  end.

Definition handleConnectionError (c : Closure) (error : list Z)
    (a : Answers) (sh : Shell) : bool * Shell :=
  let sh := note c (lit "Connection error: " ++ error) ERROR sh in
  let failed (recoveryError : list Z) (sh : Shell) : bool * Shell :=
    (false,
     note c (lit "Failed to recover connection: " ++ recoveryError) ERROR sh) in
  match disconnectDevice c false a sh with
  | Failed recoveryError sh => failed recoveryError sh
  | Done _ sh =>
      let sh := withCore (run (duringPause a)) sh in
      match connectToDevice c a sh with
      | Failed recoveryError sh => failed recoveryError sh
      | Done true sh =>
          (true, note c (lit "Successfully recovered connection") SUCCESS sh)
      | Done false sh => (false, sh)
      end
  end.

Definition handleConnection (c : Closure) (a : Answers) (sh : Shell)
    : Shell :=
  if seenConnecting c then sh
  else
    let sh := setIsConnecting true sh in
    let attempt :=
      if negb (isDeviceConnected (view c))
      then match connectToDevice c a sh with
           | Done _ sh => Done tt sh
           | Failed error sh => Failed error sh
           end
      else disconnectDevice c true a sh in
    let sh :=
      match attempt with
      | Done _ sh => sh
      | Failed error sh => note c (lit "Connection error: " ++ error) ERROR sh
      end in
    setIsConnecting false sh.

(** A device is chosen in the selector. *)
Definition chooseDevice (c : Closure) (device : UsbDevice) (a : Answers)
    (sh : Shell) : Result bool :=
  connectToSelectedDevice c device a (setDeviceSelectorVisible false sh).

(** ** The commands of the panel *)

Record Command := mkCommand {
  id : string;
  label : string;
  value : string;
  placeholder : string
}.

Definition commands : list Command :=
  [mkCommand "logoCommand" "Display Logo" "IDLE" "FSREAD**test.txt";
   mkCommand "textDisplayCommand" "Text Display"
     "TEXT**Main Title**Subtitle Text**Message" "TEXT**Topic**Title**Message";
   mkCommand "qrCommand" "QR Payload" "QR**Rs. 123.45**QRPayloadData"
     "QR**Amount**PayloadData";
   mkCommand "loadingCommand" "Loading Command"
     "WAIT**Rs. 560.50**Please wait..." "WAIT**Amount**Message";
   mkCommand "successCommand" "Success Command"
     "PASS**SUCCESS!**Payment successful" "PASS**Title**Message";
   mkCommand "failCommand" "Failure Command"
     "FAIL**Rs. 560.50**Payment Failed" "FAIL**Amount**Message";
   mkCommand "warnCommand" "Warning" "WARN**Device Not Ready**Please wait"
     "WARN**Title**Message";
   mkCommand "infoCommand" "Information"
     "INFO**Important**Keep device connected" "INFO**Title**Message";
   mkCommand "sleepCommand" "Sleep Device" "RESET" "RESET";
   mkCommand "formatCommand" "Format Image" "FORMAT" "FORMAT";
   mkCommand "wakeCommand" "Wake Device" "WAKE" "WAKE";
   mkCommand "screentimeCommand" "Screen Time" "SCREENTIME**60"
     "SCREENTIME**<time in seconds (30-300)>"].

(** The effect run when the component is mounted: the command values are
    set from the table. *)
Definition initialValues : gmap string (list Z) :=
  fold_left (fun values cmd => <[id cmd := lit (value cmd)]> values)
    commands empty.

Definition initializeCommands (s : State) : State :=
  setCommandValues (fun _ => initialValues) s.

(** [requestUsbPermission], by the platform and the answer of the
    permission dialog. *)
Inductive Permission :=
| NotAndroid
| Granted
| Denied
| PermissionThrew (error : list Z).

Definition requestUsbPermission (r : Render) (p : Permission) (s : State)
    : State :=
  match p with
  | NotAndroid => s
  | Granted => addMonitorEntry r (lit "USB permission granted") INFO s
  | Denied => addMonitorEntry r (lit "USB permission denied") ERROR s
  | PermissionThrew error =>
      addMonitorEntry r (lit "Error requesting permission: " ++ error) ERROR s
  end.

(** The component as it is first rendered, and after its mount effect;
    [now] is the time of the first render. *)
Definition firstRender : Render := mkRender false [] false empty false.

Definition mounted (now : Z) (p : Permission) : Shell :=
  mkShell
    (requestUsbPermission firstRender p
       (initializeCommands
          (mkState firstRender [] None 0 None false false now None None []
             [] [] None)))
    false (lit "115200") false [] [].

(** The cleanup of the mount effect.  It is a closure of the render [c] in
    which the component was mounted.  When that render is connected it
    starts [disconnectDevice(false)] without waiting for it, and clears the
    two intervals while the port is being closed. *)
Definition cleanup (c : Closure) (a : Answers) (sh : Shell) : Shell :=
  let clearIntervals (sh : Shell) : Shell :=
    withCore (fun s => setTransferTimeoutChecker None
                         (setImageLoopInterval None s)) sh in
  if isDeviceConnected (view c) then
    let sh :=
      match imageLoopIntervalRef (core sh) with
      | Some _ =>
          withCore (fun s => setImageLoopActive false
                               (setImageLoopInterval None s)) sh
      | None => sh
      end in
    match deviceRef (core sh) with
    | Some device =>
        let sh := clearIntervals (called (ClosePort (deviceId device)) sh) in
        let sh := withCore (run (duringClose a)) sh in
        match closing a with
        | Resolved _ =>
            withCore (setIsDeviceConnected false)
              (withCore (setDeviceRef None) sh)
        | Rejected error =>
            note c (lit "Disconnect error: " ++ error) ERROR sh
        end
    | None => clearIntervals (withCore (setIsDeviceConnected false) sh)
    end
  else clearIntervals sh.

(** The component is unmounted: the cleanup of the first render runs. *)
Definition unmount (a : Answers) (sh : Shell) : Shell :=
  cleanup (mkClosure firstRender false (lit "115200")) a sh.

End Link.

(** * Vocabulary of the further properties *)

Module Terms.
Import Js Codec App Props Link.

(** The hexadecimal writes among the calls of the serial module: the frame
    headers and the payloads. *)
Definition isHexWrite (c : UsbCall) : bool :=
  match c with WriteHexString _ _ => true | Write _ _ => false end.

Definition hexWrites (calls : list UsbCall) : list UsbCall :=
  List.filter isHexWrite calls.

(** The ABORT command among the calls of the serial module. *)
Definition isAbortWrite (c : UsbCall) : bool :=
  match c with
  | Write _ data => bool_decide (data = lit "ABORT" ++ [LF])
  | WriteHexString _ _ => false
  end.

(** [abortsOnly s s']: from [s] to [s'] the serial module was asked for
    nothing but ABORT commands. *)
Definition abortsOnly (s s' : State) : Prop :=
  exists more,
    usbCalls s' = usbCalls s ++ more
    /\ Forall (fun c => isAbortWrite c = true) more.

(** What [executeCommand] does to the image loop before it looks at the
    command. *)
Definition stoppedForCommand (r : Render) (s : State) : State :=
  match imageLoopIntervalRef s with
  | Some _ =>
      addMonitorEntry r (lit "Image loop stopped due to new command") INFO
        (setImageLoopActive false (setImageLoopInterval None s))
  | None => s
  end.

(** A string of white space only. *)
Definition blank (text : list Z) : Prop :=
  Forall (fun c => isWhiteSpace c = true) text.

(** [deaf s]: no read callback and no watchdog are registered and no abort
    is pending, so that no callback can change the state. *)
Definition deaf (s : State) : Prop :=
  readCallback s = None /\ transferTimeoutCheckerRef s = None
  /\ pendingAborts s = [].

(** The calls of each kind among the calls of the serial module. *)
Definition isListCall (call : SerialCall) : bool :=
  match call with ListDevices => true | _ => false end.
Definition isOpenCall (call : SerialCall) : bool :=
  match call with OpenPort _ _ => true | _ => false end.
Definition isReadCall (call : SerialCall) : bool :=
  match call with ReadFrom _ => true | _ => false end.

(** [quiet sh sh']: from [sh] to [sh'] no read callback and no watchdog
    was registered or replaced and [UsbSerial.read] was not called. *)
Definition quiet (sh sh' : Shell) : Prop :=
  readCallback (core sh') = readCallback (core sh)
  /\ transferTimeoutCheckerRef (core sh') = transferTimeoutCheckerRef (core sh)
  /\ List.filter isReadCall (serialCalls sh')
     = List.filter isReadCall (serialCalls sh).

(** [sameListeners sh sh']: the read callback and the watchdog registered
    in [sh'] are those registered in [sh]. *)
Definition sameListeners (sh sh' : Shell) : Prop :=
  readCallback (core sh') = readCallback (core sh)
  /\ transferTimeoutCheckerRef (core sh')
     = transferTimeoutCheckerRef (core sh).

(** The CH341 devices of a list. *)
Definition ch341 (devices : list UsbDevice) : list UsbDevice :=
  List.filter (fun device => vendorId device =? 0x1a86) devices.

(** The options with which a port is opened from the closure [c]. *)
Definition openOptions (c : Closure) : OpenOptions :=
  mkOpenOptions (parseInt (seenBaudRate c)) 8 1 (lit "none") true true.

(** A command of the table passes the checks of [executeCommand] with the
    value the mount effect gives it. *)
Definition sendable (cmd : Command) : bool :=
  match initialValues !! id cmd with
  | Some text =>
      bool_decide (text = lit (value cmd))
      && bool_decide (trim text = text) && truthy text
      && (if String.eqb (id cmd) "screentimeCommand"
          then match matchScreentime text with
               | Some digits =>
                   negb ((parseDigits digits <? 30)
                         || (300 <? parseDigits digits))
               | None => false
               end
          else true)
  | None => false
  end.

(** ** More of the bench *)

(** The bench with a serial module that rejects every write. *)
Definition jammed : State :=
  mkState benchRender [] (Some benchDevice) 0 None false false 0
    (Some benchRender) (Some benchRender) [] [] []
    (Some (lit "Device not found")).

(** The same with a transfer in progress since time 0. *)
Definition jammedBusy : State := setTransferInProgress true jammed.

(** A transfer in progress since time 0 whose device handle is gone. *)
Definition orphaned : State :=
  mkState benchRender [] None 0 None true false 0
    (Some benchRender) (Some benchRender) [] [] [] None.

(** An android device on which the permission was granted, mounted at time
    0; one CH341 device and a mouse are plugged in, and the serial module
    opens and closes without error. *)
Definition desk : Shell := mounted 0 Granted.

Definition mouse : UsbDevice := mkDevice (lit "1003") 0x046d.

Definition oneDevice : Answers :=
  mkAnswers (Resolved tt) [] [] (Resolved [mouse; benchDevice]) []
    (Resolved tt) [].

(** The same with a second CH341 device. *)
Definition twoDevices : Answers :=
  mkAnswers (Resolved tt) [] [] (Resolved [benchDevice; mouse;
                                           mkDevice (lit "1004") 0x1a86]) []
    (Resolved tt) [].

(** The port cannot be opened. *)
Definition portBusy : Answers :=
  mkAnswers (Resolved tt) [] [] (Resolved [mouse; benchDevice]) []
    (Rejected (lit "Port busy")) [].

(** The port cannot be closed. *)
Definition stuckPort : Answers :=
  mkAnswers (Rejected (lit "Close failed")) [] [] (Resolved [benchDevice]) []
    (Resolved tt) [].

(** The connection panel around the bench. *)
Definition panel : Shell := mkShell bench false (lit "115200") false [] [].

(** The desk after the connection button was pressed with one device. *)
Definition connectedDesk : Shell :=
  handleConnection (closureOf desk) oneDevice desk.

End Terms.

(** * The connection when the registration of the callback can throw

    [startReading] is called without [await] by [connectToSelectedDevice].
    When [UsbSerial.read] throws, its [catch] logs the error and calls
    [handleConnectionError], which runs at once up to its first [await], the
    close of the port in [disconnectDevice(false)], and goes on from there
    after the caller of [startReading] has returned.  The functions below
    answer with their result and with the recovery they have left under
    way, if any; [recoveryResumes] is the rest of that recovery. *)

Module Relink.
Import Js Codec App Link.

(** Where a recovery that nobody awaits is suspended: in the close of the
    port, or, when there was no device handle, before the pause. *)
Inductive Suspended :=
| AtClose
| AtPause.

(** [handleConnectionError(error)] up to its first [await]. *)
Definition recoveryStarts (c : Closure) (error : list Z) (sh : Shell)
    : Shell * Suspended :=
  let sh := note c (lit "Connection error: " ++ error) ERROR sh in
  let sh :=
    match imageLoopIntervalRef (core sh) with
    | Some _ =>
        withCore (fun s => setImageLoopActive false
                             (setImageLoopInterval None s)) sh
    | None => sh
    end in
  match deviceRef (core sh) with
  | Some device => (called (ClosePort (deviceId device)) sh, AtClose)
  | None => (withCore (setIsDeviceConnected false) sh, AtPause)
  end.

(** [startReading], with the answer of [UsbSerial.read]. *)
Definition startReading (reading : Reply unit) (c : Closure) (sh : Shell)
    : Shell * option Suspended :=
  match deviceRef (core sh) with
  | None => (sh, None)
  | Some device =>
      if negb (isDeviceConnected (view c)) then (sh, None)
      else
        let sh := called (ReadFrom (deviceId device)) sh in
        match reading with
        | Resolved _ =>
            (withCore
               (fun s =>
                  startTransferTimeoutChecker c
                    (setMessageBuffer [] (setReadCallback (Some (view c)) s)))
               sh,
             None)
        | Rejected error =>
            let sh := note c (lit "Read error: " ++ error) ERROR sh in
            let (sh, stage) := recoveryStarts c error sh in
            (sh, Some stage)
        end
  end.

Definition connectToSelectedDevice (reading : Reply unit) (c : Closure)
    (device : UsbDevice) (a : Answers) (sh : Shell)
    : Result bool * option Suspended :=
  let sh := note c (lit "Attempting to open port at " ++ seenBaudRate c
                    ++ lit " baud...") INFO sh in
  let baudRate := parseInt (seenBaudRate c) in
  let sh := withCore (setDeviceRef (Some device)) sh in
  let sh := called (OpenPort (deviceId device)
                      (mkOpenOptions baudRate 8 1 (lit "none") true true)) sh in
  let sh := withCore (run (duringOpen a)) sh in
  match opening a with
  | Resolved _ =>
      let sh := withCore (setIsDeviceConnected true) sh in
      let sh := note c (lit "Connected to device at " ++ ofNumber baudRate
                        ++ lit " baud") SUCCESS sh in
      let (sh, floating) := startReading reading c sh in
      (Done true sh, floating)
  | Rejected error =>
      (Failed (lit "Connection failed: " ++ error)
         (withCore (setDeviceRef None) sh),
       None)
  end.

Definition connectToDevice (reading : Reply unit) (c : Closure) (a : Answers)
    (sh : Shell) : Result bool * option Suspended :=
  let sh := note c (lit "Checking for CH341 devices...") INFO sh in
  let sh := withCore (run (duringList a)) (called ListDevices sh) in
  match listing a with
  | Rejected error =>
      (Failed (lit "Failed to list devices: " ++ error) sh, None)
  | Resolved devices =>
      let ch341Devices :=
        List.filter (fun device => vendorId device =? 0x1a86) devices in
      match ch341Devices with
      | [] => (Done false (note c (lit "No CH341 devices found") ERROR sh),
               None)
      | [device] =>
          match connectToSelectedDevice reading c device a sh with
          | (Done connected sh, floating) => (Done connected sh, floating)
          | (Failed error sh, floating) =>
              (Failed (lit "Failed to list devices: " ++ error) sh, floating)
          end
      | _ =>
          (Done false
             (setDeviceSelectorVisible true
                (setAvailableDevices ch341Devices sh)),
           None)
      end
  end.

(** [handleConnectionError] from the [await] at which it was suspended. *)
Definition recoveryResumes (reading : Reply unit) (c : Closure) (a : Answers)
    (stage : Suspended) (sh : Shell) : (bool * Shell) * option Suspended :=
  let failed (recoveryError : list Z) (sh : Shell) : bool * Shell :=
    (false,
     note c (lit "Failed to recover connection: " ++ recoveryError) ERROR sh) in
  let disconnected : Result unit :=
    match stage with
    | AtClose =>
        let sh := withCore (run (duringClose a)) sh in
        match closing a with
        | Resolved _ =>
            Done tt (withCore (setIsDeviceConnected false)
                       (withCore (setDeviceRef None) sh))
        | Rejected error =>
            Failed error (note c (lit "Disconnect error: " ++ error) ERROR sh)
        end
    | AtPause => Done tt sh
    end in
  match disconnected with
  | Failed recoveryError sh => (failed recoveryError sh, None)
  | Done _ sh =>
      let sh := withCore (run (duringPause a)) sh in
      match connectToDevice reading c a sh with
      | (Failed recoveryError sh, floating) =>
          (failed recoveryError sh, floating)
      | (Done true sh, floating) =>
          ((true, note c (lit "Successfully recovered connection") SUCCESS sh),
           floating)
      | (Done false sh, floating) => ((false, sh), floating)
      end
  end.

(** [handleConnectionError] when it is awaited, as [executeCommand],
    [clearAllImages] and [clearImage] do: nothing else of the caller runs
    between its start and its end. *)
Definition handleConnectionError (reading : Reply unit) (c : Closure)
    (error : list Z) (a : Answers) (sh : Shell)
    : (bool * Shell) * option Suspended :=
  let (sh, stage) := recoveryStarts c error sh in
  recoveryResumes reading c a stage sh.

End Relink.

(** * Properties *)

Module Facts.
Import Js Codec App Props.

(** ** What the callbacks and a transfer leave alone *)

Lemma steady_refl s : steady s s.
Proof. constructor; try reflexivity. exists []. by rewrite app_nil_r. Qed.

Lemma steady_trans s1 s2 s3 : steady s1 s2 -> steady s2 s3 -> steady s1 s3.
Proof.
  intros [H1 H2 H3 H4 H5 H6 H7 [m1 H8]] [G1 G2 G3 G4 G5 G6 G7 [m2 G8]].
  constructor; try congruence.
  exists (m1 ++ m2). rewrite G8, H8. by rewrite app_assoc.
Qed.

#[export] Instance steady_preorder : PreOrder steady.
Proof. split; [exact steady_refl | exact steady_trans]. Qed.

Ltac steady_field :=
  constructor; simpl; try reflexivity;
  try (exists []; by rewrite app_nil_r).

Lemma steady_setLogs v s : steady s (setLogs v s).
Proof. steady_field. Qed.

Lemma steady_setTransferInProgress v s : steady s (setTransferInProgress v s).
Proof. steady_field. Qed.

Lemma steady_setTransferAborted v s : steady s (setTransferAborted v s).
Proof. steady_field. Qed.

Lemma steady_setLastTransferActivity v s :
  steady s (setLastTransferActivity v s).
Proof. steady_field. Qed.

Lemma steady_setMessageBuffer v s : steady s (setMessageBuffer v s).
Proof. steady_field. Qed.

Lemma steady_setPendingAborts v s : steady s (setPendingAborts v s).
Proof. steady_field. Qed.

Lemma steady_setUsbCalls more s : steady s (setUsbCalls (usbCalls s ++ more) s).
Proof. constructor; simpl; try reflexivity. by exists more. Qed.

Lemma steady_addMonitorEntry r msg t s : steady s (addMonitorEntry r msg t s).
Proof.
  unfold addMonitorEntry. destruct (_ && _); [reflexivity | apply steady_setLogs].
Qed.

Create HintDb steady discriminated.
#[export] Hint Resolve steady_refl steady_setLogs steady_setTransferInProgress
  steady_setTransferAborted steady_setLastTransferActivity
  steady_setMessageBuffer steady_setPendingAborts steady_setUsbCalls
  steady_addMonitorEntry : steady.

Lemma steady_usbIssue call s : steady s (stateOf (usbIssue call s)).
Proof.
  unfold usbIssue. destruct (deviceRef s); [|reflexivity].
  destruct (usbError s); simpl; auto with steady.
Qed.

Lemma steady_abortTransfer r s : steady s (abortTransfer r s).
Proof.
  unfold abortTransfer. destruct (_ && _); [|reflexivity].
  pose proof (steady_usbIssue (fun d => Write d (lit "ABORT" ++ [LF])) s) as H.
  destruct (usbIssue _ s); simpl in H;
    (etransitivity; [exact H | apply steady_setPendingAborts]).
Qed.

Lemma steady_abortTransferSettled s : steady s (abortTransferSettled s).
Proof.
  unfold abortTransferSettled. destruct (pendingAborts s) as [|[r w] rest];
    [reflexivity|].
  etransitivity; [apply (steady_setPendingAborts rest)|].
  etransitivity; [|apply steady_setTransferInProgress].
  etransitivity; [|apply steady_setTransferAborted].
  destruct w; auto with steady.
Qed.

Lemma steady_logMessages r messages s : steady s (logMessages r messages s).
Proof.
  unfold logMessages. revert s.
  induction messages as [|m ms IH]; intros s; simpl; [reflexivity|].
  etransitivity; [|apply IH].
  destruct (truthy _); auto with steady.
Qed.

Lemma steady_scanFrameLost r s : steady s (scanFrameLost r s).
Proof.
  unfold scanFrameLost. destruct (includes _ _); [|reflexivity]. cbv zeta.
  etransitivity; [|apply steady_setMessageBuffer].
  assert (steady s
            (setTransferAborted true
               (addMonitorEntry r (lit "FRAME_LOST detected!") ERROR s)))
    as H by (etransitivity; auto with steady).
  destruct (transferInProgressRef _); [|exact H].
  etransitivity; [exact H | apply steady_abortTransfer].
Qed.

Lemma steady_scanInvalidCmd r s : steady s (scanInvalidCmd r s).
Proof.
  unfold scanInvalidCmd. destruct (includes _ _); [|reflexivity]. cbv zeta.
  etransitivity; [|apply steady_setMessageBuffer]. auto with steady.
Qed.

Lemma steady_splitAndLog r s : steady s (splitAndLog r s).
Proof.
  unfold splitAndLog. cbv zeta.
  etransitivity; [|apply steady_logMessages]. auto with steady.
Qed.

Lemma steady_processText r data s : steady s (processText r data s).
Proof.
  unfold processText. cbv zeta.
  etransitivity; [|apply steady_splitAndLog].
  etransitivity; [|apply steady_scanInvalidCmd].
  etransitivity; [|apply steady_scanFrameLost].
  auto with steady.
Qed.

Lemma steady_onData r data now s : steady s (onData r data now s).
Proof.
  unfold onData. destruct (negb _); [reflexivity|].
  etransitivity; [|apply steady_setLastTransferActivity].
  destruct (existsb _ _); [auto with steady|].
  destruct (findAck data) as [[]|].
  - etransitivity; [|apply steady_setTransferInProgress]. auto with steady.
  - etransitivity; [|apply steady_setTransferAborted].
    etransitivity; [|apply steady_setTransferInProgress]. auto with steady.
  - apply steady_processText.
Qed.

Lemma steady_watchdog r now s : steady s (watchdog r now s).
Proof.
  unfold watchdog. destruct (_ && _); [|reflexivity].
  etransitivity; [|apply steady_abortTransfer]. auto with steady.
Qed.

Lemma steady_handle e s : steady s (handle e s).
Proof.
  destruct e; simpl.
  - destruct (readCallback s); [apply steady_onData | reflexivity].
  - destruct (transferTimeoutCheckerRef s);
      [apply steady_watchdog | reflexivity].
  - apply steady_abortTransferSettled.
Qed.

Lemma steady_run events s : steady s (run events s).
Proof.
  unfold run. revert s. induction events as [|e es IH]; intros s; simpl;
    [reflexivity|].
  etransitivity; [apply steady_handle | apply IH].
Qed.

#[export] Hint Resolve steady_usbIssue steady_abortTransfer
  steady_abortTransferSettled steady_logMessages steady_processText
  steady_onData steady_watchdog steady_handle steady_run : steady.

(** Peel the steps a state was built by, outermost first. *)
Ltac steady_peel :=
  repeat first
    [ reflexivity
    | etransitivity;
      [| first [ apply steady_run | apply steady_addMonitorEntry
               | apply steady_setUsbCalls | apply steady_setTransferAborted
               | apply steady_setTransferInProgress | apply steady_setLogs
               | apply steady_setLastTransferActivity
               | apply steady_setMessageBuffer
               | apply steady_setPendingAborts ] ] ].

Section Keeps.
Context (R : State -> State -> Prop) `{!PreOrder R}.

Lemma keeps_ret {A} (a : A) : keeps R (ret a).
Proof. intros s. reflexivity. Qed.

Lemma keeps_throw {A} e : keeps R (@throw A e).
Proof. intros s. reflexivity. Qed.

Lemma keeps_read {A} (f : State -> A) : keeps R (read f).
Proof. intros s. reflexivity. Qed.

Lemma keeps_exec f : (forall s, R s (f s)) -> keeps R (exec f).
Proof. intros H s. apply H. Qed.

Lemma keeps_bind {A B} (m : M A) (k : A -> M B) :
  keeps R m -> (forall a, keeps R (k a)) -> keeps R (bind m k).
Proof.
  intros Hm Hk s. unfold bind. specialize (Hm s).
  destruct (m s) as [a s'|e s']; simpl in *; [|exact Hm].
  etransitivity; [exact Hm | apply Hk].
Qed.

Lemma keeps_tryCatch {A} (m : M A) h :
  keeps R m -> (forall e, keeps R (h e)) -> keeps R (tryCatch m h).
Proof.
  intros Hm Hh s. unfold tryCatch. specialize (Hm s).
  destruct (m s) as [a s'|e s']; simpl in *; [exact Hm|].
  etransitivity; [exact Hm | apply Hh].
Qed.
End Keeps.

Lemma keeps_weaken {A} (R R' : State -> State -> Prop) (m : M A) :
  (forall s s', R s s' -> R' s s') -> keeps R m -> keeps R' m.
Proof. intros H Hm s. apply H, Hm. Qed.

Lemma steadyM_ret {A} (a : A) : steadyM (ret a).
Proof. apply keeps_ret, _. Qed.

Lemma steadyM_throw {A} e : steadyM (@throw A e).
Proof. apply keeps_throw, _. Qed.

Lemma steadyM_read {A} (f : State -> A) : steadyM (read f).
Proof. apply keeps_read, _. Qed.

Lemma steadyM_exec f : (forall s, steady s (f s)) -> steadyM (exec f).
Proof. apply keeps_exec. Qed.

Lemma steadyM_bind {A B} (m : M A) (k : A -> M B) :
  steadyM m -> (forall a, steadyM (k a)) -> steadyM (bind m k).
Proof. apply keeps_bind, _. Qed.

Lemma steadyM_tryCatch {A} (m : M A) h :
  steadyM m -> (forall e, steadyM (h e)) -> steadyM (tryCatch m h).
Proof. apply keeps_tryCatch, _. Qed.

Lemma steadyM_usbWrite data during : steadyM (usbWrite data during).
Proof.
  intros s. unfold usbWrite.
  pose proof (steady_usbIssue (fun d => Write d data) s) as H.
  destruct (usbIssue _ s); simpl in *;
    (etransitivity; [exact H | apply steady_run]).
Qed.

Lemma steadyM_usbWriteHexString hex during :
  steadyM (usbWriteHexString hex during).
Proof.
  intros s. unfold usbWriteHexString.
  pose proof (steady_usbIssue (fun d => WriteHexString d hex) s) as H.
  destruct (usbIssue _ s); simpl in *;
    (etransitivity; [exact H | apply steady_run]).
Qed.

Lemma steadyM_delay during : steadyM (delay during).
Proof. apply steadyM_exec, steady_run. Qed.

Lemma steadyM_log r msg t : steadyM (log r msg t).
Proof. apply steadyM_exec, steady_addMonitorEntry. Qed.

Lemma steadyM_pollFlags ps last msg : steadyM (pollFlags ps last msg).
Proof.
  induction ps as [|events rest IH]; intros s; simpl.
  - apply steady_run.
  - destruct (transferAbortedRef _); [apply steady_run|].
    destruct (negb _); [apply steady_run|].
    etransitivity; [apply (steady_run events) | apply IH].
Qed.

Lemma steadyM_awaitSignal w msg : steadyM (awaitSignal w msg).
Proof. apply steadyM_pollFlags. Qed.

Ltac steadyM :=
  repeat first
    [ apply steadyM_bind; [|intros ?]
    | apply steadyM_tryCatch; [|intros ?]
    | apply steadyM_ret | apply steadyM_throw | apply steadyM_read
    | apply steadyM_usbWrite | apply steadyM_usbWriteHexString
    | apply steadyM_delay | apply steadyM_log | apply steadyM_awaitSignal
    | match goal with |- steadyM (if ?b then _ else _) => destruct b end
    | match goal with
      | |- steadyM (exec _) => apply steadyM_exec; intros ?; auto with steady
      end ].

Lemma steadyM_sendImageToDevice r sch imageData :
  steadyM (sendImageToDevice r sch imageData).
Proof.
  intros s. unfold sendImageToDevice.
  destruct (_ || _); [reflexivity|].
  match goal with |- steady s (stateOf (?m s)) => assert (steadyM m) as H end;
    [|apply H].
  steadyM.
Qed.

(** Stepping through a computation whose first writes succeed. *)
Lemma tryCatch_exec {A} f (k : unit -> M A) h s :
  tryCatch (bind (exec f) k) h s = tryCatch (k tt) h (f s).
Proof. reflexivity. Qed.

Lemma usbIssue_ok call d s :
  deviceRef s = Some d -> usbError s = None ->
  usbIssue call s
  = Returned tt (setUsbCalls (usbCalls s ++ [call (deviceId d)]) s).
Proof. intros Hd He. unfold usbIssue. by rewrite Hd, He. Qed.

Lemma tryCatch_usbWrite {A} data during (k : unit -> M A) h d s :
  deviceRef s = Some d -> usbError s = None ->
  tryCatch (bind (usbWrite data during) k) h s
  = tryCatch (k tt) h
      (run during (setUsbCalls (usbCalls s ++ [Write (deviceId d) data]) s)).
Proof.
  intros Hd He. unfold tryCatch, bind, usbWrite.
  by rewrite (usbIssue_ok _ d s Hd He).
Qed.

Lemma tryCatch_usbWriteHexString {A} hex during (k : unit -> M A) h d s :
  deviceRef s = Some d -> usbError s = None ->
  tryCatch (bind (usbWriteHexString hex during) k) h s
  = tryCatch (k tt) h
      (run during
         (setUsbCalls (usbCalls s ++ [WriteHexString (deviceId d) hex]) s)).
Proof.
  intros Hd He. unfold tryCatch, bind, usbWriteHexString.
  by rewrite (usbIssue_ok _ d s Hd He).
Qed.

Lemma steadyM_fromReadyWait r sch payload :
  steadyM (fromReadyWait r sch payload).
Proof. unfold fromReadyWait. steadyM. Qed.

Lemma sendImageToDevice_guard r sch imageData s :
  isDeviceConnected r = false \/ deviceRef s = None
  \/ optTruthy imageData = false ->
  sendImageToDevice r sch imageData s
  = Threw (lit "Not connected to device or invalid image data") s.
Proof.
  intros H. unfold sendImageToDevice.
  destruct H as [H|[H|H]]; rewrite H; simpl;
    rewrite ?orb_true_r; reflexivity.
Qed.

Lemma sendImageToDevice_start r sch imageData d s :
  isDeviceConnected r = true -> deviceRef s = Some d -> usbError s = None ->
  truthy imageData = true ->
  sendImageToDevice r sch (Some imageData) s
  = fromReadyWait r sch (fromBase64 imageData)
      (afterHeader r sch (fromBase64 imageData) d s).
Proof.
  intros Hc Hd He Hi. unfold sendImageToDevice.
  rewrite Hc, Hd. simpl optTruthy. rewrite Hi.
  rewrite bool_decide_true by done. simpl negb. simpl orb. cbv iota.
  rewrite !tryCatch_exec.
  rewrite (tryCatch_usbWrite _ _ _ _ d) by done.
  unfold log at 1. rewrite tryCatch_exec.
  unfold delay at 1. rewrite tryCatch_exec.
  cbv zeta.
  rewrite (tryCatch_usbWriteHexString _ _ _ _ d).
  - unfold log at 1. rewrite tryCatch_exec. reflexivity.
  - match goal with |- deviceRef ?x = _ => assert (steady s x) as Hx end;
      [steady_peel|].
    by rewrite (steady_device _ _ Hx).
  - match goal with |- usbError ?x = _ => assert (steady s x) as Hx end;
      [steady_peel|].
    by rewrite (steady_error _ _ Hx).
Qed.

(** ** The frame header *)

Lemma land_255 v : Z.land v 0xFF = v mod 256.
Proof. change 0xFF with (Z.ones 8). by rewrite Z.land_ones. Qed.

Lemma land_15 v : Z.land v 0xF = v mod 16.
Proof. change 0xF with (Z.ones 4). by rewrite Z.land_ones. Qed.

Lemma land_uint32 v : Z.land v 0xFFFFFFFF = v mod 2 ^ 32.
Proof. change 0xFFFFFFFF with (Z.ones 32). by rewrite Z.land_ones. Qed.

Lemma uint32LE_bytes v : Forall isByte (uint32LE v).
Proof.
  unfold uint32LE. cbv zeta. rewrite !land_255.
  repeat constructor; apply Z.mod_pos_bound; lia.
Qed.

Lemma uint32LE_length v : length (uint32LE v) = 4%nat.
Proof. reflexivity. Qed.

Lemma uint32LE_value v : leValue (uint32LE v) = v mod 2 ^ 32.
Proof.
  unfold uint32LE, leValue. cbv zeta. simpl fold_right.
  rewrite !land_255, land_uint32, !Z.shiftr_div_pow2 by lia.
  assert (0 <= v mod 2 ^ 32 < 2 ^ 32) as Hv by (apply Z.mod_pos_bound; lia).
  generalize dependent (v mod 2 ^ 32). intros w Hw.
  change (2 ^ 8) with 256. change (2 ^ 16) with 65536.
  change (2 ^ 24) with 16777216. change (2 ^ 32) with 4294967296 in Hw.
  Z.div_mod_to_equations. lia.
Qed.

Lemma hexValue_hexDigit n : 0 <= n < 16 -> hexValue (hexDigit n) = Some n.
Proof.
  intros Hn. unfold hexDigit, hexValue.
  destruct (n <? 10) eqn:E; [apply Z.ltb_lt in E | apply Z.ltb_ge in E].
  - replace ((48 <=? 48 + n) && (48 + n <=? 57)) with true
      by (symmetry; apply andb_true_iff; split; apply Z.leb_le; lia).
    f_equal. lia.
  - replace ((48 <=? 87 + n) && (87 + n <=? 57)) with false
      by (symmetry; apply andb_false_iff; right; apply Z.leb_gt; lia).
    replace ((97 <=? 87 + n) && (87 + n <=? 102)) with true
      by (symmetry; apply andb_true_iff; split; apply Z.leb_le; lia).
    f_equal. lia.
Qed.

Lemma fromHex_toHex bytes : Forall isByte bytes -> fromHex (toHex bytes) = Some bytes.
Proof.
  induction 1 as [|b bs Hb _ IH]; [reflexivity|].
  unfold toHex in *. simpl. fold (toHex bs).
  unfold isByte in Hb.
  rewrite land_15, Z.shiftr_div_pow2 by lia. change (2 ^ 4) with 16.
  rewrite !hexValue_hexDigit by (Z.div_mod_to_equations; lia).
  unfold toHex. rewrite IH. f_equal. f_equal.
  Z.div_mod_to_equations. lia.
Qed.

Lemma toHex_length bytes : length (toHex bytes) = (2 * length bytes)%nat.
Proof.
  unfold toHex. induction bytes as [|b bs IH]; [reflexivity|].
  simpl. rewrite IH. lia.
Qed.

Lemma frameHeader_bytes n : Forall isByte (frameHeader n).
Proof. apply Forall_app. split; apply uint32LE_bytes. Qed.

Lemma afterHeader_calls r sch payload d s :
  exists mid post,
    usbCalls (afterHeader r sch payload d s)
    = usbCalls s ++ [Write (deviceId d) (lit "START_RTIMAGE" ++ [LF])] ++ mid
      ++ [WriteHexString (deviceId d)
            (toHex (frameHeader (Z.of_nat (length payload))))] ++ post.
Proof.
  unfold afterHeader. cbv zeta.
  match goal with
  | |- context [run (duringHeader sch) (setUsbCalls (usbCalls ?x ++ ?h) ?x)] =>
      set (before := x); set (hdr := h)
  end.
  match goal with
  | |- exists mid post, usbCalls ?fin = _ =>
      assert (steady (setUsbCalls (usbCalls before ++ hdr) before) fin) as H2
        by steady_peel
  end.
  destruct (steady_calls _ _ H2) as [post ->]. simpl usbCalls at 1.
  subst before.
  match goal with
  | |- context [usbCalls (run (duringDelay sch)
                 (addMonitorEntry _ _ _
                    (run _ (setUsbCalls ?c ?x))))] =>
      assert (steady (setUsbCalls c x)
                (run (duringDelay sch)
                   (addMonitorEntry r (lit "Sent START_RTIMAGE") INFO
                      (run (duringStart sch) (setUsbCalls c x))))) as H1
        by steady_peel
  end.
  destruct (steady_calls _ _ H1) as [mid ->]. simpl usbCalls.
  exists mid, post. by rewrite <- !app_assoc.
Qed.

(** C7. [sendImageToDevice] builds an 8-byte header: bytes 0-3 are
    FRAME_MAGIC = 0xAA55CC33 least significant byte first (33 cc 55 aa),
    bytes 4-7 the byte length of the decoded payload as a little-endian
    unsigned 32-bit integer.  It hands the header to [writeHexString] as
    hexadecimal text, two characters per byte, after the START_RTIMAGE
    command; for an empty payload the text is 33cc55aa00000000. *)
Theorem header_magic_and_length_little_endian
    (r : Render) (sch : Schedule) (imageData : list Z) (d : UsbDevice)
    (s : State) :
  isDeviceConnected r = true -> deviceRef s = Some d -> usbError s = None ->
  truthy imageData = true ->
  let payload := fromBase64 imageData in
  let header := frameHeader (Z.of_nat (length payload)) in
  length header = 8%nat
  /\ Forall isByte header
  /\ take 4 header = [0x33; 0xCC; 0x55; 0xAA]
  /\ leValue (take 4 header) = 0xAA55CC33
  /\ leValue (drop 4 header) = Z.of_nat (length payload) mod 2 ^ 32
  /\ length (toHex header) = 16%nat
  /\ fromHex (toHex header) = Some header
  /\ (payload = [] -> toHex header = lit "33cc55aa00000000")
  /\ exists mid post,
       usbCalls (stateOf (sendImageToDevice r sch (Some imageData) s))
       = usbCalls s ++ [Write (deviceId d) (lit "START_RTIMAGE" ++ [LF])]
         ++ mid ++ [WriteHexString (deviceId d) (toHex header)] ++ post.
Proof.
  intros Hc Hd He Hi payload header.
  repeat split.
  - apply frameHeader_bytes.
  - unfold header, frameHeader. simpl drop. apply uint32LE_value.
  - apply fromHex_toHex, frameHeader_bytes.
  - intros Hp. unfold header. by rewrite Hp.
  - rewrite (sendImageToDevice_start r sch imageData d s Hc Hd He Hi).
    fold payload.
    destruct (afterHeader_calls r sch payload d s) as (mid & post & Hcalls).
    destruct (steady_calls _ _
                (steadyM_fromReadyWait r sch payload
                   (afterHeader r sch payload d s))) as [more Hmore].
    exists mid, (post ++ more). rewrite Hmore, Hcalls.
    by rewrite <- !app_assoc.
Qed.

(** ** The transfer flags *)

Lemma addMonitorEntry_fields r msg t s :
  transferInProgressRef (addMonitorEntry r msg t s) = transferInProgressRef s
  /\ transferAbortedRef (addMonitorEntry r msg t s) = transferAbortedRef s
  /\ pendingAborts (addMonitorEntry r msg t s) = pendingAborts s
  /\ usbCalls (addMonitorEntry r msg t s) = usbCalls s
  /\ messageBuffer (addMonitorEntry r msg t s) = messageBuffer s
  /\ lastTransferActivityRef (addMonitorEntry r msg t s)
     = lastTransferActivityRef s.
Proof. unfold addMonitorEntry. by destruct (_ && _). Qed.

Lemma addMonitorEntry_inProgress r msg t s :
  transferInProgressRef (addMonitorEntry r msg t s) = transferInProgressRef s.
Proof. apply addMonitorEntry_fields. Qed.

Lemma addMonitorEntry_aborted r msg t s :
  transferAbortedRef (addMonitorEntry r msg t s) = transferAbortedRef s.
Proof. apply addMonitorEntry_fields. Qed.

Lemma addMonitorEntry_pending r msg t s :
  pendingAborts (addMonitorEntry r msg t s) = pendingAborts s.
Proof. apply addMonitorEntry_fields. Qed.

Lemma addMonitorEntry_calls r msg t s :
  usbCalls (addMonitorEntry r msg t s) = usbCalls s.
Proof. apply addMonitorEntry_fields. Qed.

Lemma addMonitorEntry_buffer r msg t s :
  messageBuffer (addMonitorEntry r msg t s) = messageBuffer s.
Proof. apply addMonitorEntry_fields. Qed.

Lemma addMonitorEntry_last r msg t s :
  lastTransferActivityRef (addMonitorEntry r msg t s)
  = lastTransferActivityRef s.
Proof. apply addMonitorEntry_fields. Qed.

Lemma logMessages_cons r m ms s :
  logMessages r (m :: ms) s
  = logMessages r ms
      (if truthy (trim m)
       then addMonitorEntry r (lit "Received: " ++ trim m) SUCCESS s
       else s).
Proof. reflexivity. Qed.

Lemma logMessages_fields r messages s :
  transferInProgressRef (logMessages r messages s) = transferInProgressRef s
  /\ transferAbortedRef (logMessages r messages s) = transferAbortedRef s
  /\ pendingAborts (logMessages r messages s) = pendingAborts s
  /\ usbCalls (logMessages r messages s) = usbCalls s
  /\ messageBuffer (logMessages r messages s) = messageBuffer s.
Proof.
  revert s. induction messages as [|m ms IH]; intros s; [done|].
  rewrite logMessages_cons.
  destruct (IH (if truthy (trim m)
                then addMonitorEntry r (lit "Received: " ++ trim m) SUCCESS s
                else s)) as (-> & -> & -> & -> & ->).
  destruct (truthy _); [|done].
  by rewrite addMonitorEntry_inProgress, addMonitorEntry_aborted,
    addMonitorEntry_pending, addMonitorEntry_calls, addMonitorEntry_buffer.
Qed.

(** C9. When [clearImage] runs on an open channel and its write is accepted,
    it ends normally with the transfer-in-progress flag and the aborted flag
    both false, whatever they were before and whatever callbacks fired while
    it waited; CLEAR_IMAGE is the first thing it wrote. *)
Theorem clearImage_resets_transfer_flags
    (r : Render) (duringWrite duringDelay : list Event) (d : UsbDevice)
    (s : State) :
  isDeviceConnected r = true -> deviceRef s = Some d -> usbError s = None ->
  exists s' more,
    clearImage r duringWrite duringDelay s = (Completed, s')
    /\ transferInProgressRef s' = false
    /\ transferAbortedRef s' = false
    /\ usbCalls s'
       = usbCalls s ++ [Write (deviceId d) (lit "CLEAR_IMAGE" ++ [LF])] ++ more.
Proof.
  intros Hc Hd He. unfold clearImage.
  rewrite Hc, Hd, bool_decide_true by done. simpl negb. simpl orb. cbv iota.
  unfold bind at 1, usbWrite. rewrite (usbIssue_ok _ d s Hd He). cbv beta iota.
  match goal with
  | |- context [run duringWrite ?x] => set (written := x)
  end.
  unfold bind, log, delay, exec. cbv beta iota.
  match goal with
  | |- exists s' more, (Completed, ?fin) = _ /\ _ => exists fin
  end.
  assert (steady written
            (run duringDelay
               (addMonitorEntry r (lit "Sent clear image command") INFO
                  (run duringWrite written)))) as Hst by steady_peel.
  destruct (steady_calls _ _ Hst) as [more Hmore].
  exists more. split; [reflexivity|].
  split; [by rewrite addMonitorEntry_inProgress|].
  split; [by rewrite addMonitorEntry_aborted|].
  rewrite addMonitorEntry_calls. simpl usbCalls. rewrite Hmore.
  subst written. simpl usbCalls. by rewrite <- app_assoc.
Qed.


(** ** The ready wait *)

Lemma unmoved_refl s : unmoved s s.
Proof. by constructor. Qed.

Lemma unmoved_trans s1 s2 s3 : unmoved s1 s2 -> unmoved s2 s3 -> unmoved s1 s3.
Proof. intros [] []. constructor; congruence. Qed.

(** The ready byte only records activity. *)
Lemma onData_ready r data now s :
  existsb (Z.eqb 82) data = true ->
  onData r data now s
  = if isDeviceConnected r
    then setLastTransferActivity now (setLastTransferActivity now s)
    else s.
Proof. intros H. unfold onData. rewrite H. by destruct (isDeviceConnected r). Qed.

Lemma handle_ready e s : isReady e = true -> unmoved s (handle e s).
Proof.
  destruct e as [data now| |]; simpl; try done. intros H.
  destruct (readCallback s) as [r|]; [|apply unmoved_refl].
  rewrite (onData_ready r data now s H).
  destruct (isDeviceConnected r); by constructor.
Qed.

Lemma run_ready events s :
  Forall (fun e => isReady e = true) events -> unmoved s (run events s).
Proof.
  intros H. revert s. induction H as [|e es He _ IH]; intros s.
  - apply unmoved_refl.
  - eapply unmoved_trans; [apply (handle_ready e s He) | apply IH].
Qed.

(** With nothing but ready chunks coming in, a wait ends by its timeout. *)
Lemma pollFlags_ready ps last msg s :
  Forall (Forall (fun e => isReady e = true)) ps ->
  Forall (fun e => isReady e = true) last ->
  transferInProgressRef s = true -> transferAbortedRef s = false ->
  exists s', pollFlags ps last msg s = Threw msg s' /\ unmoved s s'.
Proof.
  intros Hps Hlast. revert s.
  induction Hps as [|events rest Hev _ IH]; intros s Hp Ha; simpl.
  - eexists. split; [reflexivity | by apply run_ready].
  - pose proof (run_ready events s Hev) as Hun.
    rewrite (unmoved_aborted _ _ Hun), Ha, (unmoved_inProgress _ _ Hun), Hp.
    simpl.
    destruct (IH (run events s)) as (s' & Hs' & Hun').
    + by rewrite (unmoved_inProgress _ _ Hun).
    + by rewrite (unmoved_aborted _ _ Hun).
    + exists s'. split; [exact Hs' | by eapply unmoved_trans].
Qed.

Lemma afterHeader_ready r sch payload d s :
  Forall (fun e => isReady e = true) (duringStart sch) ->
  Forall (fun e => isReady e = true) (duringDelay sch) ->
  Forall (fun e => isReady e = true) (duringHeader sch) ->
  let s' := afterHeader r sch payload d s in
  transferInProgressRef s' = true
  /\ transferAbortedRef s' = false
  /\ usbCalls s'
     = usbCalls s
       ++ [Write (deviceId d) (lit "START_RTIMAGE" ++ [LF]);
           WriteHexString (deviceId d)
             (toHex (frameHeader (Z.of_nat (length payload))))].
Proof.
  intros H1 H2 H3. unfold afterHeader. cbv zeta.
  rewrite addMonitorEntry_inProgress, addMonitorEntry_aborted,
    addMonitorEntry_calls.
  pose proof (fun x => run_ready _ x H1) as R1.
  pose proof (fun x => run_ready _ x H2) as R2.
  pose proof (fun x => run_ready _ x H3) as R3.
  rewrite (unmoved_inProgress _ _ (R3 _)), (unmoved_aborted _ _ (R3 _)),
    (unmoved_calls _ _ (R3 _)).
  simpl.
  rewrite (unmoved_inProgress _ _ (R2 _)), (unmoved_aborted _ _ (R2 _)),
    (unmoved_calls _ _ (R2 _)).
  rewrite addMonitorEntry_inProgress, addMonitorEntry_aborted,
    addMonitorEntry_calls.
  rewrite (unmoved_inProgress _ _ (R1 _)), (unmoved_aborted _ _ (R1 _)),
    (unmoved_calls _ _ (R1 _)).
  simpl. by rewrite <- app_assoc.
Qed.

(** C1, what the code does.  When only ready signals ('R') arrive from the
    start of [sendImageToDevice] to the end of its ready wait, the wait is
    not ended by them: it runs into its 500 ms timeout, the call throws
    'Failed to send image: Timeout waiting for ready signal', and the channel
    has seen START_RTIMAGE and the header but no payload. *)
Theorem ready_signal_does_not_end_ready_wait
    (r : Render) (sch : Schedule) (imageData : list Z) (d : UsbDevice)
    (s : State) :
  isDeviceConnected r = true -> deviceRef s = Some d -> usbError s = None ->
  truthy imageData = true ->
  onlyReadySignals sch ->
  exists s',
    sendImageToDevice r sch (Some imageData) s
    = Threw (lit "Failed to send image: Timeout waiting for ready signal") s'
    /\ transferInProgressRef s' = false
    /\ usbCalls s'
       = usbCalls s
         ++ [Write (deviceId d) (lit "START_RTIMAGE" ++ [LF]);
             WriteHexString (deviceId d)
               (toHex (frameHeader
                         (Z.of_nat (length (fromBase64 imageData)))))].
Proof.
  intros Hc Hd He Hi (H1 & H2 & H3 & H4 & H5).
  rewrite (sendImageToDevice_start r sch imageData d s Hc Hd He Hi).
  destruct (afterHeader_ready r sch (fromBase64 imageData) d s H1 H2 H3)
    as (Hp & Ha & Hcalls).
  destruct (pollFlags_ready (polls (readyWait sch))
              (beforeTimeout (readyWait sch))
              (lit "Timeout waiting for ready signal") _ H4 H5 Hp Ha)
    as (s' & Hwait & Hun).
  exists (setTransferInProgress false s').
  unfold fromReadyWait, tryCatch, bind at 1, awaitSignal.
  rewrite Hwait. split; [reflexivity|]. split; [reflexivity|].
  simpl usbCalls. by rewrite (unmoved_calls _ _ Hun).
Qed.

(** The signal that does end the ready wait is the ack 'K': it clears the
    in-progress flag, which is what the wait polls. *)
Lemma ack_ends_ready_wait r rest last msg now s :
  readCallback s = Some r -> isDeviceConnected r = true ->
  transferAbortedRef s = false ->
  exists s',
    pollFlags ([EvData [75] now] :: rest) last msg s = Returned tt s'
    /\ transferInProgressRef s' = false.
Proof.
  intros Hr Hc Ha. simpl. rewrite Hr. unfold onData. rewrite Hc. simpl.
  rewrite Ha. eexists. split; reflexivity.
Qed.

(** ** The watchdog *)

Lemma atRest_refl s :
  transferInProgressRef s = false -> pendingAborts s = [] -> atRest s s.
Proof. by constructor. Qed.

Lemma atRest_trans s1 s2 s3 : atRest s1 s2 -> atRest s2 s3 -> atRest s1 s3.
Proof. intros [] []. constructor; try congruence. auto. Qed.

Lemma abortTransfer_idle r s :
  transferInProgressRef s = false -> abortTransfer r s = s.
Proof. intros H. unfold abortTransfer. by rewrite H. Qed.

Lemma scanFrameLost_atRest r s :
  transferInProgressRef s = false -> pendingAborts s = [] ->
  atRest s (scanFrameLost r s).
Proof.
  intros Hp Hq. unfold scanFrameLost.
  destruct (includes _ _); [|by apply atRest_refl]. cbv zeta.
  assert (transferInProgressRef
            (setTransferAborted true
               (addMonitorEntry r (lit "FRAME_LOST detected!") ERROR s))
          = false) as -> by (cbn; exact Hp).
  constructor; cbn; done.
Qed.

Lemma scanInvalidCmd_atRest r s :
  transferInProgressRef s = false -> pendingAborts s = [] ->
  atRest s (scanInvalidCmd r s).
Proof.
  intros Hp Hq. unfold scanInvalidCmd.
  destruct (includes _ _); [|by apply atRest_refl]. cbv zeta.
  constructor; cbn; done.
Qed.

Lemma splitAndLog_atRest r s :
  transferInProgressRef s = false -> pendingAborts s = [] ->
  atRest s (splitAndLog r s).
Proof.
  intros Hp Hq. unfold splitAndLog. cbv zeta.
  destruct (logMessages_fields r
              (removelast (splitLines (messageBuffer s)))
              (setMessageBuffer (List.last (splitLines (messageBuffer s)) []) s))
    as (H1 & H2 & H3 & H4 & _).
  constructor; [by rewrite H1 | by rewrite H3 | by rewrite H4 | by rewrite H2].
Qed.

Lemma processText_atRest r data s :
  transferInProgressRef s = false -> pendingAborts s = [] ->
  atRest s (processText r data s).
Proof.
  intros Hp Hq. unfold processText. cbv zeta.
  set (s1 := setMessageBuffer _ s).
  assert (atRest s s1) as H1 by (by constructor).
  assert (atRest s1 (scanFrameLost r s1)) as H2
    by (by apply scanFrameLost_atRest).
  assert (atRest (scanFrameLost r s1) (scanInvalidCmd r (scanFrameLost r s1)))
    as H3 by (apply scanInvalidCmd_atRest; apply H2).
  eapply atRest_trans; [exact H1|].
  eapply atRest_trans; [exact H2|].
  eapply atRest_trans; [exact H3|].
  apply splitAndLog_atRest; apply H3.
Qed.

Lemma handle_atRest e s :
  transferInProgressRef s = false -> pendingAborts s = [] ->
  atRest s (handle e s).
Proof.
  intros Hp Hq. destruct e as [data now|now|]; simpl.
  - destruct (readCallback s) as [r|]; [|by apply atRest_refl].
    unfold onData. destruct (negb _); [by apply atRest_refl|].
    destruct (existsb _ _); [by constructor|].
    destruct (findAck data) as [[]|]; [by constructor | by constructor |].
    pose proof (processText_atRest r data s Hp Hq) as [].
    by constructor.
  - destruct (transferTimeoutCheckerRef s) as [r|]; [|by apply atRest_refl].
    unfold watchdog. rewrite Hp. by apply atRest_refl.
  - unfold abortTransferSettled. rewrite Hq. by apply atRest_refl.
Qed.

Lemma run_atRest events s :
  transferInProgressRef s = false -> pendingAborts s = [] ->
  atRest s (run events s).
Proof.
  revert s. induction events as [|e es IH]; intros s Hp Hq.
  - by apply atRest_refl.
  - pose proof (handle_atRest e s Hp Hq) as H.
    eapply atRest_trans; [exact H|]. apply IH; apply H.
Qed.

(** At or below the threshold the watchdog does nothing. *)
Lemma watchdog_waits_for_threshold r now s :
  now - lastTransferActivityRef s <= TRANSFER_TIMEOUT -> watchdog r now s = s.
Proof.
  intros H. unfold watchdog.
  replace (TRANSFER_TIMEOUT <? now - lastTransferActivityRef s) with false
    by (symmetry; apply Z.ltb_ge; exact H).
  by rewrite andb_false_r.
Qed.

(** A late tick on an open channel in full: the timeout is logged, ABORT is
    written and the call waits for its write; no flag is touched. *)
Lemma watchdog_late_tick r d now s :
  transferTimeoutCheckerRef s = Some r -> deviceRef s = Some d ->
  usbError s = None -> transferInProgressRef s = true ->
  TRANSFER_TIMEOUT < now - lastTransferActivityRef s ->
  handle (EvWatchdog now) s
  = setPendingAborts (pendingAborts s ++ [(r, true)])
      (setUsbCalls (usbCalls s ++ [Write (deviceId d) (lit "ABORT" ++ [LF])])
         (addMonitorEntry r (lit "Transfer timeout - no device response")
            ERROR s)).
Proof.
  intros Hw Hd He Hp Hlate. simpl. rewrite Hw. unfold watchdog. rewrite Hp.
  replace (TRANSFER_TIMEOUT <? now - lastTransferActivityRef s) with true
    by (symmetry; by apply Z.ltb_lt).
  simpl. unfold abortTransfer.
  rewrite addMonitorEntry_inProgress, Hp.
  assert (deviceRef (addMonitorEntry r
            (lit "Transfer timeout - no device response") ERROR s) = Some d)
    as Hd' by (by rewrite (steady_device _ _ (steady_addMonitorEntry _ _ _ _))).
  assert (usbError (addMonitorEntry r
            (lit "Transfer timeout - no device response") ERROR s) = None)
    as He' by (by rewrite (steady_error _ _ (steady_addMonitorEntry _ _ _ _))).
  rewrite Hd', bool_decide_true by done. simpl.
  rewrite (usbIssue_ok _ d _ Hd' He').
  by cbn.
Qed.

(** C6, as the code has it.  A transfer is in progress on an open channel and
    the last activity is more than 15000 ms old.  The watchdog tick writes
    ABORT and sets no flag: the transfer is still in progress while the write
    is pending, so a second tick that comes before the write has settled
    writes ABORT again.  When the write has settled before any other tick,
    the aborted flag is true and the transfer is no longer in progress, and
    whatever ticks and chunks come later, no second ABORT (and no other call)
    reaches the channel. *)
Theorem watchdog_aborts_stuck_transfer_once
    (r : Render) (d : UsbDevice) (s : State) (now : Z) (later : list Event) :
  transferTimeoutCheckerRef s = Some r -> deviceRef s = Some d ->
  usbError s = None -> pendingAborts s = [] ->
  transferInProgressRef s = true ->
  TRANSFER_TIMEOUT < now - lastTransferActivityRef s ->
  let s1 := handle (EvWatchdog now) s in
  let s2 := handle EvAbortSettled s1 in
  let s3 := run later s2 in
  usbCalls s1 = usbCalls s ++ [Write (deviceId d) (lit "ABORT" ++ [LF])]
  /\ transferInProgressRef s1 = true
  /\ transferAbortedRef s1 = transferAbortedRef s
  /\ (forall again, TRANSFER_TIMEOUT < again - lastTransferActivityRef s ->
      usbCalls (handle (EvWatchdog again) s1)
      = usbCalls s ++ [Write (deviceId d) (lit "ABORT" ++ [LF]);
                       Write (deviceId d) (lit "ABORT" ++ [LF])])
  /\ transferAbortedRef s2 = true
  /\ transferInProgressRef s2 = false
  /\ transferAbortedRef s3 = true
  /\ transferInProgressRef s3 = false
  /\ usbCalls s3 = usbCalls s ++ [Write (deviceId d) (lit "ABORT" ++ [LF])].
Proof.
  intros Hw Hd He Hq Hp Hlate s1 s2 s3.
  pose proof (watchdog_late_tick r d now s Hw Hd He Hp Hlate) as Hs1.
  fold s1 in Hs1. rewrite Hq in Hs1. cbn [app] in Hs1. clearbody s1.
  assert (usbCalls s1 = usbCalls s ++ [Write (deviceId d) (lit "ABORT" ++ [LF])])
    as Hc1 by (by rewrite Hs1).
  assert (transferInProgressRef s1 = true) as Hp1.
  { rewrite Hs1. by cbn. }
  assert (transferAbortedRef s1 = transferAbortedRef s) as Ha1.
  { rewrite Hs1. by cbn. }
  assert (transferAbortedRef s2 = true /\ transferInProgressRef s2 = false
          /\ pendingAborts s2 = [] /\ usbCalls s2 = usbCalls s1)
    as (Ha2 & Hp2 & Hq2 & Hc2).
  { subst s2. rewrite Hs1. by cbn. }
  destruct (run_atRest later s2 Hp2 Hq2) as [Hp3 _ Hc3 Ha3].
  fold s3 in Hp3, Hc3, Ha3.
  split; [exact Hc1|]. split; [exact Hp1|]. split; [exact Ha1|].
  split.
  { intros again Hagain.
    assert (transferTimeoutCheckerRef s1 = Some r) as Hw1.
    { rewrite Hs1. by cbn. }
    assert (deviceRef s1 = Some d) as Hd1.
    { rewrite Hs1. by cbn. }
    assert (usbError s1 = None) as He1.
    { rewrite Hs1. by cbn. }
    assert (lastTransferActivityRef s1 = lastTransferActivityRef s) as Hl1.
    { rewrite Hs1. by cbn. }
    rewrite <- Hl1 in Hagain.
    rewrite (watchdog_late_tick r d again s1 Hw1 Hd1 He1 Hp1 Hagain).
    cbn. rewrite Hc1, <- app_assoc. reflexivity. }
  repeat split; try done.
  - by apply Ha3.
  - by rewrite Hc3, Hc2.
Qed.

(** Two ticks before the first write has settled: ABORT is written twice. *)
Lemma second_tick_before_settling_writes_abort_again :
  transferTimeoutCheckerRef busy = Some benchRender
  /\ deviceRef busy = Some benchDevice
  /\ transferInProgressRef busy = true
  /\ lastTransferActivityRef busy = 0
  /\ usbCalls busy = []
  /\ usbCalls (run [EvWatchdog 15001; EvWatchdog 16001;
                    EvAbortSettled; EvAbortSettled] busy)
     = [Write (deviceId benchDevice) (lit "ABORT" ++ [LF]);
        Write (deviceId benchDevice) (lit "ABORT" ++ [LF])].
Proof. repeat split; vm_compute; reflexivity. Qed.

(** ** The SCREENTIME command *)

Lemma startsWith_app p s : startsWith p (p ++ s) = true.
Proof.
  induction p as [|a p IH]; simpl; [by destruct s|].
  by rewrite Z.eqb_refl, IH.
Qed.

Lemma digitRun_digits ds :
  Forall (fun c => isDigit c = true) ds -> digitRun ds = ds.
Proof. induction 1 as [|c t Hc _ IH]; simpl; [done|]. by rewrite Hc, IH. Qed.

Lemma digit_not_space c : isDigit c = true -> isWhiteSpace c = false.
Proof.
  unfold isDigit, isWhiteSpace. intros H.
  apply andb_true_iff in H as [H1 H2].
  apply Z.leb_le in H1. apply Z.leb_le in H2.
  repeat (apply orb_false_iff; split);
    try (apply Z.eqb_neq; lia).
  apply andb_false_iff. left. apply Z.leb_gt. lia.
Qed.

Lemma trimStart_id c t : isWhiteSpace c = false -> trimStart (c :: t) = c :: t.
Proof. intros H. simpl. by rewrite H. Qed.

Lemma trimEnd_id t c : isWhiteSpace c = false -> trimEnd (t ++ [c]) = t ++ [c].
Proof.
  intros H. unfold trimEnd. rewrite rev_app_distr.
  change (rev [c] ++ rev t) with (c :: rev t).
  rewrite trimStart_id by done.
  change (c :: rev t) with (rev [c] ++ rev t).
  by rewrite <- rev_app_distr, rev_involutive.
Qed.

Lemma trim_screentime digits :
  digits <> [] -> Forall (fun c => isDigit c = true) digits ->
  trim (SCREENTIME ++ digits) = SCREENTIME ++ digits.
Proof.
  intros Hne Hd. unfold trim.
  destruct (exists_last Hne) as (front & c & ->).
  assert (trimStart (SCREENTIME ++ front ++ [c]) = SCREENTIME ++ front ++ [c])
    as -> by reflexivity.
  rewrite app_assoc. apply trimEnd_id, digit_not_space.
  apply Forall_app in Hd as [_ Hc]. by inversion Hc.
Qed.

Lemma matchScreentime_digits digits :
  digits <> [] -> Forall (fun c => isDigit c = true) digits ->
  matchScreentime (SCREENTIME ++ digits) = Some digits.
Proof.
  intros Hne Hd.
  assert (drop (length SCREENTIME) (SCREENTIME ++ digits) = digits) as Hdrop
    by apply drop_app_length.
  destruct digits as [|c t]; [done|].
  change (matchScreentime (SCREENTIME ++ c :: t))
    with (if startsWith SCREENTIME (SCREENTIME ++ c :: t)
             && truthy (digitRun
                          (drop (length SCREENTIME) (SCREENTIME ++ c :: t)))
          then Some (digitRun
                       (drop (length SCREENTIME) (SCREENTIME ++ c :: t)))
          else matchScreentime (tail (SCREENTIME ++ c :: t))).
  rewrite startsWith_app, Hdrop, (digitRun_digits _ Hd). reflexivity.
Qed.

(** ** The image list and the image loop *)

#[export] Instance sameImages_preorder : PreOrder sameImages.
Proof. split; unfold sameImages; [done | intros ???; congruence]. Qed.

#[export] Instance loopKept_preorder : PreOrder loopKept.
Proof.
  split; unfold loopKept; [by auto|].
  intros s1 s2 s3 [H1 H2] [G1 G2]. split; [congruence|].
  destruct G2 as [G2|G2]; [|by right].
  destruct H2 as [H2|H2]; [left | right]; congruence.
Qed.

#[export] Instance tame_preorder : PreOrder tame.
Proof.
  split; [by split|].
  intros s1 s2 s3 [] []. split; by etransitivity.
Qed.

Lemma steady_tame s s' : steady s s' -> tame s s'.
Proof.
  intros H. split; [unfold sameImages; by rewrite (steady_react _ _ H)|].
  split; [apply H | left; apply H].
Qed.

Lemma tame_addMonitorEntry r msg t s : tame s (addMonitorEntry r msg t s).
Proof. apply steady_tame, steady_addMonitorEntry. Qed.

Lemma tame_stopImageLoop r s : tame s (stopImageLoop r s).
Proof.
  unfold stopImageLoop. destruct (imageLoopIntervalRef s); [|reflexivity].
  etransitivity; [|apply tame_addMonitorEntry].
  split; [done | split; [done | by right]].
Qed.

Lemma stopImageLoop_interval r s :
  imageLoopIntervalRef (stopImageLoop r s) = None.
Proof.
  unfold stopImageLoop. destruct (imageLoopIntervalRef s) eqn:H; [|done].
  by rewrite (steady_interval _ _ (steady_addMonitorEntry _ _ _ _)).
Qed.

Lemma tame_sendImageToDevice r sch imageData :
  keeps tame (sendImageToDevice r sch imageData).
Proof.
  eapply keeps_weaken; [apply steady_tame | apply steadyM_sendImageToDevice].
Qed.

Lemma tame_usbWrite data during : keeps tame (usbWrite data during).
Proof. eapply keeps_weaken; [apply steady_tame | apply steadyM_usbWrite]. Qed.

Lemma tame_log r msg t : keeps tame (log r msg t).
Proof. eapply keeps_weaken; [apply steady_tame | apply steadyM_log]. Qed.

Lemma tame_delay during : keeps tame (delay during).
Proof. eapply keeps_weaken; [apply steady_tame | apply steadyM_delay]. Qed.

Lemma tame_executeCommand r commandId during s :
  tame s (snd (executeCommand r commandId during s)).
Proof.
  unfold executeCommand.
  destruct (_ || _); [apply tame_addMonitorEntry|].
  set (s0 := match imageLoopIntervalRef s with
             | Some _ => _
             | None => s
             end).
  assert (tame s s0) as H0.
  { subst s0. destruct (imageLoopIntervalRef s); [|reflexivity].
    etransitivity; [|apply tame_addMonitorEntry].
    split; [done | split; [done | by right]]. }
  cbv zeta.
  assert (forall text,
            tame s (snd (match
                           (usbWrite (text ++ [LF]) during >>
                            log r (lit "Sent command: " ++ text) SENT) s0
                         with
                         | Returned _ s' => (Completed, s')
                         | Threw error s' =>
                             (Recovering error,
                              addMonitorEntry r
                                (lit "Command error: " ++ error) ERROR s')
                         end))) as Hsend.
  { intros text.
    assert (keeps tame (usbWrite (text ++ [LF]) during >>
                        log r (lit "Sent command: " ++ text) SENT)) as Hk
      by (apply keeps_bind; [apply _ | apply tame_usbWrite
                            | intros; apply tame_log]).
    specialize (Hk s0).
    destruct ((usbWrite _ _ >> _) s0); simpl in *.
    - by etransitivity.
    - etransitivity; [exact H0|].
      etransitivity; [exact Hk | apply tame_addMonitorEntry]. }
  destruct (negb _); [etransitivity; [exact H0 | apply tame_addMonitorEntry]|].
  destruct (String.eqb _ _); [|apply Hsend].
  destruct (matchScreentime _);
    [|etransitivity; [exact H0 | apply tame_addMonitorEntry]].
  destruct (_ || _); [|apply Hsend].
  etransitivity; [exact H0 | apply tame_addMonitorEntry].
Qed.

Lemma tame_clearImage r duringWrite duringDelay s :
  tame s (snd (clearImage r duringWrite duringDelay s)).
Proof.
  unfold clearImage.
  destruct (_ || _); [apply tame_addMonitorEntry|].
  match goal with
  | |- tame s (snd (match ?m s with _ => _ end)) =>
      assert (keeps tame m) as Hk
  end.
  { repeat first
      [ apply keeps_bind; [apply _ | | intros ?]
      | apply tame_usbWrite | apply tame_log | apply tame_delay
      | apply keeps_exec; intros ?; apply steady_tame; auto with steady ]. }
  specialize (Hk s).
  match goal with
  | |- tame s (snd (match ?x with _ => _ end)) => destruct x
  end; simpl in *; [exact Hk|].
  etransitivity; [exact Hk | apply tame_addMonitorEntry].
Qed.

Lemma loopKept_pickImage r response s : loopKept s (pickImage r response s).
Proof.
  unfold pickImage.
  destruct (negb _); [apply tame_addMonitorEntry|].
  destruct response as [| |[[|a l]|]|]; try reflexivity;
    try apply tame_addMonitorEntry.
  destruct (_ <? _)%nat; [apply tame_addMonitorEntry|].
  etransitivity; [|apply tame_addMonitorEntry].
  split; [done | by left].
Qed.

Lemma loopKept_removeImage r index s : loopKept s (removeImage r index s).
Proof.
  unfold removeImage. cbv zeta.
  assert (loopKept s (setUploadedImages (fun prev => delete index prev) s))
    as H by (split; [done | by left]).
  destruct (_ && _); [|exact H].
  etransitivity; [exact H | apply tame_stopImageLoop].
Qed.

Lemma loopKept_clearAllImages r during s :
  loopKept s (snd (clearAllImages r during s)).
Proof.
  unfold clearAllImages.
  destruct (_ || _); [apply tame_addMonitorEntry|].
  match goal with
  | |- loopKept s (snd (match ?m s with _ => _ end)) =>
      assert (keeps loopKept m) as Hk
  end.
  { repeat first
      [ apply keeps_bind; [apply _ | | intros ?]
      | eapply keeps_weaken; [|apply tame_usbWrite]; by intros ?? []
      | eapply keeps_weaken; [|apply tame_log]; by intros ?? []
      | apply keeps_exec; intros ?; apply tame_stopImageLoop
      | apply keeps_exec; intros ?; split; [done | by left] ]. }
  specialize (Hk s).
  match goal with
  | |- loopKept s (snd (match ?x with _ => _ end)) => destruct x
  end; simpl in *; [exact Hk|].
  etransitivity; [exact Hk | apply tame_addMonitorEntry].
Qed.

(** The four ways a round of the loop can go. *)
Lemma displayNextImage_cases r sch s :
  let s' := displayNextImage r sch s in
  s' = stopImageLoop r s
  \/ s' = stopImageLoop r
            (addMonitorEntry r
               (lit "Error in image loop: " ++ undefinedImageError) ERROR s)
  \/ (exists image e s1,
        sendImageToDevice r sch (base64 image) s = Threw e s1
        /\ s' = stopImageLoop r
                  (addMonitorEntry r (lit "Error in image loop: " ++ e)
                     ERROR s1))
  \/ (exists image s1,
        length (uploadedImages r) <> 0%nat
        /\ uploadedImages r !! currentImageIndexRef s = Some image
        /\ sendImageToDevice r sch (base64 image) s = Returned tt s1
        /\ s' = addMonitorEntry r
                  (lit "Displaying image "
                   ++ ofInt (Z.of_nat
                               ((currentImageIndexRef s1 + 1)
                                  mod length (uploadedImages r))%nat + 1)
                   ++ lit " of "
                   ++ ofInt (Z.of_nat (length (uploadedImages r)))) INFO
                  (setCurrentImageIndex
                     ((currentImageIndexRef s1 + 1)
                        mod length (uploadedImages r))%nat s1)).
Proof.
  cbv zeta. unfold displayNextImage.
  destruct (negb (isDeviceConnected r)
            || bool_decide (length (uploadedImages r) = 0%nat)) eqn:Hguard;
    [by left|].
  apply orb_false_iff in Hguard as [_ Hlen].
  apply bool_decide_eq_false in Hlen.
  unfold tryCatch, bind, read, ret, throw, exec, log. cbv beta.
  destruct (uploadedImages r !! currentImageIndexRef s) as [image|] eqn:Hl.
  - destruct (sendImageToDevice r sch (base64 image) s) as [[] s1|e s1] eqn:Hs.
    + right. right. right. exists image, s1. by repeat split.
    + right. right. left. exists image, e, s1. by split.
  - right. left. reflexivity.
Qed.

(** One round of the loop: it ends with the interval cleared and the index
    where it was, or with the interval as before and the index advanced
    inside the array the closure captured. *)
Lemma displayNextImage_round r sch s :
  let s' := displayNextImage r sch s in
  sameImages s s'
  /\ ((imageLoopIntervalRef s' = None
       /\ currentImageIndexRef s' = currentImageIndexRef s)
      \/ (imageLoopIntervalRef s' = imageLoopIntervalRef s
          /\ (currentImageIndexRef s' < length (uploadedImages r))%nat)).
Proof.
  cbv zeta.
  assert (forall x, tame s x ->
            sameImages s (stopImageLoop r x)
            /\ ((imageLoopIntervalRef (stopImageLoop r x) = None
                 /\ currentImageIndexRef (stopImageLoop r x)
                    = currentImageIndexRef s)
                \/ (imageLoopIntervalRef (stopImageLoop r x)
                    = imageLoopIntervalRef s
                    /\ (currentImageIndexRef (stopImageLoop r x)
                        < length (uploadedImages r))%nat))) as Hstop.
  { intros x Hx.
    assert (tame s (stopImageLoop r x)) as [Hi [Hidx _]]
      by (etransitivity; [exact Hx | apply tame_stopImageLoop]).
    split; [exact Hi|]. left. split; [apply stopImageLoop_interval | exact Hidx]. }
  destruct (displayNextImage_cases r sch s)
    as [->|[->|[(image & e & s1 & Hsend & ->)
               |(image & s1 & Hlen & Hl & Hsend & ->)]]].
  - by apply Hstop.
  - apply Hstop, tame_addMonitorEntry.
  - apply Hstop.
    pose proof (steadyM_sendImageToDevice r sch (base64 image) s) as Hst.
    rewrite Hsend in Hst. simpl in Hst.
    etransitivity; [apply steady_tame, Hst | apply tame_addMonitorEntry].
  - pose proof (steadyM_sendImageToDevice r sch (base64 image) s) as Hst.
    rewrite Hsend in Hst. simpl in Hst.
    split.
    + unfold sameImages.
      rewrite (steady_react _ _ (steady_addMonitorEntry _ _ _ _)).
      simpl. by rewrite (steady_react _ _ Hst).
    + right.
      rewrite (steady_interval _ _ (steady_addMonitorEntry _ _ _ _)),
        (steady_index _ _ (steady_addMonitorEntry _ _ _ _)).
      simpl. split; [apply Hst|]. by apply Nat.mod_upper_bound.
Qed.

Lemma loopKept_inBounds s s' : loopKept s s' -> loopInBounds s -> loopInBounds s'.
Proof.
  intros [Hx [Hi|Hi]] H r Hr; [|congruence].
  rewrite Hx. apply H. congruence.
Qed.

Lemma loopTick_inBounds sch s : loopInBounds s -> loopInBounds (loopTick sch s).
Proof.
  intros H. unfold loopTick.
  destruct (imageLoopIntervalRef s) as [r|] eqn:Hr; [|exact H].
  destruct (displayNextImage_round r sch s) as [_ [[Hn _]|[Hi Hx]]];
    intros r' Hr'; [congruence|].
  rewrite Hi, Hr in Hr'. by inversion Hr'; subst.
Qed.

Lemma startImageLoop_inBounds r sch s :
  loopInBounds s -> loopInBounds (startImageLoop r sch s).
Proof.
  intros H. unfold startImageLoop.
  destruct (negb (isDeviceConnected r)
            || bool_decide (length (uploadedImages r) = 0%nat)) eqn:Hguard;
    [exact H|].
  apply orb_false_iff in Hguard as [_ Hlen].
  apply bool_decide_eq_false in Hlen.
  cbv zeta. intros r' Hr'.
  rewrite (steady_interval _ _ (steady_addMonitorEntry _ _ _ _)) in Hr'.
  rewrite (steady_index _ _ (steady_addMonitorEntry _ _ _ _)).
  simpl in Hr'. inversion Hr'; subst r'. simpl.
  match goal with
  | |- (currentImageIndexRef (displayNextImage r sch ?x) < _)%nat =>
      destruct (displayNextImage_round r sch x) as [_ [[_ Hx]|[_ Hx]]]
  end; [|exact Hx].
  rewrite Hx. simpl. lia.
Qed.

Lemma sameImages_loopTick sch s : sameImages s (loopTick sch s).
Proof.
  unfold loopTick. destruct (imageLoopIntervalRef s); [|reflexivity].
  apply displayNextImage_round.
Qed.

Lemma sameImages_startImageLoop r sch s : sameImages s (startImageLoop r sch s).
Proof.
  unfold startImageLoop. destruct (_ || _); [reflexivity|]. cbv zeta.
  etransitivity; [|apply tame_addMonitorEntry].
  match goal with
  | |- sameImages s (setImageLoopInterval _ (displayNextImage r sch ?x)) =>
      transitivity x;
        [|transitivity (displayNextImage r sch x);
          [apply displayNextImage_round | done]]
  end.
  transitivity (stopImageLoop r s); [apply tame_stopImageLoop | done].
Qed.

Lemma step_inBounds a s : loopInBounds s -> loopInBounds (step a s).
Proof.
  intros H. destruct a; simpl.
  - eapply loopKept_inBounds; [apply steady_tame, steady_handle | exact H].
  - by apply loopTick_inBounds.
  - exact H.
  - eapply loopKept_inBounds; [apply tame_executeCommand | exact H].
  - eapply loopKept_inBounds; [apply loopKept_pickImage | exact H].
  - eapply loopKept_inBounds; [apply loopKept_removeImage | exact H].
  - eapply loopKept_inBounds; [apply loopKept_clearAllImages | exact H].
  - eapply loopKept_inBounds; [apply tame_clearImage | exact H].
  - by apply startImageLoop_inBounds.
  - eapply loopKept_inBounds; [apply tame_stopImageLoop | exact H].
Qed.

Lemma steps_inBounds actions s :
  loopInBounds s -> loopInBounds (steps actions s).
Proof.
  unfold steps. revert s.
  induction actions as [|a rest IH]; intros s H; simpl; [exact H|].
  apply IH. by apply step_inBounds.
Qed.

(** A round that was suspended in its transfer and goes on after the loop
    was restarted writes an index computed with its own array. *)
Lemma displayNextImageResumed_index r s :
  currentImageIndexRef (displayNextImageResumed r s)
  = ((currentImageIndexRef s + 1) mod length (uploadedImages r))%nat
  /\ imageLoopIntervalRef (displayNextImageResumed r s)
     = imageLoopIntervalRef s.
Proof.
  unfold displayNextImageResumed. cbv zeta.
  pose proof (steady_addMonitorEntry r
    (lit "Displaying image "
     ++ ofInt (Z.of_nat ((currentImageIndexRef s + 1)
                           mod length (uploadedImages r))%nat + 1)
     ++ lit " of " ++ ofInt (Z.of_nat (length (uploadedImages r)))) INFO
    (setCurrentImageIndex
       ((currentImageIndexRef s + 1) mod length (uploadedImages r))%nat s))
    as H.
  split; [by rewrite (steady_index _ _ H) | by rewrite (steady_interval _ _ H)].
Qed.

(** C3, as the code has it.  When every round of the loop and every button
    handler has run to its end before the next one starts, then, while the
    interval of the image loop is set, the active index is strictly less
    than the length of the image array the loop captured when it was
    started.  [removeImage] does not clamp: it leaves the active index as it
    is, and the loop either keeps running over the array it captured or is
    stopped.  Without the proviso the bound fails: a round that is resumed
    after its transfer while another loop is installed sets the index to the
    old index plus one modulo the length of its own array, and when that is
    not below the length of the array of the installed loop the index is out
    of bounds. *)
Theorem loop_index_within_captured_images
    (actions : list Action) (index : nat) (s : State) :
  loopInBounds s ->
  loopInBounds (steps actions s)
  /\ currentImageIndexRef (removeImage (react s) index s)
     = currentImageIndexRef s
  /\ (imageLoopIntervalRef (removeImage (react s) index s)
      = imageLoopIntervalRef s
      \/ imageLoopIntervalRef (removeImage (react s) index s) = None)
  /\ (forall older installed,
        imageLoopIntervalRef (steps actions s) = Some installed ->
        (length (uploadedImages installed)
         <= (currentImageIndexRef (steps actions s) + 1)
              mod length (uploadedImages older))%nat ->
        ~ loopInBounds (displayNextImageResumed older (steps actions s))).
Proof.
  intros H. split; [|split; [apply loopKept_removeImage|split;
                                [apply loopKept_removeImage|]]].
  - by apply steps_inBounds.
  - intros older installed Hloop Hout Hin.
    destruct (displayNextImageResumed_index older (steps actions s))
      as [Hindex Hinterval].
    specialize (Hin installed). rewrite Hinterval, Hindex in Hin.
    specialize (Hin Hloop). lia.
Qed.

Lemma sameImages_withinLimit s s' :
  sameImages s s' -> withinLimit s -> withinLimit s'.
Proof. unfold sameImages, withinLimit. by intros ->. Qed.

Lemma pickImage_withinLimit response s :
  withinLimit s -> withinLimit (pickImage (react s) response s).
Proof.
  intros H. unfold pickImage.
  destruct (negb _);
    [eapply sameImages_withinLimit; [apply tame_addMonitorEntry | exact H]|].
  destruct response as [| |[[|a l]|]|]; try exact H;
    try (eapply sameImages_withinLimit; [apply tame_addMonitorEntry | exact H]).
  destruct (MAX_IMAGES <? _)%nat eqn:Hfull;
    [eapply sameImages_withinLimit; [apply tame_addMonitorEntry | exact H]|].
  apply Nat.ltb_ge in Hfull.
  eapply sameImages_withinLimit; [apply tame_addMonitorEntry|].
  unfold withinLimit. simpl. rewrite length_app. exact Hfull.
Qed.

Lemma length_delete_le {A} (l : list A) i :
  (length (delete i l) <= length l)%nat.
Proof.
  revert i. induction l as [|x l IH]; intros [|i]; simpl; try lia.
  specialize (IH i). lia.
Qed.

Lemma removeImage_withinLimit r index s :
  withinLimit s -> withinLimit (removeImage r index s).
Proof.
  intros H. unfold removeImage. cbv zeta.
  assert (withinLimit (setUploadedImages (fun prev => delete index prev) s))
    as H'.
  { unfold withinLimit in *. simpl.
    pose proof (length_delete_le (uploadedImages (react s)) index). lia. }
  destruct (_ && _); [|exact H'].
  eapply sameImages_withinLimit; [apply tame_stopImageLoop | exact H'].
Qed.

Lemma clearAllImages_withinLimit r during s :
  withinLimit s -> withinLimit (snd (clearAllImages r during s)).
Proof.
  intros H. unfold clearAllImages.
  destruct (_ || _);
    [eapply sameImages_withinLimit; [apply tame_addMonitorEntry | exact H]|].
  unfold bind at 1, exec at 1. cbv beta iota.
  unfold bind at 1, exec at 1. cbv beta iota.
  set (x := setUploadedImages (fun _ => []) (stopImageLoop r s)).
  assert (withinLimit x) as Hx by (unfold withinLimit, MAX_IMAGES; simpl; lia).
  assert (keeps sameImages
            (usbWrite (lit "CLEAR_IMAGE" ++ [LF]) during >>
             log r (lit "Cleared all images") SUCCESS)) as Hk.
  { apply keeps_bind; [apply _| |intros ?].
    - eapply keeps_weaken; [|apply tame_usbWrite]. by intros ?? [].
    - eapply keeps_weaken; [|apply tame_log]. by intros ?? []. }
  specialize (Hk x).
  destruct ((usbWrite _ _ >> _) x); simpl in *.
  - by eapply sameImages_withinLimit.
  - eapply sameImages_withinLimit; [apply tame_addMonitorEntry|].
    by eapply sameImages_withinLimit.
Qed.

Lemma step_withinLimit a s : withinLimit s -> withinLimit (step a s).
Proof.
  intros H. destruct a; simpl.
  - eapply sameImages_withinLimit; [apply steady_tame, steady_handle | exact H].
  - eapply sameImages_withinLimit; [apply sameImages_loopTick | exact H].
  - exact H.
  - eapply sameImages_withinLimit; [apply tame_executeCommand | exact H].
  - by apply pickImage_withinLimit.
  - by apply removeImage_withinLimit.
  - by apply clearAllImages_withinLimit.
  - eapply sameImages_withinLimit; [apply tame_clearImage | exact H].
  - eapply sameImages_withinLimit; [apply sameImages_startImageLoop | exact H].
  - eapply sameImages_withinLimit; [apply tame_stopImageLoop | exact H].
Qed.

(** When every press of Add Image runs to its end in the render that shows
    the current list, and the picker of one press has answered before the
    next press, at most [MAX_IMAGES] images stay at most [MAX_IMAGES]. *)
Lemma steps_withinLimit actions s :
  withinLimit s -> withinLimit (steps actions s).
Proof.
  unfold steps. revert s.
  induction actions as [|a rest IH]; intros s H; simpl; [exact H|].
  apply IH. by apply step_withinLimit.
Qed.

(** C10, as the code has it.  [pickImage] compares the batch with the number
    of images of the render in which the button was pressed and appends to
    the list as it is when the picker answers.  A batch that fits the count
    of the render is appended, a larger one leaves the list as it is.  When
    the list is still the one of that render the limit of [MAX_IMAGES] = 6
    is kept; when it has grown in between (a second picker was opened before
    the first one answered) the batch is appended all the same and the list
    exceeds the limit. *)
Theorem pickImage_checks_the_count_of_its_render
    (r : Render) (assets : list Asset) (s : State) :
  isDeviceConnected r = true -> assets <> [] ->
  let s' := pickImage r (Picked (Some assets)) s in
  ((length (uploadedImages r) + length assets <= MAX_IMAGES)%nat ->
   uploadedImages (react s')
   = uploadedImages (react s) ++ List.map toUploadedImage assets)
  /\ ((MAX_IMAGES < length (uploadedImages r) + length assets)%nat ->
      uploadedImages (react s') = uploadedImages (react s))
  /\ (uploadedImages (react s) = uploadedImages r ->
      withinLimit s -> withinLimit s')
  /\ ((length (uploadedImages r) + length assets <= MAX_IMAGES)%nat ->
      (MAX_IMAGES < length (uploadedImages (react s)) + length assets)%nat ->
      ~ withinLimit s').
Proof.
  intros Hc Hne s'.
  assert (((length (uploadedImages r) + length assets <= MAX_IMAGES)%nat ->
           uploadedImages (react s')
           = uploadedImages (react s) ++ List.map toUploadedImage assets)
          /\ ((MAX_IMAGES < length (uploadedImages r) + length assets)%nat ->
              uploadedImages (react s') = uploadedImages (react s)))
    as [Hfits Hlarge].
  { subst s'. unfold pickImage. rewrite Hc. cbn [negb]. cbv iota.
    destruct assets as [|a l]; [done|].
    rewrite length_map.
    destruct (MAX_IMAGES <? _)%nat eqn:Hfull.
    - apply Nat.ltb_lt in Hfull. split; [lia|]. intros _.
      apply (tame_addMonitorEntry r).
    - apply Nat.ltb_ge in Hfull. split; [|lia]. intros _.
      by rewrite (steady_react _ _ (steady_addMonitorEntry _ _ _ _)). }
  split; [exact Hfits|]. split; [exact Hlarge|]. split.
  - intros Hsame H. unfold withinLimit in *.
    destruct (le_lt_dec (length (uploadedImages r) + length assets) MAX_IMAGES)
      as [Hle|Hlt].
    + rewrite (Hfits Hle), length_app, length_map, Hsame. exact Hle.
    + by rewrite (Hlarge Hlt).
  - intros Hle Hgrown. unfold withinLimit.
    rewrite (Hfits Hle), length_app, length_map. lia.
Qed.

(** ** Strings *)

Lemma startsWith_app_l p s t :
  startsWith p s = true -> startsWith p (s ++ t) = true.
Proof.
  revert s. induction p as [|a p IH]; intros [|b s]; simpl; try done.
  intros H. apply andb_true_iff in H as [-> H]. by apply IH.
Qed.

Lemma includes_app_l p s t : includes p s = true -> includes p (s ++ t) = true.
Proof.
  induction s as [|c s IH]; simpl.
  - rewrite orb_false_r. intros H. destruct p; [|done]. by destruct t.
  - intros H. apply orb_true_iff in H as [H|H].
    + change (c :: s ++ t) with ((c :: s) ++ t).
      by rewrite (startsWith_app_l _ _ t H).
    + by rewrite (IH H), orb_true_r.
Qed.

Lemma includes_app_r p s t : includes p t = true -> includes p (s ++ t) = true.
Proof.
  intros H. induction s as [|c s IH]; simpl; [done|].
  by rewrite IH, orb_true_r.
Qed.

Lemma startsWith_In p s c : startsWith p s = true -> In c p -> In c s.
Proof.
  revert s. induction p as [|a p IH]; intros [|b s]; simpl; try done.
  intros H. apply andb_true_iff in H as [Hab H]. apply Z.eqb_eq in Hab.
  intros [->|Hc]; [by left | right; by apply IH].
Qed.

Lemma includes_In p s c : includes p s = true -> In c p -> In c s.
Proof.
  induction s as [|b s IH]; simpl.
  - rewrite orb_false_r. destruct p; [done | done].
  - intros H Hc. apply orb_true_iff in H as [H|H].
    + by apply (startsWith_In p (b :: s) c).
    + right. by apply IH.
Qed.

Lemma removeFirst_eq p s :
  removeFirst p s
  = if startsWith p s then drop (length p) s
    else match s with
         | [] => []
         | c :: t => c :: removeFirst p t
         end.
Proof. by destruct s. Qed.

Lemma In_drop {A} n (l : list A) x : In x (drop n l) -> In x l.
Proof.
  intros H. rewrite <- (take_drop n l). apply in_or_app. by right.
Qed.

Lemma removeFirst_In p s c : In c (removeFirst p s) -> In c s.
Proof.
  induction s as [|b s IH]; rewrite removeFirst_eq;
    destruct (startsWith p _); try apply In_drop; [done|].
  intros [->|H]; [by left | right; by apply IH].
Qed.

Lemma removeFirst_absent p s : includes p s = false -> removeFirst p s = s.
Proof.
  induction s as [|b s IH]; simpl.
  - rewrite orb_false_r. by intros ->.
  - intros H. apply orb_false_iff in H as [-> H]. by rewrite IH.
Qed.

(** Induction that follows the recursion of [splitLines]. *)
Lemma list_pair_ind {A} (P : list A -> Prop) :
  P [] -> (forall c, P [c]) ->
  (forall c d t, P t -> P (d :: t) -> P (c :: d :: t)) ->
  forall l, P l.
Proof.
  intros H0 H1 H2 l.
  assert (P l /\ forall c, P (c :: l)) as [H _]; [|exact H].
  induction l as [|d t [IH1 IH2]]; [by split|].
  split; [apply IH2|]. intros c. apply H2; [exact IH1 | apply IH2].
Qed.

Lemma splitLines_nonempty s : splitLines s <> [].
Proof.
  induction s as [|c|c d t IH1 IH2] using list_pair_ind; try done.
  - simpl. by destruct (c =? LF), (c =? CR).
  - simpl. simpl in IH2.
    destruct (c =? LF); [done|]. destruct (c =? CR).
    + destruct (d =? LF); [done|].
      destruct (if d =? CR then _ else _); done.
    + destruct (if d =? LF then _ else _); done.
Qed.

Lemma splitLines_parts s : splitLines s = completeLines s ++ [lastSegment s].
Proof. apply app_removelast_last, splitLines_nonempty. Qed.

Lemma consHead_app c l l' :
  l <> [] -> consHead c (l ++ l') = consHead c l ++ l'.
Proof. by destruct l. Qed.

Lemma parts_of s l x :
  splitLines s = l ++ [x] -> completeLines s = l /\ lastSegment s = x.
Proof.
  intros H. unfold completeLines, lastSegment. rewrite H.
  by rewrite removelast_last, last_last.
Qed.

Lemma splitLines_LF t : splitLines (LF :: t) = [] :: splitLines t.
Proof. reflexivity. Qed.

Lemma splitLines_CRLF t : splitLines (CR :: LF :: t) = [] :: splitLines t.
Proof. reflexivity. Qed.

Lemma splitLines_other c z :
  c <> LF -> (c = CR -> head z <> Some LF) ->
  splitLines (c :: z) = consHead c (splitLines z).
Proof.
  intros H1 H2. simpl.
  destruct (c =? LF) eqn:E1; [by apply Z.eqb_eq in E1|].
  destruct (c =? CR) eqn:E2; [|done].
  apply Z.eqb_eq in E2. destruct z as [|d t]; [done|].
  destruct (d =? LF) eqn:E3; [|done].
  apply Z.eqb_eq in E3. subst. by destruct (H2 eq_refl).
Qed.

(** How a string starts: with a line end, or with a code unit that belongs
    to its first segment. *)
Lemma splitLines_head c z :
  (c = LF /\ splitLines (c :: z) = [] :: splitLines z)
  \/ (exists t, c = CR /\ z = LF :: t /\ splitLines (c :: z) = [] :: splitLines t)
  \/ (c <> LF /\ (c = CR -> head z <> Some LF)
      /\ splitLines (c :: z) = consHead c (splitLines z)).
Proof.
  destruct (decide (c = LF)) as [->|Hc]; [by left|]. right.
  destruct (decide (c = CR)) as [->|Hr].
  - destruct z as [|d t].
    + right. split; [done|]. split; [done|]. by apply splitLines_other.
    + destruct (decide (d = LF)) as [->|Hd].
      * left. by exists t.
      * right. split; [done|]. split; [intros _ [=]; done|].
        apply splitLines_other; [done|]. intros _ [=]. done.
  - right. split; [done|]. split; [done|]. by apply splitLines_other.
Qed.

Lemma completeLines_cons_nil t : completeLines t <> [] \/ splitLines t = [t].
Proof.
  induction t as [|c|c d t IH1 IH2] using list_pair_ind.
  - by right.
  - destruct (splitLines_head c []) as [[-> H]|[(t & _ & [=] & _)|(H1 & H2 & H)]].
    + left. unfold completeLines. by rewrite H.
    + right. by rewrite H.
  - destruct (splitLines_head c (d :: t))
      as [[-> H]|[(t' & -> & [= -> ->] & H)|(H1 & H2 & H)]].
    + left. unfold completeLines. rewrite H.
      pose proof (splitLines_nonempty (d :: t)).
      by destruct (splitLines (d :: t)).
    + left. unfold completeLines. rewrite H.
      pose proof (splitLines_nonempty t').
      by destruct (splitLines t').
    + destruct IH2 as [IH2|IH2].
      * left. unfold completeLines in *. rewrite H.
        rewrite (splitLines_parts (d :: t)) in *.
        rewrite removelast_last in IH2.
        destruct (completeLines (d :: t)) as [|h r]; [done|].
        simpl consHead. change ((c :: h) :: r ++ [lastSegment (d :: t)])
          with (((c :: h) :: r) ++ [lastSegment (d :: t)]).
        by rewrite removelast_last.
      * right. by rewrite H, IH2.
Qed.

(** Splitting a concatenation: the complete lines of the first part, then the
    split of what the first part left over followed by the second part. *)
Lemma splitLines_app x y :
  splitLines (x ++ y) = completeLines x ++ splitLines (lastSegment x ++ y).
Proof.
  assert (forall c z,
            c <> LF -> (c = CR -> head z <> Some LF) -> z <> [] ->
            splitLines (z ++ y)
            = completeLines z ++ splitLines (lastSegment z ++ y) ->
            splitLines ((c :: z) ++ y)
            = completeLines (c :: z)
              ++ splitLines (lastSegment (c :: z) ++ y)) as Hother.
  { intros c z H1 H2 Hz IH.
    assert (splitLines ((c :: z) ++ y) = consHead c (splitLines (z ++ y)))
      as ->.
    { apply splitLines_other; [done|]. intros Hc. destruct z; [done|].
      apply (H2 Hc). }
    pose proof (splitLines_other c z H1 H2) as Hx.
    destruct (completeLines_cons_nil z) as [Hl|Hl].
    - rewrite IH. rewrite (splitLines_parts z) in Hx.
      destruct (completeLines z) as [|h r] eqn:El; [done|].
      change (consHead c ((h :: r) ++ [lastSegment z]))
        with (((c :: h) :: r) ++ [lastSegment z]) in Hx.
      apply parts_of in Hx as [-> ->]. reflexivity.
    - rewrite Hl in Hx. simpl in Hx.
      apply (parts_of (c :: z) []) in Hx as [-> ->].
      rewrite app_nil_l. change ((c :: z) ++ y) with (c :: (z ++ y)).
      symmetry. apply splitLines_other; [done|].
      intros Hc. destruct z; [done|]. apply (H2 Hc). }
  induction x as [|c|c d t IH1 IH2] using list_pair_ind.
  - reflexivity.
  - destruct (splitLines_head c []) as [[-> H]|[(t & _ & [=] & _)|(H1 & H2 & H)]].
    + apply (parts_of _ [[]]) in H as [-> ->]. reflexivity.
    + apply (parts_of _ []) in H as [-> ->]. reflexivity.
  - destruct (splitLines_head c (d :: t))
      as [[-> H]|[(t' & -> & [= -> ->] & H)|(H1 & H2 & H)]].
    + rewrite (splitLines_parts (d :: t)) in H.
      apply (parts_of _ ([] :: completeLines (d :: t))) in H as [-> ->].
      change ((LF :: d :: t) ++ y) with (LF :: (d :: t) ++ y).
      by rewrite splitLines_LF, IH2.
    + rewrite (splitLines_parts t') in H.
      apply (parts_of _ ([] :: completeLines t')) in H as [-> ->].
      change ((CR :: LF :: t') ++ y) with (CR :: LF :: t' ++ y).
      by rewrite splitLines_CRLF, IH1.
    + by apply Hother.
Qed.

Lemma completeLines_app x y :
  completeLines (x ++ y)
  = completeLines x ++ completeLines (lastSegment x ++ y).
Proof.
  unfold completeLines at 1. rewrite splitLines_app.
  rewrite (splitLines_parts (lastSegment x ++ y)), app_assoc.
  by rewrite removelast_last.
Qed.

Lemma lastSegment_app x y :
  lastSegment (x ++ y) = lastSegment (lastSegment x ++ y).
Proof.
  unfold lastSegment at 1. rewrite splitLines_app.
  rewrite (splitLines_parts (lastSegment x ++ y)), app_assoc.
  by rewrite last_last.
Qed.

(** The last segment is the end of the string. *)
Lemma lastSegment_suffix s : exists front, s = front ++ lastSegment s.
Proof.
  induction s as [|c|c d t IH1 IH2] using list_pair_ind.
  - by exists [].
  - destruct (splitLines_head c []) as [[-> H]|[(t & _ & [=] & _)|(H1 & H2 & H)]].
    + apply (parts_of _ [[]]) in H as [_ ->]. by exists [LF].
    + apply (parts_of _ []) in H as [_ ->]. by exists [].
  - destruct (splitLines_head c (d :: t))
      as [[-> H]|[(t' & -> & [= -> ->] & H)|(H1 & H2 & H)]].
    + rewrite (splitLines_parts (d :: t)) in H.
      apply (parts_of _ ([] :: completeLines (d :: t))) in H as [_ ->].
      destruct IH2 as [front Hf]. exists (LF :: front). simpl. by rewrite <- Hf.
    + rewrite (splitLines_parts t') in H.
      apply (parts_of _ ([] :: completeLines t')) in H as [_ ->].
      destruct IH1 as [front Hf]. exists (CR :: LF :: front). simpl.
      by rewrite <- Hf.
    + destruct (completeLines_cons_nil (d :: t)) as [Hl|Hl].
      * rewrite (splitLines_parts (d :: t)) in H.
        destruct (completeLines (d :: t)) as [|h r] eqn:El; [done|].
        change (consHead c ((h :: r) ++ [lastSegment (d :: t)]))
          with (((c :: h) :: r) ++ [lastSegment (d :: t)]) in H.
        apply parts_of in H as [_ ->].
        destruct IH2 as [front Hf]. exists (c :: front). simpl. by rewrite <- Hf.
      * rewrite Hl in H.
        change (consHead c [d :: t]) with ([] ++ [c :: d :: t]) in H.
        apply (parts_of _ []) in H as [_ ->]. by exists [].
Qed.

(** ** Text lines across chunks *)

Lemma findAck_app a b :
  findAck a = None -> findAck (a ++ b) = findAck b.
Proof.
  induction a as [|c a IH]; simpl; [done|].
  destruct (c =? 75); [done|]. destruct (c =? 69); [done|]. exact IH.
Qed.

Lemma noSignal_app a b : noSignal a -> noSignal b -> noSignal (a ++ b).
Proof.
  intros [H1 H2] [G1 G2]. split.
  - by rewrite existsb_app, H1, G1.
  - by rewrite findAck_app.
Qed.

Lemma received_app l1 l2 : received (l1 ++ l2) = received l1 ++ received l2.
Proof. unfold received. by rewrite List.filter_app, List.map_app. Qed.

Lemma logs_logMessages r lines s :
  logs (logMessages r lines s) = rev (received lines) ++ logs s.
Proof.
  revert s. induction lines as [|m ms IH]; intros s; [done|].
  rewrite logMessages_cons, IH. unfold received. simpl List.filter.
  destruct (truthy (trim m)); [|done].
  simpl. by rewrite <- app_assoc.
Qed.

Lemma includes_prefix_false p s t :
  includes p (s ++ t) = false -> includes p s = false.
Proof.
  intros H. destruct (includes p s) eqn:E; [|done].
  by rewrite (includes_app_l p s t E) in H.
Qed.

Lemma includes_suffix_false p s t :
  includes p (s ++ t) = false -> includes p t = false.
Proof.
  intros H. destruct (includes p t) eqn:E; [|done].
  by rewrite (includes_app_r p s t E) in H.
Qed.

(** A text chunk that completes no sentinel: the buffer grows by the decoded
    text, the complete lines are logged, the rest is kept. *)
Lemma onData_text r data now s :
  isDeviceConnected r = true -> noSignal data ->
  includes FRAME_LOST (messageBuffer s ++ textDecode data) = false ->
  includes INVALID_CMD (messageBuffer s ++ textDecode data) = false ->
  logs (onData r data now s)
  = rev (received (completeLines (messageBuffer s ++ textDecode data)))
    ++ logs s
  /\ messageBuffer (onData r data now s)
     = lastSegment (messageBuffer s ++ textDecode data).
Proof.
  intros Hc [Hr Ha] Hf Hi. unfold onData. rewrite Hc, Hr, Ha. cbn [negb].
  cbv iota. unfold processText. cbv zeta.
  unfold scanFrameLost. cbn [messageBuffer setMessageBuffer]. rewrite Hf.
  unfold scanInvalidCmd. cbn [messageBuffer setMessageBuffer]. rewrite Hi.
  unfold splitAndLog. cbv zeta. cbn [messageBuffer setMessageBuffer].
  fold (completeLines (messageBuffer s ++ textDecode data)).
  fold (lastSegment (messageBuffer s ++ textDecode data)).
  split.
  - cbn [logs setLastTransferActivity]. by rewrite logs_logMessages.
  - cbn [messageBuffer setLastTransferActivity].
    match goal with
    | |- messageBuffer (logMessages r ?l ?x) = _ =>
        destruct (logMessages_fields r l x) as (_ & _ & _ & _ & ->)
    end.
    reflexivity.
Qed.

(** C5, as the code has it.  Text without a signal byte ('R', 'K', 'E'),
    cut into two chunks whose decodings, one after the other, are the
    decoding of the whole text, and completing no FRAME_LOST or INVALID_CMD
    sentinel in the buffer: the entries logged for the two chunks are those
    logged for the text in one chunk, and the buffer left over is the same.
    The condition on the cut holds at every point of 7-bit text
    ([textDecode_ascii_app]); it fails inside a multi-byte character and
    before a byte order mark. *)
Theorem text_lines_split_invariant
    (r : Render) (a b : list Z) (now1 now2 now : Z) (s : State) :
  noSignal a -> noSignal b ->
  textDecode (a ++ b) = textDecode a ++ textDecode b ->
  includes FRAME_LOST (messageBuffer s ++ textDecode (a ++ b)) = false ->
  includes INVALID_CMD (messageBuffer s ++ textDecode (a ++ b)) = false ->
  let split := onData r b now2 (onData r a now1 s) in
  let whole := onData r (a ++ b) now s in
  logs split = logs whole /\ messageBuffer split = messageBuffer whole.
Proof.
  intros Ha Hb Hdec Hf Hi split whole.
  destruct (isDeviceConnected r) eqn:Hc;
    [|subst split whole; unfold onData; by rewrite Hc].
  destruct (onData_text r (a ++ b) now s Hc (noSignal_app a b Ha Hb) Hf Hi)
    as [Hwl Hwb].
  rewrite Hdec, app_assoc in Hf, Hi, Hwl, Hwb.
  set (x := messageBuffer s ++ textDecode a) in *.
  destruct (onData_text r a now1 s Hc Ha
              (includes_prefix_false _ _ _ Hf)
              (includes_prefix_false _ _ _ Hi)) as [H1l H1b].
  fold x in H1l, H1b.
  destruct (lastSegment_suffix x) as [front Hfront].
  assert (includes FRAME_LOST (lastSegment x ++ textDecode b) = false) as Hf2.
  { apply (includes_suffix_false _ front).
    by rewrite app_assoc, <- Hfront. }
  assert (includes INVALID_CMD (lastSegment x ++ textDecode b) = false) as Hi2.
  { apply (includes_suffix_false _ front).
    by rewrite app_assoc, <- Hfront. }
  rewrite <- H1b in Hf2, Hi2.
  destruct (onData_text r b now2 (onData r a now1 s) Hc Hb Hf2 Hi2)
    as [H2l H2b].
  subst split whole. rewrite H2l, H2b, Hwl, Hwb, H1l, H1b.
  split.
  - rewrite (completeLines_app x), received_app, rev_app_distr.
    by rewrite <- app_assoc.
  - by rewrite (lastSegment_app x).
Qed.

(** 7-bit text decodes to itself, so it can be cut anywhere. *)
Lemma utf8Run_ascii data :
  Forall (fun b => b <= 0x7F) data -> utf8Run utf8Init data = data.
Proof.
  induction 1 as [|b t Hb _ IH]; [done|].
  change (utf8Run utf8Init (b :: t))
    with (let '(st', out) := utf8Lead b in out ++ utf8Run st' t).
  unfold utf8Lead. rewrite (proj2 (Z.leb_le b 0x7F) Hb).
  cbv beta iota. cbn [app]. by rewrite IH.
Qed.

Lemma textDecode_ascii data :
  Forall (fun b => b <= 0x7F) data -> textDecode data = data.
Proof.
  intros H. unfold textDecode. rewrite (utf8Run_ascii data H).
  assert (stripBOM data = data) as ->.
  { destruct H as [|b t Hb _]; [done|]. unfold stripBOM.
    replace (b =? 0xFEFF) with false; [done|].
    symmetry. apply Z.eqb_neq. lia. }
  induction H as [|b t Hb _ IH]; [done|].
  cbn [List.map concat]. unfold utf16 at 1.
  replace (b <? 0x10000) with true by (symmetry; apply Z.ltb_lt; lia).
  cbn [app]. by rewrite IH.
Qed.

Lemma textDecode_ascii_app a b :
  Forall (fun c => c <= 0x7F) a -> Forall (fun c => c <= 0x7F) b ->
  textDecode (a ++ b) = textDecode a ++ textDecode b.
Proof.
  intros Ha Hb. rewrite !textDecode_ascii; try done. by apply Forall_app.
Qed.

(** ** What the decoder can produce

    A code unit below 0x80 comes out of [textDecode] only where the same
    byte went in. *)

Lemma lor_lower x y : 0 <= x -> 0 <= y -> x <= Z.lor x y /\ y <= Z.lor x y.
Proof.
  intros Hx Hy. split.
  - pose proof (Z.sub_lor_l_same_l y x) as H.
    assert (0 <= Z.land y (Z.lnot x)) by (apply Z.land_nonneg; by left). lia.
  - pose proof (Z.sub_lor_l_same_r x y) as H.
    assert (0 <= Z.land x (Z.lnot y)) by (apply Z.land_nonneg; by left). lia.
Qed.

Lemma land_low n v k : k = Z.ones n -> 0 <= n -> Z.land v k = v mod 2 ^ n.
Proof. intros -> Hn. by apply Z.land_ones. Qed.

Lemma utf8Lead_high b :
  openSequenceHigh (fst (utf8Lead b)) /\ Forall (sameOrHigh b) (snd (utf8Lead b)).
Proof.
  unfold utf8Lead.
  destruct (b <=? 0x7F).
  { cbn [fst snd]. split; [by left|]. constructor; [by left | constructor]. }
  destruct ((0xC2 <=? b) && (b <=? 0xDF)) eqn:E2.
  { apply andb_true_iff in E2 as [H1 H2].
    apply Z.leb_le in H1. apply Z.leb_le in H2.
    split; [|constructor]. right. cbn [fst codePoint bytesSeen bytesNeeded
                                       lowerBoundary upperBoundary].
    rewrite (land_low 5 b 0x1F) by done.
    Z.div_mod_to_equations. lia. }
  destruct ((0xE0 <=? b) && (b <=? 0xEF)) eqn:E3.
  { apply andb_true_iff in E3 as [H1 H2].
    apply Z.leb_le in H1. apply Z.leb_le in H2.
    split; [|constructor]. right. cbn [fst codePoint bytesSeen bytesNeeded
                                       lowerBoundary upperBoundary].
    rewrite (land_low 4 b 0xF) by done.
    destruct (b =? 0xE0) eqn:Ea;
      [apply Z.eqb_eq in Ea | apply Z.eqb_neq in Ea];
      (destruct (b =? 0xED) eqn:Eb;
       [apply Z.eqb_eq in Eb | apply Z.eqb_neq in Eb]);
      Z.div_mod_to_equations; lia. }
  destruct ((0xF0 <=? b) && (b <=? 0xF4)) eqn:E4.
  { apply andb_true_iff in E4 as [H1 H2].
    apply Z.leb_le in H1. apply Z.leb_le in H2.
    split; [|constructor]. right. cbn [fst codePoint bytesSeen bytesNeeded
                                       lowerBoundary upperBoundary].
    rewrite (land_low 3 b 0x7) by done.
    destruct (b =? 0xF0) eqn:Ea;
      [apply Z.eqb_eq in Ea | apply Z.eqb_neq in Ea];
      (destruct (b =? 0xF4) eqn:Eb;
       [apply Z.eqb_eq in Eb | apply Z.eqb_neq in Eb]);
      Z.div_mod_to_equations; lia. }
  cbn [fst snd]. split; [by left|].
  constructor; [right; unfold REPLACEMENT; lia | constructor].
Qed.

Lemma utf8Step_high st b :
  openSequenceHigh st ->
  openSequenceHigh (fst (utf8Step st b))
  /\ Forall (sameOrHigh b) (snd (utf8Step st b)).
Proof.
  intros Hst. unfold utf8Step.
  destruct (bytesNeeded st =? 0) eqn:E0; [apply utf8Lead_high|].
  apply Z.eqb_neq in E0.
  destruct Hst as [Hst|(Hlo & Hup & Hcp & Hrem)]; [done|].
  destruct (negb _) eqn:Ein.
  { destruct (utf8Lead_high b) as [H1 H2].
    destruct (utf8Lead b) as [st' out]. simpl in *.
    split; [exact H1|].
    constructor; [right; unfold REPLACEMENT; lia | exact H2]. }
  apply negb_false_iff, andb_true_iff in Ein as [H1 H2].
  apply Z.leb_le in H1. apply Z.leb_le in H2.
  assert (Z.land b 0x3F = b - 0x80) as Hlow.
  { rewrite (land_low 6 b 0x3F) by done. Z.div_mod_to_equations. lia. }
  assert (0 <= Z.shiftl (codePoint st) 6) as Hsh
    by (apply Z.shiftl_nonneg; lia).
  destruct (lor_lower (Z.shiftl (codePoint st) 6) (Z.land b 0x3F) Hsh)
    as [L1 L2]; [lia|].
  pose proof (Z.shiftl_mul_pow2 (codePoint st) 6 ltac:(lia)) as Hmul.
  change (2 ^ 6) with 64 in Hmul.
  destruct (bytesSeen st + 1 =? bytesNeeded st) eqn:Elast.
  - apply Z.eqb_eq in Elast.
    cbn [fst snd]. split; [by left|].
    constructor; [right; lia | constructor].
  - apply Z.eqb_neq in Elast. split; [|constructor].
    right. cbn [fst codePoint bytesSeen bytesNeeded lowerBoundary
                upperBoundary].
    lia.
Qed.

Lemma utf8Run_high st data :
  openSequenceHigh st ->
  Forall (fun c => In c data \/ 0x80 <= c) (utf8Run st data).
Proof.
  revert st. induction data as [|b t IH]; intros st Hst.
  - simpl. destruct (bytesNeeded st =? 0); constructor; [|constructor].
    right. unfold REPLACEMENT. lia.
  - change (utf8Run st (b :: t))
      with (let '(st', out) := utf8Step st b in out ++ utf8Run st' t).
    destruct (utf8Step_high st b Hst) as [H1 H2].
    destruct (utf8Step st b) as [st' out]. simpl in H1, H2.
    apply Forall_app. split.
    + eapply Forall_impl; [exact H2|].
      intros c [->|Hc]; [left; by left | by right].
    + eapply Forall_impl; [apply (IH st' H1)|].
      intros c [Hc|Hc]; [left; by right | by right].
Qed.

Lemma textDecode_units data u :
  In u (textDecode data) -> In u data \/ 0x80 <= u.
Proof.
  unfold textDecode. intros H.
  apply in_concat in H as (units & Hunits & Hu).
  apply in_map_iff in Hunits as (cp & <- & Hcp).
  assert (In cp (utf8Run utf8Init data)) as Hrun.
  { unfold stripBOM in Hcp. destruct (utf8Run utf8Init data) as [|c t]; [done|].
    destruct (c =? 0xFEFF); [by right | done]. }
  pose proof (utf8Run_high utf8Init data (or_introl eq_refl)) as Hall.
  rewrite List.Forall_forall in Hall. specialize (Hall cp Hrun).
  unfold utf16 in Hu. destruct (cp <? 0x10000) eqn:E.
  - destruct Hu as [<-|[]]. exact Hall.
  - apply Z.ltb_ge in E. right.
    destruct Hu as [<-|[<-|[]]].
    + assert (0 <= Z.shiftr (cp - 0x10000) 10)
        by (apply Z.shiftr_nonneg; lia). lia.
    + assert (0 <= Z.land (cp - 0x10000) 0x3FF)
        by (apply Z.land_nonneg; by right). lia.
Qed.

(** ** The FRAME_LOST sentinel *)

Lemma FRAME_LOST_has_R : In 82 FRAME_LOST.
Proof. right. by left. Qed.

Lemma includes_FRAME_LOST buffer :
  includes FRAME_LOST buffer = true -> In 82 buffer.
Proof. intros H. apply (includes_In _ _ 82 H), FRAME_LOST_has_R. Qed.

Lemma noReadyByte_clean buffer :
  noReadyByte buffer -> includes FRAME_LOST buffer = false.
Proof.
  intros H. destruct (includes FRAME_LOST buffer) eqn:E; [|done].
  by apply includes_FRAME_LOST in E.
Qed.

Lemma existsb_ready data : existsb (Z.eqb 82) data = false -> ~ In 82 data.
Proof.
  intros H Hin.
  assert (existsb (Z.eqb 82) data = true) as H'
    by (apply existsb_exists; exists 82; by rewrite Z.eqb_refl).
  congruence.
Qed.

Lemma abortTransfer_buffer r s :
  messageBuffer (abortTransfer r s) = messageBuffer s.
Proof.
  unfold abortTransfer. destruct (_ && _); [|done].
  unfold usbIssue. destruct (deviceRef s); [|done]. by destruct (usbError s).
Qed.

Lemma abortTransferSettled_buffer s :
  messageBuffer (abortTransferSettled s) = messageBuffer s.
Proof.
  unfold abortTransferSettled. destruct (pendingAborts s) as [|[r w] rest];
    [done|].
  destruct w; cbn [messageBuffer setTransferInProgress setTransferAborted];
    [|done].
  by rewrite addMonitorEntry_buffer.
Qed.

Lemma watchdog_buffer r now s : messageBuffer (watchdog r now s) = messageBuffer s.
Proof.
  unfold watchdog. destruct (_ && _); [|done].
  rewrite abortTransfer_buffer. apply addMonitorEntry_buffer.
Qed.

Lemma scanFrameLost_buffer r s c :
  In c (messageBuffer (scanFrameLost r s)) -> In c (messageBuffer s).
Proof.
  unfold scanFrameLost. destruct (includes _ _); [|done]. cbv zeta.
  cbn [messageBuffer setMessageBuffer]. intros H. apply removeFirst_In in H.
  destruct (transferInProgressRef _); [rewrite abortTransfer_buffer in H|];
    cbn [messageBuffer setTransferAborted] in H;
    by rewrite addMonitorEntry_buffer in H.
Qed.

Lemma scanInvalidCmd_buffer r s c :
  In c (messageBuffer (scanInvalidCmd r s)) -> In c (messageBuffer s).
Proof.
  unfold scanInvalidCmd. destruct (includes _ _); [|done]. cbv zeta.
  cbn [messageBuffer setMessageBuffer]. intros H. apply removeFirst_In in H.
  by rewrite addMonitorEntry_buffer in H.
Qed.

Lemma splitAndLog_buffer r s c :
  In c (messageBuffer (splitAndLog r s)) -> In c (messageBuffer s).
Proof.
  unfold splitAndLog. cbv zeta.
  match goal with
  | |- In c (messageBuffer (logMessages r ?l ?x)) -> _ =>
      destruct (logMessages_fields r l x) as (_ & _ & _ & _ & ->)
  end.
  cbn [messageBuffer setMessageBuffer]. fold (lastSegment (messageBuffer s)).
  destruct (lastSegment_suffix (messageBuffer s)) as [front Hf].
  intros H. rewrite Hf. apply in_or_app. by right.
Qed.

Lemma processText_buffer r data s c :
  In c (messageBuffer (processText r data s)) ->
  In c (messageBuffer s ++ textDecode data).
Proof.
  unfold processText. cbv zeta. intros H.
  apply splitAndLog_buffer, scanInvalidCmd_buffer, scanFrameLost_buffer in H.
  exact H.
Qed.

Lemma onData_noReadyByte r data now s :
  noReadyByte (messageBuffer s) ->
  noReadyByte (messageBuffer (onData r data now s)).
Proof.
  intros H. unfold onData. destruct (negb _); [done|].
  cbn [messageBuffer setLastTransferActivity].
  destruct (existsb (Z.eqb 82) data) eqn:Hr; [done|].
  destruct (findAck data) as [[]|]; [done | done |].
  intros Hin. apply processText_buffer, in_app_or in Hin as [Hin|Hin];
    [by apply H|].
  apply textDecode_units in Hin as [Hin|Hin]; [|lia].
  by apply (existsb_ready data Hr).
Qed.

Lemma handle_noReadyByte e s :
  noReadyByte (messageBuffer s) -> noReadyByte (messageBuffer (handle e s)).
Proof.
  intros H. destruct e as [data now|now|]; simpl.
  - destruct (readCallback s); [by apply onData_noReadyByte | done].
  - destruct (transferTimeoutCheckerRef s); [|done].
    by rewrite watchdog_buffer.
  - by rewrite abortTransferSettled_buffer.
Qed.

Lemma run_noReadyByte events s :
  noReadyByte (messageBuffer s) -> noReadyByte (messageBuffer (run events s)).
Proof.
  revert s. induction events as [|e es IH]; intros s H; [done|].
  apply IH. by apply handle_noReadyByte.
Qed.

(** What the sentinel scan does to a buffer that holds the sentinel: it logs
    the detection, raises the aborted flag and cuts the first occurrence out
    of the buffer. *)
Lemma removeFirst_occurrence p s :
  includes p s = true ->
  exists front back,
    s = front ++ p ++ back /\ removeFirst p s = front ++ back
    /\ (front <> [] -> startsWith p s = false).
Proof.
  induction s as [|c s IH]; rewrite removeFirst_eq.
  - simpl. rewrite orb_false_r. intros H. rewrite H.
    destruct p; [|done]. by exists [], [].
  - intros H. destruct (startsWith p (c :: s)) eqn:Hp.
    + exists [], (drop (length p) (c :: s)). split; [|by split].
      simpl app. clear H IH. revert Hp. generalize (c :: s). clear c s.
      induction p as [|a p IHp]; intros [|b t] Hp; simpl in *; try done.
      apply andb_true_iff in Hp as [Hab Hp]. apply Z.eqb_eq in Hab.
      subst. f_equal. by apply IHp.
    + simpl in H. simpl in Hp. rewrite Hp in H. simpl in H.
      destruct (IH H) as (front & back & -> & -> & _).
      exists (c :: front), back. by repeat split.
Qed.

Lemma scanFrameLost_found r s :
  includes FRAME_LOST (messageBuffer s) = true ->
  let s' := scanFrameLost r s in
  transferAbortedRef s' = true
  /\ messageBuffer s' = removeFirst FRAME_LOST (messageBuffer s)
  /\ (transferInProgressRef s = false ->
      logs s' = mkLog (lit "FRAME_LOST detected!") ERROR :: logs s).
Proof.
  intros H. cbv zeta. unfold scanFrameLost. rewrite H. cbv zeta.
  cbn [messageBuffer setMessageBuffer transferAbortedRef logs].
  cbn [transferInProgressRef setTransferAborted].
  rewrite addMonitorEntry_inProgress.
  destruct (transferInProgressRef s) eqn:Hp.
  - rewrite abortTransfer_buffer.
    cbn [messageBuffer setTransferAborted]. rewrite addMonitorEntry_buffer.
    split; [|by split].
    unfold abortTransfer.
    cbn [transferInProgressRef setTransferAborted].
    rewrite addMonitorEntry_inProgress, Hp.
    destruct (bool_decide _); [|done]. simpl andb. cbv iota.
    unfold usbIssue. cbn [deviceRef usbError setTransferAborted].
    destruct (deviceRef _); [|done]. by destruct (usbError _).
  - cbn [messageBuffer setTransferAborted transferAbortedRef logs].
    rewrite addMonitorEntry_buffer. by repeat split.
Qed.

(** X21.  [startReading] starts with an empty buffer, and
    a chunk is appended to it only when it holds no 'R'; so at any point of
    a run the buffer holds no 'R' and the FRAME_LOST sentinel is never found
    in it.  A chunk whose text completes the sentinel holds the 'R' of
    FRAME_LOST: the read callback takes it for the ready signal and drops it,
    with no log entry, no abort, and the buffer as it was. *)
Theorem frame_lost_shadowed_by_ready_scan
    (r : Render) (events : list Event) (data : list Z) (now : Z) (s : State) :
  noReadyByte (messageBuffer s) ->
  let s1 := run events s in
  let s2 := onData r data now s1 in
  noReadyByte (messageBuffer s2)
  /\ includes FRAME_LOST (messageBuffer s2) = false
  /\ (includes FRAME_LOST (messageBuffer s1 ++ textDecode data) = true ->
      existsb (Z.eqb 82) data = true
      /\ messageBuffer s2 = messageBuffer s1
      /\ logs s2 = logs s1
      /\ transferAbortedRef s2 = transferAbortedRef s1
      /\ transferInProgressRef s2 = transferInProgressRef s1
      /\ pendingAborts s2 = pendingAborts s1
      /\ usbCalls s2 = usbCalls s1).
Proof.
  intros H s1 s2.
  assert (noReadyByte (messageBuffer s1)) as H1 by (by apply run_noReadyByte).
  assert (noReadyByte (messageBuffer s2)) as H2
    by (by apply onData_noReadyByte).
  split; [exact H2|]. split; [by apply noReadyByte_clean|].
  intros Hinc.
  assert (existsb (Z.eqb 82) data = true) as Hr.
  { destruct (existsb (Z.eqb 82) data) eqn:Hr; [done|].
    apply includes_FRAME_LOST, in_app_or in Hinc as [Hin|Hin];
      [by destruct (H1 Hin)|].
    apply textDecode_units in Hin as [Hin|Hin]; [|lia].
    by destruct (existsb_ready data Hr). }
  split; [exact Hr|]. subst s2. rewrite (onData_ready r data now s1 Hr).
  by destruct (isDeviceConnected r).
Qed.

(** [removeFirst] cuts the pattern out where it first occurs. *)
Lemma removeFirst_firstAt p s :
  includes p s = true ->
  exists n, firstAt p s n
            /\ removeFirst p s = take n s ++ drop (n + length p) s.
Proof.
  induction s as [|c s IH]; rewrite removeFirst_eq.
  - simpl. rewrite orb_false_r. intros H. rewrite H.
    exists 0%nat. split; [split; [exact H | intros k Hk; lia] | done].
  - intros H. destruct (startsWith p (c :: s)) eqn:Hp.
    + exists 0%nat. split; [split; [exact Hp | intros k Hk; lia] | done].
    + simpl in H. simpl in Hp. rewrite Hp in H. simpl in H.
      destruct (IH H) as (n & [Hat Hbefore] & ->).
      exists (S n). split; [split|done].
      * exact Hat.
      * intros [|k] Hk; [exact Hp | apply Hbefore; lia].
Qed.

Lemma abortTransfer_logs r s : logs (abortTransfer r s) = logs s.
Proof.
  unfold abortTransfer. destruct (_ && _); [|done].
  unfold usbIssue. destruct (deviceRef s); [|done]. by destruct (usbError s).
Qed.

(** The scan for INVALID_CMD and the split into lines, after the scan for
    FRAME_LOST. *)
Lemma splitAndLog_scanInvalidCmd r s :
  let rest := messageBuffer s in
  let s' := splitAndLog r (scanInvalidCmd r s) in
  messageBuffer s' = lastSegment (removeFirst INVALID_CMD rest)
  /\ logs s'
     = rev (received (completeLines (removeFirst INVALID_CMD rest)))
       ++ (if includes INVALID_CMD rest
           then [mkLog (lit "Received: INVALID_CMD") ERROR] else [])
       ++ logs s
  /\ transferInProgressRef s' = transferInProgressRef s
  /\ transferAbortedRef s' = transferAbortedRef s
  /\ pendingAborts s' = pendingAborts s
  /\ usbCalls s' = usbCalls s.
Proof.
  cbv zeta. unfold splitAndLog. cbv zeta.
  match goal with
  | |- context [logMessages r ?l ?x] =>
      destruct (logMessages_fields r l x) as (-> & -> & -> & -> & ->)
  end.
  rewrite logs_logMessages.
  cbn [messageBuffer logs transferInProgressRef transferAbortedRef
       pendingAborts usbCalls setMessageBuffer].
  unfold scanInvalidCmd. destruct (includes INVALID_CMD (messageBuffer s)) eqn:Hi.
  - cbv zeta. cbn [messageBuffer logs transferInProgressRef transferAbortedRef
                   pendingAborts usbCalls setMessageBuffer].
    rewrite addMonitorEntry_buffer, addMonitorEntry_inProgress,
      addMonitorEntry_aborted, addMonitorEntry_pending, addMonitorEntry_calls.
    by repeat split.
  - rewrite (removeFirst_absent _ _ Hi). by repeat split.
Qed.

(** C4.  A text chunk after which the buffer holds FRAME_LOST CR LF, at
    whatever position: the aborted flag is raised and 'FRAME_LOST detected!'
    is logged; the first occurrence of the sentinel, and nothing else, is cut
    out of the buffer, which then goes through the INVALID_CMD scan and the
    split into lines like any other text.  A transfer in progress on an open
    channel is aborted: ABORT is written, and when that write has settled the
    transfer is no longer in progress.  With no transfer in progress nothing
    is written. *)
Theorem frame_lost_sentinel_aborts_and_is_cut_out
    (r : Render) (d : UsbDevice) (data : list Z) (now : Z) (s : State) :
  isDeviceConnected r = true -> noSignal data ->
  includes FRAME_LOST (messageBuffer s ++ textDecode data) = true ->
  let buffer := messageBuffer s ++ textDecode data in
  let s' := onData r data now s in
  exists n,
    firstAt FRAME_LOST buffer n
    /\ let rest := take n buffer ++ drop (n + length FRAME_LOST) buffer in
       messageBuffer (scanFrameLost r (setMessageBuffer buffer s)) = rest
       /\ transferAbortedRef s' = true
       /\ messageBuffer s' = lastSegment (removeFirst INVALID_CMD rest)
       /\ logs s'
          = rev (received (completeLines (removeFirst INVALID_CMD rest)))
            ++ (if includes INVALID_CMD rest
                then [mkLog (lit "Received: INVALID_CMD") ERROR] else [])
            ++ mkLog (lit "FRAME_LOST detected!") ERROR :: logs s
       /\ (transferInProgressRef s = true -> deviceRef s = Some d ->
           usbError s = None ->
           usbCalls s'
           = usbCalls s ++ [Write (deviceId d) (lit "ABORT" ++ [LF])]
           /\ (pendingAborts s = [] ->
               transferInProgressRef (handle EvAbortSettled s') = false
               /\ transferAbortedRef (handle EvAbortSettled s') = true))
       /\ (transferInProgressRef s = false ->
           usbCalls s' = usbCalls s /\ transferInProgressRef s' = false).
Proof.
  intros Hc [Hr Ha] Hinc buffer s'.
  change (includes FRAME_LOST buffer = true) in Hinc.
  destruct (removeFirst_firstAt FRAME_LOST buffer Hinc) as (n & Hfirst & Hcut).
  exists n. split; [exact Hfirst|]. cbv zeta. rewrite <- Hcut.
  set (s1 := scanFrameLost r (setMessageBuffer buffer s)).
  assert (s' = setLastTransferActivity now
                 (splitAndLog r (scanInvalidCmd r s1))) as Hs'.
  { subst s' s1 buffer. unfold onData. rewrite Hc, Hr, Ha. reflexivity. }
  assert (messageBuffer s1 = removeFirst FRAME_LOST buffer
          /\ transferAbortedRef s1 = true
          /\ logs s1 = mkLog (lit "FRAME_LOST detected!") ERROR :: logs s)
    as (Hb1 & Ha1 & Hl1).
  { subst s1. unfold scanFrameLost.
    cbn [messageBuffer setMessageBuffer]. fold buffer. rewrite Hinc. cbv zeta.
    cbn [messageBuffer setMessageBuffer transferAbortedRef logs
         transferInProgressRef setTransferAborted].
    destruct (transferInProgressRef _).
    - rewrite abortTransfer_buffer, abortTransfer_logs.
      split; [by cbn|]. split; [|by cbn].
      unfold abortTransfer. destruct (_ && _); [|done].
      unfold usbIssue. cbn [deviceRef usbError setTransferAborted].
      destruct (deviceRef _); [|done]. by destruct (usbError _).
    - by cbn. }
  destruct (splitAndLog_scanInvalidCmd r s1) as (Hb2 & Hl2 & Hp2 & Ha2 & Hq2 & Hc2).
  cbv zeta in Hb2, Hl2, Hp2, Ha2, Hq2, Hc2.
  rewrite Hb1 in Hb2, Hl2. rewrite Hl1 in Hl2. rewrite Ha1 in Ha2.
  split; [exact Hb1|].
  split; [by rewrite Hs'|]. split; [by rewrite Hs'|]. split; [by rewrite Hs'|].
  split.
  - intros Hp Hd He.
    assert (s1 = setMessageBuffer (removeFirst FRAME_LOST buffer)
                   (setPendingAborts (pendingAborts s ++ [(r, true)])
                      (setUsbCalls
                         (usbCalls s
                          ++ [Write (deviceId d) (lit "ABORT" ++ [LF])])
                         (setTransferAborted true
                            (addMonitorEntry r (lit "FRAME_LOST detected!")
                               ERROR (setMessageBuffer buffer s)))))) as Hs1.
    { subst s1. unfold scanFrameLost.
      cbn [messageBuffer setMessageBuffer]. fold buffer. rewrite Hinc.
      cbv zeta. cbn. rewrite Hp. unfold abortTransfer. cbn. rewrite Hp, Hd.
      rewrite bool_decide_true by done. cbn.
      unfold usbIssue. cbn. rewrite Hd, He. reflexivity. }
    split.
    + rewrite Hs'. cbn [usbCalls setLastTransferActivity]. rewrite Hc2, Hs1.
      reflexivity.
    + intros Hq. rewrite Hs'. cbn [handle]. unfold abortTransferSettled.
      cbn [pendingAborts setLastTransferActivity]. rewrite Hq2, Hs1.
      cbn [pendingAborts setMessageBuffer setPendingAborts]. rewrite Hq.
      by cbn.
  - intros Hp.
    assert (usbCalls s1 = usbCalls s /\ transferInProgressRef s1 = false)
      as [Hc1 Hp1].
    { subst s1. unfold scanFrameLost.
      cbn [messageBuffer setMessageBuffer]. fold buffer. rewrite Hinc.
      cbv zeta. cbn. rewrite Hp. by cbn. }
    rewrite Hs'. cbn [usbCalls transferInProgressRef setLastTransferActivity].
    by rewrite Hc2, Hp2.
Qed.

(** ** The claims on the bench *)

(** C1 on the bench: 'R' arrives 10 ms into the ready wait of a transfer of
    img1, nothing else arrives, and the transfer still fails by timeout
    without sending the payload. *)
Lemma ready_signal_on_bench_times_out :
  isDeviceConnected benchRender = true
  /\ deviceRef bench = Some benchDevice
  /\ usbError bench = None
  /\ truthy (lit "AQID") = true
  /\ onlyReadySignals (scheduleWith [82])
  /\ exists s',
       sendImageToDevice benchRender (scheduleWith [82]) (Some (lit "AQID"))
         bench
       = Threw (lit "Failed to send image: Timeout waiting for ready signal")
           s'
       /\ transferInProgressRef s' = false
       /\ usbCalls s'
          = usbCalls bench
            ++ [Write (deviceId benchDevice) (lit "START_RTIMAGE" ++ [LF]);
                WriteHexString (deviceId benchDevice)
                  (toHex (frameHeader
                            (Z.of_nat (length (fromBase64 (lit "AQID"))))))].
Proof.
  assert (onlyReadySignals (scheduleWith [82])) as H
    by (unfold onlyReadySignals; simpl; repeat constructor).
  do 4 (split; [reflexivity|]). split; [exact H|].
  exact (ready_signal_does_not_end_ready_wait benchRender (scheduleWith [82])
           (lit "AQID") benchDevice bench eq_refl eq_refl eq_refl eq_refl H).
Defined.



(** C3, the claim fails: after the loop advanced the index to 2 over
    [img0; img1; img2], removing img1 leaves the index at 2 although only
    two images are left, and the next round sends img2 (the bytes 04 05 06,
    index 2 of the captured array), not img0; only then the index is 0. *)
Lemma removal_does_not_clamp_index :
  currentImageIndexRef afterTwoRounds = 2%nat
  /\ currentImageIndexRef afterRemoval = 2%nat
  /\ uploadedImages (react afterRemoval) = [img0; img2]
  /\ ~ (currentImageIndexRef afterRemoval
        < length (uploadedImages (react afterRemoval)))%nat
  /\ List.last (usbCalls afterNextRound) (Write [] [])
     = WriteHexString (deviceId benchDevice) (lit "040506")
  /\ currentImageIndexRef afterNextRound = 0%nat.
Proof.
  assert (currentImageIndexRef afterRemoval = 2%nat) as H2
    by (vm_compute; reflexivity).
  assert (uploadedImages (react afterRemoval) = [img0; img2]) as H3
    by (vm_compute; reflexivity).
  split; [vm_compute; reflexivity|]. split; [exact H2|]. split; [exact H3|].
  split; [rewrite H2, H3; simpl; lia|].
  split; vm_compute; reflexivity.
Qed.

(** C3 on the bench: through start, a round, the removal of img1 and
    another round the index stays inside the captured array. *)
Lemma loop_on_bench_stays_in_bounds :
  loopInBounds bench
  /\ loopInBounds
       (steps [PressStartLoop (scheduleWith [75]); LoopTick (scheduleWith [75]);
               PressRemove 1; LoopTick (scheduleWith [75])] bench)
  /\ currentImageIndexRef (removeImage (react bench) 1 bench)
     = currentImageIndexRef bench.
Proof.
  assert (loopInBounds bench) as H by (intros r Hr; discriminate Hr).
  destruct (loop_index_within_captured_images
              [PressStartLoop (scheduleWith [75]); LoopTick (scheduleWith [75]);
               PressRemove 1; LoopTick (scheduleWith [75])] 1 bench H)
    as (H1 & H2 & _).
  split; [exact H|]. split; [exact H1 | exact H2].
Defined.

(** A round of the loop over three images is under way when the loop is
    stopped, two images are removed and the loop is started again over the
    one image left.  The first round then goes on: the index becomes 1, past
    the end of the array of the running loop, whose next round finds no
    image there and stops the loop with an error. *)
Lemma resumed_round_leaves_the_bounds_of_a_restarted_loop :
  let restarted :=
    steps [PressStartLoop (scheduleWith [75]); PressStopLoop; PressRemove 2;
           PressRemove 1; PressStartLoop (scheduleWith [75])] bench in
  let resumed := displayNextImageResumed benchRender restarted in
  loopInBounds restarted
  /\ option_map (fun r => length (uploadedImages r))
       (imageLoopIntervalRef resumed) = Some 1%nat
  /\ currentImageIndexRef resumed = 1%nat
  /\ ~ loopInBounds resumed
  /\ imageLoopIntervalRef (step (LoopTick (scheduleWith [75])) resumed) = None
  /\ usbCalls (step (LoopTick (scheduleWith [75])) resumed) = usbCalls resumed.
Proof.
  cbv zeta. split.
  - apply steps_inBounds. intros r Hr; discriminate Hr.
  - split; [vm_compute; reflexivity|]. split; [vm_compute; reflexivity|].
    split; [|split; vm_compute; reflexivity].
    intros Hin.
    match type of Hin with
    | loopInBounds ?x =>
        destruct (imageLoopIntervalRef x) as [r|] eqn:Hr;
          [|vm_compute in Hr; discriminate Hr];
        pose proof (Hin r Hr) as Hlt;
        assert (length (uploadedImages r) = 1%nat) as Hlen
          by (vm_compute in Hr; injection Hr as <-; reflexivity);
        assert (currentImageIndexRef x = 1%nat) as Hidx
          by (vm_compute; reflexivity)
    end.
    rewrite Hlen, Hidx in Hlt. lia.
Qed.

(** X21 on the bench: the device sends FRAME_LOST CR LF in one chunk while a
    transfer is in progress; nothing is logged, the transfer is neither
    aborted nor stopped, no ABORT is written. *)
Lemma frame_lost_on_bench_is_dropped :
  noReadyByte (messageBuffer busy)
  /\ includes FRAME_LOST (messageBuffer busy ++ textDecode FRAME_LOST) = true
  /\ logs (onData benchRender FRAME_LOST 1000 busy) = []
  /\ transferAbortedRef (onData benchRender FRAME_LOST 1000 busy) = false
  /\ transferInProgressRef (onData benchRender FRAME_LOST 1000 busy) = true
  /\ usbCalls (onData benchRender FRAME_LOST 1000 busy) = [].
Proof.
  assert (noReadyByte (messageBuffer busy)) as H by (intros Hin; exact Hin).
  assert (includes FRAME_LOST (messageBuffer busy ++ textDecode FRAME_LOST)
          = true) as Hinc by (vm_compute; reflexivity).
  destruct (frame_lost_shadowed_by_ready_scan benchRender [] FRAME_LOST 1000
              busy H) as (_ & _ & Hdrop).
  destruct (Hdrop Hinc) as (_ & _ & Hl & Ha & Hp & _ & Hc).
  split; [exact H|]. split; [exact Hinc|].
  split; [exact Hl|]. split; [exact Ha|]. split; [exact Hp | exact Hc].
Defined.

(** C4 on a bench whose buffer already holds 'abFRAME_LOST' CR while a
    transfer is in progress: the chunk LF 'x' LF 'y' completes the sentinel at
    offset 2.  The sentinel is cut out, which joins 'ab' and 'x' to the line
    'abx'; ABORT is written, and after its write has settled the transfer is
    aborted and no longer in progress. *)
Lemma frame_lost_on_bench_aborts_and_is_cut_out :
  let s := setMessageBuffer (lit "abFRAME_LOST" ++ [CR]) busy in
  let data := [LF] ++ lit "x" ++ [LF] ++ lit "y" in
  let s' := onData benchRender data 1000 s in
  isDeviceConnected benchRender = true
  /\ noSignal data
  /\ includes FRAME_LOST (messageBuffer s ++ textDecode data) = true
  /\ firstAt FRAME_LOST (messageBuffer s ++ textDecode data) 2
  /\ transferAbortedRef s' = true
  /\ messageBuffer s' = lit "y"
  /\ logs s' = [mkLog (lit "Received: abx") SUCCESS;
                mkLog (lit "FRAME_LOST detected!") ERROR]
  /\ usbCalls s' = [Write (deviceId benchDevice) (lit "ABORT" ++ [LF])]
  /\ transferInProgressRef (handle EvAbortSettled s') = false.
Proof.
  cbv zeta.
  set (s := setMessageBuffer (lit "abFRAME_LOST" ++ [CR]) busy).
  set (data := [LF] ++ lit "x" ++ [LF] ++ lit "y").
  assert (noSignal data) as Hn by (split; reflexivity).
  assert (includes FRAME_LOST (messageBuffer s ++ textDecode data) = true)
    as Hinc by (vm_compute; reflexivity).
  destruct (frame_lost_sentinel_aborts_and_is_cut_out benchRender benchDevice
              data 1000 s eq_refl Hn Hinc)
    as (n & Hfirst & _ & Ha & _ & _ & Hbusy & _).
  destruct (Hbusy eq_refl eq_refl eq_refl) as [_ Hsettled].
  split; [reflexivity|]. split; [exact Hn|]. split; [exact Hinc|].
  split.
  { split; [vm_compute; reflexivity|].
    intros [|[|k]] Hk; [vm_compute; reflexivity..|lia]. }
  split; [exact Ha|].
  split; [vm_compute; reflexivity|]. split; [vm_compute; reflexivity|].
  split; [vm_compute; reflexivity|].
  exact (proj1 (Hsettled eq_refl)).
Defined.

(** C5, the claim fails: the device sends OK CR LF done CR LF.  In one
    chunk the 'K' makes the whole chunk a signal and no line is logged; cut
    inside the second line, the first chunk is a signal and the second one
    logs the line 'ne'. *)
Lemma split_changes_the_lines :
  logs (run [EvData (lit "OK" ++ [CR; LF] ++ lit "do") 1;
             EvData (lit "ne" ++ [CR; LF]) 2] bench)
  = [mkLog (lit "Received: ne") SUCCESS]
  /\ logs (run [EvData ((lit "OK" ++ [CR; LF] ++ lit "do")
                        ++ (lit "ne" ++ [CR; LF])) 2] bench)
     = [].
Proof. split; vm_compute; reflexivity. Qed.

(** The two other conditions of the invariance are needed as well.  The
    report of an INVALID_CMD sentinel is logged before the lines of its
    chunk, so a cut moves it (the log has the newest entry first). *)
Lemma invalid_cmd_report_moves_with_the_cut :
  logs (run [EvData (lit "x" ++ [LF] ++ lit "INVA") 1;
             EvData (lit "LID_CMD" ++ [CR; LF] ++ lit "y" ++ [LF]) 2] bench)
  = [mkLog (lit "Received: y") SUCCESS;
     mkLog (lit "Received: INVALID_CMD") ERROR;
     mkLog (lit "Received: x") SUCCESS]
  /\ logs (run [EvData ((lit "x" ++ [LF] ++ lit "INVA")
                        ++ (lit "LID_CMD" ++ [CR; LF] ++ lit "y" ++ [LF])) 2]
             bench)
     = [mkLog (lit "Received: y") SUCCESS;
        mkLog (lit "Received: x") SUCCESS;
        mkLog (lit "Received: INVALID_CMD") ERROR].
Proof. split; vm_compute; reflexivity. Qed.

(** Every chunk is decoded on its own, so a cut inside a multi-byte
    character (here U+00E9, bytes c3 a9) gives two replacement characters. *)
Lemma cut_inside_a_character_changes_the_text :
  logs (run [EvData [0xC3] 1; EvData [0xA9; LF] 2] bench)
  = [mkLog (lit "Received: " ++ [0xFFFD; 0xFFFD]) SUCCESS]
  /\ logs (run [EvData [0xC3; 0xA9; LF] 2] bench)
     = [mkLog (lit "Received: " ++ [0xE9]) SUCCESS].
Proof. split; vm_compute; reflexivity. Qed.

(** The decoder drops a byte order mark (ef bb bf) at the start of a chunk
    and keeps it as U+FEFF anywhere else, so a cut just before one changes
    the text although both parts are well-formed UTF-8. *)
Lemma cut_before_a_byte_order_mark_changes_the_text :
  textDecode (lit "ab" ++ [0xEF; 0xBB; 0xBF] ++ lit "cd" ++ [LF])
  <> textDecode (lit "ab")
     ++ textDecode ([0xEF; 0xBB; 0xBF] ++ lit "cd" ++ [LF])
  /\ logs (run [EvData (lit "ab") 1;
                EvData ([0xEF; 0xBB; 0xBF] ++ lit "cd" ++ [LF]) 2] bench)
     = [mkLog (lit "Received: abcd") SUCCESS]
  /\ logs (run [EvData (lit "ab" ++ [0xEF; 0xBB; 0xBF] ++ lit "cd" ++ [LF]) 2]
             bench)
     = [mkLog (lit "Received: ab" ++ [0xFEFF] ++ lit "cd") SUCCESS].
Proof. split; [|split]; vm_compute; [discriminate | reflexivity..]. Qed.

(** C5 on the bench: 'hello world' CR LF 'next', cut inside the first
    line. *)
Lemma split_invariance_on_bench :
  noSignal (lit "hello wo")
  /\ noSignal (lit "rld" ++ [CR; LF] ++ lit "next")
  /\ textDecode (lit "hello wo" ++ (lit "rld" ++ [CR; LF] ++ lit "next"))
     = textDecode (lit "hello wo")
       ++ textDecode (lit "rld" ++ [CR; LF] ++ lit "next")
  /\ includes FRAME_LOST
       (messageBuffer bench
        ++ textDecode (lit "hello wo" ++ (lit "rld" ++ [CR; LF] ++ lit "next")))
     = false
  /\ includes INVALID_CMD
       (messageBuffer bench
        ++ textDecode (lit "hello wo" ++ (lit "rld" ++ [CR; LF] ++ lit "next")))
     = false
  /\ logs (onData benchRender (lit "rld" ++ [CR; LF] ++ lit "next") 2
             (onData benchRender (lit "hello wo") 1 bench))
     = logs (onData benchRender
               (lit "hello wo" ++ (lit "rld" ++ [CR; LF] ++ lit "next")) 2
               bench)
  /\ messageBuffer (onData benchRender (lit "rld" ++ [CR; LF] ++ lit "next") 2
                      (onData benchRender (lit "hello wo") 1 bench))
     = messageBuffer (onData benchRender
                        (lit "hello wo"
                         ++ (lit "rld" ++ [CR; LF] ++ lit "next")) 2 bench).
Proof.
  assert (noSignal (lit "hello wo")) as Ha by (split; reflexivity).
  assert (noSignal (lit "rld" ++ [CR; LF] ++ lit "next")) as Hb
    by (split; reflexivity).
  split; [exact Ha|]. split; [exact Hb|].
  split; [vm_compute; reflexivity|].
  split; [vm_compute; reflexivity|].
  split; [vm_compute; reflexivity|].
  apply (text_lines_split_invariant benchRender (lit "hello wo")
           (lit "rld" ++ [CR; LF] ++ lit "next") 1 2 2 bench);
    [exact Ha | exact Hb
     | vm_compute; reflexivity | vm_compute; reflexivity
     | vm_compute; reflexivity].
Defined.

(** C6 on the bench: a transfer in progress, last activity at 0, the tick at
    15001 ms; a second tick at 16001 ms instead of the settling writes ABORT
    again; with the write settled, two more ticks write nothing. *)
Lemma watchdog_on_bench_aborts_once :
  transferTimeoutCheckerRef busy = Some benchRender
  /\ deviceRef busy = Some benchDevice
  /\ usbError busy = None
  /\ pendingAborts busy = []
  /\ transferInProgressRef busy = true
  /\ TRANSFER_TIMEOUT < 15001 - lastTransferActivityRef busy
  /\ transferInProgressRef (handle (EvWatchdog 15001) busy) = true
  /\ usbCalls (handle (EvWatchdog 16001) (handle (EvWatchdog 15001) busy))
     = usbCalls busy ++ [Write (deviceId benchDevice) (lit "ABORT" ++ [LF]);
                         Write (deviceId benchDevice) (lit "ABORT" ++ [LF])]
  /\ transferAbortedRef
       (run [EvWatchdog 16001; EvWatchdog 17001]
          (handle EvAbortSettled (handle (EvWatchdog 15001) busy))) = true
  /\ transferInProgressRef
       (run [EvWatchdog 16001; EvWatchdog 17001]
          (handle EvAbortSettled (handle (EvWatchdog 15001) busy))) = false
  /\ usbCalls
       (run [EvWatchdog 16001; EvWatchdog 17001]
          (handle EvAbortSettled (handle (EvWatchdog 15001) busy)))
     = usbCalls busy ++ [Write (deviceId benchDevice) (lit "ABORT" ++ [LF])].
Proof.
  assert (TRANSFER_TIMEOUT < 15001 - lastTransferActivityRef busy) as Hlate
    by reflexivity.
  assert (TRANSFER_TIMEOUT < 16001 - lastTransferActivityRef busy) as Hagain
    by reflexivity.
  destruct (watchdog_aborts_stuck_transfer_once benchRender benchDevice busy
              15001 [EvWatchdog 16001; EvWatchdog 17001]
              eq_refl eq_refl eq_refl eq_refl eq_refl Hlate)
    as (_ & Hp1 & _ & Htwice & _ & _ & Ha & Hp & Hc).
  do 6 (split; [reflexivity|]).
  split; [exact Hp1|]. split; [exact (Htwice 16001 Hagain)|].
  split; [exact Ha|]. split; [exact Hp | exact Hc].
Defined.

(** C7 on the bench: image data that decodes to no bytes; the header goes
    out as 33cc55aa00000000. *)
Lemma empty_payload_header_on_bench :
  isDeviceConnected benchRender = true
  /\ deviceRef bench = Some benchDevice
  /\ usbError bench = None
  /\ truthy (lit "=") = true
  /\ fromBase64 (lit "=") = []
  /\ toHex (frameHeader (Z.of_nat (length (fromBase64 (lit "=")))))
     = lit "33cc55aa00000000"
  /\ exists mid post,
       usbCalls (stateOf (sendImageToDevice benchRender (scheduleWith [75])
                            (Some (lit "=")) bench))
       = usbCalls bench
         ++ [Write (deviceId benchDevice) (lit "START_RTIMAGE" ++ [LF])]
         ++ mid
         ++ [WriteHexString (deviceId benchDevice)
               (toHex (frameHeader
                         (Z.of_nat (length (fromBase64 (lit "="))))))]
         ++ post.
Proof.
  destruct (header_magic_and_length_little_endian benchRender
              (scheduleWith [75]) (lit "=") benchDevice bench
              eq_refl eq_refl eq_refl eq_refl)
    as (_ & _ & _ & _ & _ & _ & _ & Hzero & Hcalls).
  do 5 (split; [reflexivity|]).
  split; [exact (Hzero eq_refl) | exact Hcalls].
Defined.

(** C9 on the bench: a transfer is in progress, an error ack arrives while
    [clearImage] waits; afterwards both flags are false. *)
Lemma clearImage_on_bench_resets_flags :
  isDeviceConnected benchRender = true
  /\ deviceRef busy = Some benchDevice
  /\ usbError busy = None
  /\ transferInProgressRef busy = true
  /\ transferAbortedRef (run [EvData [69] 200] busy) = true
  /\ exists s' more,
       clearImage benchRender [] [EvData [69] 200] busy = (Completed, s')
       /\ transferInProgressRef s' = false
       /\ transferAbortedRef s' = false
       /\ usbCalls s'
          = usbCalls busy
            ++ [Write (deviceId benchDevice) (lit "CLEAR_IMAGE" ++ [LF])]
            ++ more.
Proof.
  do 5 (split; [reflexivity|]).
  exact (clearImage_resets_transfer_flags benchRender [] [EvData [69] 200]
           benchDevice busy eq_refl eq_refl eq_refl).
Defined.

(** C10 on the bench: three images are uploaded and Add Image is pressed
    twice before the first picker answers; each picker then returns three
    assets.  Both presses belong to the render with three images, both
    batches pass the check, and nine images are uploaded. *)
Lemma two_open_pickers_on_bench_exceed_the_limit :
  isDeviceConnected benchRender = true
  /\ length (uploadedImages benchRender) = 3%nat
  /\ withinLimit bench
  /\ length
       (uploadedImages
          (react (pickImage benchRender
                    (Picked (Some (replicate 3 pickedAsset))) bench)))
     = 6%nat
  /\ length
       (uploadedImages
          (react
             (pickImage benchRender (Picked (Some (replicate 3 pickedAsset)))
                (pickImage benchRender
                   (Picked (Some (replicate 3 pickedAsset))) bench))))
     = 9%nat
  /\ ~ withinLimit
         (pickImage benchRender (Picked (Some (replicate 3 pickedAsset)))
            (pickImage benchRender
               (Picked (Some (replicate 3 pickedAsset))) bench)).
Proof.
  assert (replicate 3 pickedAsset <> []) as Hne by discriminate.
  assert ((length (uploadedImages benchRender)
           + length (replicate 3 pickedAsset) <= MAX_IMAGES)%nat) as Hfits
    by (unfold MAX_IMAGES; simpl; lia).
  assert ((MAX_IMAGES
           < length
               (uploadedImages
                  (react (pickImage benchRender
                            (Picked (Some (replicate 3 pickedAsset))) bench)))
             + length (replicate 3 pickedAsset))%nat) as Hgrown
    by (unfold MAX_IMAGES; simpl; lia).
  split; [reflexivity|]. split; [reflexivity|].
  split; [unfold withinLimit, MAX_IMAGES; simpl; lia|].
  split; [reflexivity|]. split; [reflexivity|].
  exact (proj2 (proj2 (proj2
           (pickImage_checks_the_count_of_its_render benchRender
              (replicate 3 pickedAsset)
              (pickImage benchRender
                 (Picked (Some (replicate 3 pickedAsset))) bench)
              eq_refl Hne))) Hfits Hgrown).
Defined.

End Facts.

(** * Further properties of the transfer engine *)

Module More.
Import Js Codec App Props Link Terms Facts.

(** ** Sequencing *)

Lemma bind_Returned {A B} (m : M A) (k : A -> M B) s b s' :
  bind m k s = Returned b s' ->
  exists a s1, m s = Returned a s1 /\ k a s1 = Returned b s'.
Proof.
  unfold bind. destruct (m s) as [a s1|e s1]; [|discriminate].
  intros H. by exists a, s1.
Qed.

Lemma bind_Threw {A B} (m : M A) (k : A -> M B) s e s' :
  bind m k s = Threw e s' ->
  m s = Threw e s'
  \/ exists a s1, m s = Returned a s1 /\ k a s1 = Threw e s'.
Proof.
  unfold bind. destruct (m s) as [a s1|e1 s1]; intros H.
  - right. exists a, s1. split; [reflexivity | exact H].
  - left. injection H as -> ->. reflexivity.
Qed.

(** ** The flags under the callbacks *)

Lemma abortTransfer_flags r s :
  transferInProgressRef (abortTransfer r s) = transferInProgressRef s
  /\ transferAbortedRef (abortTransfer r s) = transferAbortedRef s
  /\ logs (abortTransfer r s) = logs s.
Proof.
  unfold abortTransfer.
  destruct (transferInProgressRef s && bool_decide (deviceRef s <> None));
    [|done].
  unfold usbIssue. destruct (deviceRef s); [|done].
  destruct (usbError s); done.
Qed.

Lemma processText_inProgress r data s :
  transferInProgressRef (processText r data s) = transferInProgressRef s.
Proof.
  unfold processText, splitAndLog.
  rewrite (proj1 (logMessages_fields _ _ _)). cbn [transferInProgressRef setMessageBuffer].
  unfold scanInvalidCmd.
  match goal with |- context [includes INVALID_CMD ?b] =>
    destruct (includes INVALID_CMD b) end;
    cbn [transferInProgressRef setMessageBuffer];
    rewrite ?addMonitorEntry_inProgress;
    unfold scanFrameLost;
    match goal with |- context [includes FRAME_LOST ?b] =>
      destruct (includes FRAME_LOST b) end;
    cbn [transferInProgressRef setMessageBuffer setTransferAborted];
    try reflexivity;
    match goal with |- context [if ?c then _ else _] => destruct c end;
    rewrite ?(proj1 (abortTransfer_flags _ _));
    cbn [transferInProgressRef setMessageBuffer setTransferAborted];
    rewrite ?addMonitorEntry_inProgress; reflexivity.
Qed.

(** No callback starts a transfer. *)
Lemma handle_idle e s :
  transferInProgressRef s = false -> transferInProgressRef (handle e s) = false.
Proof.
  intros H. destruct e as [data now|now|]; cbn [handle].
  - destruct (readCallback s) as [r|]; [|done].
    unfold onData. destruct (negb (isDeviceConnected r)); [done|].
    destruct (existsb (Z.eqb 82) data); [done|].
    destruct (findAck data) as [[|]|]; try done.
    cbn [transferInProgressRef setLastTransferActivity].
    by rewrite processText_inProgress.
  - destruct (transferTimeoutCheckerRef s) as [r|]; [|done].
    unfold watchdog. rewrite H. done.
  - unfold abortTransferSettled.
    destruct (pendingAborts s) as [|[r w] rest]; done.
Qed.

Lemma run_idle events s :
  transferInProgressRef s = false -> transferInProgressRef (run events s) = false.
Proof.
  revert s. induction events as [|e events IH]; intros s H; [done|].
  apply IH. by apply handle_idle.
Qed.

Lemma processText_aborted r data s :
  transferAbortedRef s = true -> transferAbortedRef (processText r data s) = true.
Proof.
  intros H. unfold processText, splitAndLog.
  rewrite (proj1 (proj2 (logMessages_fields _ _ _))).
  cbn [transferAbortedRef setMessageBuffer].
  unfold scanInvalidCmd.
  match goal with |- context [includes INVALID_CMD ?b] =>
    destruct (includes INVALID_CMD b) end;
    cbn [transferAbortedRef setMessageBuffer];
    rewrite ?addMonitorEntry_aborted;
    unfold scanFrameLost;
    match goal with |- context [includes FRAME_LOST ?b] =>
      destruct (includes FRAME_LOST b) end;
    cbn [transferAbortedRef setMessageBuffer setTransferAborted];
    try exact H;
    match goal with |- context [if ?c then _ else _] => destruct c end;
    rewrite ?(proj1 (proj2 (abortTransfer_flags _ _)));
    reflexivity.
Qed.

(** No callback takes the aborted flag back. *)
Lemma handle_aborted e s :
  transferAbortedRef s = true -> transferAbortedRef (handle e s) = true.
Proof.
  intros H. destruct e as [data now|now|]; cbn [handle].
  - destruct (readCallback s) as [r|]; [|done].
    unfold onData. destruct (negb (isDeviceConnected r)); [done|].
    destruct (existsb (Z.eqb 82) data); [done|].
    destruct (findAck data) as [[|]|]; try done.
    cbn [transferAbortedRef setLastTransferActivity].
    by apply processText_aborted.
  - destruct (transferTimeoutCheckerRef s) as [r|]; [|done].
    unfold watchdog.
    destruct (transferInProgressRef s && _); [|done].
    rewrite (proj1 (proj2 (abortTransfer_flags _ _))).
    by rewrite addMonitorEntry_aborted.
  - unfold abortTransferSettled.
    destruct (pendingAborts s) as [|[r w] rest]; done.
Qed.

Lemma run_aborted events s :
  transferAbortedRef s = true -> transferAbortedRef (run events s) = true.
Proof.
  revert s. induction events as [|e events IH]; intros s H; [done|].
  apply IH. by apply handle_aborted.
Qed.

(** ** How a wait ends *)

Lemma pollFlags_Returned ps last msg s s' :
  pollFlags ps last msg s = Returned tt s' ->
  transferInProgressRef s' = false /\ transferAbortedRef s' = false.
Proof.
  revert s. induction ps as [|events rest IH]; intros s; cbn [pollFlags].
  - discriminate.
  - destruct (transferAbortedRef (run events s)) eqn:Ha; [discriminate|].
    destruct (transferInProgressRef (run events s)) eqn:Hp; cbn [negb].
    + apply IH.
    + intros [= <-]. done.
Qed.

Lemma pollFlags_Threw ps last msg s e s' :
  pollFlags ps last msg s = Threw e s' ->
  e = msg \/ (e = lit "Transfer aborted" /\ transferAbortedRef s' = true).
Proof.
  revert s. induction ps as [|events rest IH]; intros s; cbn [pollFlags].
  - intros [= <- <-]. by left.
  - destruct (transferAbortedRef (run events s)) eqn:Ha.
    + intros [= <- <-]. by right.
    + destruct (transferInProgressRef (run events s)); cbn [negb];
        [apply IH | discriminate].
Qed.

(** A wait started with nothing in progress ends at its first poll. *)
Lemma pollFlags_idle events rest last msg s :
  transferInProgressRef s = false ->
  pollFlags (events :: rest) last msg s
  = if transferAbortedRef (run events s)
    then Threw (lit "Transfer aborted") (run events s)
    else Returned tt (run events s).
Proof.
  intros H. cbn [pollFlags]. by rewrite (run_idle _ _ H).
Qed.

(** ** Which byte of a chunk decides *)

Lemma setLastTransferActivity_twice now s :
  setLastTransferActivity now (setLastTransferActivity now s)
  = setLastTransferActivity now s.
Proof. reflexivity. Qed.

Lemma findAck_first pre ack post :
  findAck pre = None -> ack = 75 \/ ack = 69 ->
  findAck (pre ++ ack :: post) = Some (ack =? 75).
Proof.
  intros Hpre Hack. rewrite (findAck_app _ _ Hpre). cbn [findAck].
  destruct Hack as [-> | ->]; reflexivity.
Qed.

(** X1.  The read callback looks for 'R' in the whole chunk first: a chunk
    that holds 'R' only refreshes the activity time, whatever else it holds.
    In a chunk without 'R' the first 'K' or 'E' decides: the transfer is no
    longer in progress, 'E' also sets the aborted flag, 'K' leaves it as it
    was; the bytes around it are neither logged nor buffered. *)
Theorem signal_priority_in_a_chunk
    (r : Render) (pre post : list Z) (ack now : Z) (s : State) :
  isDeviceConnected r = true ->
  findAck pre = None -> ack = 75 \/ ack = 69 ->
  let data := pre ++ ack :: post in
  let s' := onData r data now s in
  (existsb (Z.eqb 82) data = true -> s' = setLastTransferActivity now s)
  /\ (existsb (Z.eqb 82) data = false ->
      transferInProgressRef s' = false
      /\ transferAbortedRef s'
         = (if ack =? 69 then true else transferAbortedRef s)
      /\ lastTransferActivityRef s' = now
      /\ logs s' = logs s
      /\ messageBuffer s' = messageBuffer s
      /\ usbCalls s' = usbCalls s).
Proof.
  intros Hc Hpre Hack data s'. subst s'. split; intros Hr.
  - rewrite (onData_ready _ _ _ _ Hr), Hc. reflexivity.
  - unfold onData. rewrite Hc, Hr. cbn [negb].
    unfold data. rewrite (findAck_first _ _ _ Hpre Hack).
    destruct Hack as [-> | ->]; cbn; repeat split; reflexivity.
Qed.

Lemma signal_priority_on_bench :
  isDeviceConnected benchRender = true
  /\ findAck (lit "O") = None
  /\ (75 = 75 \/ 75 = 69)
  /\ transferInProgressRef (onData benchRender (lit "OK" ++ [CR; LF]) 7 busy)
     = false
  /\ logs (onData benchRender (lit "OK" ++ [CR; LF]) 7 busy) = logs busy.
Proof.
  split; [reflexivity|]. split; [reflexivity|]. split; [by left|].
  pose proof (signal_priority_in_a_chunk benchRender (lit "O") [CR; LF] 75 7
                busy eq_refl eq_refl (or_introl eq_refl)) as [_ H].
  destruct (H eq_refl) as (Hp & _ & _ & Hl & _). split; [exact Hp | exact Hl].
Defined.

(** ** How a transfer can end *)

Lemma afterHeader_steady r sch payload d s :
  steady s (afterHeader r sch payload d s).
Proof. unfold afterHeader. cbv zeta. steady_peel. Qed.

Lemma failure_handler e s :
  (exec (setTransferInProgress false) >>
   @throw unit (lit "Failed to send image: " ++ e)) s
  = Threw (lit "Failed to send image: " ++ e) (setTransferInProgress false s).
Proof. reflexivity. Qed.

(** The part of a transfer between the ready wait, resolved in [s1], and the
    wait for the acknowledgment. *)
Lemma uptoAckWait r sch payload d s1 :
  deviceRef s1 = Some d -> usbError s1 = None ->
  transferAbortedRef s1 = false ->
  let s2 := addMonitorEntry r (lit "Device ready for image data") INFO s1 in
  let s3 := run (duringPayload sch)
              (setUsbCalls
                 (usbCalls s2 ++ [WriteHexString (deviceId d) (toHex payload)])
                 s2) in
  let s4 := addMonitorEntry r
              (lit "Sent image data: " ++ ofInt (Z.of_nat (length payload))
               ++ lit " bytes") INFO s3 in
  (log r (lit "Device ready for image data") INFO >>
   (let! aborted := read transferAbortedRef in
    if negb aborted then
      usbWriteHexString (toHex payload) (duringPayload sch) >>
      log r (lit "Sent image data: "
             ++ ofInt (Z.of_nat (length payload)) ++ lit " bytes") INFO
    else throw (lit "Transfer aborted")) >>
   awaitSignal (ackWait sch) (lit "Timeout waiting for acknowledgment") >>
   log r (lit "Image sent successfully") SUCCESS) s1
  = (awaitSignal (ackWait sch) (lit "Timeout waiting for acknowledgment") >>
     log r (lit "Image sent successfully") SUCCESS) s4.
Proof.
  intros Hd He Ha s2 s3 s4.
  assert (Hd2 : deviceRef s2 = Some d).
  { unfold s2. by rewrite (steady_device _ _ (steady_addMonitorEntry _ _ _ _)). }
  assert (He2 : usbError s2 = None).
  { unfold s2. by rewrite (steady_error _ _ (steady_addMonitorEntry _ _ _ _)). }
  unfold bind at 1. unfold log at 1. unfold exec at 1. fold s2.
  unfold bind at 1. unfold bind at 1. unfold read at 1.
  replace (transferAbortedRef s2) with false
    by (unfold s2; by rewrite addMonitorEntry_aborted).
  cbn [negb].
  unfold bind at 1. unfold usbWriteHexString.
  rewrite (usbIssue_ok _ d s2 Hd2 He2). fold s3.
  unfold log at 1. unfold exec at 1. fold s4. reflexivity.
Qed.

Lemma uptoAckWait_idle r sch payload d s1 :
  transferInProgressRef s1 = false ->
  transferInProgressRef
    (addMonitorEntry r
       (lit "Sent image data: " ++ ofInt (Z.of_nat (length payload))
        ++ lit " bytes") INFO
       (run (duringPayload sch)
          (setUsbCalls
             (usbCalls
                (addMonitorEntry r (lit "Device ready for image data") INFO s1)
              ++ [WriteHexString (deviceId d) (toHex payload)])
             (addMonitorEntry r (lit "Device ready for image data") INFO s1))))
  = false.
Proof.
  intros Hp. rewrite addMonitorEntry_inProgress. apply run_idle.
  cbn [transferInProgressRef setUsbCalls].
  by rewrite addMonitorEntry_inProgress.
Qed.

(** X2.  One transfer on its own: while it waits, device chunks, watchdog
    ticks and settled aborts are handled, and no other operation of the
    component (a second transfer, Clear Image) runs.  When the serial module
    accepts the writes and the interval of the acknowledgment wait fires at
    least once before its timeout, such a transfer fails in one of three
    ways: the guard, an abort, or the timeout of the ready wait.  Its wait
    for the acknowledgment starts with nothing in progress (the ready wait
    resolved on that), so its first poll ends it, and the timeout of that
    wait is not among the failures. *)
Theorem ack_wait_cannot_time_out
    (r : Render) (sch : Schedule) (imageData : option (list Z))
    (s s' : State) (e : list Z) :
  usbError s = None -> polls (ackWait sch) <> [] ->
  sendImageToDevice r sch imageData s = Threw e s' ->
  e = lit "Not connected to device or invalid image data"
  \/ e = lit "Failed to send image: Transfer aborted"
  \/ e = lit "Failed to send image: Timeout waiting for ready signal".
Proof.
  intros Herr Hpolls Hsend.
  destruct (isDeviceConnected r) eqn:Hc;
    [|rewrite sendImageToDevice_guard in Hsend by auto;
      injection Hsend as <- _; by left].
  destruct (deviceRef s) as [d|] eqn:Hd;
    [|rewrite sendImageToDevice_guard in Hsend by auto;
      injection Hsend as <- _; by left].
  destruct (optTruthy imageData) eqn:Ht;
    [|rewrite sendImageToDevice_guard in Hsend by auto;
      injection Hsend as <- _; by left].
  destruct imageData as [x|]; [|discriminate]. cbn [optTruthy] in Ht.
  rewrite (sendImageToDevice_start r sch x d s Hc Hd Herr Ht) in Hsend.
  right.
  pose proof (afterHeader_steady r sch (fromBase64 x) d s) as Hst.
  remember (afterHeader r sch (fromBase64 x) d s) as s0 eqn:Es0.
  unfold fromReadyWait, tryCatch in Hsend.
  match type of Hsend with
  | match ?body s0 with _ => _ end = _ => destruct (body s0) as [u s1|e1 s1] eqn:Hbody
  end; [discriminate|].
  rewrite failure_handler in Hsend. injection Hsend as <- _.
  apply bind_Threw in Hbody as [Hw | (u & s1' & Hw & Hrest)].
  - apply pollFlags_Threw in Hw as [-> | [-> _]]; [by right | by left].
  - destruct u. apply pollFlags_Returned in Hw as Hflags.
    destruct Hflags as [Hp Ha].
    pose proof (steadyM_awaitSignal (readyWait sch)
                  (lit "Timeout waiting for ready signal") s0) as Hst1.
    unfold awaitSignal in Hst1 at 1. unfold awaitSignal in Hw.
    rewrite Hw in Hst1. cbn [stateOf] in Hst1.
    destruct (polls (ackWait sch)) as [|events rest] eqn:Hps; [done|].
    rewrite (uptoAckWait r sch (fromBase64 x) d s1') in Hrest.
    + unfold bind, awaitSignal in Hrest. rewrite Hps in Hrest.
      rewrite pollFlags_idle in Hrest by (by apply uptoAckWait_idle).
      match type of Hrest with
      | match (if ?b then _ else _) with _ => _ end = _ => destruct b
      end; [|discriminate].
      injection Hrest as <- _. by left.
    + rewrite (steady_device _ _ Hst1), (steady_device _ _ Hst). exact Hd.
    + rewrite (steady_error _ _ Hst1), (steady_error _ _ Hst). exact Herr.
    + exact Ha.
Qed.

Lemma ack_wait_on_bench_cannot_time_out :
  usbError bench = None
  /\ polls (ackWait (scheduleWith [82])) <> []
  /\ exists e s',
       sendImageToDevice benchRender (scheduleWith [82]) (base64 img1) bench
       = Threw e s'
       /\ (e = lit "Not connected to device or invalid image data"
           \/ e = lit "Failed to send image: Transfer aborted"
           \/ e = lit "Failed to send image: Timeout waiting for ready signal").
Proof.
  split; [reflexivity|]. split; [discriminate|].
  destruct (sendImageToDevice benchRender (scheduleWith [82]) (base64 img1)
              bench) as [u s'|e s'] eqn:H.
  - vm_compute in H. discriminate.
  - exists e, s'. split; [reflexivity|].
    apply (ack_wait_cannot_time_out benchRender (scheduleWith [82])
             (base64 img1) bench s' e); [reflexivity | discriminate | exact H].
Defined.

(** X3.  Whatever happens during a transfer that got past its guard, it
    leaves [transferInProgressRef] false, and a failure is reported as
    'Failed to send image: ' followed by its cause. *)
Theorem transfer_ends_not_in_progress
    (r : Render) (sch : Schedule) (imageData : option (list Z)) (s : State) :
  isDeviceConnected r = true -> deviceRef s <> None ->
  optTruthy imageData = true ->
  transferInProgressRef (stateOf (sendImageToDevice r sch imageData s)) = false
  /\ forall e s',
       sendImageToDevice r sch imageData s = Threw e s' ->
       exists cause, e = lit "Failed to send image: " ++ cause.
Proof.
  intros Hc Hd Ht. unfold sendImageToDevice.
  rewrite Hc, (bool_decide_eq_true_2 _ Hd), Ht. cbn [negb orb].
  cbv zeta. unfold tryCatch at 1 2.
  match goal with
  | |- context [match ?body s with _ => _ end] =>
      destruct (body s) as [u s1|e1 s1] eqn:Hbody
  end.
  - split; [|discriminate]. cbn [stateOf].
    do 10 (apply bind_Returned in Hbody as (? & ? & _ & Hbody)).
    apply bind_Returned in Hbody as ([] & s11 & Hw & Hlog).
    apply pollFlags_Returned in Hw as [Hp _].
    unfold log, exec in Hlog. injection Hlog as _ <-.
    by rewrite addMonitorEntry_inProgress.
  - rewrite failure_handler. split; [reflexivity|].
    intros e s' [= <- _]. by exists e1.
Qed.

Lemma transfer_on_bench_ends_not_in_progress :
  isDeviceConnected benchRender = true
  /\ deviceRef busy <> None
  /\ optTruthy (base64 img1) = true
  /\ transferInProgressRef
       (stateOf (sendImageToDevice benchRender (scheduleWith [82])
                   (base64 img1) busy)) = false.
Proof.
  split; [reflexivity|]. split; [discriminate|]. split; [reflexivity|].
  apply (transfer_ends_not_in_progress benchRender (scheduleWith [82])
           (base64 img1) busy); [reflexivity | discriminate | reflexivity].
Defined.

(** ** A serial module that rejects the writes *)

Lemma abortTransfer_mute r err s :
  usbError s = Some err -> usbCalls (abortTransfer r s) = usbCalls s.
Proof.
  intros H. unfold abortTransfer, usbIssue.
  destruct (transferInProgressRef s && bool_decide (deviceRef s <> None));
    [|done].
  destruct (deviceRef s); [|done]. rewrite H. done.
Qed.

Lemma scanFrameLost_mute r err s :
  usbError s = Some err -> usbCalls (scanFrameLost r s) = usbCalls s.
Proof.
  intros H. unfold scanFrameLost.
  destruct (includes FRAME_LOST (messageBuffer s)); [|done].
  cbv zeta. cbn [usbCalls setMessageBuffer].
  match goal with |- context [if ?c then _ else _] => destruct c end.
  - rewrite (abortTransfer_mute _ err).
    + cbn [usbCalls setTransferAborted]. apply addMonitorEntry_calls.
    + cbn [usbError setTransferAborted].
      by rewrite (steady_error _ _ (steady_addMonitorEntry _ _ _ _)).
  - cbn [usbCalls setTransferAborted]. apply addMonitorEntry_calls.
Qed.

Lemma scanInvalidCmd_calls r s : usbCalls (scanInvalidCmd r s) = usbCalls s.
Proof.
  unfold scanInvalidCmd. destruct (includes INVALID_CMD (messageBuffer s));
    [|done].
  cbn [usbCalls setMessageBuffer]. apply addMonitorEntry_calls.
Qed.

Lemma processText_mute r data err s :
  usbError s = Some err -> usbCalls (processText r data s) = usbCalls s.
Proof.
  intros H. unfold processText, splitAndLog. cbv zeta.
  rewrite (proj1 (proj2 (proj2 (proj2 (logMessages_fields _ _ _))))).
  cbn [usbCalls setMessageBuffer].
  rewrite scanInvalidCmd_calls.
  by rewrite (scanFrameLost_mute _ err).
Qed.

Lemma handle_mute e err s :
  usbError s = Some err -> usbCalls (handle e s) = usbCalls s.
Proof.
  intros H. destruct e as [data now|now|]; cbn [handle].
  - destruct (readCallback s) as [r|]; [|done].
    unfold onData. destruct (negb (isDeviceConnected r)); [done|].
    destruct (existsb (Z.eqb 82) data); [done|].
    destruct (findAck data) as [[|]|]; try done.
    cbn [usbCalls setLastTransferActivity].
    by apply (processText_mute _ _ err).
  - destruct (transferTimeoutCheckerRef s) as [r|]; [|done].
    unfold watchdog.
    destruct (transferInProgressRef s && _); [|done].
    rewrite (abortTransfer_mute _ err).
    + apply addMonitorEntry_calls.
    + by rewrite (steady_error _ _ (steady_addMonitorEntry _ _ _ _)).
  - unfold abortTransferSettled.
    destruct (pendingAborts s) as [|[r w] rest]; [done|].
    cbn [usbCalls setTransferInProgress setTransferAborted].
    destruct w; [rewrite addMonitorEntry_calls|]; reflexivity.
Qed.

Lemma run_mute events err s :
  usbError s = Some err -> usbCalls (run events s) = usbCalls s.
Proof.
  revert s. induction events as [|e events IH]; intros s H; [done|].
  cbn [run fold_left]. fold (run events (handle e s)).
  rewrite IH.
  - by apply (handle_mute _ err).
  - by rewrite (steady_error _ _ (steady_handle _ _)).
Qed.

Lemma sendImageToDevice_rejected r sch imageData err s :
  isDeviceConnected r = true -> deviceRef s <> None ->
  optTruthy imageData = true -> usbError s = Some err ->
  exists s',
    sendImageToDevice r sch imageData s
    = Threw (lit "Failed to send image: " ++ err) s'
    /\ usbCalls s' = usbCalls s
    /\ transferInProgressRef s' = false.
Proof.
  intros Hc Hd Ht Herr. unfold sendImageToDevice.
  rewrite Hc, (bool_decide_eq_true_2 _ Hd), Ht. cbn [negb orb].
  rewrite !tryCatch_exec.
  unfold tryCatch, bind at 1, usbWrite, usbIssue.
  cbn [deviceRef usbError setTransferAborted setTransferInProgress].
  destruct (deviceRef s) as [d|]; [|done]. rewrite Herr.
  rewrite failure_handler. eexists. split; [reflexivity|].
  split; [|reflexivity].
  cbn [usbCalls setTransferInProgress].
  by rewrite (run_mute _ err).
Qed.

(** X4.  When the serial module rejects the writes, a transfer that got
    past its guard fails at START_RTIMAGE with the module's error behind
    'Failed to send image: '; nothing reaches the channel and nothing is left
    in progress. *)
Theorem rejected_write_fails_the_transfer
    (r : Render) (sch : Schedule) (imageData : option (list Z))
    (err : list Z) (s : State) :
  isDeviceConnected r = true -> deviceRef s <> None ->
  optTruthy imageData = true -> usbError s = Some err ->
  exists s',
    sendImageToDevice r sch imageData s
    = Threw (lit "Failed to send image: " ++ err) s'
    /\ usbCalls s' = usbCalls s
    /\ transferInProgressRef s' = false.
Proof. apply sendImageToDevice_rejected. Qed.

Lemma rejected_write_on_bench_fails_the_transfer :
  exists s',
    sendImageToDevice benchRender (scheduleWith [75]) (base64 img1) jammed
    = Threw (lit "Failed to send image: Device not found") s'
    /\ usbCalls s' = []
    /\ transferInProgressRef s' = false.
Proof.
  apply (rejected_write_fails_the_transfer benchRender (scheduleWith [75])
           (base64 img1) (lit "Device not found") jammed);
    [reflexivity | discriminate | reflexivity | reflexivity].
Defined.

(** ** What a completed transfer wrote *)

Lemma quanta_bytes_upto n vs :
  (length vs <= n)%nat -> Forall isByte (quanta vs).
Proof.
  revert vs. induction n as [n IH] using (well_founded_induction lt_wf).
  intros vs Hlen.
  assert (Hb : forall v, isByte (Z.land v 0xFF)).
  { intros v. rewrite land_255. unfold isByte.
    pose proof (Z.mod_pos_bound v 256 ltac:(lia)). lia. }
  destruct vs as [|a [|b [|c [|d rest]]]]; cbn [quanta].
  - constructor.
  - constructor.
  - constructor; [apply Hb | constructor].
  - constructor; [apply Hb|]. constructor; [apply Hb | constructor].
  - cbv zeta. constructor; [apply Hb|]. constructor; [apply Hb|].
    constructor; [apply Hb|].
    apply (IH (length rest)); [cbn [length] in Hlen; lia | lia].
Qed.

Lemma fromBase64_bytes text : Forall isByte (fromBase64 text).
Proof.
  unfold fromBase64. cbv zeta.
  destruct (Z.of_nat (length (sextets (beforePad text))) <? 2);
    [constructor|].
  by apply (quanta_bytes_upto (length (sextets (beforePad text)))).
Qed.

(** X5.  A transfer that returns normally has written, in this order,
    START_RTIMAGE, the header for the decoded image and the decoded image
    itself as hexadecimal text that reads back as the same bytes; it leaves
    neither flag set and its last monitor entry is 'Image sent
    successfully'. *)
Theorem completed_transfer_wrote_start_header_payload
    (r : Render) (sch : Schedule) (imageData : option (list Z))
    (d : UsbDevice) (s s' : State) :
  deviceRef s = Some d ->
  sendImageToDevice r sch imageData s = Returned tt s' ->
  exists text,
    imageData = Some text
    /\ (exists m1 m2 m3,
          usbCalls s'
          = usbCalls s ++ [Write (deviceId d) (lit "START_RTIMAGE" ++ [LF])]
            ++ m1
            ++ [WriteHexString (deviceId d)
                  (toHex (frameHeader
                            (Z.of_nat (length (fromBase64 text)))))]
            ++ m2 ++ [WriteHexString (deviceId d) (toHex (fromBase64 text))]
            ++ m3)
    /\ fromHex (toHex (fromBase64 text)) = Some (fromBase64 text)
    /\ transferInProgressRef s' = false
    /\ transferAbortedRef s' = false
    /\ head (logs s') = Some (mkLog (lit "Image sent successfully") SUCCESS).
Proof.
  intros Hd Hsend.
  destruct (isDeviceConnected r) eqn:Hc;
    [|rewrite sendImageToDevice_guard in Hsend by auto; discriminate].
  destruct (optTruthy imageData) eqn:Ht;
    [|rewrite sendImageToDevice_guard in Hsend by auto; discriminate].
  destruct (usbError s) as [err|] eqn:Herr.
  { destruct (sendImageToDevice_rejected r sch imageData err s Hc
                ltac:(by rewrite Hd) Ht Herr) as (s1 & H1 & _).
    rewrite H1 in Hsend. discriminate. }
  destruct imageData as [x|]; [|discriminate]. cbn [optTruthy] in Ht.
  exists x. split; [reflexivity|].
  rewrite (sendImageToDevice_start r sch x d s Hc Hd Herr Ht) in Hsend.
  pose proof (afterHeader_steady r sch (fromBase64 x) d s) as Hst.
  destruct (afterHeader_calls r sch (fromBase64 x) d s) as (mid & post & Hcalls).
  remember (afterHeader r sch (fromBase64 x) d s) as s0 eqn:Es0.
  unfold fromReadyWait, tryCatch in Hsend.
  match type of Hsend with
  | match ?body s0 with _ => _ end = _ =>
      destruct (body s0) as [u s1|e1 s1] eqn:Hbody
  end; [|rewrite failure_handler in Hsend; discriminate].
  injection Hsend as _ ->.
  apply bind_Returned in Hbody as ([] & s1 & Hw & Hrest).
  pose proof (steadyM_awaitSignal (readyWait sch)
                (lit "Timeout waiting for ready signal") s0) as Hst1.
  rewrite Hw in Hst1. cbn [stateOf] in Hst1.
  apply pollFlags_Returned in Hw as [Hp Ha].
  rewrite (uptoAckWait r sch (fromBase64 x) d s1) in Hrest;
    [| by rewrite (steady_device _ _ Hst1), (steady_device _ _ Hst)
     | by rewrite (steady_error _ _ Hst1), (steady_error _ _ Hst)
     | exact Ha].
  apply bind_Returned in Hrest as ([] & s5 & Hw2 & Hlog).
  match type of Hw2 with
  | awaitSignal _ _ ?s4 = _ =>
      pose proof (steadyM_awaitSignal (ackWait sch)
                    (lit "Timeout waiting for acknowledgment") s4) as Hst5;
      rewrite Hw2 in Hst5; cbn [stateOf] in Hst5
  end.
  apply pollFlags_Returned in Hw2 as [Hp5 Ha5].
  unfold log, exec in Hlog. injection Hlog as ?. subst s'.
  split; [|split; [apply fromHex_toHex, fromBase64_bytes|]].
  - destruct (steady_calls _ _ Hst1) as (more1 & E1).
    destruct (steady_calls _ _ Hst5) as (more5 & E5).
    rewrite addMonitorEntry_calls, E5, addMonitorEntry_calls.
    match goal with
    | |- context [run ?evs ?st] =>
        destruct (steady_calls _ _ (steady_run evs st)) as (more3 & E3)
    end.
    rewrite E3. cbn [usbCalls setUsbCalls].
    rewrite addMonitorEntry_calls, E1, Hcalls.
    exists mid, (post ++ more1), (more3 ++ more5).
    by rewrite <- !app_assoc.
  - rewrite addMonitorEntry_inProgress, addMonitorEntry_aborted.
    split; [exact Hp5|]. split; [exact Ha5|]. reflexivity.
Qed.

Lemma completed_transfer_on_bench :
  deviceRef bench = Some benchDevice
  /\ exists s',
       sendImageToDevice benchRender (scheduleWith [75]) (base64 img1) bench
       = Returned tt s'
       /\ transferInProgressRef s' = false
       /\ head (logs s')
          = Some (mkLog (lit "Image sent successfully") SUCCESS).
Proof.
  split; [reflexivity|].
  destruct (sendImageToDevice benchRender (scheduleWith [75]) (base64 img1)
              bench) as [[] s'|e s'] eqn:H.
  - exists s'. split; [reflexivity|].
    destruct (completed_transfer_wrote_start_header_payload benchRender
                (scheduleWith [75]) (base64 img1) benchDevice bench s'
                eq_refl H) as (text & _ & _ & _ & Hp & _ & Hl).
    split; [exact Hp | exact Hl].
  - vm_compute in H. discriminate.
Defined.

(** ** What the callbacks write *)

Lemma abortsOnly_refl s : abortsOnly s s.
Proof. exists []. split; [by rewrite app_nil_r | constructor]. Qed.

Lemma abortsOnly_trans s1 s2 s3 :
  abortsOnly s1 s2 -> abortsOnly s2 s3 -> abortsOnly s1 s3.
Proof.
  intros (m1 & E1 & F1) (m2 & E2 & F2). exists (m1 ++ m2). split.
  - by rewrite E2, E1, app_assoc.
  - by apply Forall_app.
Qed.

#[export] Instance abortsOnly_preorder : PreOrder abortsOnly.
Proof. split; [exact abortsOnly_refl | exact abortsOnly_trans]. Qed.

Lemma abortsOnly_same s s' : usbCalls s' = usbCalls s -> abortsOnly s s'.
Proof. intros H. exists []. split; [by rewrite app_nil_r | constructor]. Qed.

Lemma abortsOnly_abortTransfer r s : abortsOnly s (abortTransfer r s).
Proof.
  unfold abortTransfer.
  destruct (transferInProgressRef s && bool_decide (deviceRef s <> None));
    [|reflexivity].
  unfold usbIssue. destruct (deviceRef s) as [d|]; [|by apply abortsOnly_same].
  destruct (usbError s); [by apply abortsOnly_same|].
  exists [Write (deviceId d) (lit "ABORT" ++ [LF])]. split; [reflexivity|].
  constructor; [reflexivity | constructor].
Qed.

Lemma abortsOnly_scanFrameLost r s : abortsOnly s (scanFrameLost r s).
Proof.
  unfold scanFrameLost.
  destruct (includes FRAME_LOST (messageBuffer s)); [|reflexivity].
  cbv zeta.
  match goal with |- context [if ?c then _ else _] => destruct c end.
  - etransitivity; [|apply abortsOnly_same; reflexivity].
    etransitivity; [|apply abortsOnly_abortTransfer].
    apply abortsOnly_same. cbn [usbCalls setTransferAborted].
    apply addMonitorEntry_calls.
  - apply abortsOnly_same. cbn [usbCalls setMessageBuffer setTransferAborted].
    apply addMonitorEntry_calls.
Qed.

Lemma abortsOnly_processText r data s : abortsOnly s (processText r data s).
Proof.
  unfold processText, splitAndLog. cbv zeta.
  etransitivity;
    [|apply abortsOnly_same;
      apply (proj1 (proj2 (proj2 (proj2 (logMessages_fields _ _ _)))))].
  etransitivity; [|apply abortsOnly_same; reflexivity].
  etransitivity; [|apply abortsOnly_same; apply scanInvalidCmd_calls].
  etransitivity; [|apply abortsOnly_scanFrameLost].
  by apply abortsOnly_same.
Qed.

Lemma abortsOnly_handle e s : abortsOnly s (handle e s).
Proof.
  destruct e as [data now|now|]; cbn [handle].
  - destruct (readCallback s) as [r|]; [|reflexivity].
    unfold onData. destruct (negb (isDeviceConnected r)); [reflexivity|].
    destruct (existsb (Z.eqb 82) data); [by apply abortsOnly_same|].
    destruct (findAck data) as [[|]|]; try by apply abortsOnly_same.
    etransitivity; [|apply abortsOnly_same; reflexivity].
    apply abortsOnly_processText.
  - destruct (transferTimeoutCheckerRef s) as [r|]; [|reflexivity].
    unfold watchdog.
    destruct (transferInProgressRef s && _); [|reflexivity].
    etransitivity; [|apply abortsOnly_abortTransfer].
    apply abortsOnly_same, addMonitorEntry_calls.
  - unfold abortTransferSettled.
    destruct (pendingAborts s) as [|[r w] rest]; [reflexivity|].
    apply abortsOnly_same.
    cbn [usbCalls setTransferInProgress setTransferAborted].
    destruct w; [rewrite addMonitorEntry_calls|]; reflexivity.
Qed.

Lemma abortsOnly_run events s : abortsOnly s (run events s).
Proof.
  revert s. induction events as [|e events IH]; intros s; [reflexivity|].
  cbn [run fold_left]. fold (run events (handle e s)).
  etransitivity; [apply abortsOnly_handle | apply IH].
Qed.

(** X6.  Whatever arrives and whenever the watchdog fires, the callbacks
    ask the serial module for nothing but ABORT commands: every other write
    comes from an operation the user or the image loop started. *)
Theorem callbacks_write_only_abort (events : list Event) (s : State) :
  exists more,
    usbCalls (run events s) = usbCalls s ++ more
    /\ Forall (fun c => exists device,
                  c = Write device (lit "ABORT" ++ [LF])) more.
Proof.
  destruct (abortsOnly_run events s) as (more & E & F).
  exists more. split; [exact E|].
  eapply Forall_impl; [exact F|].
  intros [device data|device hex]; cbn [isAbortWrite]; [|discriminate].
  intros H%bool_decide_eq_true. subst data. by exists device.
Qed.

Lemma hexWrites_app a b : hexWrites (a ++ b) = hexWrites a ++ hexWrites b.
Proof. apply List.filter_app. Qed.

Lemma hexWrites_aborts more :
  Forall (fun c => isAbortWrite c = true) more -> hexWrites more = [].
Proof.
  induction 1 as [|c more Hc _ IH]; [reflexivity|].
  unfold hexWrites. cbn [List.filter]. fold (hexWrites more).
  destruct c; [exact IH | discriminate].
Qed.

Lemma hexWrites_abortsOnly s s' :
  abortsOnly s s' -> hexWrites (usbCalls s') = hexWrites (usbCalls s).
Proof.
  intros (more & E & F).
  by rewrite E, hexWrites_app, (hexWrites_aborts _ F), app_nil_r.
Qed.

Lemma afterHeader_hexWrites r sch payload d s :
  hexWrites (usbCalls (afterHeader r sch payload d s))
  = hexWrites (usbCalls s)
    ++ [WriteHexString (deviceId d)
          (toHex (frameHeader (Z.of_nat (length payload))))].
Proof.
  unfold afterHeader. cbv zeta.
  rewrite addMonitorEntry_calls, (hexWrites_abortsOnly _ _ (abortsOnly_run _ _)).
  cbn [usbCalls setUsbCalls].
  rewrite hexWrites_app, (hexWrites_abortsOnly _ _ (abortsOnly_run _ _)).
  rewrite addMonitorEntry_calls, (hexWrites_abortsOnly _ _ (abortsOnly_run _ _)).
  cbn [usbCalls setUsbCalls setTransferAborted setTransferInProgress].
  rewrite hexWrites_app. cbn. by rewrite app_nil_r.
Qed.

Lemma run_app a b s : run (a ++ b) s = run b (run a s).
Proof. unfold run. apply fold_left_app. Qed.

(** X7.  An 'E' that arrives after a transfer has started and before the
    first poll of its ready wait stops the transfer there: the call fails
    with 'Failed to send image: Transfer aborted', the aborted flag stays set,
    and the header is the only hexadecimal write: the payload is never
    sent. *)
Theorem error_ack_stops_transfer_before_payload
    (r rc : Render) (sch : Schedule) (text : list Z) (d : UsbDevice)
    (before after : list Event) (rest : list (list Event))
    (data : list Z) (now : Z) (s : State) :
  isDeviceConnected r = true -> deviceRef s = Some d -> usbError s = None ->
  truthy text = true ->
  readCallback s = Some rc -> isDeviceConnected rc = true ->
  polls (readyWait sch) = (before ++ EvData data now :: after) :: rest ->
  existsb (Z.eqb 82) data = false -> findAck data = Some false ->
  exists s',
    sendImageToDevice r sch (Some text) s
    = Threw (lit "Failed to send image: Transfer aborted") s'
    /\ transferAbortedRef s' = true
    /\ transferInProgressRef s' = false
    /\ hexWrites (usbCalls s')
       = hexWrites (usbCalls s)
         ++ [WriteHexString (deviceId d)
               (toHex (frameHeader (Z.of_nat (length (fromBase64 text)))))].
Proof.
  intros Hc Hd Herr Ht Hrc Hrcc Hpolls Hr Hack.
  rewrite (sendImageToDevice_start r sch text d s Hc Hd Herr Ht).
  pose proof (afterHeader_steady r sch (fromBase64 text) d s) as Hst.
  pose proof (afterHeader_hexWrites r sch (fromBase64 text) d s) as Hhex.
  remember (afterHeader r sch (fromBase64 text) d s) as s0 eqn:Es0.
  unfold fromReadyWait, tryCatch, bind at 1, awaitSignal.
  rewrite Hpolls. cbn [pollFlags].
  set (sa := run (before ++ EvData data now :: after) s0).
  assert (Ha : transferAbortedRef sa = true).
  { unfold sa. rewrite run_app. cbn [run fold_left].
    fold (run after (handle (EvData data now) (run before s0))).
    apply run_aborted. cbn [handle].
    rewrite (steady_reader _ _ (steady_run _ _)), (steady_reader _ _ Hst), Hrc.
    unfold onData. rewrite Hrcc, Hr, Hack. reflexivity. }
  rewrite Ha. rewrite failure_handler. eexists. split; [reflexivity|].
  split; [exact Ha|]. split; [reflexivity|].
  cbn [usbCalls setTransferInProgress]. unfold sa.
  by rewrite (hexWrites_abortsOnly _ _ (abortsOnly_run _ _)).
Qed.

Lemma error_ack_on_bench_stops_transfer :
  exists s',
    sendImageToDevice benchRender (scheduleWith [69]) (Some (lit "AQID")) bench
    = Threw (lit "Failed to send image: Transfer aborted") s'
    /\ transferAbortedRef s' = true
    /\ transferInProgressRef s' = false
    /\ hexWrites (usbCalls s')
       = [WriteHexString (deviceId benchDevice) (lit "33cc55aa03000000")].
Proof.
  apply (error_ack_stops_transfer_before_payload benchRender benchRender
           (scheduleWith [69]) (lit "AQID") benchDevice [] []
           (replicate 48 []) [69] 1010 bench);
    reflexivity.
Defined.

(** ** The watchdog and a new transfer *)

Lemma watchdog_abort_settles rw d now s :
  transferTimeoutCheckerRef s = Some rw -> deviceRef s = Some d ->
  usbError s = None -> pendingAborts s = [] ->
  transferInProgressRef s = true ->
  TRANSFER_TIMEOUT < now - lastTransferActivityRef s ->
  let s' := run [EvWatchdog now; EvAbortSettled] s in
  transferAbortedRef s' = true
  /\ transferInProgressRef s' = false
  /\ pendingAborts s' = []
  /\ usbCalls s' = usbCalls s ++ [Write (deviceId d) (lit "ABORT" ++ [LF])].
Proof.
  intros Hw Hd He Hpend Hp Hlate. cbn [run fold_left handle]. rewrite Hw.
  unfold watchdog. rewrite Hp.
  replace (TRANSFER_TIMEOUT <? now - lastTransferActivityRef s) with true
    by (symmetry; apply Z.ltb_lt; exact Hlate).
  cbn [andb].
  set (s1 := addMonitorEntry rw (lit "Transfer timeout - no device response")
               ERROR s).
  assert (Hd1 : deviceRef s1 = Some d)
    by (unfold s1; by rewrite (steady_device _ _ (steady_addMonitorEntry _ _ _ _))).
  assert (He1 : usbError s1 = None)
    by (unfold s1; by rewrite (steady_error _ _ (steady_addMonitorEntry _ _ _ _))).
  unfold abortTransfer.
  replace (transferInProgressRef s1) with true
    by (unfold s1; by rewrite addMonitorEntry_inProgress).
  rewrite (bool_decide_eq_true_2 (deviceRef s1 <> None)) by (by rewrite Hd1).
  cbn [andb]. rewrite (usbIssue_ok _ d s1 Hd1 He1).
  unfold abortTransferSettled.
  cbn [pendingAborts setPendingAborts setUsbCalls].
  replace (pendingAborts s1) with (@nil (Render * bool))
    by (unfold s1; by rewrite addMonitorEntry_pending).
  cbn [app].
  cbn [transferAbortedRef transferInProgressRef pendingAborts usbCalls
       setTransferInProgress setTransferAborted].
  rewrite addMonitorEntry_pending, addMonitorEntry_calls.
  cbn [pendingAborts usbCalls setPendingAborts setUsbCalls].
  unfold s1. rewrite addMonitorEntry_calls. done.
Qed.

(** X8.  [sendImageToDevice] does not refresh [lastTransferActivityRef]:
    only the read callback does.  So when the last chunk from the device is
    more than 15 s old, a watchdog tick that falls in the 100 ms pause after
    START_RTIMAGE finds the new transfer late at once and aborts it: ABORT is
    written, the header still follows it, and the call fails with 'Failed to
    send image: Transfer aborted' at the first poll of the ready wait. *)
Theorem stale_activity_aborts_new_transfer
    (r rw : Render) (text : list Z) (d : UsbDevice) (now : Z)
    (events : list Event) (rest : list (list Event)) (last : list Event)
    (later : list Event) (ack : Wait) (s : State) :
  isDeviceConnected r = true -> deviceRef s = Some d -> usbError s = None ->
  truthy text = true ->
  transferTimeoutCheckerRef s = Some rw -> pendingAborts s = [] ->
  TRANSFER_TIMEOUT < now - lastTransferActivityRef s ->
  let sch := mkSchedule [] [EvWatchdog now; EvAbortSettled] []
               (mkWait (events :: rest) last) later ack in
  exists s',
    sendImageToDevice r sch (Some text) s
    = Threw (lit "Failed to send image: Transfer aborted") s'
    /\ transferAbortedRef s' = true
    /\ usbCalls s'
       = usbCalls s
         ++ [Write (deviceId d) (lit "START_RTIMAGE" ++ [LF]);
             Write (deviceId d) (lit "ABORT" ++ [LF]);
             WriteHexString (deviceId d)
               (toHex (frameHeader (Z.of_nat (length (fromBase64 text)))))].
Proof.
  intros Hc Hd Herr Ht Hw Hpend Hlate sch.
  rewrite (sendImageToDevice_start r sch text d s Hc Hd Herr Ht).
  subst sch. unfold afterHeader. cbv zeta.
  cbn [duringStart duringDelay duringHeader].
  change (run [] ?x) with x.
  set (s1 := addMonitorEntry r (lit "Sent START_RTIMAGE") INFO _).
  assert (Hst1 : steady s s1) by (unfold s1; steady_peel).
  destruct (watchdog_abort_settles rw d now s1) as (Ha2 & Hp2 & Hpend2 & Hc2).
  { by rewrite (steady_checker _ _ Hst1). }
  { by rewrite (steady_device _ _ Hst1). }
  { by rewrite (steady_error _ _ Hst1). }
  { unfold s1. by rewrite addMonitorEntry_pending. }
  { unfold s1. by rewrite addMonitorEntry_inProgress. }
  { unfold s1. by rewrite addMonitorEntry_last. }
  set (s2 := run [EvWatchdog now; EvAbortSettled] s1) in *.
  set (s3 := addMonitorEntry r _ INFO (setUsbCalls _ s2)).
  assert (Hp3 : transferInProgressRef s3 = false)
    by (unfold s3; by rewrite addMonitorEntry_inProgress).
  assert (Hpend3 : pendingAborts s3 = [])
    by (unfold s3; by rewrite addMonitorEntry_pending).
  assert (Ha3 : transferAbortedRef s3 = true)
    by (unfold s3; by rewrite addMonitorEntry_aborted).
  unfold fromReadyWait, tryCatch, bind at 1, awaitSignal.
  cbn [readyWait polls pollFlags].
  pose proof (run_atRest events s3 Hp3 Hpend3) as Hrest.
  rewrite (atRest_aborted _ _ Hrest Ha3).
  rewrite failure_handler. eexists. split; [reflexivity|].
  split; [exact (atRest_aborted _ _ Hrest Ha3)|].
  cbn [usbCalls setTransferInProgress].
  rewrite (atRest_calls _ _ Hrest). unfold s3.
  rewrite addMonitorEntry_calls. cbn [usbCalls setUsbCalls].
  rewrite Hc2. unfold s1. rewrite addMonitorEntry_calls.
  unfold run.
  cbn [fold_left usbCalls setUsbCalls setTransferAborted setTransferInProgress].
  by rewrite <- !app_assoc.
Qed.

Lemma stale_activity_on_bench_aborts_transfer :
  exists s',
    sendImageToDevice benchRender
      (mkSchedule [] [EvWatchdog 20000; EvAbortSettled] []
         (mkWait [[]] []) [] silence)
      (Some (lit "AQID")) bench
    = Threw (lit "Failed to send image: Transfer aborted") s'
    /\ transferAbortedRef s' = true
    /\ usbCalls s'
       = usbCalls bench
         ++ [Write (deviceId benchDevice) (lit "START_RTIMAGE" ++ [LF]);
             Write (deviceId benchDevice) (lit "ABORT" ++ [LF]);
             WriteHexString (deviceId benchDevice)
               (toHex (frameHeader
                         (Z.of_nat (length (fromBase64 (lit "AQID"))))))].
Proof.
  apply (stale_activity_aborts_new_transfer benchRender benchRender
           (lit "AQID") benchDevice 20000 [] [] [] [] silence bench);
    reflexivity.
Defined.

(** ** A late transfer without a working channel *)

Lemma watchdog_without_device rw now s :
  transferTimeoutCheckerRef s = Some rw -> deviceRef s = None ->
  transferInProgressRef s = true ->
  TRANSFER_TIMEOUT < now - lastTransferActivityRef s ->
  handle (EvWatchdog now) s
  = addMonitorEntry rw (lit "Transfer timeout - no device response") ERROR s.
Proof.
  intros Hw Hd Hp Hlate. cbn [handle]. rewrite Hw. unfold watchdog.
  rewrite Hp.
  replace (TRANSFER_TIMEOUT <? now - lastTransferActivityRef s) with true
    by (symmetry; apply Z.ltb_lt; exact Hlate).
  cbn [andb]. unfold abortTransfer.
  rewrite addMonitorEntry_inProgress, Hp.
  rewrite (steady_device _ _ (steady_addMonitorEntry _ _ _ _)), Hd.
  reflexivity.
Qed.

(** X9.  [abortTransfer] does nothing without a device handle, not even
    clear the flag it tests.  So when the handle is gone while a transfer is
    marked in progress, every tick of the watchdog past the 15 s adds the
    entry 'Transfer timeout - no device response' and changes nothing else:
    the transfer stays in progress and the next tick reports it again. *)
Theorem watchdog_without_device_reports_every_tick
    (rw : Render) (ticks : list Z) (s : State) :
  transferTimeoutCheckerRef s = Some rw -> deviceRef s = None ->
  transferInProgressRef s = true ->
  Forall (fun now => TRANSFER_TIMEOUT < now - lastTransferActivityRef s) ticks ->
  let s' := run (List.map EvWatchdog ticks) s in
  logs s'
  = replicate (length ticks)
      (mkLog (lit "Transfer timeout - no device response") ERROR)
    ++ logs s
  /\ transferInProgressRef s' = true
  /\ transferAbortedRef s' = transferAbortedRef s
  /\ usbCalls s' = usbCalls s.
Proof.
  intros Hw Hd Hp Hlate. revert s Hw Hd Hp Hlate.
  induction ticks as [|now ticks IH]; intros s Hw Hd Hp Hlate; [done|].
  apply Forall_cons in Hlate as [Hnow Hlate].
  cbn [List.map run fold_left].
  fold (run (List.map EvWatchdog ticks) (handle (EvWatchdog now) s)).
  rewrite (watchdog_without_device rw now s Hw Hd Hp Hnow).
  set (s1 := addMonitorEntry rw (lit "Transfer timeout - no device response")
               ERROR s).
  destruct (IH s1) as (Hl & Hp' & Ha' & Hc').
  - unfold s1. by rewrite (steady_checker _ _ (steady_addMonitorEntry _ _ _ _)).
  - unfold s1. by rewrite (steady_device _ _ (steady_addMonitorEntry _ _ _ _)).
  - unfold s1. by rewrite addMonitorEntry_inProgress.
  - unfold s1. by rewrite addMonitorEntry_last.
  - rewrite Hl, Hp', Ha', Hc'. unfold s1.
    rewrite addMonitorEntry_aborted, addMonitorEntry_calls.
    split; [|done].
    cbn [length]. rewrite replicate_S_end, <- app_assoc. reflexivity.
Qed.

Lemma watchdog_without_device_on_bench :
  logs (run [EvWatchdog 15001; EvWatchdog 16001] orphaned)
  = [mkLog (lit "Transfer timeout - no device response") ERROR;
     mkLog (lit "Transfer timeout - no device response") ERROR]
  /\ transferInProgressRef (run [EvWatchdog 15001; EvWatchdog 16001] orphaned)
     = true.
Proof.
  destruct (watchdog_without_device_reports_every_tick benchRender
              [15001; 16001] orphaned)
    as (Hl & Hp & _); try reflexivity.
  - repeat constructor.
  - split; [exact Hl | exact Hp].
Defined.

(** X10.  When the serial module rejects the ABORT write, [abortTransfer]
    swallows the error and still sets the flags: after the tick of the
    watchdog and the settling of the write the transfer is aborted and no
    longer in progress, nothing was written, and the monitor shows the
    timeout entry but no 'Sent abort command'. *)
Theorem rejected_abort_still_sets_the_flags
    (rw : Render) (d : UsbDevice) (err : list Z) (now : Z) (s : State) :
  transferTimeoutCheckerRef s = Some rw -> deviceRef s = Some d ->
  usbError s = Some err -> pendingAborts s = [] ->
  transferInProgressRef s = true ->
  TRANSFER_TIMEOUT < now - lastTransferActivityRef s ->
  let s' := run [EvWatchdog now; EvAbortSettled] s in
  transferAbortedRef s' = true
  /\ transferInProgressRef s' = false
  /\ usbCalls s' = usbCalls s
  /\ logs s'
     = mkLog (lit "Transfer timeout - no device response") ERROR :: logs s.
Proof.
  intros Hw Hd He Hpend Hp Hlate. cbn [run fold_left handle]. rewrite Hw.
  unfold watchdog. rewrite Hp.
  replace (TRANSFER_TIMEOUT <? now - lastTransferActivityRef s) with true
    by (symmetry; apply Z.ltb_lt; exact Hlate).
  cbn [andb].
  set (s1 := addMonitorEntry rw (lit "Transfer timeout - no device response")
               ERROR s).
  assert (Hl1 : logs s1
                = mkLog (lit "Transfer timeout - no device response") ERROR
                  :: logs s) by reflexivity.
  unfold abortTransfer, usbIssue.
  replace (transferInProgressRef s1) with true
    by (unfold s1; by rewrite addMonitorEntry_inProgress).
  replace (deviceRef s1) with (Some d)
    by (unfold s1;
        by rewrite (steady_device _ _ (steady_addMonitorEntry _ _ _ _))).
  replace (usbError s1) with (Some err)
    by (unfold s1;
        by rewrite (steady_error _ _ (steady_addMonitorEntry _ _ _ _))).
  rewrite bool_decide_eq_true_2 by done. cbn [andb].
  unfold abortTransferSettled. cbn [pendingAborts setPendingAborts].
  replace (pendingAborts s1) with (@nil (Render * bool))
    by (unfold s1; by rewrite addMonitorEntry_pending).
  cbn [app].
  cbn [transferAbortedRef transferInProgressRef usbCalls logs
       setTransferInProgress setTransferAborted setPendingAborts].
  rewrite Hl1. unfold s1. rewrite addMonitorEntry_calls. done.
Qed.

Lemma rejected_abort_on_bench_sets_the_flags :
  transferAbortedRef (run [EvWatchdog 15001; EvAbortSettled] jammedBusy) = true
  /\ usbCalls (run [EvWatchdog 15001; EvAbortSettled] jammedBusy) = [].
Proof.
  destruct (rejected_abort_still_sets_the_flags benchRender benchDevice
              (lit "Device not found") 15001 jammedBusy)
    as (Ha & _ & Hc & _); try reflexivity.
  split; [exact Ha | exact Hc].
Defined.

(** ** The rounds of the image loop *)

Lemma stopImageLoop_idle r s : imageLoopIntervalRef s = None -> stopImageLoop r s = s.
Proof. intros H. unfold stopImageLoop. by rewrite H. Qed.

Lemma send_steady r sch imageData s :
  steady s (stateOf (sendImageToDevice r sch imageData s)).
Proof. apply steadyM_sendImageToDevice. Qed.

(** A first round run before the interval is set cannot stop the loop. *)
Lemma displayNextImage_unarmed r sch s :
  imageLoopIntervalRef s = None ->
  react (displayNextImage r sch s) = react s
  /\ imageLoopIntervalRef (displayNextImage r sch s) = None.
Proof.
  intros Hi.
  destruct (displayNextImage_cases r sch s)
    as [-> | [-> | [(image & e & s1 & Hsend & ->)
                   | (image & s1 & _ & _ & Hsend & ->)]]].
  - by rewrite stopImageLoop_idle.
  - rewrite stopImageLoop_idle
      by (by rewrite (steady_interval _ _ (steady_addMonitorEntry _ _ _ _))).
    by rewrite (steady_react _ _ (steady_addMonitorEntry _ _ _ _)),
      (steady_interval _ _ (steady_addMonitorEntry _ _ _ _)).
  - pose proof (send_steady r sch (base64 image) s) as Hst.
    rewrite Hsend in Hst. cbn [stateOf] in Hst.
    rewrite stopImageLoop_idle
      by (by rewrite (steady_interval _ _ (steady_addMonitorEntry _ _ _ _)),
            (steady_interval _ _ Hst)).
    by rewrite (steady_react _ _ (steady_addMonitorEntry _ _ _ _)),
      (steady_interval _ _ (steady_addMonitorEntry _ _ _ _)),
      (steady_react _ _ Hst), (steady_interval _ _ Hst).
  - pose proof (send_steady r sch (base64 image) s) as Hst.
    rewrite Hsend in Hst. cbn [stateOf] in Hst.
    rewrite (steady_react _ _ (steady_addMonitorEntry _ _ _ _)),
      (steady_interval _ _ (steady_addMonitorEntry _ _ _ _)).
    cbn [react imageLoopIntervalRef setCurrentImageIndex].
    by rewrite (steady_react _ _ Hst), (steady_interval _ _ Hst).
Qed.

(** X11.  [startImageLoop] sends the first image before it sets the
    interval, and [stopImageLoop] does nothing while no interval is set.  So
    whenever its guard passes, [startImageLoop] ends with the interval set and
    the loop shown as active, whether the first transfer succeeded or not; a
    failure of the first image is logged but does not keep the loop from
    starting. *)
Theorem loop_starts_even_if_first_image_fails
    (r : Render) (sch : Schedule) (s : State) :
  isDeviceConnected r = true -> uploadedImages r <> [] ->
  let s' := startImageLoop r sch s in
  imageLoopIntervalRef s' = Some r
  /\ imageLoopActive (react s') = true
  /\ head (logs s') = Some (mkLog (lit "Started image loop") INFO).
Proof.
  intros Hc Hne s'. subst s'. unfold startImageLoop. rewrite Hc.
  rewrite bool_decide_eq_false_2
    by (destruct (uploadedImages r); [done | discriminate]).
  cbn [negb orb]. cbv zeta.
  set (s0 := setImageLoopActive true
               (setCurrentImageIndex 0%nat (stopImageLoop r s))).
  assert (Hi0 : imageLoopIntervalRef s0 = None)
    by (unfold s0; cbn; apply stopImageLoop_interval).
  destruct (displayNextImage_unarmed r sch s0 Hi0) as [Hr _].
  rewrite (steady_interval _ _ (steady_addMonitorEntry _ _ _ _)).
  rewrite (steady_react _ _ (steady_addMonitorEntry _ _ _ _)).
  cbn [imageLoopIntervalRef react setImageLoopInterval].
  rewrite Hr. split; [reflexivity|]. split; reflexivity.
Qed.

Lemma loop_on_jammed_bench_still_starts :
  isDeviceConnected benchRender = true
  /\ uploadedImages benchRender <> []
  /\ imageLoopIntervalRef (startImageLoop benchRender (scheduleWith [75]) jammed)
     = Some benchRender
  /\ imageLoopActive
       (react (startImageLoop benchRender (scheduleWith [75]) jammed)) = true.
Proof.
  split; [reflexivity|]. split; [discriminate|].
  destruct (loop_starts_even_if_first_image_fails benchRender
              (scheduleWith [75]) jammed eq_refl)
    as (Hi & Ha & _); [discriminate|].
  split; [exact Hi | exact Ha].
Defined.

Lemma displayNextImage_sent r sch image s s1 :
  isDeviceConnected r = true ->
  uploadedImages r !! currentImageIndexRef s = Some image ->
  sendImageToDevice r sch (base64 image) s = Returned tt s1 ->
  displayNextImage r sch s
  = addMonitorEntry r
      (lit "Displaying image "
       ++ ofInt (Z.of_nat ((currentImageIndexRef s1 + 1)
                             mod length (uploadedImages r))%nat + 1)
       ++ lit " of " ++ ofInt (Z.of_nat (length (uploadedImages r)))) INFO
      (setCurrentImageIndex
         ((currentImageIndexRef s1 + 1) mod length (uploadedImages r))%nat s1).
Proof.
  intros Hc Hlook Hsend. unfold displayNextImage. rewrite Hc.
  rewrite bool_decide_eq_false_2
    by (apply lookup_lt_Some in Hlook; lia).
  cbn [negb orb].
  unfold tryCatch, bind at 1, read at 1. rewrite Hlook.
  unfold bind at 1, ret at 1. unfold bind at 1. rewrite Hsend.
  reflexivity.
Qed.

(** A round whose transfer returns is [displayNextImageResumed] in the state
    in which the transfer ended. *)
Lemma displayNextImage_resumes r sch image s s1 :
  isDeviceConnected r = true ->
  uploadedImages r !! currentImageIndexRef s = Some image ->
  sendImageToDevice r sch (base64 image) s = Returned tt s1 ->
  displayNextImage r sch s = displayNextImageResumed r s1.
Proof.
  intros Hc Hlook Hsend.
  by rewrite (displayNextImage_sent r sch image s s1 Hc Hlook Hsend).
Qed.

Lemma displayNextImage_failed r sch image s e s1 :
  isDeviceConnected r = true ->
  uploadedImages r !! currentImageIndexRef s = Some image ->
  sendImageToDevice r sch (base64 image) s = Threw e s1 ->
  displayNextImage r sch s
  = stopImageLoop r
      (addMonitorEntry r (lit "Error in image loop: " ++ e) ERROR s1).
Proof.
  intros Hc Hlook Hsend. unfold displayNextImage. rewrite Hc.
  rewrite bool_decide_eq_false_2
    by (apply lookup_lt_Some in Hlook; lia).
  cbn [negb orb].
  unfold tryCatch, bind at 1, read at 1. rewrite Hlook.
  unfold bind at 1, ret at 1. unfold bind at 1. rewrite Hsend.
  reflexivity.
Qed.

(** X12.  One firing of the loop's interval sends the image at the active
    index of the array the loop captured.  When the transfer returns, the
    index moves on by one, wrapping at the end of that array, the interval
    stays set, and the entry 'Displaying image i of n' is written with the
    new index plus one: it names the image that comes next, not the one just
    sent.  When the transfer fails, the error is logged, the loop is stopped
    and the index stays where it was. *)
Theorem loop_round_advances_or_stops
    (r : Render) (sch : Schedule) (image : UploadedImage) (s : State) :
  imageLoopIntervalRef s = Some r -> isDeviceConnected r = true ->
  uploadedImages r !! currentImageIndexRef s = Some image ->
  let n := length (uploadedImages r) in
  let next := ((currentImageIndexRef s + 1) mod n)%nat in
  let s' := loopTick sch s in
  (forall s1,
     sendImageToDevice r sch (base64 image) s = Returned tt s1 ->
     currentImageIndexRef s' = next
     /\ imageLoopIntervalRef s' = Some r
     /\ logs s'
        = mkLog (lit "Displaying image " ++ ofInt (Z.of_nat next + 1)
                 ++ lit " of " ++ ofInt (Z.of_nat n)) INFO :: logs s1)
  /\ (forall e s1,
        sendImageToDevice r sch (base64 image) s = Threw e s1 ->
        imageLoopIntervalRef s' = None
        /\ imageLoopActive (react s') = false
        /\ currentImageIndexRef s' = currentImageIndexRef s
        /\ logs s'
           = mkLog (lit "Image loop stopped") INFO
             :: mkLog (lit "Error in image loop: " ++ e) ERROR :: logs s1).
Proof.
  intros Hi Hc Hlook n next s'.
  pose proof (send_steady r sch (base64 image) s) as Hst.
  subst s'. unfold loopTick. rewrite Hi.
  split.
  - intros s1 Hsend. rewrite Hsend in Hst. cbn [stateOf] in Hst.
    rewrite (displayNextImage_sent r sch image s s1 Hc Hlook Hsend).
    rewrite (steady_index _ _ (steady_addMonitorEntry _ _ _ _)).
    rewrite (steady_interval _ _ (steady_addMonitorEntry _ _ _ _)).
    cbn [currentImageIndexRef imageLoopIntervalRef setCurrentImageIndex].
    rewrite (steady_index _ _ Hst), (steady_interval _ _ Hst).
    split; [reflexivity|]. split; [exact Hi|]. reflexivity.
  - intros e s1 Hsend. rewrite Hsend in Hst. cbn [stateOf] in Hst.
    rewrite (displayNextImage_failed r sch image s e s1 Hc Hlook Hsend).
    set (s2 := addMonitorEntry r (lit "Error in image loop: " ++ e) ERROR s1).
    assert (Hst2 : steady s s2)
      by (unfold s2; etransitivity; [exact Hst | apply steady_addMonitorEntry]).
    rewrite stopImageLoop_interval. split; [reflexivity|].
    unfold stopImageLoop. rewrite (steady_interval _ _ Hst2), Hi.
    rewrite (steady_react _ _ (steady_addMonitorEntry _ _ _ _)).
    rewrite (steady_index _ _ (steady_addMonitorEntry _ _ _ _)).
    cbn [react imageLoopActive setImageLoopActive setReact
         currentImageIndexRef setImageLoopInterval].
    rewrite (steady_index _ _ Hst2).
    split; [reflexivity|]. split; reflexivity.
Qed.

Lemma loop_round_on_bench :
  imageLoopIntervalRef afterTwoRounds = Some benchRender
  /\ uploadedImages benchRender !! currentImageIndexRef afterTwoRounds
     = Some img2
  /\ currentImageIndexRef (loopTick (scheduleWith [75]) afterTwoRounds) = 0%nat
  /\ head (logs (loopTick (scheduleWith [75]) afterTwoRounds))
     = Some (mkLog (lit "Displaying image 1 of 3") INFO).
Proof.
  split; [reflexivity|]. split; [reflexivity|].
  destruct (sendImageToDevice benchRender (scheduleWith [75]) (base64 img2)
              afterTwoRounds) as [[] s1|e s1] eqn:Hsend.
  - destruct (loop_round_advances_or_stops benchRender (scheduleWith [75])
                img2 afterTwoRounds eq_refl eq_refl eq_refl) as [Hok _].
    destruct (Hok s1 Hsend) as (Hn & _ & Hl).
    split; [exact Hn|]. rewrite Hl. reflexivity.
  - vm_compute in Hsend. discriminate.
Defined.

(** ** Commands *)

Lemma trimStart_blank text : blank text -> trimStart text = [].
Proof.
  induction 1 as [|c text Hc _ IH]; [reflexivity|].
  cbn [trimStart]. by rewrite Hc.
Qed.

Lemma trim_blank text : blank text -> trim text = [].
Proof. intros H. unfold trim. by rewrite (trimStart_blank _ H). Qed.

Lemma stoppedForCommand_steadyish r s :
  deviceRef (stoppedForCommand r s) = deviceRef s
  /\ usbError (stoppedForCommand r s) = usbError s
  /\ usbCalls (stoppedForCommand r s) = usbCalls s
  /\ imageLoopIntervalRef (stoppedForCommand r s) = None.
Proof.
  unfold stoppedForCommand. destruct (imageLoopIntervalRef s) eqn:Hi; [|done].
  by rewrite (steady_device _ _ (steady_addMonitorEntry _ _ _ _)),
    (steady_error _ _ (steady_addMonitorEntry _ _ _ _)),
    (steady_interval _ _ (steady_addMonitorEntry _ _ _ _)),
    addMonitorEntry_calls.
Qed.

(** [executeCommand] on an open channel, by the value of the command. *)
Lemma executeCommand_open r commandId during d s :
  isDeviceConnected r = true -> deviceRef s = Some d ->
  executeCommand r commandId during s
  = let s0 := stoppedForCommand r s in
    match trim <$> (commandValues r !! commandId) with
    | Some (c :: t) =>
        let send :=
          match
            (usbWrite ((c :: t) ++ [LF]) during >>
             log r (lit "Sent command: " ++ (c :: t)) SENT) s0
          with
          | Returned _ s' => (Completed, s')
          | Threw error s' =>
              (Recovering error,
               addMonitorEntry r (lit "Command error: " ++ error) ERROR s')
          end in
        if String.eqb commandId "screentimeCommand" then
          match matchScreentime (c :: t) with
          | None =>
              (Completed,
               addMonitorEntry r
                 (lit "Invalid SCREENTIME format. Use SCREENTIME**<seconds>")
                 ERROR s0)
          | Some digits =>
              if (parseDigits digits <? 30) || (300 <? parseDigits digits)
              then (Completed,
                    addMonitorEntry r
                      (lit "Screen time must be between 30 and 300 seconds")
                      ERROR s0)
              else send
          end
        else send
    | _ =>
        (Completed, addMonitorEntry r (lit "Command cannot be empty") ERROR s0)
    end.
Proof.
  intros Hc Hd. unfold executeCommand.
  rewrite Hc, Hd, bool_decide_true by done. cbn [negb orb]. cbv zeta.
  fold (stoppedForCommand r s).
  destruct (trim <$> commandValues r !! commandId) as [[|c t]|]; reflexivity.
Qed.

(** X13.  On an open channel [executeCommand] stops the image loop before
    it looks at the command: whatever the command and whether it is sent,
    rejected as empty or out of range, or fails in the write, the interval
    of the loop is cleared afterwards. *)
Theorem any_command_stops_the_loop
    (r : Render) (commandId : string) (during : list Event) (s : State) :
  isDeviceConnected r = true -> deviceRef s <> None ->
  imageLoopIntervalRef (snd (executeCommand r commandId during s)) = None.
Proof.
  intros Hc Hd. destruct (deviceRef s) as [d|] eqn:Ed; [|done].
  rewrite (executeCommand_open r commandId during d s Hc Ed). cbv zeta.
  destruct (stoppedForCommand_steadyish r s) as (_ & _ & _ & Hi0).
  assert (Hsend : forall text,
            imageLoopIntervalRef
              (snd (match
                      (usbWrite (text ++ [LF]) during >>
                       log r (lit "Sent command: " ++ text) SENT)
                        (stoppedForCommand r s)
                    with
                    | Returned _ s' => (Completed, s')
                    | Threw error s' =>
                        (Recovering error,
                         addMonitorEntry r (lit "Command error: " ++ error)
                           ERROR s')
                    end)) = None).
  { intros text.
    assert (Hk : steadyM (usbWrite (text ++ [LF]) during >>
                          log r (lit "Sent command: " ++ text) SENT))
      by steadyM.
    specialize (Hk (stoppedForCommand r s)).
    destruct ((usbWrite (text ++ [LF]) during >>
               log r (lit "Sent command: " ++ text) SENT)
                (stoppedForCommand r s)) as [u s'|e s']; cbn [stateOf snd] in *.
    - by rewrite (steady_interval _ _ Hk).
    - by rewrite (steady_interval _ _ (steady_addMonitorEntry _ _ _ _)),
        (steady_interval _ _ Hk). }
  destruct (trim <$> commandValues r !! commandId) as [[|c t]|];
    cbn [snd];
    try (by rewrite (steady_interval _ _ (steady_addMonitorEntry _ _ _ _))).
  destruct (String.eqb commandId "screentimeCommand"); [|apply Hsend].
  destruct (matchScreentime (c :: t)) as [digits|]; cbn [snd];
    [|by rewrite (steady_interval _ _ (steady_addMonitorEntry _ _ _ _))].
  destruct ((parseDigits digits <? 30) || (300 <? parseDigits digits));
    cbn [snd]; [|apply Hsend].
  by rewrite (steady_interval _ _ (steady_addMonitorEntry _ _ _ _)).
Qed.

Lemma command_on_running_loop_stops_it :
  isDeviceConnected benchRender = true
  /\ deviceRef afterTwoRounds <> None
  /\ imageLoopIntervalRef afterTwoRounds = Some benchRender
  /\ imageLoopIntervalRef
       (snd (executeCommand benchRender "noSuchCommand" [] afterTwoRounds))
     = None.
Proof.
  split; [reflexivity|]. split; [discriminate|]. split; [reflexivity|].
  apply (any_command_stops_the_loop benchRender "noSuchCommand" []
           afterTwoRounds); [reflexivity | discriminate].
Defined.

(** X14.  A command whose value is missing, empty or white space only is
    not sent: nothing is written and the monitor shows 'Command cannot be
    empty'. *)
Theorem empty_command_is_not_sent
    (r : Render) (commandId : string) (during : list Event) (s : State) :
  isDeviceConnected r = true -> deviceRef s <> None ->
  (commandValues r !! commandId = None
   \/ exists text, commandValues r !! commandId = Some text /\ blank text) ->
  let result := executeCommand r commandId during s in
  fst result = Completed
  /\ usbCalls (snd result) = usbCalls s
  /\ head (logs (snd result))
     = Some (mkLog (lit "Command cannot be empty") ERROR).
Proof.
  intros Hc Hd Hval result. subst result.
  destruct (deviceRef s) as [d|] eqn:Ed; [|done].
  rewrite (executeCommand_open r commandId during d s Hc Ed). cbv zeta.
  destruct (stoppedForCommand_steadyish r s) as (_ & _ & Hc0 & _).
  assert (trim <$> commandValues r !! commandId = None
          \/ trim <$> commandValues r !! commandId = Some []) as [-> | ->].
  { destruct Hval as [-> | (text & -> & Hb)]; [by left | right].
    cbn. by rewrite (trim_blank _ Hb). }
  - cbn [fst snd]. by rewrite addMonitorEntry_calls.
  - cbn [fst snd]. by rewrite addMonitorEntry_calls.
Qed.

Lemma blank_command_on_bench_is_not_sent :
  blank (lit "   ")
  /\ usbCalls (snd (executeCommand (react (benchScreentime "   "))
                      "screentimeCommand" [] (benchScreentime "   "))) = []
  /\ head (logs (snd (executeCommand (react (benchScreentime "   "))
                        "screentimeCommand" [] (benchScreentime "   "))))
     = Some (mkLog (lit "Command cannot be empty") ERROR).
Proof.
  assert (Hb : blank (lit "   ")) by (repeat constructor).
  split; [exact Hb|].
  destruct (empty_command_is_not_sent (react (benchScreentime "   "))
              "screentimeCommand" [] (benchScreentime "   "))
    as (_ & Hcalls & Hlog).
  - reflexivity.
  - discriminate.
  - right. exists (lit "   "). split; [reflexivity | exact Hb].
  - split; [exact Hcalls | exact Hlog].
Defined.

Lemma send_command_accepted r text during d s :
  deviceRef s = Some d -> usbError s = None ->
  (usbWrite (text ++ [LF]) during >>
   log r (lit "Sent command: " ++ text) SENT) s
  = Returned tt
      (addMonitorEntry r (lit "Sent command: " ++ text) SENT
         (run during
            (setUsbCalls (usbCalls s ++ [Write (deviceId d) (text ++ [LF])])
               s))).
Proof.
  intros Hd He. unfold bind, usbWrite. by rewrite (usbIssue_ok _ d s Hd He).
Qed.

Lemma send_command_rejected r text during d err s :
  deviceRef s = Some d -> usbError s = Some err ->
  (usbWrite (text ++ [LF]) during >>
   log r (lit "Sent command: " ++ text) SENT) s
  = Threw err (run during s).
Proof.
  intros Hd He. unfold bind, usbWrite, usbIssue. by rewrite Hd, He.
Qed.

(** X15.  Every command but the screen time command is sent without any
    check of its text: what is typed, trimmed and followed by a newline, is
    written to the device and shown as 'Sent command: ...'.  The range check
    of SCREENTIME is tied to the one command id; the same text typed into
    another command goes out unchecked. *)
Theorem other_commands_are_sent_unchecked
    (r : Render) (commandId : string) (text : list Z) (during : list Event)
    (d : UsbDevice) (s : State) :
  isDeviceConnected r = true -> deviceRef s = Some d -> usbError s = None ->
  commandId <> "screentimeCommand"%string ->
  commandValues r !! commandId = Some text -> truthy (trim text) = true ->
  let result := executeCommand r commandId during s in
  fst result = Completed
  /\ (exists more,
        usbCalls (snd result)
        = usbCalls s ++ [Write (deviceId d) (trim text ++ [LF])] ++ more)
  /\ head (logs (snd result))
     = Some (mkLog (lit "Sent command: " ++ trim text) SENT).
Proof.
  intros Hc Hd He Hid Hval Ht result. subst result.
  rewrite (executeCommand_open r commandId during d s Hc Hd). cbv zeta.
  destruct (stoppedForCommand_steadyish r s) as (Hd0 & He0 & Hc0 & _).
  rewrite Hval. cbn [fmap option_fmap option_map].
  destruct (trim text) as [|c t] eqn:Etrim; [discriminate|].
  replace (String.eqb commandId "screentimeCommand") with false
    by (symmetry; by apply String.eqb_neq).
  rewrite (send_command_accepted r (c :: t) during d)
    by (by rewrite ?Hd0, ?He0).
  cbn [fst snd]. split; [reflexivity|]. split; [|reflexivity].
  rewrite addMonitorEntry_calls.
  destruct (steady_calls _ _ (steady_run during
              (setUsbCalls
                 (usbCalls (stoppedForCommand r s)
                  ++ [Write (deviceId d) ((c :: t) ++ [LF])])
                 (stoppedForCommand r s)))) as (more & E).
  exists more. rewrite E. cbn [usbCalls setUsbCalls].
  by rewrite Hc0, <- app_assoc.
Qed.

Lemma screentime_text_in_another_command_is_sent :
  exists more,
    usbCalls
      (snd (executeCommand
              (react (updateCommandValue "logoCommand"
                        (lit " SCREENTIME**5 ") bench))
              "logoCommand" []
              (updateCommandValue "logoCommand" (lit " SCREENTIME**5 ")
                 bench)))
    = usbCalls bench
      ++ [Write (deviceId benchDevice) (trim (lit " SCREENTIME**5 ") ++ [LF])]
      ++ more.
Proof.
  exact (proj1 (proj2
    (other_commands_are_sent_unchecked
       (react (updateCommandValue "logoCommand"
                 (lit " SCREENTIME**5 ") bench))
       "logoCommand" (lit " SCREENTIME**5 ") [] benchDevice
       (updateCommandValue "logoCommand" (lit " SCREENTIME**5 ") bench)
       eq_refl eq_refl eq_refl ltac:(discriminate) eq_refl eq_refl))).
Defined.

(** ** The format check of the screen time command *)

Lemma matchScreentime_eq v :
  matchScreentime v
  = if startsWith SCREENTIME v
       && truthy (digitRun (drop (length SCREENTIME) v))
    then Some (digitRun (drop (length SCREENTIME) v))
    else match v with
         | [] => None
         | _ :: t => matchScreentime t
         end.
Proof. destruct v; reflexivity. Qed.



Lemma digitRun_app digits post :
  Forall (fun c => isDigit c = true) digits ->
  digitRun (digits ++ post) = digits ++ digitRun post.
Proof.
  induction 1 as [|c t Hc _ IH]; [reflexivity|].
  cbn [app digitRun]. by rewrite Hc, IH.
Qed.

Lemma matchScreentime_leading digits post :
  digits <> [] -> Forall (fun c => isDigit c = true) digits ->
  digitRun post = [] ->
  matchScreentime (SCREENTIME ++ digits ++ post) = Some digits.
Proof.
  intros Hne Hd Hpost. rewrite matchScreentime_eq.
  rewrite startsWith_app, drop_app_length, (digitRun_app _ _ Hd), Hpost.
  rewrite app_nil_r. by destruct digits.
Qed.



(** ** The range check of the screen time command *)

(** The decimal numeral of a number is made of digits and is read back by
    [Number.parseInt] as that number. *)
Lemma numeral_acc d acc :
  fold_left (fun acc c => 10 * acc + (c - 48))
    (lit (NilEmpty.string_of_uint d)) (Z.pos acc)
  = Z.pos (Pos.of_uint_acc d acc).
Proof.
  revert acc.
  induction d as [|d IH|d IH|d IH|d IH|d IH|d IH|d IH|d IH|d IH|d IH];
    intros acc; [reflexivity|..];
    cbn [NilEmpty.string_of_uint Pos.of_uint_acc];
    match goal with
    | |- context [lit (String ?c ?s)] =>
        change (lit (String c s)) with (Z.of_N (N_of_ascii c) :: lit s)
    end;
    cbn [fold_left]; rewrite <- IH; f_equal.
  all: cbn; lia.
Qed.

Lemma numeral_value d :
  parseDigits (lit (NilEmpty.string_of_uint d)) = Z.of_N (Pos.of_uint d).
Proof.
  unfold parseDigits.
  induction d as [|d IH|d IH|d IH|d IH|d IH|d IH|d IH|d IH|d IH|d IH];
    [reflexivity|exact IH|..];
    cbn [NilEmpty.string_of_uint Pos.of_uint];
    match goal with
    | |- context [lit (String ?c ?s)] =>
        change (lit (String c s)) with (Z.of_N (N_of_ascii c) :: lit s)
    end;
    cbn [fold_left]; cbn [N.to_nat Z.of_N]; apply (numeral_acc d).
Qed.

Lemma numeral_digits d :
  Forall (fun c => isDigit c = true) (lit (NilEmpty.string_of_uint d)).
Proof.
  induction d; [constructor|..]; cbn [NilEmpty.string_of_uint];
    match goal with
    | |- context [lit (String ?c ?s)] =>
        change (lit (String c s)) with (Z.of_N (N_of_ascii c) :: lit s)
    end; by constructor.
Qed.

Lemma ofInt_numeral n :
  0 <= n ->
  ofInt n <> [] /\ Forall (fun c => isDigit c = true) (ofInt n)
  /\ parseDigits (ofInt n) = n.
Proof.
  intros Hn. destruct n as [|p|p]; [| |lia].
  - split; [discriminate|]. split; [repeat constructor | reflexivity].
  - unfold ofInt. cbn [Z.to_int NilZero.string_of_int].
    pose proof (Unsigned.of_to p) as Hp.
    destruct (Pos.to_uint p) as [|d|d|d|d|d|d|d|d|d|d] eqn:E;
      [discriminate Hp|..];
      (split; [discriminate|]; split; [apply numeral_digits|];
       cbn [NilZero.string_of_uint]; rewrite numeral_value, Hp; reflexivity).
Qed.

(** C8, as the code has it.  The range is checked for the command field
    [screentimeCommand] alone, on the number written in decimal after
    SCREENTIME**; what follows the digits is not looked at.  With the text
    SCREENTIME** [n] [post] in that field on an open channel, [n] below 30
    or above 300 is rejected with an error entry and without any call of the
    serial module, and [n] from 30 to 300 is written as typed, whatever
    [post] is, followed by a newline.  The same text in any other command
    field is written whatever [n] is. *)
Theorem screentime_range_checked_before_write
    (r : Render) (d : UsbDevice) (s : State) (during : list Event)
    (text : list Z) (n : Z) (post : list Z) :
  isDeviceConnected r = true -> deviceRef s = Some d -> usbError s = None ->
  0 <= n -> digitRun post = [] ->
  trim text = SCREENTIME ++ ofInt n ++ post ->
  let result := executeCommand r "screentimeCommand" during s in
  (commandValues r !! "screentimeCommand"%string = Some text ->
   fst result = Completed
   /\ (n < 30 \/ 300 < n ->
       usbCalls (snd result) = usbCalls s
       /\ head (logs (snd result))
          = Some (mkLog (lit "Screen time must be between 30 and 300 seconds")
                    ERROR))
   /\ (30 <= n <= 300 ->
       exists more,
         usbCalls (snd result)
         = usbCalls s ++ [Write (deviceId d) (trim text ++ [LF])] ++ more))
  /\ (forall commandId,
        commandId <> "screentimeCommand"%string ->
        commandValues r !! commandId = Some text ->
        exists more,
          usbCalls (snd (executeCommand r commandId during s))
          = usbCalls s ++ [Write (deviceId d) (trim text ++ [LF])] ++ more).
Proof.
  intros Hc Hd He Hn Hpost Etext result. subst result.
  destruct (ofInt_numeral n Hn) as (Hne & Hdig & Hparse).
  destruct (stoppedForCommand_steadyish r s) as (Hd0 & He0 & Hc0 & _).
  assert (exists c t, trim text = c :: t) as (c & t & Etrim)
    by (rewrite Etext; by eexists _, _).
  assert (forall text',
            exists more,
              usbCalls
                (addMonitorEntry r (lit "Sent command: " ++ text') SENT
                   (run during
                      (setUsbCalls
                         (usbCalls (stoppedForCommand r s)
                          ++ [Write (deviceId d) (text' ++ [LF])])
                         (stoppedForCommand r s))))
              = usbCalls s ++ [Write (deviceId d) (text' ++ [LF])] ++ more)
    as Hsent.
  { intros text'. rewrite addMonitorEntry_calls.
    match goal with
    | |- context [run during ?st] =>
        destruct (steady_calls _ _ (steady_run during st)) as (more & Hm)
    end.
    exists more. rewrite Hm. cbn [usbCalls setUsbCalls].
    by rewrite Hc0, <- app_assoc. }
  split.
  - intros Hval.
    rewrite (executeCommand_open r "screentimeCommand" during d s Hc Hd).
    cbv zeta. rewrite Hval. cbn [fmap option_fmap option_map].
    rewrite Etrim.
    change (String.eqb "screentimeCommand" "screentimeCommand") with true.
    cbv iota. rewrite <- Etrim, Etext.
    rewrite (matchScreentime_leading (ofInt n) post Hne Hdig Hpost), Hparse.
    destruct ((n <? 30) || (300 <? n)) eqn:Hrange.
    + cbn [fst snd]. split; [reflexivity|]. split.
      * intros _. by rewrite addMonitorEntry_calls.
      * intros Hin. apply orb_true_iff in Hrange as [H|H];
          apply Z.ltb_lt in H; lia.
    + apply orb_false_iff in Hrange as [H1 H2].
      apply Z.ltb_ge in H1. apply Z.ltb_ge in H2.
      rewrite (send_command_accepted r _ during d)
        by (by rewrite ?Hd0, ?He0).
      cbn [fst snd]. split; [reflexivity|]. split; [intros [H|H]; lia|].
      intros _. apply Hsent.
  - intros commandId Hid Hval.
    rewrite (executeCommand_open r commandId during d s Hc Hd).
    cbv zeta. rewrite Hval. cbn [fmap option_fmap option_map].
    rewrite Etrim.
    replace (String.eqb commandId "screentimeCommand") with false
      by (symmetry; by apply String.eqb_neq).
    rewrite (send_command_accepted r (c :: t) during d)
      by (by rewrite ?Hd0, ?He0).
    cbn [fst snd]. apply Hsent.
Qed.

(** C8 on the bench: SCREENTIME**29 and SCREENTIME**301 in the screen time
    field are rejected and nothing is written; SCREENTIME**30 and
    SCREENTIME**300 are written with a newline. *)
Lemma screentime_bounds_on_bench :
  usbCalls
    (snd (executeCommand (react (benchScreentime "SCREENTIME**29"))
            "screentimeCommand" [] (benchScreentime "SCREENTIME**29")))
  = []
  /\ usbCalls
       (snd (executeCommand (react (benchScreentime "SCREENTIME**301"))
               "screentimeCommand" [] (benchScreentime "SCREENTIME**301")))
     = []
  /\ (exists more,
        usbCalls
          (snd (executeCommand (react (benchScreentime "SCREENTIME**30"))
                  "screentimeCommand" [] (benchScreentime "SCREENTIME**30")))
        = [] ++ [Write (deviceId benchDevice)
                   (lit "SCREENTIME**30" ++ [LF])] ++ more)
  /\ (exists more,
        usbCalls
          (snd (executeCommand (react (benchScreentime "SCREENTIME**300"))
                  "screentimeCommand" [] (benchScreentime "SCREENTIME**300")))
        = [] ++ [Write (deviceId benchDevice)
                   (lit "SCREENTIME**300" ++ [LF])] ++ more).
Proof.
  split; [|split; [|split]].
  - apply (proj1 (screentime_range_checked_before_write
                    (react (benchScreentime "SCREENTIME**29")) benchDevice
                    (benchScreentime "SCREENTIME**29") []
                    (lit "SCREENTIME**29") 29 []
                    eq_refl eq_refl eq_refl ltac:(lia) eq_refl eq_refl)
                 eq_refl).
    lia.
  - apply (proj1 (screentime_range_checked_before_write
                    (react (benchScreentime "SCREENTIME**301")) benchDevice
                    (benchScreentime "SCREENTIME**301") []
                    (lit "SCREENTIME**301") 301 []
                    eq_refl eq_refl eq_refl ltac:(lia) eq_refl eq_refl)
                 eq_refl).
    lia.
  - apply (proj1 (screentime_range_checked_before_write
                    (react (benchScreentime "SCREENTIME**30")) benchDevice
                    (benchScreentime "SCREENTIME**30") []
                    (lit "SCREENTIME**30") 30 []
                    eq_refl eq_refl eq_refl ltac:(lia) eq_refl eq_refl)
                 eq_refl).
    lia.
  - apply (proj1 (screentime_range_checked_before_write
                    (react (benchScreentime "SCREENTIME**300")) benchDevice
                    (benchScreentime "SCREENTIME**300") []
                    (lit "SCREENTIME**300") 300 []
                    eq_refl eq_refl eq_refl ltac:(lia) eq_refl eq_refl)
                 eq_refl).
    lia.
Defined.

(** C8, the claim fails: SCREENTIME**300.5 in the screen time field is
    written, since the check reads the digits 300 and stops at the point;
    and SCREENTIME**29 typed into the logo command is written, since only the
    screen time field is checked. *)
Lemma screentime_outside_the_range_is_written :
  usbCalls
    (snd (executeCommand (react (benchScreentime "SCREENTIME**300.5"))
            "screentimeCommand" [] (benchScreentime "SCREENTIME**300.5")))
  = [Write (deviceId benchDevice) (lit "SCREENTIME**300.5" ++ [LF])]
  /\ usbCalls
       (snd (executeCommand
               (react (updateCommandValue "logoCommand"
                         (lit "SCREENTIME**29") bench))
               "logoCommand" []
               (updateCommandValue "logoCommand" (lit "SCREENTIME**29")
                  bench)))
     = [Write (deviceId benchDevice) (lit "SCREENTIME**29" ++ [LF])].
Proof. split; vm_compute; reflexivity. Qed.

(** ** Clearing the images *)

Lemma stopImageLoop_fields r s :
  deviceRef (stopImageLoop r s) = deviceRef s
  /\ usbError (stopImageLoop r s) = usbError s
  /\ usbCalls (stopImageLoop r s) = usbCalls s.
Proof.
  unfold stopImageLoop. destruct (imageLoopIntervalRef s); [|done].
  by rewrite (steady_device _ _ (steady_addMonitorEntry _ _ _ _)),
    (steady_error _ _ (steady_addMonitorEntry _ _ _ _)),
    addMonitorEntry_calls.
Qed.

(** [clearAllImages] on an open channel. *)
Lemma clearAllImages_open r during d s :
  isDeviceConnected r = true -> deviceRef s = Some d ->
  let s0 := setUploadedImages (fun _ => []) (stopImageLoop r s) in
  clearAllImages r during s
  = match usbError s with
    | None =>
        (Completed,
         addMonitorEntry r (lit "Cleared all images") SUCCESS
           (run during
              (setUsbCalls
                 (usbCalls s0 ++ [Write (deviceId d) (lit "CLEAR_IMAGE" ++ [LF])])
                 s0)))
    | Some err =>
        (Recovering err,
         addMonitorEntry r (lit "Error clearing images: " ++ err) ERROR
           (run during s0))
    end.
Proof.
  intros Hc Hd s0. unfold clearAllImages.
  rewrite Hc, Hd, bool_decide_true by done. cbn [negb orb].
  destruct (stopImageLoop_fields r s) as (Hd1 & He1 & _).
  unfold bind at 1, exec at 1. unfold bind at 1, exec at 1. fold s0.
  unfold bind, usbWrite, usbIssue.
  replace (deviceRef s0) with (Some d) by (unfold s0; cbn; by rewrite Hd1).
  replace (usbError s0) with (usbError s) by (unfold s0; cbn; by rewrite He1).
  destruct (usbError s); reflexivity.
Qed.

(** X17.  [clearAllImages] empties the list of images and stops the loop
    before it writes CLEAR_IMAGE.  On an open channel the list is empty and
    the interval cleared afterwards whether the device accepted the command
    or not; when the write is rejected nothing reached the device, the error
    is logged and the recovery of the connection is started. *)
Theorem clearAllImages_empties_before_it_writes
    (r : Render) (during : list Event) (d : UsbDevice) (s : State) :
  isDeviceConnected r = true -> deviceRef s = Some d ->
  let result := clearAllImages r during s in
  uploadedImages (react (snd result)) = []
  /\ imageLoopIntervalRef (snd result) = None
  /\ (usbError s = None ->
      fst result = Completed
      /\ exists more,
           usbCalls (snd result)
           = usbCalls s ++ [Write (deviceId d) (lit "CLEAR_IMAGE" ++ [LF])]
             ++ more)
  /\ (forall err,
        usbError s = Some err ->
        fst result = Recovering err
        /\ usbCalls (snd result) = usbCalls s
        /\ head (logs (snd result))
           = Some (mkLog (lit "Error clearing images: " ++ err) ERROR)).
Proof.
  intros Hc Hd result. subst result.
  rewrite (clearAllImages_open r during d s Hc Hd). cbv zeta.
  destruct (stopImageLoop_fields r s) as (_ & He1 & Hc1).
  set (s0 := setUploadedImages (fun _ => []) (stopImageLoop r s)).
  assert (Hi0 : imageLoopIntervalRef s0 = None)
    by (unfold s0; cbn; apply stopImageLoop_interval).
  assert (Hu0 : uploadedImages (react s0) = []) by reflexivity.
  assert (Hc0 : usbCalls s0 = usbCalls s) by (unfold s0; cbn; exact Hc1).
  assert (He0 : usbError s0 = usbError s) by (unfold s0; cbn; exact He1).
  destruct (usbError s) as [err|] eqn:He; cbn [fst snd].
  - rewrite (steady_react _ _ (steady_addMonitorEntry _ _ _ _)),
      (steady_interval _ _ (steady_addMonitorEntry _ _ _ _)),
      (steady_react _ _ (steady_run _ _)),
      (steady_interval _ _ (steady_run _ _)).
    split; [exact Hu0|]. split; [exact Hi0|]. split; [discriminate|].
    intros err' [= <-]. split; [reflexivity|]. split; [|reflexivity].
    by rewrite addMonitorEntry_calls, (run_mute _ err), Hc0.
  - rewrite (steady_react _ _ (steady_addMonitorEntry _ _ _ _)),
      (steady_interval _ _ (steady_addMonitorEntry _ _ _ _)),
      (steady_react _ _ (steady_run _ _)),
      (steady_interval _ _ (steady_run _ _)).
    split; [exact Hu0|]. split; [exact Hi0|]. split; [|discriminate].
    intros _. split; [reflexivity|].
    rewrite addMonitorEntry_calls.
    match goal with
    | |- context [run during ?st] =>
        destruct (steady_calls _ _ (steady_run during st)) as (more & Hm)
    end.
    exists more. rewrite Hm. cbn [usbCalls setUsbCalls].
    by rewrite Hc0, <- app_assoc.
Qed.

Lemma clearAllImages_on_jammed_bench :
  uploadedImages (react jammed) = [img0; img1; img2]
  /\ uploadedImages (react (snd (clearAllImages benchRender [] jammed))) = []
  /\ fst (clearAllImages benchRender [] jammed)
     = Recovering (lit "Device not found")
  /\ usbCalls (snd (clearAllImages benchRender [] jammed)) = usbCalls jammed.
Proof.
  split; [reflexivity|].
  destruct (clearAllImages_empties_before_it_writes benchRender [] benchDevice
              jammed eq_refl eq_refl) as (Hu & _ & _ & Hrej).
  destruct (Hrej (lit "Device not found") eq_refl) as (Hexit & Hcalls & _).
  split; [exact Hu|]. split; [exact Hexit | exact Hcalls].
Defined.

(** ** A rejected write *)

Lemma clearImage_rejected r duringWrite duringDelay d err s :
  isDeviceConnected r = true -> deviceRef s = Some d ->
  usbError s = Some err ->
  clearImage r duringWrite duringDelay s
  = (Recovering err,
     addMonitorEntry r (lit "Error clearing image: " ++ err) ERROR
       (run duringWrite s)).
Proof.
  intros Hc Hd He. unfold clearImage.
  rewrite Hc, Hd, bool_decide_true by done.
  cbn [negb orb]. unfold bind at 1, usbWrite, usbIssue. by rewrite Hd, He.
Qed.

(** X18.  When the serial module rejects the write of a command or of
    CLEAR_IMAGE, the operation logs the module's error under its own
    heading, leaves the channel untouched and hands the error to the
    recovery of the connection. *)
Theorem rejected_write_starts_recovery
    (r : Render) (d : UsbDevice) (err : list Z) (s : State) :
  isDeviceConnected r = true -> deviceRef s = Some d ->
  usbError s = Some err ->
  (forall commandId text during,
     commandId <> "screentimeCommand"%string ->
     commandValues r !! commandId = Some text -> truthy (trim text) = true ->
     let result := executeCommand r commandId during s in
     fst result = Recovering err
     /\ usbCalls (snd result) = usbCalls s
     /\ head (logs (snd result))
        = Some (mkLog (lit "Command error: " ++ err) ERROR))
  /\ (forall duringWrite duringDelay,
        let result := clearImage r duringWrite duringDelay s in
        fst result = Recovering err
        /\ usbCalls (snd result) = usbCalls s
        /\ head (logs (snd result))
           = Some (mkLog (lit "Error clearing image: " ++ err) ERROR)).
Proof.
  intros Hc Hd He. split.
  - intros commandId text during Hid Hval Ht result. subst result.
    rewrite (executeCommand_open r commandId during d s Hc Hd). cbv zeta.
    destruct (stoppedForCommand_steadyish r s) as (Hd0 & He0 & Hc0 & _).
    rewrite Hval. cbn [fmap option_fmap option_map].
    destruct (trim text) as [|c t] eqn:Etrim; [discriminate|].
    replace (String.eqb commandId "screentimeCommand") with false
      by (symmetry; by apply String.eqb_neq).
    rewrite (send_command_rejected r (c :: t) during d err)
      by (by rewrite ?Hd0, ?He0).
    cbn [fst snd]. split; [reflexivity|]. split; [|reflexivity].
    rewrite addMonitorEntry_calls, (run_mute _ err) by (by rewrite He0).
    exact Hc0.
  - intros duringWrite duringDelay result. subst result.
    rewrite (clearImage_rejected r duringWrite duringDelay d err s Hc Hd He).
    cbn [fst snd]. split; [reflexivity|]. split; [|reflexivity].
    by rewrite addMonitorEntry_calls, (run_mute _ err).
Qed.

Lemma rejected_write_on_bench_starts_recovery :
  fst (clearImage benchRender [] [] jammed)
  = Recovering (lit "Device not found")
  /\ usbCalls (snd (clearImage benchRender [] [] jammed)) = usbCalls jammed.
Proof.
  destruct (rejected_write_starts_recovery benchRender benchDevice
              (lit "Device not found") jammed eq_refl eq_refl eq_refl)
    as [_ Hclear].
  destruct (Hclear [] []) as (Hexit & Hcalls & _).
  split; [exact Hexit | exact Hcalls].
Defined.

(** ** An image without data *)

(** X19.  [pickImage] keeps an asset that came without base64 data (the
    field undefined or empty): it is added to the list like any other.  Such
    an image can never be sent: whatever the state, [sendImageToDevice]
    refuses it with 'Not connected to device or invalid image data' and
    writes nothing. *)
Theorem image_without_data_is_kept_but_never_sent
    (asset : Asset) (s : State) :
  isDeviceConnected (react s) = true ->
  (length (uploadedImages (react s)) < MAX_IMAGES)%nat ->
  assetBase64 asset = None \/ assetBase64 asset = Some [] ->
  uploadedImages (react (pickImage (react s) (Picked (Some [asset])) s))
  = uploadedImages (react s) ++ [toUploadedImage asset]
  /\ forall r sch s',
       sendImageToDevice r sch (base64 (toUploadedImage asset)) s'
       = Threw (lit "Not connected to device or invalid image data") s'.
Proof.
  intros Hc Hlen Hdata. split.
  - unfold pickImage. rewrite Hc. cbn [negb List.map length].
    replace (MAX_IMAGES <? length (uploadedImages (react s)) + 1)%nat
      with false by (symmetry; apply Nat.ltb_ge; lia).
    by rewrite (steady_react _ _ (steady_addMonitorEntry _ _ _ _)).
  - intros r sch s'. apply sendImageToDevice_guard. right. right.
    unfold toUploadedImage. cbn [base64].
    destruct Hdata as [-> | ->]; reflexivity.
Qed.

Lemma image_without_data_on_bench :
  uploadedImages
    (react (pickImage (react bench)
              (Picked (Some [mkAsset (Some (lit "file:///x.png")) None None
                               None])) bench))
  = [img0; img1; img2;
     toUploadedImage (mkAsset (Some (lit "file:///x.png")) None None None)]
  /\ sendImageToDevice benchRender (scheduleWith [75])
       (base64 (toUploadedImage
                  (mkAsset (Some (lit "file:///x.png")) None None None)))
       bench
     = Threw (lit "Not connected to device or invalid image data") bench.
Proof.
  destruct (image_without_data_is_kept_but_never_sent
              (mkAsset (Some (lit "file:///x.png")) None None None) bench
              eq_refl ltac:(unfold MAX_IMAGES; cbn; lia)
              (or_introl eq_refl)) as [Hkept Hsend].
  split; [exact Hkept | apply Hsend].
Defined.

(** ** The length of the payload *)

Lemma quanta_length_upto n vs :
  (length vs <= n)%nat -> length (quanta vs) = (3 * length vs / 4)%nat.
Proof.
  revert vs. induction n as [n IH] using (well_founded_induction lt_wf).
  intros vs Hlen.
  destruct vs as [|a [|b [|c [|d rest]]]]; try reflexivity.
  cbn [quanta]. cbv zeta. cbn [length].
  rewrite (IH (length rest)) by (cbn [length] in Hlen; lia).
  replace (3 * S (S (S (S (length rest)))))%nat
    with (3 * 4 + 3 * length rest)%nat by lia.
  by rewrite (Nat.div_add_l 3 4 (3 * length rest)).
Qed.

Lemma beforePad_app text rest :
  ~ In 61 text -> beforePad (text ++ 61 :: rest) = text.
Proof.
  induction text as [|c t IH]; intros Hin; cbn [app beforePad].
  - reflexivity.
  - destruct (c =? 61) eqn:Hc.
    + apply Z.eqb_eq in Hc. subst c. exfalso. apply Hin. by left.
    + rewrite IH; [reflexivity|]. intros H. apply Hin. by right.
Qed.

Lemma beforePad_clean text : ~ In 61 text -> beforePad text = text.
Proof.
  induction text as [|c t IH]; intros Hin; cbn [beforePad]; [reflexivity|].
  destruct (c =? 61) eqn:Hc.
  - apply Z.eqb_eq in Hc. subst c. exfalso. apply Hin. by left.
  - rewrite IH; [reflexivity|]. intros H. apply Hin. by right.
Qed.

(** X20.  The payload of a transfer is three bytes for every four
    characters of the base64 alphabet that come before the first '=',
    rounded down; characters outside the alphabet are not counted, the text
    after the first '=' is ignored, and one leftover character gives no
    byte.  That number is the length announced in the header, and the
    payload is written as twice as many hexadecimal characters. *)
Theorem payload_length_from_base64 (text rest : list Z) :
  let n := length (sextets (beforePad text)) in
  length (fromBase64 text) = (3 * n / 4)%nat
  /\ Forall isByte (fromBase64 text)
  /\ length (toHex (fromBase64 text)) = (2 * (3 * n / 4))%nat
  /\ (~ In 61 text -> fromBase64 (text ++ 61 :: rest) = fromBase64 text).
Proof.
  intros n. split; [|split; [apply fromBase64_bytes|split]].
  - unfold fromBase64. cbv zeta. fold n.
    destruct (Z.of_nat n <? 2) eqn:Hn.
    + apply Z.ltb_lt in Hn.
      assert (n = 0 \/ n = 1)%nat as [-> | ->] by lia; reflexivity.
    + by apply (quanta_length_upto n).
  - rewrite toHex_length. f_equal.
    unfold fromBase64. cbv zeta. fold n.
    destruct (Z.of_nat n <? 2) eqn:Hn.
    + apply Z.ltb_lt in Hn.
      assert (n = 0 \/ n = 1)%nat as [-> | ->] by lia; reflexivity.
    + by apply (quanta_length_upto n).
  - intros Hin. unfold fromBase64.
    by rewrite (beforePad_app _ _ Hin), (beforePad_clean _ Hin).
Qed.

End More.

(** * Properties of the connection *)

Module Connection.
Import Js Codec App Props Link Terms Facts More.

(** ** Without callbacks *)

Lemma handle_deaf e s : deaf s -> handle e s = s.
Proof.
  intros (Hr & Hw & Hp). destruct e as [data now|now|]; cbn [handle].
  - by rewrite Hr.
  - by rewrite Hw.
  - unfold abortTransferSettled. by rewrite Hp.
Qed.

Lemma run_deaf events s : deaf s -> run events s = s.
Proof.
  intros H. induction events as [|e events IH]; [reflexivity|].
  cbn [run fold_left]. rewrite (handle_deaf e s H). exact IH.
Qed.

Lemma deaf_addMonitorEntry r msg t s : deaf s -> deaf (addMonitorEntry r msg t s).
Proof.
  intros (Hr & Hw & Hp). unfold deaf.
  by rewrite (steady_reader _ _ (steady_addMonitorEntry _ _ _ _)),
    (steady_checker _ _ (steady_addMonitorEntry _ _ _ _)),
    addMonitorEntry_pending.
Qed.

Lemma deaf_fields s s' :
  readCallback s' = readCallback s ->
  transferTimeoutCheckerRef s' = transferTimeoutCheckerRef s ->
  pendingAborts s' = pendingAborts s ->
  deaf s -> deaf s'.
Proof. intros E1 E2 E3 (Hr & Hw & Hp). unfold deaf. by rewrite E1, E2, E3. Qed.

Create HintDb deaf discriminated.
#[export] Hint Resolve deaf_addMonitorEntry : deaf.
#[export] Hint Extern 1 (deaf (setUsbCalls _ _)) =>
  eapply deaf_fields; [reflexivity | reflexivity | reflexivity |] : deaf.
#[export] Hint Extern 1 (deaf (setTransferInProgress _ _)) =>
  eapply deaf_fields; [reflexivity | reflexivity | reflexivity |] : deaf.
#[export] Hint Extern 1 (deaf (setTransferAborted _ _)) =>
  eapply deaf_fields; [reflexivity | reflexivity | reflexivity |] : deaf.
#[export] Hint Extern 1 (deaf (setDeviceRef _ _)) =>
  eapply deaf_fields; [reflexivity | reflexivity | reflexivity |] : deaf.
#[export] Hint Extern 1 (deaf (setIsDeviceConnected _ _)) =>
  eapply deaf_fields; [reflexivity | reflexivity | reflexivity |] : deaf.
#[export] Hint Extern 1 (deaf (setImageLoopActive _ _)) =>
  eapply deaf_fields; [reflexivity | reflexivity | reflexivity |] : deaf.
#[export] Hint Extern 1 (deaf (setImageLoopInterval _ _)) =>
  eapply deaf_fields; [reflexivity | reflexivity | reflexivity |] : deaf.

Lemma pollFlags_deaf ps last msg s :
  deaf s -> transferInProgressRef s = true -> transferAbortedRef s = false ->
  pollFlags ps last msg s = Threw msg s.
Proof.
  intros Hdeaf Hp Ha. induction ps as [|events rest IH]; cbn [pollFlags].
  - by rewrite (run_deaf _ _ Hdeaf).
  - rewrite (run_deaf _ _ Hdeaf), Ha, Hp. exact IH.
Qed.

Lemma sendImageToDevice_deaf r sch text d s :
  isDeviceConnected r = true -> deviceRef s = Some d -> usbError s = None ->
  truthy text = true -> deaf s ->
  exists s',
    sendImageToDevice r sch (Some text) s
    = Threw (lit "Failed to send image: Timeout waiting for ready signal") s'
    /\ usbCalls s'
       = usbCalls s
         ++ [Write (deviceId d) (lit "START_RTIMAGE" ++ [LF]);
             WriteHexString (deviceId d)
               (toHex (frameHeader (Z.of_nat (length (fromBase64 text)))))]
    /\ deaf s'.
Proof.
  intros Hc Hd He Ht Hdeaf.
  rewrite (sendImageToDevice_start r sch text d s Hc Hd He Ht).
  unfold afterHeader. cbv zeta.
  rewrite (run_deaf (duringStart sch)) by auto with deaf.
  rewrite (run_deaf (duringDelay sch)) by auto with deaf.
  rewrite (run_deaf (duringHeader sch)) by auto 6 with deaf.
  set (s0 := addMonitorEntry r _ INFO _).
  assert (Hdeaf0 : deaf s0) by (unfold s0; auto 8 with deaf).
  unfold fromReadyWait, tryCatch, bind at 1, awaitSignal.
  rewrite (pollFlags_deaf _ _ _ s0 Hdeaf0).
  - rewrite failure_handler. eexists. split; [reflexivity|]. split.
    + cbn [usbCalls setTransferInProgress]. unfold s0.
      rewrite addMonitorEntry_calls. cbn [usbCalls setUsbCalls].
      rewrite addMonitorEntry_calls. cbn [usbCalls setUsbCalls
        setTransferAborted setTransferInProgress].
      by rewrite <- app_assoc.
    + auto with deaf.
  - unfold s0. rewrite addMonitorEntry_inProgress.
    cbn [transferInProgressRef setUsbCalls].
    by rewrite addMonitorEntry_inProgress.
  - unfold s0. rewrite addMonitorEntry_aborted.
    cbn [transferAbortedRef setUsbCalls].
    by rewrite addMonitorEntry_aborted.
Qed.

(** One transfer on its own, with no read callback and no watchdog
    registered and no abort pending: nothing that is handled during its waits
    changes the flags they poll, so on an open channel it writes
    START_RTIMAGE and the header and then fails with 'Failed to send image:
    Timeout waiting for ready signal', whatever the device sends. *)
Lemma transfer_without_callbacks_times_out
    (r : Render) (sch : Schedule) (text : list Z) (d : UsbDevice) (s : State) :
  isDeviceConnected r = true -> deviceRef s = Some d -> usbError s = None ->
  truthy text = true -> deaf s ->
  exists s',
    sendImageToDevice r sch (Some text) s
    = Threw (lit "Failed to send image: Timeout waiting for ready signal") s'
    /\ usbCalls s'
       = usbCalls s
         ++ [Write (deviceId d) (lit "START_RTIMAGE" ++ [LF]);
             WriteHexString (deviceId d)
               (toHex (frameHeader (Z.of_nat (length (fromBase64 text)))))].
Proof.
  intros Hc Hd He Ht Hdeaf.
  destruct (sendImageToDevice_deaf r sch text d s Hc Hd He Ht Hdeaf)
    as (s' & Hsend & Hcalls & _).
  by exists s'.
Qed.

(** ** What connecting registers *)

Lemma quiet_refl sh : quiet sh sh.
Proof. by repeat split. Qed.

Lemma quiet_trans sh1 sh2 sh3 : quiet sh1 sh2 -> quiet sh2 sh3 -> quiet sh1 sh3.
Proof.
  intros (A1 & B1 & C1) (A2 & B2 & C2). unfold quiet.
  by rewrite A2, B2, C2.
Qed.

#[export] Instance quiet_preorder : PreOrder quiet.
Proof. split; [exact quiet_refl | exact quiet_trans]. Qed.

Lemma quiet_withCore f sh :
  (forall s, readCallback (f s) = readCallback s
             /\ transferTimeoutCheckerRef (f s) = transferTimeoutCheckerRef s) ->
  quiet sh (withCore f sh).
Proof.
  intros H. destruct (H (core sh)) as [Hr Hw]. unfold quiet.
  cbn [core serialCalls withCore]. by rewrite Hr, Hw.
Qed.

Lemma quiet_steady f sh :
  (forall s, steady s (f s)) -> quiet sh (withCore f sh).
Proof.
  intros H. apply quiet_withCore. intros s.
  by rewrite (steady_reader _ _ (H s)), (steady_checker _ _ (H s)).
Qed.

Lemma quiet_note c msg t sh : quiet sh (note c msg t sh).
Proof. apply quiet_steady. intros s. apply steady_addMonitorEntry. Qed.

Lemma quiet_run events sh : quiet sh (withCore (run events) sh).
Proof. apply quiet_steady. intros s. apply steady_run. Qed.

Lemma quiet_called call sh : isReadCall call = false -> quiet sh (called call sh).
Proof.
  intros H. unfold quiet. cbn [core serialCalls called].
  rewrite List.filter_app. cbn [List.filter]. rewrite H.
  by rewrite app_nil_r.
Qed.

Lemma startReading_stale c sh :
  isDeviceConnected (view c) = false -> startReading c sh = sh.
Proof.
  intros H. unfold startReading. rewrite H.
  by destruct (deviceRef (core sh)).
Qed.

Lemma quiet_connectToSelectedDevice c device a sh :
  isDeviceConnected (view c) = false ->
  quiet sh (shellOf (connectToSelectedDevice c device a sh)).
Proof.
  intros Hc. unfold connectToSelectedDevice. cbv zeta.
  set (sh1 := withCore (run (duringOpen a)) _).
  assert (H1 : quiet sh sh1).
  { unfold sh1.
    etransitivity; [|apply quiet_run].
    etransitivity; [|by apply quiet_called].
    etransitivity; [|by apply quiet_withCore].
    apply quiet_note. }
  destruct (opening a) as [u|error]; cbn [shellOf].
  - rewrite (startReading_stale _ _ Hc).
    etransitivity; [exact H1|].
    etransitivity; [|apply quiet_note]. by apply quiet_withCore.
  - etransitivity; [exact H1|]. by apply quiet_withCore.
Qed.

Lemma quiet_connectToDevice c a sh :
  isDeviceConnected (view c) = false ->
  quiet sh (shellOf (connectToDevice c a sh)).
Proof.
  intros Hc. unfold connectToDevice. cbv zeta.
  set (sh1 := withCore (run (duringList a)) _).
  assert (H1 : quiet sh sh1).
  { unfold sh1.
    etransitivity; [|apply quiet_run].
    etransitivity; [|by apply quiet_called].
    apply quiet_note. }
  destruct (listing a) as [devices|error]; cbn [shellOf]; [|exact H1].
  destruct (List.filter _ devices) as [|device [|second others]];
    cbn [shellOf].
  - etransitivity; [exact H1 | apply quiet_note].
  - pose proof (quiet_connectToSelectedDevice c device a sh1 Hc) as H2.
    destruct (connectToSelectedDevice c device a sh1); cbn [shellOf] in *;
      by etransitivity.
  - etransitivity; [exact H1|]. by repeat split.
Qed.

(** X22.  [startReading] belongs to the same render as the function that
    calls it, and tests the [isDeviceConnected] of that render.  The
    connection button connects only from a render that is not connected, and
    so does the device selector it opens: there [startReading] returns at
    its guard.  Pressing the button, or choosing a device, therefore never
    calls [UsbSerial.read] and never starts the watchdog, whether the port
    opens or not. *)
Theorem connecting_registers_no_callback
    (c : Closure) (device : UsbDevice) (a : Answers) (sh : Shell) :
  isDeviceConnected (view c) = false ->
  quiet sh (handleConnection c a sh)
  /\ quiet sh (shellOf (chooseDevice c device a sh)).
Proof.
  intros Hc. split.
  - unfold handleConnection. destruct (seenConnecting c); [reflexivity|].
    rewrite Hc. cbn [negb]. cbv zeta.
    pose proof (quiet_connectToDevice c a (setIsConnecting true sh) Hc) as H.
    etransitivity; [|by repeat split].
    destruct (connectToDevice c a (setIsConnecting true sh)) as [b sh'|e sh'];
      cbn [shellOf] in H.
    + etransitivity; [|exact H]. by repeat split.
    + etransitivity; [|apply quiet_note].
      etransitivity; [|exact H]. by repeat split.
  - unfold chooseDevice.
    etransitivity; [|by apply quiet_connectToSelectedDevice].
    by repeat split.
Qed.

Lemma connecting_on_desk_registers_no_callback :
  isDeviceConnected (view (closureOf desk)) = false
  /\ isDeviceConnected (react (core connectedDesk)) = true
  /\ readCallback (core connectedDesk) = None
  /\ transferTimeoutCheckerRef (core connectedDesk) = None
  /\ serialCalls connectedDesk
     = [ListDevices;
        OpenPort (lit "1002")
          (mkOpenOptions (Some 115200) 8 1 (lit "none") true true)].
Proof.
  split; [reflexivity|]. split; [reflexivity|].
  destruct (connecting_registers_no_callback (closureOf desk) benchDevice
              oneDevice desk eq_refl) as [(Hr & Hw & _) _].
  split; [exact Hr|]. split; [exact Hw | reflexivity].
Defined.

(** ** How many devices there are *)

Lemma startReading_open c device sh :
  deviceRef (core sh) = Some device ->
  startReading c sh
  = if isDeviceConnected (view c)
    then withCore
           (fun s =>
              startTransferTimeoutChecker c
                (setMessageBuffer [] (setReadCallback (Some (view c)) s)))
           (called (ReadFrom (deviceId device)) sh)
    else sh.
Proof.
  intros H. unfold startReading. rewrite H.
  by destruct (isDeviceConnected (view c)).
Qed.

(** [connectToSelectedDevice] when the port opens. *)
Lemma connectToSelectedDevice_opened c device a sh :
  opening a = Resolved tt ->
  exists sh',
    connectToSelectedDevice c device a sh = Done true sh'
    /\ serialCalls sh'
       = serialCalls sh ++ [OpenPort (deviceId device) (openOptions c)]
         ++ (if isDeviceConnected (view c)
             then [ReadFrom (deviceId device)] else [])
    /\ deviceRef (core sh') = Some device
    /\ isDeviceConnected (react (core sh')) = true
    /\ isConnecting sh' = isConnecting sh
    /\ head (logs (core sh'))
       = Some (mkLog (lit "Connected to device at "
                      ++ ofNumber (parseInt (seenBaudRate c)) ++ lit " baud")
                 SUCCESS).
Proof.
  intros Ho. unfold connectToSelectedDevice. cbv zeta. rewrite Ho.
  set (sh1 := withCore (run (duringOpen a)) _).
  assert (Hd1 : deviceRef (core sh1) = Some device).
  { unfold sh1. cbn [core withCore called].
    by rewrite (steady_device _ _ (steady_run _ _)). }
  set (sh2 := note c _ SUCCESS (withCore (setIsDeviceConnected true) sh1)).
  assert (Hd2 : deviceRef (core sh2) = Some device).
  { unfold sh2. cbn [core withCore note].
    by rewrite (steady_device _ _ (steady_addMonitorEntry _ _ _ _)). }
  rewrite (startReading_open c device sh2 Hd2).
  eexists. split; [reflexivity|].
  destruct (isDeviceConnected (view c));
    cbn [core serialCalls isConnecting withCore called note
         startTransferTimeoutChecker deviceRef react logs
         setTransferTimeoutChecker setMessageBuffer setReadCallback];
    unfold sh2, sh1;
    cbn [core serialCalls isConnecting withCore called note];
    rewrite ?(steady_device _ _ (steady_addMonitorEntry _ _ _ _)),
      ?(steady_react _ _ (steady_addMonitorEntry _ _ _ _));
    cbn [deviceRef react setIsDeviceConnected setReact isDeviceConnected];
    rewrite ?(steady_device _ _ (steady_run _ _));
    rewrite <- ?app_assoc; repeat split; reflexivity.
Qed.

(** [connectToDevice] when one CH341 device is listed and its port opens. *)
Lemma connectToDevice_single c a devices device sh :
  listing a = Resolved devices -> ch341 devices = [device] ->
  opening a = Resolved tt ->
  exists sh',
    connectToDevice c a sh = Done true sh'
    /\ serialCalls sh'
       = serialCalls sh
         ++ [ListDevices; OpenPort (deviceId device) (openOptions c)]
         ++ (if isDeviceConnected (view c)
             then [ReadFrom (deviceId device)] else [])
    /\ deviceRef (core sh') = Some device
    /\ isDeviceConnected (react (core sh')) = true
    /\ isConnecting sh' = isConnecting sh.
Proof.
  intros Hl Hfound Ho. unfold connectToDevice. cbv zeta. rewrite Hl.
  fold (ch341 devices). rewrite Hfound.
  set (sh1 := withCore (run (duringList a)) _).
  destruct (connectToSelectedDevice_opened c device a sh1 Ho)
    as (sh' & -> & Hcalls & Hd & Hconn & Hic & _).
  exists sh'. split; [reflexivity|].
  split; [|split; [exact Hd | split; [exact Hconn | exact Hic]]].
  rewrite Hcalls. unfold sh1. cbn [serialCalls withCore called note].
  by rewrite <- app_assoc.
Qed.

(** X23.  [connectToDevice] lists the devices once and goes by the number
    of CH341 devices (vendor 0x1a86) among them.  None: it reports 'No CH341
    devices found' and opens nothing.  Exactly one: it opens that device at
    the selected baud rate with 8 data bits, 1 stop bit, no parity, DTR and
    RTS set, and the component is connected to it.  More than one: it opens
    nothing, stays as it was, and shows the selector with exactly the CH341
    devices. *)
Theorem connection_goes_by_the_number_of_devices
    (c : Closure) (a : Answers) (devices : list UsbDevice) (sh : Shell) :
  listing a = Resolved devices ->
  (ch341 devices = [] ->
   exists sh',
     connectToDevice c a sh = Done false sh'
     /\ serialCalls sh' = serialCalls sh ++ [ListDevices]
     /\ deviceRef (core sh') = deviceRef (core sh)
     /\ head (logs (core sh'))
        = Some (mkLog (lit "No CH341 devices found") ERROR))
  /\ (forall device,
        ch341 devices = [device] -> opening a = Resolved tt ->
        exists sh',
          connectToDevice c a sh = Done true sh'
          /\ serialCalls sh'
             = serialCalls sh
               ++ [ListDevices; OpenPort (deviceId device) (openOptions c)]
               ++ (if isDeviceConnected (view c)
                   then [ReadFrom (deviceId device)] else [])
          /\ deviceRef (core sh') = Some device
          /\ isDeviceConnected (react (core sh')) = true)
  /\ (forall first second others,
        ch341 devices = first :: second :: others ->
        exists sh',
          connectToDevice c a sh = Done false sh'
          /\ serialCalls sh' = serialCalls sh ++ [ListDevices]
          /\ deviceSelectorVisible sh' = true
          /\ availableDevices sh' = first :: second :: others
          /\ deviceRef (core sh') = deviceRef (core sh)
          /\ react (core sh') = react (core sh)).
Proof.
  intros Hl. unfold connectToDevice. cbv zeta. rewrite Hl.
  fold (ch341 devices).
  set (sh1 := withCore (run (duringList a)) _).
  assert (Hc1 : serialCalls sh1 = serialCalls sh ++ [ListDevices])
    by reflexivity.
  assert (Hd1 : deviceRef (core sh1) = deviceRef (core sh)).
  { unfold sh1. cbn [core withCore called note].
    by rewrite (steady_device _ _ (steady_run _ _)),
      (steady_device _ _ (steady_addMonitorEntry _ _ _ _)). }
  assert (Hr1 : react (core sh1) = react (core sh)).
  { unfold sh1. cbn [core withCore called note].
    by rewrite (steady_react _ _ (steady_run _ _)),
      (steady_react _ _ (steady_addMonitorEntry _ _ _ _)). }
  split; [|split].
  - intros ->. eexists. split; [reflexivity|].
    cbn [core serialCalls withCore note].
    rewrite (steady_device _ _ (steady_addMonitorEntry _ _ _ _)).
    split; [exact Hc1|]. split; [exact Hd1 | reflexivity].
  - intros device -> Ho.
    destruct (connectToSelectedDevice_opened c device a sh1 Ho)
      as (sh' & -> & Hcalls & Hd & Hconn & _).
    exists sh'. split; [reflexivity|].
    split; [|split; [exact Hd | exact Hconn]].
    rewrite Hcalls, Hc1. by rewrite <- app_assoc.
  - intros first second others ->. eexists. split; [reflexivity|].
    cbn [core serialCalls deviceSelectorVisible availableDevices
         setDeviceSelectorVisible setAvailableDevices].
    repeat split; assumption.
Qed.

Lemma connection_on_desk_with_two_devices :
  listing twoDevices
  = Resolved [benchDevice; mouse; mkDevice (lit "1004") 0x1a86]
  /\ exists sh',
       connectToDevice (closureOf desk) twoDevices desk = Done false sh'
       /\ serialCalls sh' = serialCalls desk ++ [ListDevices]
       /\ deviceSelectorVisible sh' = true
       /\ availableDevices sh' = [benchDevice; mkDevice (lit "1004") 0x1a86]
       /\ deviceRef (core sh') = deviceRef (core desk)
       /\ react (core sh') = react (core desk).
Proof.
  split; [reflexivity|].
  destruct (connection_goes_by_the_number_of_devices (closureOf desk)
              twoDevices [benchDevice; mouse; mkDevice (lit "1004") 0x1a86]
              desk eq_refl) as (_ & _ & Hmany).
  exact (Hmany benchDevice (mkDevice (lit "1004") 0x1a86) [] eq_refl).
Defined.

(** ** A port that does not open *)

Lemma connectToSelectedDevice_refused c device error a sh :
  opening a = Rejected error ->
  exists sh',
    connectToSelectedDevice c device a sh
    = Failed (lit "Connection failed: " ++ error) sh'
    /\ serialCalls sh'
       = serialCalls sh ++ [OpenPort (deviceId device) (openOptions c)]
    /\ deviceRef (core sh') = None
    /\ react (core sh') = react (core sh)
    /\ isConnecting sh' = isConnecting sh.
Proof.
  intros Ho. unfold connectToSelectedDevice. cbv zeta. rewrite Ho.
  eexists. split; [reflexivity|].
  cbn [core serialCalls isConnecting withCore called note deviceRef react
       setDeviceRef].
  rewrite (steady_react _ _ (steady_run _ _)).
  cbn [react setDeviceRef].
  rewrite (steady_react _ _ (steady_addMonitorEntry _ _ _ _)).
  repeat split; reflexivity.
Qed.

(** [connectToDevice] by the devices that were listed. *)
Lemma connection_policy_cases c a devices sh :
  listing a = Resolved devices ->
  match ch341 devices with
  | [] => exists sh', connectToDevice c a sh = Done false sh'
                      /\ serialCalls sh' = serialCalls sh ++ [ListDevices]
  | [device] =>
      match opening a with
      | Resolved _ =>
          exists sh', connectToDevice c a sh = Done true sh'
                      /\ deviceRef (core sh') = Some device
                      /\ isDeviceConnected (react (core sh')) = true
      | Rejected _ => exists sh' e, connectToDevice c a sh = Failed e sh'
      end
  | _ => exists sh', connectToDevice c a sh = Done false sh'
                     /\ deviceSelectorVisible sh' = true
  end.
Proof.
  intros Hl. unfold connectToDevice. cbv zeta. rewrite Hl.
  fold (ch341 devices).
  destruct (ch341 devices) as [|device [|second others]].
  - eexists. split; reflexivity.
  - destruct (opening a) as [[]|openError] eqn:Ho.
    + match goal with
      | |- context [connectToSelectedDevice c device a ?sh1] =>
          destruct (connectToSelectedDevice_opened c device a sh1 Ho)
            as (sh' & -> & _ & Hd & Hconn & _)
      end.
      exists sh'. by repeat split.
    + match goal with
      | |- context [connectToSelectedDevice c device a ?sh1] =>
          destruct (connectToSelectedDevice_refused c device openError a sh1 Ho)
            as (sh' & -> & _)
      end.
      by eexists _, _.
  - eexists. split; reflexivity.
Qed.

(** X24.  When the one CH341 device cannot be opened, the press of the
    connection button ends with no device handle, the component as
    connected as it was, and [isConnecting] false again.  The error of the
    serial module is wrapped twice on its way to the monitor, the second time
    by the [catch] around the listing: the entry reads 'Connection error:
    Failed to list devices: Connection failed: ' and then the error. *)
Theorem failed_open_is_reported_as_a_listing_failure
    (c : Closure) (a : Answers) (devices : list UsbDevice)
    (device : UsbDevice) (error : list Z) (sh : Shell) :
  seenConnecting c = false -> isDeviceConnected (view c) = false ->
  listing a = Resolved devices -> ch341 devices = [device] ->
  opening a = Rejected error ->
  let sh' := handleConnection c a sh in
  deviceRef (core sh') = None
  /\ isDeviceConnected (react (core sh')) = isDeviceConnected (react (core sh))
  /\ isConnecting sh' = false
  /\ head (logs (core sh'))
     = Some (mkLog (lit "Connection error: Failed to list devices: "
                    ++ lit "Connection failed: " ++ error) ERROR).
Proof.
  intros Hnc Hc Hl Hfound Ho sh'. subst sh'. unfold handleConnection.
  rewrite Hnc, Hc. cbn [negb]. cbv zeta.
  unfold connectToDevice. cbv zeta. rewrite Hl. fold (ch341 devices).
  rewrite Hfound.
  set (sh1 := withCore (run (duringList a)) _).
  assert (Hr1 : react (core sh1) = react (core sh)).
  { unfold sh1. cbn [core withCore called note setIsConnecting].
    by rewrite (steady_react _ _ (steady_run _ _)),
      (steady_react _ _ (steady_addMonitorEntry _ _ _ _)). }
  destruct (connectToSelectedDevice_refused c device error a sh1 Ho)
    as (sh2 & -> & _ & Hd2 & Hr2 & _).
  cbn [core isConnecting setIsConnecting note withCore].
  rewrite (steady_device _ _ (steady_addMonitorEntry _ _ _ _)),
    (steady_react _ _ (steady_addMonitorEntry _ _ _ _)), Hd2, Hr2, Hr1.
  repeat split; reflexivity.
Qed.

Lemma failed_open_on_desk :
  deviceRef (core (handleConnection (closureOf desk) portBusy desk)) = None
  /\ isDeviceConnected
       (react (core (handleConnection (closureOf desk) portBusy desk)))
     = false
  /\ head (logs (core (handleConnection (closureOf desk) portBusy desk)))
     = Some (mkLog (lit "Connection error: Failed to list devices: "
                    ++ lit "Connection failed: " ++ lit "Port busy") ERROR).
Proof.
  destruct (failed_open_is_reported_as_a_listing_failure (closureOf desk)
              portBusy [mouse; benchDevice] benchDevice (lit "Port busy") desk
              eq_refl eq_refl eq_refl eq_refl eq_refl)
    as (Hd & Hc & _ & Hl).
  split; [exact Hd|]. split; [exact Hc | exact Hl].
Defined.

(** ** Disconnecting *)

Lemma quiet_disconnectDevice c showMessages a sh :
  quiet sh (shellOf (disconnectDevice c showMessages a sh)).
Proof.
  unfold disconnectDevice. cbv zeta.
  set (sh1 := if showMessages then _ else sh).
  assert (H1 : quiet sh sh1)
    by (unfold sh1; destruct showMessages; [apply quiet_note | reflexivity]).
  set (sh2 := match imageLoopIntervalRef (core sh1) with
              | Some _ => _
              | None => sh1
              end).
  assert (H2 : quiet sh sh2).
  { unfold sh2. destruct (imageLoopIntervalRef (core sh1)); [|exact H1].
    etransitivity; [exact H1|]. by apply quiet_withCore. }
  assert (Hfinish : forall sh3,
            quiet sh sh3 ->
            quiet sh
              (if showMessages
               then note c (lit "Disconnected") SUCCESS
                      (withCore (setIsDeviceConnected false) sh3)
               else withCore (setIsDeviceConnected false) sh3)).
  { intros sh3 H3.
    assert (quiet sh (withCore (setIsDeviceConnected false) sh3))
      by (etransitivity; [exact H3 | by apply quiet_withCore]).
    destruct showMessages; [|done].
    etransitivity; [eassumption | apply quiet_note]. }
  destruct (deviceRef (core sh2)) as [device|]; [|by apply Hfinish].
  set (sh3 := withCore (run (duringClose a)) _).
  assert (H3 : quiet sh sh3).
  { unfold sh3. etransitivity; [|apply quiet_run].
    etransitivity; [exact H2 | by apply quiet_called]. }
  destruct (closing a) as [u|error]; cbn [shellOf].
  - apply Hfinish. etransitivity; [exact H3 | by apply quiet_withCore].
  - etransitivity; [exact H3 | apply quiet_note].
Qed.

(** [disconnectDevice] on an open channel, by the answer to the close. *)
Lemma disconnectDevice_open c showMessages a device sh :
  deviceRef (core sh) = Some device ->
  let result := disconnectDevice c showMessages a sh in
  serialCalls (shellOf result)
  = serialCalls sh ++ [ClosePort (deviceId device)]
  /\ imageLoopIntervalRef (core (shellOf result)) = None
  /\ (closing a = Resolved tt ->
      result = Done tt (shellOf result)
      /\ deviceRef (core (shellOf result)) = None
      /\ isDeviceConnected (react (core (shellOf result))) = false)
  /\ (forall error,
        closing a = Rejected error ->
        result = Failed error (shellOf result)
        /\ deviceRef (core (shellOf result)) = Some device
        /\ isDeviceConnected (react (core (shellOf result)))
           = isDeviceConnected (react (core sh))
        /\ head (logs (core (shellOf result)))
           = Some (mkLog (lit "Disconnect error: " ++ error) ERROR)).
Proof.
  intros Hd result. subst result. unfold disconnectDevice. cbv zeta.
  set (sh1 := if showMessages then _ else sh).
  assert (H1 : deviceRef (core sh1) = Some device
               /\ serialCalls sh1 = serialCalls sh
               /\ imageLoopIntervalRef (core sh1) = imageLoopIntervalRef (core sh)
               /\ isDeviceConnected (react (core sh1))
                  = isDeviceConnected (react (core sh))).
  { unfold sh1. destruct showMessages; [|done].
    cbn [core serialCalls note withCore].
    by rewrite (steady_device _ _ (steady_addMonitorEntry _ _ _ _)),
      (steady_interval _ _ (steady_addMonitorEntry _ _ _ _)),
      (steady_react _ _ (steady_addMonitorEntry _ _ _ _)). }
  destruct H1 as (Hd1 & Hc1 & _ & Hr1).
  set (sh2 := match imageLoopIntervalRef (core sh1) with
              | Some _ => _
              | None => sh1
              end).
  assert (H2 : deviceRef (core sh2) = Some device
               /\ serialCalls sh2 = serialCalls sh
               /\ imageLoopIntervalRef (core sh2) = None
               /\ isDeviceConnected (react (core sh2))
                  = isDeviceConnected (react (core sh))).
  { unfold sh2. destruct (imageLoopIntervalRef (core sh1)) eqn:Hi; [|done].
    cbn [core serialCalls withCore]. repeat split; assumption. }
  destruct H2 as (Hd2 & Hc2 & Hi2 & Hr2).
  rewrite Hd2.
  set (sh3 := withCore (run (duringClose a)) _).
  assert (H3 : deviceRef (core sh3) = Some device
               /\ serialCalls sh3
                  = serialCalls sh ++ [ClosePort (deviceId device)]
               /\ imageLoopIntervalRef (core sh3) = None
               /\ isDeviceConnected (react (core sh3))
                  = isDeviceConnected (react (core sh))).
  { unfold sh3. cbn [core serialCalls withCore called].
    by rewrite (steady_device _ _ (steady_run _ _)),
      (steady_interval _ _ (steady_run _ _)),
      (steady_react _ _ (steady_run _ _)), Hc2. }
  destruct H3 as (Hd3 & Hc3 & Hi3 & Hr3).
  destruct (closing a) as [[]|error]; cbn [shellOf].
  - destruct showMessages;
      cbn [core serialCalls withCore note];
      rewrite ?(steady_interval _ _ (steady_addMonitorEntry _ _ _ _)),
        ?(steady_device _ _ (steady_addMonitorEntry _ _ _ _)),
        ?(steady_react _ _ (steady_addMonitorEntry _ _ _ _));
      cbn [deviceRef react imageLoopIntervalRef isDeviceConnected
           setIsDeviceConnected setReact setDeviceRef];
      (split; [exact Hc3|]); (split; [exact Hi3|]);
      (split; [done | discriminate]).
  - cbn [core serialCalls withCore note].
    rewrite (steady_interval _ _ (steady_addMonitorEntry _ _ _ _)),
      (steady_device _ _ (steady_addMonitorEntry _ _ _ _)),
      (steady_react _ _ (steady_addMonitorEntry _ _ _ _)).
    split; [exact Hc3|]. split; [exact Hi3|]. split; [discriminate|].
    intros error' [= <-]. repeat split; assumption.
Qed.

(** X25.  Disconnecting closes the port, drops the device handle and stops
    the image loop, but it takes back neither the read callback nor the
    interval of the watchdog: both stay registered as they were.  When the
    serial module refuses to close the port, the error is logged and thrown
    on, and the component is left as connected as it was, with the device
    handle, although the image loop has already been stopped. *)
Theorem disconnecting_keeps_the_callbacks
    (c : Closure) (showMessages : bool) (a : Answers) (device : UsbDevice)
    (sh : Shell) :
  deviceRef (core sh) = Some device ->
  let result := disconnectDevice c showMessages a sh in
  quiet sh (shellOf result)
  /\ serialCalls (shellOf result)
     = serialCalls sh ++ [ClosePort (deviceId device)]
  /\ imageLoopIntervalRef (core (shellOf result)) = None
  /\ (closing a = Resolved tt ->
      result = Done tt (shellOf result)
      /\ deviceRef (core (shellOf result)) = None
      /\ isDeviceConnected (react (core (shellOf result))) = false)
  /\ (forall error,
        closing a = Rejected error ->
        result = Failed error (shellOf result)
        /\ deviceRef (core (shellOf result)) = Some device
        /\ isDeviceConnected (react (core (shellOf result)))
           = isDeviceConnected (react (core sh))
        /\ head (logs (core (shellOf result)))
           = Some (mkLog (lit "Disconnect error: " ++ error) ERROR)).
Proof.
  intros Hd result. split; [apply quiet_disconnectDevice|].
  by apply disconnectDevice_open.
Qed.

Lemma disconnecting_on_panel_keeps_the_callbacks :
  deviceRef (core panel) = Some benchDevice
  /\ readCallback
       (core (shellOf (disconnectDevice (closureOf panel) true oneDevice
                         panel))) = Some benchRender
  /\ transferTimeoutCheckerRef
       (core (shellOf (disconnectDevice (closureOf panel) true oneDevice
                         panel))) = Some benchRender
  /\ deviceRef
       (core (shellOf (disconnectDevice (closureOf panel) true oneDevice
                         panel))) = None.
Proof.
  split; [reflexivity|].
  destruct (disconnecting_keeps_the_callbacks (closureOf panel) true oneDevice
              benchDevice panel eq_refl)
    as ((Hr & Hw & _) & _ & _ & Hclosed & _).
  destruct (Hclosed eq_refl) as (_ & Hd & _).
  split; [exact Hr|]. split; [exact Hw | exact Hd].
Defined.

(** ** The recovery *)

Lemma connectToSelectedDevice_calls c device a sh :
  exists calls,
    serialCalls (shellOf (connectToSelectedDevice c device a sh))
    = serialCalls sh ++ calls
    /\ List.filter isListCall calls = []
    /\ (length (List.filter isOpenCall calls) <= 1)%nat.
Proof.
  destruct (opening a) as [[]|error] eqn:Ho.
  - destruct (connectToSelectedDevice_opened c device a sh Ho)
      as (sh' & -> & Hcalls & _).
    eexists. split; [exact Hcalls|].
    destruct (isDeviceConnected (view c)); cbn; split; (reflexivity || lia).
  - destruct (connectToSelectedDevice_refused c device error a sh Ho)
      as (sh' & -> & Hcalls & _).
    eexists. split; [exact Hcalls|]. cbn. split; (reflexivity || lia).
Qed.

Lemma connectToDevice_calls c a sh :
  exists calls,
    serialCalls (shellOf (connectToDevice c a sh)) = serialCalls sh ++ calls
    /\ (length (List.filter isListCall calls) <= 1)%nat
    /\ (length (List.filter isOpenCall calls) <= 1)%nat.
Proof.
  unfold connectToDevice. cbv zeta.
  set (sh1 := withCore (run (duringList a)) _).
  assert (Hc1 : serialCalls sh1 = serialCalls sh ++ [ListDevices])
    by reflexivity.
  destruct (listing a) as [devices|error]; cbn [shellOf].
  - destruct (List.filter _ devices) as [|device [|second others]];
      cbn [shellOf].
    + exists [ListDevices]. split; [exact Hc1|]. cbn. lia.
    + destruct (connectToSelectedDevice_calls c device a sh1)
        as (calls & Hcalls & Hl & Ho).
      exists (ListDevices :: calls).
      destruct (connectToSelectedDevice c device a sh1); cbn [shellOf] in *;
        (split; [by rewrite Hcalls, Hc1, <- app_assoc|]);
        cbn [List.filter isListCall isOpenCall length]; rewrite Hl; cbn;
        lia.
    + exists [ListDevices]. split; [exact Hc1|]. cbn. lia.
  - exists [ListDevices]. split; [exact Hc1|]. cbn. lia.
Qed.

Lemma disconnectDevice_calls c showMessages a sh :
  exists calls,
    serialCalls (shellOf (disconnectDevice c showMessages a sh))
    = serialCalls sh ++ calls
    /\ List.filter isListCall calls = []
    /\ List.filter isOpenCall calls = [].
Proof.
  destruct (deviceRef (core sh)) as [device|] eqn:Hd.
  - destruct (disconnectDevice_open c showMessages a device sh Hd)
      as (Hcalls & _).
    eexists. split; [exact Hcalls|]. by cbn.
  - exists []. rewrite app_nil_r. split; [|done].
    unfold disconnectDevice. cbv zeta.
    set (sh1 := if showMessages then _ else sh).
    assert (H1 : deviceRef (core sh1) = None /\ serialCalls sh1 = serialCalls sh).
    { unfold sh1. destruct showMessages; [|done].
      cbn [core serialCalls note withCore].
      by rewrite (steady_device _ _ (steady_addMonitorEntry _ _ _ _)). }
    destruct H1 as [Hd1 Hc1].
    set (sh2 := match imageLoopIntervalRef (core sh1) with
                | Some _ => _
                | None => sh1
                end).
    assert (H2 : deviceRef (core sh2) = None /\ serialCalls sh2 = serialCalls sh).
    { unfold sh2. by destruct (imageLoopIntervalRef (core sh1)). }
    destruct H2 as [Hd2 Hc2]. rewrite Hd2. cbn [shellOf].
    by destruct showMessages.
Qed.

(** [handleConnectionError] when the port cannot be closed. *)
Lemma handleConnectionError_stuck c error device closeError a sh :
  deviceRef (core sh) = Some device -> closing a = Rejected closeError ->
  let result := handleConnectionError c error a sh in
  fst result = false
  /\ serialCalls (snd result) = serialCalls sh ++ [ClosePort (deviceId device)]
  /\ head (logs (core (snd result)))
     = Some (mkLog (lit "Failed to recover connection: " ++ closeError) ERROR).
Proof.
  intros Hd Hclose result. subst result. unfold handleConnectionError.
  cbv zeta.
  set (sh0 := note c (lit "Connection error: " ++ error) ERROR sh).
  assert (Hd0 : deviceRef (core sh0) = Some device).
  { unfold sh0. cbn [core note withCore].
    by rewrite (steady_device _ _ (steady_addMonitorEntry _ _ _ _)). }
  destruct (disconnectDevice_open c false a device sh0 Hd0)
    as (Hcalls & _ & _ & Hrej).
  destruct (Hrej closeError Hclose) as (Hres & _).
  rewrite Hres. cbn [fst snd core serialCalls note withCore].
  split; [reflexivity|]. split; [exact Hcalls | reflexivity].
Qed.

(** ** The first connection *)

Lemma withCore_run_deaf events sh :
  deaf (core sh) -> withCore (run events) sh = sh.
Proof.
  intros H. unfold withCore. rewrite (run_deaf _ _ H). by destruct sh.
Qed.

(** The press of the connection button that opens the one CH341 device, when
    no callback can fire. *)
Lemma handleConnection_first c a devices device sh :
  seenConnecting c = false -> isDeviceConnected (view c) = false ->
  deaf (core sh) ->
  listing a = Resolved devices -> ch341 devices = [device] ->
  opening a = Resolved tt ->
  handleConnection c a sh
  = setIsConnecting false
      (note c (lit "Connected to device at "
               ++ ofNumber (parseInt (seenBaudRate c)) ++ lit " baud") SUCCESS
         (withCore (setIsDeviceConnected true)
            (called (OpenPort (deviceId device) (openOptions c))
               (withCore (setDeviceRef (Some device))
                  (note c (lit "Attempting to open port at " ++ seenBaudRate c
                           ++ lit " baud...") INFO
                     (called ListDevices
                        (note c (lit "Checking for CH341 devices...") INFO
                           (setIsConnecting true sh)))))))).
Proof.
  intros Hnc Hc Hdeaf Hl Hfound Ho. unfold handleConnection.
  rewrite Hnc, Hc. cbn [negb]. cbv zeta.
  unfold connectToDevice. cbv zeta. rewrite Hl. fold (ch341 devices).
  rewrite Hfound.
  rewrite withCore_run_deaf
    by (cbn [core called note withCore setIsConnecting]; auto with deaf).
  unfold connectToSelectedDevice. cbv zeta. rewrite Ho.
  rewrite withCore_run_deaf
    by (cbn [core called note withCore setIsConnecting]; auto with deaf).
  by rewrite (startReading_stale _ _ Hc).
Qed.

(** X27.  After the first connection nothing listens to the device.  When
    the connection button opens the one CH341 device from a state in which
    no callback is registered, as after the mount of the component, the
    component is connected and has the device handle, but no chunk from the
    device and no tick of a timer changes anything.  An image transfer
    started then and left on its own (no other operation of the component
    runs during its waits, such as Clear Image, which resets the flag the
    ready wait polls) fails with 'Failed to send image: Timeout waiting for
    ready signal', whatever the device sends. *)
Theorem first_connection_cannot_transfer
    (c : Closure) (a : Answers) (devices : list UsbDevice)
    (device : UsbDevice) (sh : Shell) :
  seenConnecting c = false -> isDeviceConnected (view c) = false ->
  deaf (core sh) -> usbError (core sh) = None ->
  listing a = Resolved devices -> ch341 devices = [device] ->
  opening a = Resolved tt ->
  let sh' := handleConnection c a sh in
  isDeviceConnected (react (core sh')) = true
  /\ deviceRef (core sh') = Some device
  /\ (forall events, run events (core sh') = core sh')
  /\ (forall sch text,
        truthy text = true ->
        exists s',
          sendImageToDevice (react (core sh')) sch (Some text) (core sh')
          = Threw (lit "Failed to send image: Timeout waiting for ready signal")
              s').
Proof.
  intros Hnc Hc Hdeaf He Hl Hfound Ho sh'. subst sh'.
  rewrite (handleConnection_first c a devices device sh Hnc Hc Hdeaf Hl
             Hfound Ho).
  set (sh' := setIsConnecting false _).
  assert (Hconn : isDeviceConnected (react (core sh')) = true).
  { unfold sh'. cbn [core setIsConnecting note withCore].
    by rewrite (steady_react _ _ (steady_addMonitorEntry _ _ _ _)). }
  assert (Hd : deviceRef (core sh') = Some device).
  { unfold sh'. cbn [core setIsConnecting note withCore called].
    by rewrite (steady_device _ _ (steady_addMonitorEntry _ _ _ _)). }
  assert (Hdeaf' : deaf (core sh')).
  { unfold sh'. cbn [core setIsConnecting note withCore called].
    auto 8 with deaf. }
  assert (He' : usbError (core sh') = None).
  { unfold sh'. cbn [core setIsConnecting note withCore called].
    rewrite (steady_error _ _ (steady_addMonitorEntry _ _ _ _)).
    cbn [usbError setIsDeviceConnected setReact setDeviceRef].
    by rewrite !(steady_error _ _ (steady_addMonitorEntry _ _ _ _)). }
  split; [exact Hconn|]. split; [exact Hd|]. split.
  - intros events. by apply run_deaf.
  - intros sch text Ht.
    destruct (sendImageToDevice_deaf (react (core sh')) sch text device
                (core sh') Hconn Hd He' Ht Hdeaf') as (s' & Hsend & _).
    by exists s'.
Qed.

Lemma first_connection_on_desk_cannot_transfer :
  deaf (core desk)
  /\ isDeviceConnected (react (core connectedDesk)) = true
  /\ deviceRef (core connectedDesk) = Some benchDevice
  /\ run [EvData [75] 10; EvWatchdog 20000] (core connectedDesk)
     = core connectedDesk
  /\ exists s',
       sendImageToDevice (react (core connectedDesk)) (scheduleWith [75])
         (Some (lit "AQID")) (core connectedDesk)
       = Threw (lit "Failed to send image: Timeout waiting for ready signal")
           s'.
Proof.
  assert (Hdeaf : deaf (core desk)) by (repeat split).
  split; [exact Hdeaf|].
  destruct (first_connection_cannot_transfer (closureOf desk) oneDevice
              [mouse; benchDevice] benchDevice desk eq_refl eq_refl Hdeaf
              eq_refl eq_refl eq_refl eq_refl) as (Hc & Hd & Hrun & Hsend).
  split; [exact Hc|]. split; [exact Hd|]. split; [apply Hrun|].
  by apply Hsend.
Defined.

Lemma transfer_without_callbacks_on_desk :
  deaf (core connectedDesk)
  /\ exists s',
       sendImageToDevice (react (core connectedDesk)) (scheduleWith [75])
         (Some (lit "AQID")) (core connectedDesk)
       = Threw (lit "Failed to send image: Timeout waiting for ready signal")
           s'
       /\ usbCalls s'
          = usbCalls (core connectedDesk)
            ++ [Write (deviceId benchDevice) (lit "START_RTIMAGE" ++ [LF]);
                WriteHexString (deviceId benchDevice)
                  (toHex (frameHeader
                            (Z.of_nat (length (fromBase64 (lit "AQID"))))))].
Proof.
  assert (Hdeaf : deaf (core connectedDesk)) by (repeat split).
  split; [exact Hdeaf|].
  exact (transfer_without_callbacks_times_out (react (core connectedDesk))
           (scheduleWith [75]) (lit "AQID") benchDevice (core connectedDesk)
           eq_refl eq_refl eq_refl eq_refl Hdeaf).
Defined.

(** ** The connection after a recovery *)

Lemma disconnectDevice_resolved c showMessages a sh :
  closing a = Resolved tt ->
  exists sh',
    disconnectDevice c showMessages a sh = Done tt sh'
    /\ deviceRef (core sh') = None.
Proof.
  intros Hclose.
  destruct (deviceRef (core sh)) as [device|] eqn:Hd.
  - destruct (disconnectDevice_open c showMessages a device sh Hd)
      as (_ & _ & Hok & _).
    destruct (Hok Hclose) as (Hres & Hnone & _).
    eexists. split; [exact Hres | exact Hnone].
  - unfold disconnectDevice. cbv zeta.
    set (sh1 := if showMessages then _ else sh).
    assert (Hd1 : deviceRef (core sh1) = None).
    { unfold sh1. destruct showMessages; [|done].
      cbn [core note withCore].
      by rewrite (steady_device _ _ (steady_addMonitorEntry _ _ _ _)). }
    set (sh2 := match imageLoopIntervalRef (core sh1) with
                | Some _ => _
                | None => sh1
                end).
    assert (Hd2 : deviceRef (core sh2) = None)
      by (unfold sh2; by destruct (imageLoopIntervalRef (core sh1))).
    rewrite Hd2. eexists. split; [reflexivity|].
    destruct showMessages; cbn [core note withCore];
      rewrite ?(steady_device _ _ (steady_addMonitorEntry _ _ _ _));
      exact Hd2.
Qed.

Lemma connectToSelectedDevice_listening c device a sh :
  opening a = Resolved tt -> isDeviceConnected (view c) = true ->
  exists sh',
    connectToSelectedDevice c device a sh = Done true sh'
    /\ readCallback (core sh') = Some (view c)
    /\ transferTimeoutCheckerRef (core sh') = Some (view c)
    /\ messageBuffer (core sh') = []
    /\ deviceRef (core sh') = Some device
    /\ isDeviceConnected (react (core sh')) = true
    /\ last (serialCalls sh') = Some (ReadFrom (deviceId device)).
Proof.
  intros Ho Hc. unfold connectToSelectedDevice. cbv zeta. rewrite Ho.
  set (sh1 := withCore (run (duringOpen a)) _).
  assert (Hd1 : deviceRef (core sh1) = Some device).
  { unfold sh1. cbn [core withCore called].
    by rewrite (steady_device _ _ (steady_run _ _)). }
  set (sh2 := note c _ SUCCESS (withCore (setIsDeviceConnected true) sh1)).
  assert (Hd2 : deviceRef (core sh2) = Some device).
  { unfold sh2. cbn [core withCore note].
    by rewrite (steady_device _ _ (steady_addMonitorEntry _ _ _ _)). }
  assert (Hr2 : isDeviceConnected (react (core sh2)) = true).
  { unfold sh2. cbn [core withCore note].
    by rewrite (steady_react _ _ (steady_addMonitorEntry _ _ _ _)). }
  rewrite (startReading_open c device sh2 Hd2), Hc.
  eexists. split; [reflexivity|].
  cbn [core serialCalls withCore called startTransferTimeoutChecker
       readCallback transferTimeoutCheckerRef messageBuffer deviceRef react
       setTransferTimeoutChecker setMessageBuffer setReadCallback].
  rewrite last_snoc. repeat split; assumption.
Qed.

(** [handleConnectionError] in a render that is connected, with a
    registration that returns: when the port closes, exactly one CH341
    device is listed and its port opens, the callback and the watchdog of
    this render are registered. *)
Lemma handleConnectionError_registers
    (c : Closure) (error : list Z) (a : Answers) (devices : list UsbDevice)
    (device : UsbDevice) (sh : Shell) :
  isDeviceConnected (view c) = true ->
  closing a = Resolved tt -> listing a = Resolved devices ->
  ch341 devices = [device] -> opening a = Resolved tt ->
  let result := handleConnectionError c error a sh in
  fst result = true
  /\ readCallback (core (snd result)) = Some (view c)
  /\ transferTimeoutCheckerRef (core (snd result)) = Some (view c)
  /\ messageBuffer (core (snd result)) = []
  /\ deviceRef (core (snd result)) = Some device
  /\ last (serialCalls (snd result)) = Some (ReadFrom (deviceId device))
  /\ head (logs (core (snd result)))
     = Some (mkLog (lit "Successfully recovered connection") SUCCESS).
Proof.
  intros Hc Hclose Hl Hfound Ho result. subst result.
  unfold handleConnectionError. cbv zeta.
  set (sh0 := note c (lit "Connection error: " ++ error) ERROR sh).
  destruct (disconnectDevice_resolved c false a sh0 Hclose) as (sh1 & -> & _).
  unfold connectToDevice. cbv zeta. rewrite Hl. fold (ch341 devices).
  rewrite Hfound.
  match goal with
  | |- context [connectToSelectedDevice c device a ?sh2] =>
      destruct (connectToSelectedDevice_listening c device a sh2 Ho Hc)
        as (sh' & -> & Hr & Hw & Hb & Hd & _ & Hlast)
  end.
  cbn [fst snd core serialCalls note withCore].
  rewrite (steady_reader _ _ (steady_addMonitorEntry _ _ _ _)),
    (steady_checker _ _ (steady_addMonitorEntry _ _ _ _)),
    (steady_device _ _ (steady_addMonitorEntry _ _ _ _)),
    addMonitorEntry_buffer.
  repeat split; assumption.
Qed.

(** ** The recovery when the registration of the callback can throw *)

Lemma startReading_agrees u c sh :
  Relink.startReading (Resolved u) c sh = (startReading c sh, None).
Proof.
  unfold Relink.startReading, startReading.
  destruct (deviceRef (core sh)); [|reflexivity].
  by destruct (isDeviceConnected (view c)).
Qed.

Lemma connectToSelectedDevice_agrees u c device a sh :
  Relink.connectToSelectedDevice (Resolved u) c device a sh
  = (connectToSelectedDevice c device a sh, None).
Proof.
  unfold Relink.connectToSelectedDevice, connectToSelectedDevice. cbv zeta.
  destruct (opening a); [|reflexivity].
  by rewrite startReading_agrees.
Qed.

Lemma connectToDevice_agrees u c a sh :
  Relink.connectToDevice (Resolved u) c a sh = (connectToDevice c a sh, None).
Proof.
  unfold Relink.connectToDevice, connectToDevice. cbv zeta.
  destruct (listing a) as [devices|]; [|reflexivity].
  destruct (List.filter _ devices) as [|device [|second others]];
    try reflexivity.
  rewrite connectToSelectedDevice_agrees.
  by destruct (connectToSelectedDevice c device a _).
Qed.

(** With a registration that returns, the recovery of [Relink] is the one of
    [Link] and leaves nothing under way. *)
Lemma handleConnectionError_agrees u c error a sh :
  Relink.handleConnectionError (Resolved u) c error a sh
  = (handleConnectionError c error a sh, None).
Proof.
  unfold Relink.handleConnectionError, Relink.recoveryStarts,
    handleConnectionError, disconnectDevice. cbv zeta.
  set (sh0 := note c (lit "Connection error: " ++ error) ERROR sh).
  set (sh1 := match imageLoopIntervalRef (core sh0) with
              | Some _ => _
              | None => sh0
              end).
  destruct (deviceRef (core sh1)) as [device|];
    unfold Relink.recoveryResumes; cbv zeta.
  - destruct (closing a); [|reflexivity].
    rewrite connectToDevice_agrees.
    by destruct (connectToDevice c a _) as [[|] ?|? ?].
  - rewrite connectToDevice_agrees.
    by destruct (connectToDevice c a _) as [[|] ?|? ?].
Qed.

Lemma sameListeners_refl sh : sameListeners sh sh.
Proof. by split. Qed.

Lemma sameListeners_trans sh1 sh2 sh3 :
  sameListeners sh1 sh2 -> sameListeners sh2 sh3 -> sameListeners sh1 sh3.
Proof. intros [A1 B1] [A2 B2]. unfold sameListeners. by rewrite A2, B2. Qed.

#[export] Instance sameListeners_preorder : PreOrder sameListeners.
Proof. split; [exact sameListeners_refl | exact sameListeners_trans]. Qed.

Lemma sameListeners_withCore f sh :
  (forall s, readCallback (f s) = readCallback s
             /\ transferTimeoutCheckerRef (f s) = transferTimeoutCheckerRef s) ->
  sameListeners sh (withCore f sh).
Proof. intros H. exact (H (core sh)). Qed.

Lemma sameListeners_steady f sh :
  (forall s, steady s (f s)) -> sameListeners sh (withCore f sh).
Proof.
  intros H. apply sameListeners_withCore. intros s.
  by rewrite (steady_reader _ _ (H s)), (steady_checker _ _ (H s)).
Qed.

Lemma sameListeners_note c msg t sh : sameListeners sh (note c msg t sh).
Proof. apply sameListeners_steady. intros s. apply steady_addMonitorEntry. Qed.

Lemma sameListeners_run events sh : sameListeners sh (withCore (run events) sh).
Proof. apply sameListeners_steady. intros s. apply steady_run. Qed.

Lemma sameListeners_called call sh : sameListeners sh (called call sh).
Proof. by split. Qed.

(** The start of a recovery: with a device handle it stops at the close of
    the port. *)
Lemma recoveryStarts_open c error device sh :
  deviceRef (core sh) = Some device ->
  exists sh',
    Relink.recoveryStarts c error sh = (sh', Relink.AtClose)
    /\ serialCalls sh' = serialCalls sh ++ [ClosePort (deviceId device)]
    /\ sameListeners sh sh'
    /\ deviceRef (core sh') = Some device
    /\ isDeviceConnected (react (core sh'))
       = isDeviceConnected (react (core sh))
    /\ logs (core sh')
       = mkLog (lit "Connection error: " ++ error) ERROR :: logs (core sh).
Proof.
  intros Hd. unfold Relink.recoveryStarts. cbv zeta.
  set (sh0 := note c (lit "Connection error: " ++ error) ERROR sh).
  assert (H0 : deviceRef (core sh0) = Some device
               /\ serialCalls sh0 = serialCalls sh
               /\ sameListeners sh sh0
               /\ isDeviceConnected (react (core sh0))
                  = isDeviceConnected (react (core sh))
               /\ logs (core sh0)
                  = mkLog (lit "Connection error: " ++ error) ERROR
                    :: logs (core sh)).
  { unfold sh0. cbn [core serialCalls note withCore].
    rewrite (steady_device _ _ (steady_addMonitorEntry _ _ _ _)),
      (steady_react _ _ (steady_addMonitorEntry _ _ _ _)).
    by repeat split. }
  destruct H0 as (Hd0 & Hc0 & Hs0 & Hr0 & Hl0).
  set (sh1 := match imageLoopIntervalRef (core sh0) with
              | Some _ => _
              | None => sh0
              end).
  assert (H1 : deviceRef (core sh1) = Some device
               /\ serialCalls sh1 = serialCalls sh
               /\ sameListeners sh sh1
               /\ isDeviceConnected (react (core sh1))
                  = isDeviceConnected (react (core sh))
               /\ logs (core sh1)
                  = mkLog (lit "Connection error: " ++ error) ERROR
                    :: logs (core sh)).
  { unfold sh1. destruct (imageLoopIntervalRef (core sh0));
      [|by repeat split].
    cbn [core serialCalls withCore].
    repeat split; try done; by destruct Hs0. }
  destruct H1 as (Hd1 & Hc1 & Hs1 & Hr1 & Hl1).
  rewrite Hd1. eexists. split; [reflexivity|].
  cbn [core serialCalls called]. rewrite Hc1. destruct Hs1.
  by repeat split.
Qed.

Lemma recoveryStarts_closed c error sh :
  deviceRef (core sh) = None ->
  exists sh',
    Relink.recoveryStarts c error sh = (sh', Relink.AtPause)
    /\ serialCalls sh' = serialCalls sh
    /\ sameListeners sh sh'.
Proof.
  intros Hd. unfold Relink.recoveryStarts. cbv zeta.
  set (sh0 := note c (lit "Connection error: " ++ error) ERROR sh).
  assert (H0 : deviceRef (core sh0) = None
               /\ serialCalls sh0 = serialCalls sh /\ sameListeners sh sh0).
  { unfold sh0. cbn [core serialCalls note withCore].
    rewrite (steady_device _ _ (steady_addMonitorEntry _ _ _ _)).
    by repeat split. }
  destruct H0 as (Hd0 & Hc0 & Hs0).
  set (sh1 := match imageLoopIntervalRef (core sh0) with
              | Some _ => _
              | None => sh0
              end).
  assert (H1 : deviceRef (core sh1) = None
               /\ serialCalls sh1 = serialCalls sh /\ sameListeners sh sh1).
  { unfold sh1. destruct (imageLoopIntervalRef (core sh0));
      [|by repeat split].
    cbn [core serialCalls withCore]. repeat split; try done; by destruct Hs0. }
  destruct H1 as (Hd1 & Hc1 & Hs1).
  rewrite Hd1. eexists. split; [reflexivity|].
  cbn [core serialCalls withCore]. split; [exact Hc1|].
  etransitivity; [exact Hs1|]. by apply sameListeners_withCore.
Qed.

(** A registration that throws: [UsbSerial.read] was called, nothing is
    registered, the error is logged twice and the port is being closed. *)
Lemma startReading_throws c readError device sh :
  deviceRef (core sh) = Some device -> isDeviceConnected (view c) = true ->
  exists sh',
    Relink.startReading (Rejected readError) c sh = (sh', Some Relink.AtClose)
    /\ serialCalls sh'
       = serialCalls sh
         ++ [ReadFrom (deviceId device); ClosePort (deviceId device)]
    /\ sameListeners sh sh'
    /\ deviceRef (core sh') = Some device
    /\ isDeviceConnected (react (core sh'))
       = isDeviceConnected (react (core sh))
    /\ logs (core sh')
       = mkLog (lit "Connection error: " ++ readError) ERROR
         :: mkLog (lit "Read error: " ++ readError) ERROR :: logs (core sh).
Proof.
  intros Hd Hc. unfold Relink.startReading. rewrite Hd, Hc. cbn [negb].
  cbv zeta.
  set (sh0 := note c (lit "Read error: " ++ readError) ERROR
                (called (ReadFrom (deviceId device)) sh)).
  assert (Hd0 : deviceRef (core sh0) = Some device).
  { unfold sh0. cbn [core note withCore called].
    by rewrite (steady_device _ _ (steady_addMonitorEntry _ _ _ _)). }
  destruct (recoveryStarts_open c readError device sh0 Hd0)
    as (sh' & -> & Hcalls & Hsame & Hd' & Hr' & Hl').
  exists sh'. split; [reflexivity|].
  split; [rewrite Hcalls; unfold sh0; cbn [serialCalls note withCore called];
          by rewrite <- app_assoc|].
  split.
  { etransitivity; [|exact Hsame]. unfold sh0.
    etransitivity; [apply (sameListeners_called (ReadFrom (deviceId device)))|].
    apply sameListeners_note. }
  split; [exact Hd'|]. split.
  - rewrite Hr'. unfold sh0. cbn [core note withCore called].
    by rewrite (steady_react _ _ (steady_addMonitorEntry _ _ _ _)).
  - rewrite Hl'. reflexivity.
Qed.

(** What [startReading] does in any case: it lists nothing and opens
    nothing, keeps the handle, and leaves a recovery under way only when the
    registration threw. *)
Lemma startReading_cases reading c sh :
  exists sh' floating calls,
    Relink.startReading reading c sh = (sh', floating)
    /\ serialCalls sh' = serialCalls sh ++ calls
    /\ List.filter isListCall calls = []
    /\ List.filter isOpenCall calls = []
    /\ deviceRef (core sh') = deviceRef (core sh)
    /\ isDeviceConnected (react (core sh'))
       = isDeviceConnected (react (core sh))
    /\ (floating <> None ->
        isDeviceConnected (view c) = true
        /\ exists readError, reading = Rejected readError).
Proof.
  destruct reading as [u|readError].
  - rewrite startReading_agrees. unfold startReading.
    destruct (deviceRef (core sh)) as [device|] eqn:Hd.
    + destruct (isDeviceConnected (view c)); cbn [negb].
      * eexists _, None, [ReadFrom (deviceId device)].
        split; [reflexivity|]. by repeat split.
      * exists sh, None, []. rewrite app_nil_r. by repeat split.
    + exists sh, None, []. rewrite app_nil_r. by repeat split.
  - destruct (deviceRef (core sh)) as [device|] eqn:Hd.
    + destruct (isDeviceConnected (view c)) eqn:Hc.
      * destruct (startReading_throws c readError device sh Hd Hc)
          as (sh' & Hres & Hcalls & _ & Hd' & Hr' & _).
        exists sh', (Some Relink.AtClose),
          [ReadFrom (deviceId device); ClosePort (deviceId device)].
        split; [exact Hres|]. split; [exact Hcalls|].
        split; [reflexivity|]. split; [reflexivity|].
        split; [by rewrite Hd'|]. split; [exact Hr'|].
        intros _. split; [reflexivity | by exists readError].
      * exists sh, None, []. unfold Relink.startReading. rewrite Hd, Hc.
        rewrite app_nil_r. by repeat split.
    + exists sh, None, []. unfold Relink.startReading. rewrite Hd.
      rewrite app_nil_r. by repeat split.
Qed.

Lemma connectToSelectedDevice_cases reading c device a sh :
  let result := Relink.connectToSelectedDevice reading c device a sh in
  (exists calls,
     serialCalls (shellOf (fst result)) = serialCalls sh ++ calls
     /\ List.filter isListCall calls = []
     /\ (length (List.filter isOpenCall calls) <= 1)%nat)
  /\ (snd result <> None ->
      isDeviceConnected (view c) = true
      /\ exists readError, reading = Rejected readError)
  /\ match opening a with
     | Resolved _ =>
         exists sh', fst result = Done true sh'
                     /\ deviceRef (core sh') = Some device
                     /\ isDeviceConnected (react (core sh')) = true
     | Rejected _ =>
         exists e sh', fst result = Failed e sh' /\ snd result = None
     end.
Proof.
  cbv zeta. unfold Relink.connectToSelectedDevice. cbv zeta.
  set (sh1 := withCore (run (duringOpen a)) _).
  assert (H1 : serialCalls sh1
               = serialCalls sh ++ [OpenPort (deviceId device) (openOptions c)]
               /\ deviceRef (core sh1) = Some device).
  { unfold sh1. cbn [core serialCalls withCore called note].
    by rewrite (steady_device _ _ (steady_run _ _)). }
  destruct H1 as [Hc1 Hd1].
  destruct (opening a) as [u|openError].
  - set (sh2 := note c _ SUCCESS (withCore (setIsDeviceConnected true) sh1)).
    assert (H2 : serialCalls sh2 = serialCalls sh1
                 /\ deviceRef (core sh2) = Some device
                 /\ isDeviceConnected (react (core sh2)) = true).
    { unfold sh2. cbn [core serialCalls withCore note].
      by rewrite (steady_device _ _ (steady_addMonitorEntry _ _ _ _)),
        (steady_react _ _ (steady_addMonitorEntry _ _ _ _)). }
    destruct H2 as (Hc2 & Hd2 & Hr2).
    destruct (startReading_cases reading c sh2)
      as (sh' & floating & calls & -> & Hcalls & Hl & Ho & Hd' & Hr' & Hfl).
    cbn [fst snd shellOf]. split; [|split].
    + exists (OpenPort (deviceId device) (openOptions c) :: calls).
      split; [by rewrite Hcalls, Hc2, Hc1, <- app_assoc|].
      cbn [List.filter isListCall isOpenCall length]. rewrite Hl, Ho.
      cbn. split; [reflexivity | lia].
    + exact Hfl.
    + exists sh'. split; [reflexivity|].
      split; [by rewrite Hd', Hd2 | by rewrite Hr', Hr2].
  - cbn [fst snd shellOf]. split; [|split].
    + exists [OpenPort (deviceId device) (openOptions c)].
      cbn [serialCalls withCore]. split; [exact Hc1|]. cbn. split; [done|lia].
    + done.
    + by eexists _, _.
Qed.

Lemma connectToDevice_cases reading c a sh :
  let result := Relink.connectToDevice reading c a sh in
  (exists calls,
     serialCalls (shellOf (fst result)) = serialCalls sh ++ calls
     /\ (length (List.filter isListCall calls) <= 1)%nat
     /\ (length (List.filter isOpenCall calls) <= 1)%nat)
  /\ (snd result <> None ->
      (exists sh', fst result = Done true sh')
      /\ isDeviceConnected (view c) = true
      /\ exists readError, reading = Rejected readError)
  /\ (forall sh',
        fst result = Done true sh' ->
        exists devices device,
          listing a = Resolved devices /\ ch341 devices = [device]
          /\ opening a = Resolved tt
          /\ deviceRef (core sh') = Some device
          /\ isDeviceConnected (react (core sh')) = true).
Proof.
  cbv zeta. unfold Relink.connectToDevice. cbv zeta.
  set (sh1 := withCore (run (duringList a)) _).
  assert (Hc1 : serialCalls sh1 = serialCalls sh ++ [ListDevices])
    by reflexivity.
  destruct (listing a) as [devices|listError] eqn:Hlist.
  - fold (ch341 devices).
    destruct (ch341 devices) as [|device [|second others]] eqn:Hfound.
    + cbn [fst snd shellOf]. split; [|split; [done|discriminate]].
      exists [ListDevices]. split; [exact Hc1|]. cbn. lia.
    + destruct (connectToSelectedDevice_cases reading c device a sh1)
        as ((calls & Hcalls & Hl & Ho) & Hfl & Hopen).
      cbv zeta in Hcalls, Hfl, Hopen.
      destruct (Relink.connectToSelectedDevice reading c device a sh1)
        as [[connected sh2|e sh2] floating];
        cbn [fst snd shellOf] in *.
      * split; [|split].
        -- exists (ListDevices :: calls).
           split; [by rewrite Hcalls, Hc1, <- app_assoc|].
           cbn [List.filter isListCall isOpenCall length]. rewrite Hl.
           cbn. lia.
        -- intros Hsome. destruct (Hfl Hsome) as [Hconn Hread].
           split; [|by split].
           destruct (opening a) as [u|openError].
           ++ destruct Hopen as (sh' & Heq & _). injection Heq as -> _.
              by exists sh2.
           ++ by destruct Hopen as (e & sh' & Heq & _).
        -- intros sh' Heq. injection Heq as -> ->.
           exists devices, device.
           destruct (opening a) as [[]|openError].
           ++ destruct Hopen as (sh'' & Heq & Hd & Hr).
              injection Heq as <-. by repeat split.
           ++ by destruct Hopen as (e & sh'' & Heq & _).
      * split; [|split; [|discriminate]].
        -- exists (ListDevices :: calls).
           split; [by rewrite Hcalls, Hc1, <- app_assoc|].
           cbn [List.filter isListCall isOpenCall length]. rewrite Hl.
           cbn. lia.
        -- intros Hsome. destruct (Hfl Hsome) as [Hconn Hread].
           destruct (opening a) as [u|openError].
           ++ by destruct Hopen as (sh' & Heq & _).
           ++ destruct Hopen as (e' & sh' & _ & Hnone). by rewrite Hnone in Hsome.
    + cbn [fst snd shellOf]. split; [|split; [done|discriminate]].
      exists [ListDevices]. split; [exact Hc1|]. cbn. lia.
  - cbn [fst snd shellOf]. split; [|split; [done|discriminate]].
    exists [ListDevices]. split; [exact Hc1|]. cbn. lia.
Qed.

(** [connectToDevice] when one CH341 device is listed, its port opens and
    the registration of the callback throws. *)
Lemma connectToDevice_throws c readError a devices device sh :
  isDeviceConnected (view c) = true ->
  listing a = Resolved devices -> ch341 devices = [device] ->
  opening a = Resolved tt ->
  exists sh',
    Relink.connectToDevice (Rejected readError) c a sh
    = (Done true sh', Some Relink.AtClose)
    /\ sameListeners sh sh'
    /\ deviceRef (core sh') = Some device
    /\ isDeviceConnected (react (core sh')) = true
    /\ serialCalls sh'
       = serialCalls sh
         ++ [ListDevices; OpenPort (deviceId device) (openOptions c);
             ReadFrom (deviceId device); ClosePort (deviceId device)]
    /\ exists older,
         logs (core sh')
         = mkLog (lit "Connection error: " ++ readError) ERROR
           :: mkLog (lit "Read error: " ++ readError) ERROR :: older.
Proof.
  intros Hc Hl Hfound Ho. unfold Relink.connectToDevice. cbv zeta.
  rewrite Hl. fold (ch341 devices). rewrite Hfound.
  set (sh1 := withCore (run (duringList a)) _).
  assert (H1 : sameListeners sh sh1
               /\ serialCalls sh1 = serialCalls sh ++ [ListDevices]).
  { split; [|reflexivity]. unfold sh1.
    etransitivity; [|apply sameListeners_run].
    etransitivity; [|apply sameListeners_called].
    apply sameListeners_note. }
  destruct H1 as [Hs1 Hc1].
  unfold Relink.connectToSelectedDevice. cbv zeta. rewrite Ho.
  set (sh2 := note c _ SUCCESS _).
  assert (H2 : sameListeners sh1 sh2
               /\ serialCalls sh2
                  = serialCalls sh1
                    ++ [OpenPort (deviceId device) (openOptions c)]
               /\ deviceRef (core sh2) = Some device
               /\ isDeviceConnected (react (core sh2)) = true).
  { unfold sh2. split; [|split; [reflexivity|]].
    - etransitivity; [|apply sameListeners_note].
      etransitivity; [|by apply sameListeners_withCore].
      etransitivity; [|apply sameListeners_run].
      etransitivity; [|apply sameListeners_called].
      etransitivity; [|by apply sameListeners_withCore].
      apply sameListeners_note.
    - cbn [core withCore called note].
      rewrite (steady_device _ _ (steady_addMonitorEntry _ _ _ _)),
        (steady_react _ _ (steady_addMonitorEntry _ _ _ _)).
      cbn [deviceRef react setIsDeviceConnected setReact isDeviceConnected].
      by rewrite (steady_device _ _ (steady_run _ _)). }
  destruct H2 as (Hs2 & Hc2 & Hd2 & Hr2).
  destruct (startReading_throws c readError device sh2 Hd2 Hc)
    as (sh' & -> & Hcalls & Hsame & Hd' & Hr' & Hlogs).
  exists sh'. split; [reflexivity|]. split.
  { etransitivity; [exact Hs1|]. by etransitivity. }
  split; [exact Hd'|]. split; [by rewrite Hr'|]. split.
  - rewrite Hcalls, Hc2, Hc1. by rewrite <- !app_assoc.
  - eexists. exact Hlogs.
Qed.

(** The state in which a suspended recovery goes on to list the devices. *)
Lemma recoveryResumes_closed reading c a stage sh :
  closing a = Resolved tt ->
  exists sh1,
    sameListeners sh sh1 /\ serialCalls sh1 = serialCalls sh
    /\ Relink.recoveryResumes reading c a stage sh
       = match Relink.connectToDevice reading c a sh1 with
         | (Failed recoveryError sh2, floating) =>
             ((false,
               note c (lit "Failed to recover connection: " ++ recoveryError)
                 ERROR sh2), floating)
         | (Done true sh2, floating) =>
             ((true,
               note c (lit "Successfully recovered connection") SUCCESS sh2),
              floating)
         | (Done false sh2, floating) => ((false, sh2), floating)
         end.
Proof.
  intros Hclose. unfold Relink.recoveryResumes. cbv zeta. rewrite Hclose.
  destruct stage.
  - eexists. split; [|split; [|reflexivity]]; [|reflexivity].
    etransitivity; [apply (sameListeners_run (duringClose a))|].
    etransitivity; [|apply sameListeners_run].
    etransitivity; [|by apply sameListeners_withCore].
    by apply sameListeners_withCore.
  - eexists. split; [|split; [|reflexivity]]; [|reflexivity].
    apply sameListeners_run.
Qed.

(** X28.  The read callback and the watchdog are registered by a recovery
    whose call of [UsbSerial.read] returns.  [handleConnectionError] runs in
    a render that is connected, the port closes, exactly one CH341 device is
    listed and its port opens: the recovery answers true and logs its
    success.  When [UsbSerial.read] returns, it was called for that device
    with a callback of this render, starting from an empty buffer, the
    watchdog of this render is running and nothing is left under way.  When
    [UsbSerial.read] throws, the callback and the watchdog are those
    registered before, 'Read error' is logged, and a further recovery, which
    nobody awaits, has already asked for the port to be closed again. *)
Theorem recovery_registers_the_callbacks
    (reading : Reply unit) (c : Closure) (error : list Z) (a : Answers)
    (devices : list UsbDevice) (device : UsbDevice) (sh : Shell) :
  isDeviceConnected (view c) = true ->
  closing a = Resolved tt -> listing a = Resolved devices ->
  ch341 devices = [device] -> opening a = Resolved tt ->
  let result := Relink.handleConnectionError reading c error a sh in
  let sh' := snd (fst result) in
  fst (fst result) = true
  /\ deviceRef (core sh') = Some device
  /\ head (logs (core sh'))
     = Some (mkLog (lit "Successfully recovered connection") SUCCESS)
  /\ (reading = Resolved tt ->
      snd result = None
      /\ readCallback (core sh') = Some (view c)
      /\ transferTimeoutCheckerRef (core sh') = Some (view c)
      /\ messageBuffer (core sh') = []
      /\ last (serialCalls sh') = Some (ReadFrom (deviceId device)))
  /\ (forall readError,
        reading = Rejected readError ->
        snd result = Some Relink.AtClose
        /\ sameListeners sh sh'
        /\ last (serialCalls sh') = Some (ClosePort (deviceId device))
        /\ In (mkLog (lit "Read error: " ++ readError) ERROR)
             (logs (core sh'))).
Proof.
  intros Hc Hclose Hl Hfound Ho result sh'. subst sh' result.
  destruct reading as [[]|readError].
  - rewrite handleConnectionError_agrees. cbn [fst snd].
    destruct (handleConnectionError_registers c error a devices device sh
                Hc Hclose Hl Hfound Ho)
      as (Hok & Hr & Hw & Hb & Hd & Hlast & Hlog).
    split; [exact Hok|]. split; [exact Hd|]. split; [exact Hlog|].
    split; [by intros _|]. intros readError Heq. discriminate Heq.
  - unfold Relink.handleConnectionError.
    assert (exists sh1 stage,
              Relink.recoveryStarts c error sh = (sh1, stage)
              /\ sameListeners sh sh1) as (sh1 & stage & -> & Hs1).
    { destruct (deviceRef (core sh)) as [held|] eqn:Hd.
      - destruct (recoveryStarts_open c error held sh Hd)
          as (sh1 & Hres & _ & Hs1 & _).
        by exists sh1, Relink.AtClose.
      - destruct (recoveryStarts_closed c error sh Hd)
          as (sh1 & Hres & _ & Hs1).
        by exists sh1, Relink.AtPause. }
    destruct (recoveryResumes_closed (Rejected readError) c a stage sh1 Hclose)
      as (sh2 & Hs2 & _ & ->).
    destruct (connectToDevice_throws c readError a devices device sh2
                Hc Hl Hfound Ho)
      as (sh3 & -> & Hs3 & Hd3 & _ & Hcalls & older & Hlogs).
    cbn [fst snd core serialCalls note withCore].
    rewrite (steady_device _ _ (steady_addMonitorEntry _ _ _ _)).
    split; [reflexivity|]. split; [exact Hd3|]. split; [reflexivity|].
    split; [intros Heq; discriminate Heq|].
    intros readError' Heq. injection Heq as <-.
    split; [reflexivity|]. split.
    { etransitivity; [exact Hs1|]. etransitivity; [exact Hs2|].
      etransitivity; [exact Hs3|]. apply sameListeners_note. }
    split.
    + rewrite Hcalls.
      change [ListDevices; OpenPort (deviceId device) (openOptions c);
              ReadFrom (deviceId device); ClosePort (deviceId device)]
        with ([ListDevices; OpenPort (deviceId device) (openOptions c);
               ReadFrom (deviceId device)]
              ++ [ClosePort (deviceId device)]).
      by rewrite app_assoc, last_snoc.
    + right. rewrite Hlogs. right. by left.
Qed.

Lemma recovery_on_panel_registers_the_callbacks :
  isDeviceConnected (view (closureOf panel)) = true
  /\ ch341 [mouse; benchDevice] = [benchDevice]
  /\ fst (fst (Relink.handleConnectionError (Resolved tt) (closureOf panel)
                 (lit "Device not found") oneDevice panel)) = true
  /\ serialCalls
       (snd (fst (Relink.handleConnectionError (Resolved tt)
                    (closureOf panel) (lit "Device not found") oneDevice
                    panel)))
     = [ClosePort (lit "1002"); ListDevices;
        OpenPort (lit "1002")
          (mkOpenOptions (Some 115200) 8 1 (lit "none") true true);
        ReadFrom (lit "1002")]
  /\ readCallback
       (core (snd (fst (Relink.handleConnectionError (Resolved tt)
                          (closureOf panel) (lit "Device not found")
                          oneDevice panel))))
     = Some (view (closureOf panel))
  /\ snd (Relink.handleConnectionError (Rejected (lit "No permission"))
            (closureOf panel) (lit "Device not found") oneDevice panel)
     = Some Relink.AtClose
  /\ serialCalls
       (snd (fst (Relink.handleConnectionError
                    (Rejected (lit "No permission")) (closureOf panel)
                    (lit "Device not found") oneDevice panel)))
     = [ClosePort (lit "1002"); ListDevices;
        OpenPort (lit "1002")
          (mkOpenOptions (Some 115200) 8 1 (lit "none") true true);
        ReadFrom (lit "1002"); ClosePort (lit "1002")].
Proof.
  split; [reflexivity|]. split; [reflexivity|].
  destruct (recovery_registers_the_callbacks (Resolved tt) (closureOf panel)
              (lit "Device not found") oneDevice [mouse; benchDevice]
              benchDevice panel eq_refl eq_refl eq_refl eq_refl eq_refl)
    as (Hok & _ & _ & Hheard & _).
  destruct (Hheard eq_refl) as (_ & Hr & _).
  destruct (recovery_registers_the_callbacks (Rejected (lit "No permission"))
              (closureOf panel) (lit "Device not found") oneDevice
              [mouse; benchDevice] benchDevice panel
              eq_refl eq_refl eq_refl eq_refl eq_refl)
    as (_ & _ & _ & _ & Hthrown).
  destruct (Hthrown (lit "No permission") eq_refl) as (Hfloating & _).
  split; [exact Hok|]. split; [reflexivity|]. split; [exact Hr|].
  split; [exact Hfloating | reflexivity].
Defined.

Lemma recoveryStarts_cases c error sh :
  exists sh1 stage calls,
    Relink.recoveryStarts c error sh = (sh1, stage)
    /\ serialCalls sh1 = serialCalls sh ++ calls
    /\ List.filter isListCall calls = []
    /\ List.filter isOpenCall calls = []
    /\ (forall device,
          deviceRef (core sh) = Some device ->
          stage = Relink.AtClose /\ calls = [ClosePort (deviceId device)]).
Proof.
  destruct (deviceRef (core sh)) as [held|] eqn:Hd.
  - destruct (recoveryStarts_open c error held sh Hd)
      as (sh1 & Hres & Hcalls & _).
    exists sh1, Relink.AtClose, [ClosePort (deviceId held)].
    split; [exact Hres|]. split; [exact Hcalls|].
    split; [reflexivity|]. split; [reflexivity|].
    intros device Heq. injection Heq as <-. by split.
  - destruct (recoveryStarts_closed c error sh Hd) as (sh1 & Hres & Hcalls & _).
    exists sh1, Relink.AtPause, []. rewrite app_nil_r.
    split; [exact Hres|]. split; [exact Hcalls|].
    split; [reflexivity|]. split; [reflexivity|].
    intros device Heq. discriminate Heq.
Qed.

(** A recovery from its first [await] on. *)
Lemma recoveryResumes_cases reading c a stage sh :
  let result := Relink.recoveryResumes reading c a stage sh in
  (exists calls,
     serialCalls (snd (fst result)) = serialCalls sh ++ calls
     /\ (length (List.filter isListCall calls) <= 1)%nat
     /\ (length (List.filter isOpenCall calls) <= 1)%nat)
  /\ (fst (fst result) = true ->
      exists devices device,
        listing a = Resolved devices /\ ch341 devices = [device]
        /\ opening a = Resolved tt
        /\ deviceRef (core (snd (fst result))) = Some device
        /\ isDeviceConnected (react (core (snd (fst result)))) = true)
  /\ (snd result <> None ->
      fst (fst result) = true
      /\ isDeviceConnected (view c) = true
      /\ exists readError, reading = Rejected readError)
  /\ (forall closeError,
        stage = Relink.AtClose -> closing a = Rejected closeError ->
        fst (fst result) = false
        /\ serialCalls (snd (fst result)) = serialCalls sh
        /\ head (logs (core (snd (fst result))))
           = Some (mkLog (lit "Failed to recover connection: " ++ closeError)
                     ERROR)
        /\ snd result = None).
Proof.
  cbv zeta.
  assert (forall sh1,
            serialCalls sh1 = serialCalls sh ->
            let result :=
              match Relink.connectToDevice reading c a sh1 with
              | (Failed recoveryError sh2, floating) =>
                  ((false,
                    note c (lit "Failed to recover connection: "
                            ++ recoveryError) ERROR sh2), floating)
              | (Done true sh2, floating) =>
                  ((true,
                    note c (lit "Successfully recovered connection") SUCCESS
                      sh2), floating)
              | (Done false sh2, floating) => ((false, sh2), floating)
              end in
            (exists calls,
               serialCalls (snd (fst result)) = serialCalls sh ++ calls
               /\ (length (List.filter isListCall calls) <= 1)%nat
               /\ (length (List.filter isOpenCall calls) <= 1)%nat)
            /\ (fst (fst result) = true ->
                exists devices device,
                  listing a = Resolved devices /\ ch341 devices = [device]
                  /\ opening a = Resolved tt
                  /\ deviceRef (core (snd (fst result))) = Some device
                  /\ isDeviceConnected (react (core (snd (fst result))))
                     = true)
            /\ (snd result <> None ->
                fst (fst result) = true
                /\ isDeviceConnected (view c) = true
                /\ exists readError, reading = Rejected readError))
    as Hlisted.
  { intros sh1 Hsame. cbv zeta.
    destruct (connectToDevice_cases reading c a sh1)
      as ((calls & Hcalls & Hl & Ho) & Hfl & Hdone).
    cbv zeta in Hcalls, Hfl, Hdone. rewrite Hsame in Hcalls.
    destruct (Relink.connectToDevice reading c a sh1)
      as [[[|] sh2|e sh2] floating];
      cbn [fst snd shellOf core serialCalls note withCore] in *.
    - split; [by exists calls|]. split.
      + intros _. destruct (Hdone sh2 eq_refl)
          as (devices & device & H1 & H2 & H3 & H4 & H5).
        exists devices, device.
        rewrite (steady_device _ _ (steady_addMonitorEntry _ _ _ _)),
          (steady_react _ _ (steady_addMonitorEntry _ _ _ _)).
        by repeat split.
      + intros Hsome. destruct (Hfl Hsome) as (_ & Hconn & Hread).
        by repeat split.
    - split; [by exists calls|]. split; [discriminate|].
      intros Hsome. destruct (Hfl Hsome) as ((sh' & Heq) & _).
      discriminate Heq.
    - split; [by exists calls|]. split; [discriminate|].
      intros Hsome. destruct (Hfl Hsome) as ((sh' & Heq) & _).
      discriminate Heq. }
  unfold Relink.recoveryResumes. cbv zeta.
  destruct stage.
  - destruct (closing a) as [u|closeError].
    + match goal with
      | |- context [Relink.connectToDevice reading c a ?sh1] =>
          destruct (Hlisted sh1 eq_refl) as (H1 & H2 & H3)
      end.
      split; [exact H1|]. split; [exact H2|]. split; [exact H3|].
      intros closeError _ Heq. discriminate Heq.
    + cbn [fst snd core serialCalls note withCore].
      split; [exists []; rewrite app_nil_r; cbn; split; [done|lia]|].
      split; [discriminate|]. split; [done|].
      intros closeError' _ Heq. injection Heq as <-. by repeat split.
  - match goal with
    | |- context [Relink.connectToDevice reading c a ?sh1] =>
        destruct (Hlisted sh1 eq_refl) as (H1 & H2 & H3)
    end.
    split; [exact H1|]. split; [exact H2|]. split; [exact H3|].
    intros closeError Heq. discriminate Heq.
Qed.

(** X26.  A recovery is one attempt.  [handleConnectionError] closes the
    port if there is a handle, waits, lists the devices at most once and
    opens at most one port.  It answers true only when exactly one CH341
    device was listed and its port opened; when the port cannot be closed it
    gives up before listing, with 'Failed to recover connection'.  It leaves
    a further recovery under way in one case only: it answered true and the
    registration of the callback threw.  That recovery, when it goes on, is
    again one attempt. *)
Theorem recovery_is_a_single_attempt
    (reading : Reply unit) (c : Closure) (error : list Z) (a : Answers)
    (sh : Shell) :
  let result := Relink.handleConnectionError reading c error a sh in
  (exists calls,
     serialCalls (snd (fst result)) = serialCalls sh ++ calls
     /\ (length (List.filter isListCall calls) <= 1)%nat
     /\ (length (List.filter isOpenCall calls) <= 1)%nat)
  /\ (fst (fst result) = true ->
      exists devices device,
        listing a = Resolved devices /\ ch341 devices = [device]
        /\ opening a = Resolved tt
        /\ deviceRef (core (snd (fst result))) = Some device
        /\ isDeviceConnected (react (core (snd (fst result)))) = true)
  /\ (forall device closeError,
        deviceRef (core sh) = Some device -> closing a = Rejected closeError ->
        fst (fst result) = false
        /\ serialCalls (snd (fst result))
           = serialCalls sh ++ [ClosePort (deviceId device)]
        /\ head (logs (core (snd (fst result))))
           = Some (mkLog (lit "Failed to recover connection: " ++ closeError)
                     ERROR)
        /\ snd result = None)
  /\ (snd result <> None ->
      fst (fst result) = true
      /\ isDeviceConnected (view c) = true
      /\ exists readError, reading = Rejected readError)
  /\ (forall later answers stage sh1,
        exists calls,
          serialCalls
            (snd (fst (Relink.recoveryResumes later c answers stage sh1)))
          = serialCalls sh1 ++ calls
          /\ (length (List.filter isListCall calls) <= 1)%nat
          /\ (length (List.filter isOpenCall calls) <= 1)%nat).
Proof.
  intros result. subst result. unfold Relink.handleConnectionError.
  destruct (recoveryStarts_cases c error sh)
    as (sh1 & stage & calls0 & -> & Hc0 & Hl0 & Ho0 & Hheld).
  destruct (recoveryResumes_cases reading c a stage sh1)
    as ((calls & Hcalls & Hl & Ho) & Htrue & Hfloating & Hstuck).
  cbv zeta in Hcalls, Htrue, Hfloating, Hstuck.
  split; [|split; [exact Htrue|split; [|split; [exact Hfloating|]]]].
  - exists (calls0 ++ calls).
    split; [by rewrite Hcalls, Hc0, <- app_assoc|].
    rewrite !List.filter_app, !length_app, Hl0, Ho0. cbn [length]. lia.
  - intros device closeError Hd Hclose.
    destruct (Hheld device Hd) as [-> ->].
    destruct (Hstuck closeError eq_refl Hclose) as (H1 & H2 & H3 & H4).
    split; [exact H1|]. split; [by rewrite H2, Hc0|]. by split.
  - intros later answers stage' sh2.
    by destruct (recoveryResumes_cases later c answers stage' sh2) as (H & _).
Qed.

Lemma recovery_on_stuck_port_gives_up :
  deviceRef (core panel) = Some benchDevice
  /\ closing stuckPort = Rejected (lit "Close failed")
  /\ fst (fst (Relink.handleConnectionError (Resolved tt) (closureOf panel)
                 (lit "Device not found") stuckPort panel)) = false
  /\ serialCalls
       (snd (fst (Relink.handleConnectionError (Resolved tt)
                    (closureOf panel) (lit "Device not found") stuckPort
                    panel)))
     = serialCalls panel ++ [ClosePort (deviceId benchDevice)]
  /\ snd (Relink.handleConnectionError (Rejected (lit "No permission"))
            (closureOf panel) (lit "Device not found") oneDevice panel)
     <> None
  /\ fst (fst (Relink.handleConnectionError (Rejected (lit "No permission"))
                 (closureOf panel) (lit "Device not found") oneDevice panel))
     = true.
Proof.
  split; [reflexivity|]. split; [reflexivity|].
  destruct (recovery_is_a_single_attempt (Resolved tt) (closureOf panel)
              (lit "Device not found") stuckPort panel)
    as (_ & _ & Hstuck & _).
  destruct (Hstuck benchDevice (lit "Close failed") eq_refl eq_refl)
    as (Hno & Hcalls & _).
  destruct (recovery_is_a_single_attempt (Rejected (lit "No permission"))
              (closureOf panel) (lit "Device not found") oneDevice panel)
    as (_ & _ & _ & Hfloating & _).
  assert (Hsome : snd (Relink.handleConnectionError
                         (Rejected (lit "No permission")) (closureOf panel)
                         (lit "Device not found") oneDevice panel) <> None)
    by (vm_compute; discriminate).
  split; [exact Hno|]. split; [exact Hcalls|]. split; [exact Hsome|].
  exact (proj1 (Hfloating Hsome)).
Defined.

(** ** The commands of the table *)

Lemma commands_sendable : forallb sendable commands = true.
Proof. vm_compute. reflexivity. Qed.

(** X29.  Every command of the table can be sent as it stands: with the
    values the mount effect puts in, each command, the screen time command
    with its range check included, passes the checks of [executeCommand] on
    an open channel, and its value followed by a newline is written to the
    device. *)
Theorem every_default_command_is_sendable
    (cmd : Command) (r : Render) (during : list Event) (d : UsbDevice)
    (s : State) :
  In cmd commands -> commandValues r = initialValues ->
  isDeviceConnected r = true -> deviceRef s = Some d -> usbError s = None ->
  let result := executeCommand r (id cmd) during s in
  fst result = Completed
  /\ exists more,
       usbCalls (snd result)
       = usbCalls s ++ [Write (deviceId d) (lit (value cmd) ++ [LF])] ++ more.
Proof.
  intros Hin Hvalues Hc Hd He result. subst result.
  pose proof (proj1 (forallb_forall sendable commands) commands_sendable cmd
                Hin) as Hs.
  unfold sendable in Hs.
  rewrite (executeCommand_open r (id cmd) during d s Hc Hd). cbv zeta.
  destruct (stoppedForCommand_steadyish r s) as (Hd0 & He0 & Hc0 & _).
  rewrite Hvalues.
  destruct (initialValues !! id cmd) as [text|]; [|discriminate].
  cbn [fmap option_fmap option_map].
  apply andb_true_iff in Hs as [Hs Hscreen].
  apply andb_true_iff in Hs as [Hs Htruthy].
  apply andb_true_iff in Hs as [Htext Htrim].
  apply bool_decide_eq_true in Htext. apply bool_decide_eq_true in Htrim.
  rewrite Htrim. subst text.
  destruct (lit (value cmd)) as [|ch t] eqn:Etext; [discriminate|].
  assert (Hsent :
    let sent :=
      match
        (usbWrite ((ch :: t) ++ [LF]) during >>
         log r (lit "Sent command: " ++ (ch :: t)) SENT)
          (stoppedForCommand r s)
      with
      | Returned _ s' => (Completed, s')
      | Threw error s' =>
          (Recovering error,
           addMonitorEntry r (lit "Command error: " ++ error) ERROR s')
      end in
    fst sent = Completed
    /\ exists more,
         usbCalls (snd sent)
         = usbCalls s ++ [Write (deviceId d) ((ch :: t) ++ [LF])] ++ more).
  { cbv zeta.
    rewrite (send_command_accepted r (ch :: t) during d)
      by (by rewrite ?Hd0, ?He0).
    cbn [fst snd]. split; [reflexivity|].
    rewrite addMonitorEntry_calls.
    match goal with
    | |- context [run during ?st] =>
        destruct (steady_calls _ _ (steady_run during st)) as (more & Hm)
    end.
    exists more. rewrite Hm. cbn [usbCalls setUsbCalls].
    by rewrite Hc0, <- app_assoc. }
  cbv zeta in Hsent.
  destruct (String.eqb (id cmd) "screentimeCommand"); [|exact Hsent].
  destruct (matchScreentime (ch :: t)) as [digits|]; [|discriminate].
  apply negb_true_iff in Hscreen. rewrite Hscreen. exact Hsent.
Qed.

Lemma default_screentime_on_bench_is_sendable :
  In (mkCommand "screentimeCommand" "Screen Time" "SCREENTIME**60"
        "SCREENTIME**<time in seconds (30-300)>") commands
  /\ exists more,
       usbCalls
         (snd (executeCommand
                 (react (initializeCommands bench)) "screentimeCommand" []
                 (initializeCommands bench)))
       = usbCalls (initializeCommands bench)
         ++ [Write (deviceId benchDevice) (lit "SCREENTIME**60" ++ [LF])]
         ++ more.
Proof.
  assert (Hin : In (mkCommand "screentimeCommand" "Screen Time"
                      "SCREENTIME**60"
                      "SCREENTIME**<time in seconds (30-300)>") commands)
    by (do 11 right; left; reflexivity).
  split; [exact Hin|].
  exact (proj2 (every_default_command_is_sendable _
                  (react (initializeCommands bench)) [] benchDevice
                  (initializeCommands bench) Hin eq_refl eq_refl eq_refl
                  eq_refl)).
Defined.

(** ** Unmounting *)

(** X30.  The cleanup of the mount effect belongs to the first render, in
    which the component is not connected, so it never reaches its call of
    [disconnectDevice].  A port that the connection button has opened is
    therefore left open when the component is unmounted: the serial module
    is not asked to close it, the device handle stays, and only the
    intervals of the image loop and of the watchdog are cleared. *)
Theorem unmount_leaves_the_port_open
    (c : Closure) (a after : Answers) (devices : list UsbDevice)
    (device : UsbDevice) (sh : Shell) :
  seenConnecting c = false -> isDeviceConnected (view c) = false ->
  listing a = Resolved devices -> ch341 devices = [device] ->
  opening a = Resolved tt ->
  let sh' := unmount after (handleConnection c a sh) in
  serialCalls sh'
  = serialCalls sh ++ [ListDevices; OpenPort (deviceId device) (openOptions c)]
  /\ deviceRef (core sh') = Some device
  /\ isDeviceConnected (react (core sh')) = true
  /\ imageLoopIntervalRef (core sh') = None
  /\ transferTimeoutCheckerRef (core sh') = None.
Proof.
  intros Hnc Hc Hl Hfound Ho sh'. subst sh'. unfold handleConnection.
  rewrite Hnc, Hc. cbn [negb]. cbv zeta.
  destruct (connectToDevice_single c a devices device (setIsConnecting true sh)
              Hl Hfound Ho) as (sh1 & -> & Hcalls & Hd & Hconn & _).
  rewrite Hc in Hcalls. rewrite app_nil_r in Hcalls.
  unfold unmount, cleanup.
  cbn [view isDeviceConnected firstRender core serialCalls withCore
       setIsConnecting deviceRef react imageLoopIntervalRef
       transferTimeoutCheckerRef setTransferTimeoutChecker
       setImageLoopInterval].
  repeat split; assumption.
Qed.

Lemma unmount_on_desk_leaves_the_port_open :
  serialCalls (unmount stuckPort connectedDesk)
  = [ListDevices;
     OpenPort (lit "1002")
       (mkOpenOptions (Some 115200) 8 1 (lit "none") true true)]
  /\ deviceRef (core (unmount stuckPort connectedDesk)) = Some benchDevice
  /\ isDeviceConnected (react (core (unmount stuckPort connectedDesk))) = true.
Proof.
  destruct (unmount_leaves_the_port_open (closureOf desk) oneDevice stuckPort
              [mouse; benchDevice] benchDevice desk eq_refl eq_refl eq_refl
              eq_refl eq_refl) as (Hcalls & Hd & Hc & _).
  split; [exact Hcalls|]. split; [exact Hd | exact Hc].
Defined.

End Connection.
